(* ===== verification/_CoqProject ===== *)
-Q . S2P
Prelude.v
Utf8.v
Casemap.v
Tags.v
Message.v
ServerTime.v
Isupport.v
Mode.v
Format.v
Timer.v
Batch.v
Label.v
Caps.v
Monitor.v
Base64.v
Sasl.v
Json.v
Extensions.v
Model.v
Session.v
Roster.v
History.v
Voice.v
VoiceRooms.v
Scram.v
E2ee.v
E2eeRatchet.v
E2eeHandshake.v
E2eeConversation.v
Command.v
Client.v
Negotiation.v
Engine.v
Resume.v
Wire.v
Delivery.v
Ffi.v
FfiHost.v
Wasm.v
Python.v
Recorded.v
ClientTests.v
SessionTests.v
UnitTests.v
