(* ===== verification/Prelude.v ===== *)
(** * The obby-client engine: a verification library (root file)

    obby-client is an IRC client engine without I/O: the host feeds it bytes, the clock
    and commands, and takes from it bytes to send and events. This library translates the
    two crates that make it up, [obby-proto] (the wire format) and [obby-client] (the
    engine), and the three bindings written in Rust, into executable definitions and proves
    what makes them correct. It models the crates with their default features on (std,
    serde, obby, voice, e2ee).

    ** The parts, and where they are modelled

    The wire format, src/crates/obby-proto/src:
    - [Casemap] casemap.rs, the three casemappings and folding;
    - [Tags] tags.rs, message tags and their escapes; [Message] message.rs, one line, parser
      and printer; [ServerTime] servertime.rs, the time tag and the calendar under it;
    - [Isupport] isupport.rs, the server's announced parameters and the views cached from
      them; [Mode] mode.rs, mode strings and their arguments; [Format] format.rs, colours,
      emphasis and CTCP.
    The engine's parts, src/crates/obby-client/src:
    - [Timer] timer.rs, deadlines and the reconnect backoff; [Batch] batch.rs; [Label]
      label.rs, labelled responses; [Caps] caps.rs; [Monitor] monitor.rs; [Sasl] sasl.rs;
      [Scram] scram.rs; [Json] json.rs; [Extensions] extensions.rs;
    - [Model] model.rs, everything the connection knows: message logs, channels, people;
    - [Session] session.rs, the handlers that fold one line into the model and report what
      changed, one definition per handler and [Session.apply] for the dispatch;
    - [Voice] voice.rs, signals, SDP chunking and rooms; [Command] command.rs and
      [Client::wire];
    - [E2ee] e2ee.rs: primitives, trust, fragments, the Double Ratchet, X3DH, the session;
    - [Client] client.rs: [Core] is the [Client] struct but for the two fields that assemble
      a line, with [handle_message] and everything under it, [tick], [command], [resume];
      [Client] adds [handle_bytes] and the polls.
    The bindings, src/bindings:
    - [Ffi] obby-ffi/src/lib.rs, the C interface: handles, strings, buffers and events on a
      heap, one definition for each exported function;
    - [Wasm] obby-wasm/src/lib.rs, the JavaScript class; [Python] obby-python/src, the Python
      class.
    [Utf8] and [Base64] are the parts of the language's library and of a codec those use,
    and this file the rest: text, integers at their width, ordered iteration of maps, sorting.

    Files of theorems only: [Roster] about who is where, [History] about what a channel shows,
    [Negotiation], [Engine], [Resume] and [Wire] about the engine, [Delivery] about the way from
    one user through a server to another, [VoiceRooms] about two ends of a voice channel, [E2eeRatchet],
    [E2eeHandshake] and [E2eeConversation] about the encryption, [FfiHost] about what a C host
    can rely on.

    ** How state and operations correspond

    A struct is a Record with the source's fields, an enum an Inductive with its
    constructors. A method on [&mut self] is a function to the new state, with what it
    returns beside it; a handler that returns whether it consumed the line gives [option].
    [Result] is a sum with the error on the left; where a method mutates before it fails,
    the state it leaves is returned with the error. [text] is a list of Unicode scalar
    values, bytes are lists of [N]. A BTreeMap is a [gmap] iterated in key order
    ([sorted_items]); [CaseFolded] is the folded text. u32 and u64 are [Z] with saturating,
    checked or wrapping operations written where the source has them. [outbox] is the queue
    [poll_transmit] empties, [events] that of [poll_event].

    ** What the theorems show

    - The engine as a whole: over any sequence of host calls every invariant of the
      components holds ([Engine.engine_stays_sound]); registration never stalls and is let
      go only when it may ([Negotiation]); however reads are split, lines are handled once
      each, an over-long one costs itself alone ([Client.Assembly]); a welcome takes up
      every channel held and changes nothing else, what we say is recorded once (but for
      the same text said twice in one instant), a multiline batch is one message ([Resume]); what one engine writes another reads, message for message ([Wire]), and
      every command is read back as the message it makes ([Command]).
    - The model: logs stay bounded, ordered and indexed; renames leave nobody behind;
      channels are held only by our own JOIN; a channel message counts once
      ([Model], [Session]). Presence refines a specification of its own, [Roster.tell], that
      knows nothing of people, prefixes, logs or counts ([Roster]). What a channel shows refines
      another, [History.newest], that knows only entries and their times: live or played back, in
      whatever order and however often, the newest ones once each; so two members who were told
      the same see the same, where entries carry ids and no two are of one instant ([History]).
    - From one user to another: what is said through one engine becomes one message with that
      text in the other's log, counted as it should be; a voice frame becomes the step of the
      room it names; whatever the server adds and however the bytes are cut ([Delivery]).
    - Voice: two ends of a voice channel agree on who is there and on all that was announced since
      the later one came ([VoiceRooms]).
    - The bindings: the contract of the C functions is enough (nothing undefined, shared or
      leaked), a handle is its engine whatever happens to others, events are read back from
      their fields ([FfiHost]); milliseconds cross into JavaScript and back exactly ([Wasm]);
      one command does the same through all three ([Python.bindings_agree]).
    - End-to-end encryption: two sides that run the handshake come up established with each
      other pinned, and messages flow both ways; a chain's messages are read in any order
      and with any lost; skipped keys are bounded; pins never move by themselves; an answer
      alone establishes nothing; padding and fragments are undone exactly.
    - Round trips: message lines, formatting, modes, server times, JSON, voice signals, SDP
      chunks; and the bounds and orders of timers, backoff, batches and labels.
    - SCRAM: an honest exchange completes, and the verifier accepts nothing but the server's
      proof, under the key RFC 5802 derives from our password (that the engine may not get to
      ask for it is said below).
    - Where the code does not do what it means to, the theorem states what it does: the
      engine's own nick after a rename ([Resume]), the bytes kept over a reconnect
      ([Client.Assembly]), reactions to private messages ([Session]), a SCRAM exchange ended by
      the success numeric alone ([Negotiation]), the commands that time out unseen by
      [poll_timeout] ([Engine]), a line break in what is said ([Wire]), a text said twice before
      the clock moves ([Resume.said_twice_recorded_once]), JSON
      nested as deep as the sender likes ([Json]).

    ** Interfaces

    Code outside the repository is a type class with a class of laws: [Unicode] (what is
    alphanumeric, [Session]), [Base64], [Crypto] (SHA-256 and HMAC, [Scram]), [Primitives]
    (X25519, Ed25519, HKDF, AEAD, [E2ee]), [RandomSource]; [Server] (what becomes of a line
    that is passed on, [Delivery]); for the bindings [Serde] (what
    serde_json reads and writes), [Allocator] ([Ffi]), [Js] ([Wasm]) and [Python]. [Base64]
    has the standard codec as its instance; for the others a small instance shows the laws
    can hold and carries the witnesses.

    ** Fuel and bounds

    Loops that are not structural take fuel that is provably enough: [drain] the length of
    the buffer (no terminator is left in it afterwards), [trim_loop] the size of the log,
    parsers the length of their input. The JSON parser tells being starved of fuel from refusing
    its input ([Json.run]), and is never starved ([json_parser_terminates]). [engine_stays_sound] and
    [session_keeps_model] assume that the messages filed do not exhaust the 64-bit sequence
    counter; [conversation_delivers] that no more than 1000 messages to one side are missing,
    which is what the code skips at most.

    ** How the definitions were checked against the code

    [Recorded] runs them on what the repository tests itself with: the parser vectors of
    crates/obby-proto/tests, and the five sessions of crates/obby-client/tests/transcripts,
    where the lines sent, the channels, the people, the bots and every event come out as in the
    snapshots the repository keeps. The unit tests of the source hold too, test by
    test: [ClientTests] those of client.rs, [SessionTests] of session.rs, [UnitTests] of model.rs,
    voice.rs and the parsers.

    ** Not modelled

    The Dart package (src/bindings) is not Rust and calls the C interface; scripts, examples
    and the tests against a live server are not part of the program. Getters that return a
    field are the field. What serde derives for the types is an interface, but for the one
    hand-written part, the message log as a list ([Model.log_rebuilds]). In [Ffi] the
    caller's own memory is the argument (the bytes a pointer points to), and using one
    handle on two threads at once is outside the model, as it is outside the contract. The
    erasure of key material ([Zeroizing]) and the constant running time of comparisons have
    no meaning in the model. *)
From Stdlib Require Export ZArith NArith Lia String Ascii.
From stdpp Require Export base tactics decidable option list list_numbers
  numbers sorting lexico gmap fin_maps countable.
From stdpp Require Export strings.

#[global] Open Scope string_scope.
#[global] Open Scope list_scope.

(** ** Text

    A Rust [char] is a Unicode scalar value and a [str] is a sequence of them.
    Both are kept as such; the UTF-8 byte view is in [Utf8]. *)
Abbreviation char := N (only parsing).
Abbreviation text := (list N) (only parsing).

(** An ASCII literal of the source, as text. *)
Definition lit (s : string) : text := N_of_ascii <$> list_ascii_of_string s.
Coercion lit : string >-> list.

(** The character constants the parsers test for. *)
Abbreviation chSPACE := 32%N (only parsing).
Abbreviation chCR := 13%N (only parsing).
Abbreviation chLF := 10%N (only parsing).
Abbreviation chCOLON := 58%N (only parsing).
Abbreviation chSEMI := 59%N (only parsing).
Abbreviation chEQ := 61%N (only parsing).
Abbreviation chAT := 64%N (only parsing).
Abbreviation chBANG := 33%N (only parsing).
Abbreviation chBSLASH := 92%N (only parsing).
Abbreviation chCOMMA := 44%N (only parsing).
Abbreviation chPLUS := 43%N (only parsing).
Abbreviation chMINUS := 45%N (only parsing).
Abbreviation chDOT := 46%N (only parsing).
Abbreviation chSTAR := 42%N (only parsing).
Abbreviation chHASH := 35%N (only parsing).

(** Updates one after another, as the statements of a body. *)
Notation "s |> f" := (f s) (at level 64, left associativity, only parsing).

(** ** Errors

    Rust's [Result], error on the left; [?] is the monad's bind. *)
#[export] Instance result_ret E : MRet (sum E) := λ A, inr.
#[export] Instance result_bind E : MBind (sum E) := λ A B f r,
  match r with inl e => inl e | inr a => f a end.
(** [Option::ok_or]. *)
Definition ok_or {E A} (e : E) (o : option A) : E + A := match o with Some a => inr a | None => inl e end.

(** ** Tactics *)

(** Case analysis on every [match] and [decide] of the goal. *)
Ltac crush_match :=
  repeat (case_match || case_decide); simplify_eq/=; try done.

(** Take an existential apart, keeping its own name. *)
Ltac deex :=
  repeat match goal with
  | H : ex (fun name : _ => _) |- _ =>
      let name' := fresh name in destruct H as [name' H]
  end.

(** Turn boolean comparisons of characters into propositions. *)
Ltac N_bool :=
  repeat match goal with
  | H : (_ && _) = true |- _ => apply andb_prop in H as [? ?]
  | H : (_ <=? _)%N = true |- _ => apply N.leb_le in H
  | H : (_ <? _)%N = true |- _ => apply N.ltb_lt in H
  | H : (_ <? _)%N = false |- _ => apply N.ltb_ge in H
  | H : (_ =? _)%N = true |- _ => apply N.eqb_eq in H
  | H : (_ =? _)%N = false |- _ => apply N.eqb_neq in H
  end.

(** ** Characters *)
Definition is_ascii_digit (c : char) : bool := (48 <=? c)%N && (c <=? 57)%N.
Definition is_ascii_upper (c : char) : bool := (65 <=? c)%N && (c <=? 90)%N.
Definition is_ascii_lower (c : char) : bool := (97 <=? c)%N && (c <=? 122)%N.
Definition is_ascii_alphanumeric (c : char) : bool :=
  is_ascii_digit c || is_ascii_upper c || is_ascii_lower c.

Definition to_ascii_lowercase (c : char) : char :=
  if is_ascii_upper c then (c + 32)%N else c.
Definition to_ascii_uppercase (c : char) : char :=
  if is_ascii_lower c then (c - 32)%N else c.
Definition ascii_upper (t : text) : text := to_ascii_uppercase <$> t.
Definition eq_ignore_ascii_case (a b : text) : bool :=
  bool_decide ((to_ascii_lowercase <$> a) = (to_ascii_lowercase <$> b)).

(** The Unicode [White_Space] property, which [split_whitespace] splits on. *)
Definition is_whitespace (c : char) : bool :=
  ((9 <=? c)%N && (c <=? 13)%N) || bool_decide (c ∈ [32; 133; 160; 5760; 8232; 8233; 8239; 8287; 12288]%N)
  || ((8192 <=? c)%N && (c <=? 8202)%N).

(** [char::to_digit] for radix 10 and 16. *)
Definition digit10 (c : char) : option N :=
  if is_ascii_digit c then Some (c - 48)%N else None.
Definition digit16 (c : char) : option N :=
  if is_ascii_digit c then Some (c - 48)%N
  else if (97 <=? c)%N && (c <=? 102)%N then Some (c - 87)%N
  else if (65 <=? c)%N && (c <=? 70)%N then Some (c - 55)%N
  else None.

(** ** The [str] methods the source uses *)

Definition contains_char (c : char) (t : text) : bool := bool_decide (c ∈ t).

(** [str::split_once] on a one-character pattern. *)
Fixpoint split_once (sep : char) (t : text) : option (text * text) :=
  match t with
  | [] => None
  | c :: rest =>
      if decide (c = sep) then Some ([], rest)
      else match split_once sep rest with
           | Some (a, b) => Some (c :: a, b)
           | None => None
           end
  end.

(** [str::split] on a one-character pattern: always at least one part. *)
Fixpoint split_char (sep : char) (t : text) : list text :=
  match t with
  | [] => [[]]
  | c :: rest =>
      if decide (c = sep) then [] :: split_char sep rest
      else match split_char sep rest with
           | part :: parts => (c :: part) :: parts
           | [] => [[c]]
           end
  end.

(** [[String]::join] with a one-character separator. *)
Fixpoint join_with (sep : char) (parts : list text) : text :=
  match parts with
  | [] => []
  | [p] => p
  | p :: rest => p ++ sep :: join_with sep rest
  end.

Fixpoint trim_start_matches (P : char → bool) (t : text) : text :=
  match t with
  | c :: rest => if P c then trim_start_matches P rest else t
  | [] => []
  end.
Definition trim_end_matches (P : char → bool) (t : text) : text :=
  reverse (trim_start_matches P (reverse t)).

Definition strip_prefix_char (c : char) (t : text) : option text :=
  match t with
  | d :: rest => if decide (d = c) then Some rest else None
  | [] => None
  end.
Definition strip_suffix_char (c : char) (t : text) : option text :=
  match last t with
  | Some d => if decide (d = c) then Some (take (length t - 1) t) else None
  | None => None
  end.
Fixpoint strip_prefix (p t : text) : option text :=
  match p, t with
  | [], _ => Some t
  | c :: p, d :: t => if decide (c = d) then strip_prefix p t else None
  | _ :: _, [] => None
  end.
Definition starts_with_char (c : char) (t : text) : bool :=
  match t with d :: _ => bool_decide (d = c) | [] => false end.
Definition starts_with (p t : text) : bool := bool_decide (is_Some (strip_prefix p t)).

(** [str::split_whitespace]: the non-empty runs between whitespace. *)
Fixpoint split_whitespace_aux (acc : text) (t : text) : list text :=
  match t with
  | [] => match acc with [] => [] | _ => [reverse acc] end
  | c :: rest =>
      if is_whitespace c then
        match acc with
        | [] => split_whitespace_aux [] rest
        | _ => reverse acc :: split_whitespace_aux [] rest
        end
      else split_whitespace_aux (c :: acc) rest
  end.
Definition split_whitespace (t : text) : list text := split_whitespace_aux [] t.

(** [str::find] of a substring, as the text before and from the first match on. *)
Fixpoint find_str (needle t : text) : option (text * text) :=
  if decide (is_Some (strip_prefix needle t)) then Some ([], t)
  else match t with
       | [] => None
       | c :: rest =>
           match find_str needle rest with
           | Some (before, from) => Some (c :: before, from)
           | None => None
           end
       end.

(** ** Integers

    Values of a machine type are [Z]; the operations that can leave the type's
    range are written with their width. *)
Open Scope Z_scope.

Definition u8_max : Z := 2 ^ 8 - 1.
Definition u16_max : Z := 2 ^ 16 - 1.
Definition u32_max : Z := 2 ^ 32 - 1.
Definition u64_max : Z := 2 ^ 64 - 1.
Definition i64_max : Z := 2 ^ 63 - 1.
Definition i64_min : Z := - 2 ^ 63.

Definition in_u32 (z : Z) : Prop := 0 <= z <= u32_max.
Definition in_u64 (z : Z) : Prop := 0 <= z <= u64_max.

Definition saturating_add_u64 (a b : Z) : Z := Z.min (a + b) u64_max.
Definition saturating_mul_u64 (a b : Z) : Z := Z.min (a * b) u64_max.
Definition saturating_add_u32 (a b : Z) : Z := Z.min (a + b) u32_max.
Definition wrapping_add_u64 (a b : Z) : Z := (a + b) mod 2 ^ 64.
Definition checked_i64 (z : Z) : option Z :=
  if decide (i64_min <= z <= i64_max) then Some z else None.

(** The value of a run of digits in a radix, read from the left. *)
Fixpoint digits_value (digit : char → option N) (radix : Z) (acc : Z) (t : text) : option Z :=
  match t with
  | [] => Some acc
  | c :: rest =>
      match digit c with
      | Some d => digits_value digit radix (acc * radix + Z.of_N d) rest
      | None => None
      end
  end.

(** [<uN>::from_str_radix]: an optional [+], then at least one digit, within the
    width. The accumulation of the library overflows exactly when the final value
    leaves the range, because every step is non-decreasing. *)
Definition parse_unsigned_radix (digit : char → option N) (radix maxv : Z) (t : text) : option Z :=
  let body := match t with c :: (_ :: _) as rest => if decide (c = chPLUS) then tail t else t | _ => t end in
  match body with
  | [] => None
  | _ =>
      match digits_value digit radix 0 body with
      | Some v => if decide (v <= maxv) then Some v else None
      | None => None
      end
  end.
Definition parse_u8_hex : text → option Z := parse_unsigned_radix digit16 16 u8_max.
Definition parse_u32_hex : text → option Z := parse_unsigned_radix digit16 16 u32_max.
Definition parse_u16 : text → option Z := parse_unsigned_radix digit10 10 u16_max.
Definition parse_u32 : text → option Z := parse_unsigned_radix digit10 10 u32_max.
Definition parse_u64 : text → option Z := parse_unsigned_radix digit10 10 u64_max.

(** [i64::from_str]: as above with an optional sign. *)
Definition parse_i64 (t : text) : option Z :=
  match t with
  | c :: (_ :: _) as body =>
      if decide (c = chMINUS) then
        match digits_value digit10 10 0 (tail t) with
        | Some v => if decide (i64_min <= - v) then Some (- v) else None
        | None => None
        end
      else parse_unsigned_radix digit10 10 i64_max t
  | _ => parse_unsigned_radix digit10 10 i64_max t
  end.

(** [Display] of an unsigned integer. The fuel is the bit length, which bounds
    the number of decimal digits. *)
Fixpoint digits_of (fuel : nat) (n : N) : text :=
  match fuel with
  | O => []
  | S fuel =>
      if (n <? 10)%N then [(48 + n)%N]
      else digits_of fuel (n / 10) ++ [(48 + n mod 10)%N]
  end.
Definition show_N (n : N) : text := digits_of (S (N.size_nat n)) n.
Definition show_Z (z : Z) : text :=
  if decide (z < 0) then chMINUS :: show_N (Z.to_N (- z)) else show_N (Z.to_N z).
(** [{:0w}]: padded on the left with zeros to [w] characters. *)
Definition show_padded (w : nat) (z : Z) : text :=
  let t := show_Z z in replicate (w - length t) 48%N ++ t.

(** ** Ordered maps

    A [BTreeMap] is a [gmap]; where the source relies on its iteration order, the
    entries are listed in key order. *)
Section ordered.
Context {K : Type} `{Lexico K, !TrichotomyT (@lexico K _), !StrictOrder (@lexico K _)}.

Definition key_le (a b : K) : Prop := lexico a b ∨ a = b.

#[global] Instance key_le_dec : RelDecision key_le.
Proof.
  intros a b. unfold key_le.
  destruct (trichotomyT lexico a b) as [[?|?]|Hba]; [left; auto|left; auto|].
  right. intros [Hab| ->].
  - apply (irreflexivity lexico a). by transitivity b.
  - by apply (irreflexivity lexico b).
Defined.
#[global] Instance key_le_total : Total key_le.
Proof. intros a b. unfold key_le. destruct (trichotomyT lexico a b) as [[?|?]|?]; auto. Qed.
#[global] Instance key_le_trans : Transitive key_le.
Proof.
  intros a b c [Hab| ->] [Hbc| ->]; unfold key_le; auto.
  left. by transitivity b.
Qed.
#[global] Instance key_le_refl : Reflexive key_le.
Proof. intros a. by right. Qed.
#[global] Instance key_le_antisym : AntiSymm (=) key_le.
Proof.
  intros a b [Hab| ->] [Hba|Hba]; auto.
  exfalso. apply (irreflexivity lexico a). by transitivity b.
Qed.

Context {V : Type} `{EqDecision K, !Countable K}.

Definition entry_le (p q : K * V) : Prop := key_le p.1 q.1.
#[global] Instance entry_le_dec : RelDecision entry_le.
Proof. intros p q. unfold entry_le. apply _. Defined.
#[global] Instance entry_le_total : Total entry_le.
Proof. intros p q. apply key_le_total. Qed.
#[global] Instance entry_le_trans : Transitive entry_le.
Proof. intros p q r. unfold entry_le. apply key_le_trans. Qed.

(** [BTreeMap::iter]. *)
Definition sorted_items (m : gmap K V) : list (K * V) :=
  merge_sort entry_le (map_to_list m).
(** [BTreeMap::first_key_value] and [last_key_value]. *)
Definition first_item (m : gmap K V) : option (K * V) := head (sorted_items m).
Definition last_item (m : gmap K V) : option (K * V) := last (sorted_items m).

Lemma sorted_items_perm m : sorted_items m ≡ₚ map_to_list m.
Proof. apply merge_sort_Permutation. Qed.

Lemma elem_of_sorted_items m k v : (k, v) ∈ sorted_items m ↔ m !! k = Some v.
Proof. rewrite sorted_items_perm. apply elem_of_map_to_list. Qed.

Lemma length_sorted_items m : length (sorted_items m) = size m.
Proof. rewrite sorted_items_perm. apply length_map_to_list. Qed.

Lemma sorted_items_sorted m : StronglySorted entry_le (sorted_items m).
Proof. apply (StronglySorted_merge_sort entry_le). Qed.

Lemma sorted_items_NoDup_fst m : NoDup (sorted_items m).*1.
Proof. rewrite sorted_items_perm. apply NoDup_fst_map_to_list. Qed.

(** The entries in key order are the only list of the map in that order. *)
Lemma sorted_items_unique m (l : list (K * V)) :
  StronglySorted entry_le l → NoDup l → (∀ k v, (k, v) ∈ l ↔ m !! k = Some v) → sorted_items m = l.
Proof.
  intros Hs Hnd Hl. eapply (StronglySorted_unique_strong entry_le); [|apply sorted_items_sorted|done|].
  - intros [k v] [k' v'] Hk%elem_of_sorted_items Hk'%Hl H1 H2. unfold entry_le in *. cbn in *.
    assert (k = k') as -> by by apply (anti_symm key_le). congruence.
  - apply NoDup_Permutation; [|done|].
    + rewrite sorted_items_perm. apply NoDup_map_to_list.
    + intros [k v]. by rewrite elem_of_sorted_items, Hl.
Qed.

Lemma sorted_items_alter (f : V → V) i m :
  sorted_items (alter f i m) = (λ p, if decide (p.1 = i) then (p.1, f p.2) else p) <$> sorted_items m.
Proof.
  assert (∀ p : K * V, (if decide (p.1 = i) then (p.1, f p.2) else p).1 = p.1) as Hfst by (intros p; by case_decide).
  apply sorted_items_unique.
  - induction (sorted_items_sorted m) as [|p l _ IH Hp]; [constructor|]. rewrite fmap_cons. constructor; [done|].
    apply Forall_fmap. eapply Forall_impl; [exact Hp|]. intros q Hq. unfold entry_le in *. cbn. by rewrite !Hfst.
  - apply (NoDup_fmap_1 fst). rewrite <- list_fmap_compose.
    erewrite list_fmap_ext; [apply (sorted_items_NoDup_fst m)|]. intros _ p _. apply Hfst.
  - intros k v. rewrite list_elem_of_fmap. split.
    + intros ([k' v'] & E & Hin%elem_of_sorted_items). cbn in E. case_decide; simplify_eq.
      * by rewrite lookup_alter_eq, Hin.
      * by rewrite lookup_alter_ne.
    + intros [(<- & v' & Hin & ->)|[Hne Hin]]%lookup_alter_Some.
      * exists (i, v'). cbn. rewrite decide_True by done. split; [done|]. by apply elem_of_sorted_items.
      * exists (k, v). cbn. rewrite decide_False by done. split; [done|]. by apply elem_of_sorted_items.
Qed.

Lemma first_item_Some m k v :
  first_item m = Some (k, v) →
  m !! k = Some v ∧ ∀ k' v', m !! k' = Some v' → key_le k k'.
Proof.
  unfold first_item. intros Hhd.
  pose proof (sorted_items_sorted m) as Hs.
  destruct (sorted_items m) as [|[k0 v0] l] eqn:E; simplify_eq/=.
  split.
  - apply elem_of_sorted_items. rewrite E. by left.
  - intros k' v' Hk'. apply elem_of_sorted_items in Hk'. rewrite E in Hk'.
    apply elem_of_cons in Hk' as [?|Hin]; [by simplify_eq|].
    inversion Hs as [|?? _ Hall]; subst.
    by apply (proj1 (Forall_forall _ _) Hall (k', v')).
Qed.

Lemma first_item_None m : first_item m = None ↔ m = ∅.
Proof.
  unfold first_item. split.
  - intros Hhd. destruct (sorted_items m) eqn:E; [|done].
    apply map_size_empty_inv. rewrite <- length_sorted_items. by rewrite E.
  - intros ->. done.
Qed.
End ordered.

(** A [BTreeSet], in key order. *)
Definition sorted_elements {K} `{Lexico K, !TrichotomyT (@lexico K _),
    !StrictOrder (@lexico K _), EqDecision K, !Countable K}
    (s : gset K) : list K :=
  merge_sort key_le (elements s).

(** ** Lemmas on the [str] methods *)

Lemma split_once_Some sep t a b :
  split_once sep t = Some (a, b) ↔ t = a ++ sep :: b ∧ sep ∉ a.
Proof.
  revert a b. induction t as [|c t IH]; intros a b; simpl.
  - split; [done|]. intros [Ht _]. by destruct a.
  - case_decide as Hc; subst.
    + split.
      * intros ?; simplify_eq. split; [done|]. set_solver.
      * intros [Ht Hn]. destruct a; simplify_eq/=; [done|]. set_solver.
    + split.
      * destruct (split_once sep t) as [[a' b']|] eqn:E; [|done].
        intros ?; simplify_eq. destruct (proj1 (IH _ _) eq_refl) as [-> ?].
        split; [done|]. set_solver.
      * intros [Ht Hn]. destruct a as [|c' a]; simplify_eq/=.
        assert (split_once sep (a ++ sep :: b) = Some (a, b)) as ->; [|done].
        apply IH. set_solver.
Qed.

Lemma split_once_None sep t : split_once sep t = None ↔ sep ∉ t.
Proof.
  induction t as [|c t IH]; simpl; [set_solver|].
  case_decide; subst; [set_solver|].
  destruct (split_once sep t) as [[??]|] eqn:E.
  - split; [done|]. intros Hn. apply split_once_Some in E as [-> _]. set_solver.
  - split; [|done]. set_solver.
Qed.

Lemma split_once_app sep a b : sep ∉ a → split_once sep (a ++ sep :: b) = Some (a, b).
Proof. intros. by apply split_once_Some. Qed.

Lemma split_once_length sep t a b :
  split_once sep t = Some (a, b) → (length a + length b < length t)%nat.
Proof. intros [-> _]%split_once_Some. rewrite length_app. simpl. lia. Qed.

Lemma split_char_not_nil sep t : split_char sep t ≠ [].
Proof. destruct t; simpl; [done|]. case_decide; [done|]. by case_match. Qed.

Lemma split_char_nosep sep t : sep ∉ t → split_char sep t = [t].
Proof.
  induction t as [|c t IH]; intros Hn; simpl; [done|].
  rewrite decide_False by set_solver. rewrite IH by set_solver. done.
Qed.

Lemma split_char_app sep a b : sep ∉ a → split_char sep (a ++ sep :: b) = a :: split_char sep b.
Proof.
  induction a as [|c a IH]; intros Hn; simpl.
  - by rewrite decide_True.
  - rewrite decide_False by set_solver. by rewrite IH by set_solver.
Qed.

(** Splitting undoes joining when no part holds the separator. *)
Lemma split_char_join sep parts :
  parts ≠ [] → Forall (λ p, sep ∉ p) parts → split_char sep (join_with sep parts) = parts.
Proof.
  induction parts as [|p [|q parts] IH]; intros Hne Hall; [done| |].
  - inversion Hall; subst. by apply split_char_nosep.
  - inversion Hall as [|?? Hp Hrest]; subst. change (join_with sep (p :: q :: parts)) with (p ++ sep :: join_with sep (q :: parts)).
    rewrite split_char_app by done. by rewrite IH.
Qed.

Lemma join_split_char sep t : join_with sep (split_char sep t) = t.
Proof.
  induction t as [|c t IH]; simpl; [done|].
  pose proof (split_char_not_nil sep t).
  case_decide; subst.
  - destruct (split_char sep t) as [|p ps] eqn:E; [done|]. simpl in *. by rewrite IH.
  - destruct (split_char sep t) as [|p [|q ps]] eqn:E; simpl in *; by rewrite <- IH.
Qed.

Lemma split_char_Forall_nosep sep t : Forall (λ p, sep ∉ p) (split_char sep t).
Proof.
  induction t as [|c t IH]; simpl; [constructor; set_solver|].
  case_decide; [by constructor; [set_solver|]|].
  destruct (split_char sep t) as [|p ps]; [constructor; set_solver|].
  inversion IH; subst. constructor; set_solver.
Qed.

Lemma trim_start_noop P t :
  (∀ c, head t = Some c → P c = false) → trim_start_matches P t = t.
Proof. destruct t as [|c t]; simpl; [done|]. intros H. by rewrite (H c). Qed.

Lemma trim_start_suffix (P : char → bool) t : ∃ p, t = p ++ trim_start_matches P t ∧ Forall P p.
Proof.
  induction t as [|c t [p [Ht Hp]]]; simpl; [by exists []|].
  destruct (P c) eqn:E.
  - exists (c :: p). simpl. rewrite <- Ht. split; [done|]. constructor; [by rewrite E|done].
  - by exists [].
Qed.

Lemma trim_start_length P t : (length (trim_start_matches P t) <= length t)%nat.
Proof.
  destruct (trim_start_suffix P t) as [p [Ht _]].
  rewrite Ht at 2. rewrite length_app. lia.
Qed.

Lemma trim_start_head P t c :
  head (trim_start_matches P t) = Some c → P c = false.
Proof.
  induction t as [|d t IH]; simpl; [done|].
  destruct (P d) eqn:E; [done|]. simpl. intros ?; by simplify_eq.
Qed.

Lemma trim_end_noop P t :
  (∀ c, last t = Some c → P c = false) → trim_end_matches P t = t.
Proof.
  intros H. unfold trim_end_matches. rewrite trim_start_noop; [apply reverse_involutive|].
  intros c Hc. apply H. by rewrite <- head_reverse.
Qed.

Lemma trim_end_prefix (P : char → bool) t : ∃ p, t = trim_end_matches P t ++ p ∧ Forall P p.
Proof.
  unfold trim_end_matches.
  destruct (trim_start_suffix P (reverse t)) as [p [Ht Hp]].
  exists (reverse p). split.
  - rewrite <- reverse_app, <- Ht. by rewrite reverse_involutive.
  - by apply Forall_reverse.
Qed.

Lemma trim_end_last P t c : last (trim_end_matches P t) = Some c → P c = false.
Proof.
  unfold trim_end_matches. rewrite last_reverse. apply trim_start_head.
Qed.

Lemma trim_end_app (P : char → bool) t p : Forall P p → trim_end_matches P (t ++ p) = trim_end_matches P t.
Proof.
  intros Hp. unfold trim_end_matches. rewrite reverse_app. f_equal.
  assert (Forall P (reverse p)) as Hr by by apply Forall_reverse.
  induction (reverse p) as [|c q IH]; [done|].
  inversion Hr; subst. simpl. destruct (P c); [by apply IH|done].
Qed.

Lemma strip_prefix_char_Some c t r : strip_prefix_char c t = Some r ↔ t = c :: r.
Proof.
  destruct t as [|d t]; simpl; [done|].
  case_decide; naive_solver.
Qed.

Lemma strip_suffix_char_Some c t r : strip_suffix_char c t = Some r ↔ t = r ++ [c].
Proof.
  unfold strip_suffix_char. split.
  - destruct (last t) as [d|] eqn:E; [|done]. case_decide; [|done]. subst.
    apply last_Some in E as [l ->]. rewrite length_app. simpl.
    intros ?; simplify_eq. replace (length l + 1 - 1)%nat with (length l) by lia.
    by rewrite take_app_length.
  - intros ->. rewrite last_snoc, decide_True by done.
    rewrite length_app. simpl. replace (length r + 1 - 1)%nat with (length r) by lia.
    by rewrite take_app_length.
Qed.

Lemma strip_prefix_Some p t r : strip_prefix p t = Some r ↔ t = p ++ r.
Proof.
  revert t. induction p as [|c p IH]; intros t; simpl; [naive_solver|].
  destruct t as [|d t]; [naive_solver|].
  case_decide; subst; [rewrite IH|]; naive_solver.
Qed.

Lemma find_str_Some needle t a b :
  find_str needle t = Some (a, b) → t = a ++ b ∧ is_Some (strip_prefix needle b).
Proof.
  revert a b. induction t as [|c t IH]; intros a b; simpl.
  - case_decide; naive_solver.
  - case_decide; [naive_solver|].
    destruct (find_str needle t) as [[a' b']|]; [|done].
    intros ?; simplify_eq. destruct (IH a' b) as [-> ?]; auto.
Qed.

(** ** Reading back what was printed *)

Lemma digit10_digit d : (d < 10)%N → digit10 (48 + d) = Some d.
Proof.
  intros. unfold digit10, is_ascii_digit.
  rewrite !(proj2 (N.leb_le _ _)) by lia.
  simpl. f_equal. lia.
Qed.

Lemma digits_value_app digit radix acc a b :
  digits_value digit radix acc (a ++ b) =
  match digits_value digit radix acc a with
  | Some v => digits_value digit radix v b
  | None => None
  end.
Proof.
  revert acc. induction a as [|c a IH]; intros acc; simpl; [done|].
  destruct (digit c); [apply IH|done].
Qed.

Lemma digits_of_value fuel n acc :
  (n < 10 ^ N.of_nat fuel)%N →
  digits_value digit10 10 acc (digits_of fuel n) =
    Some (acc * 10 ^ Z.of_nat (length (digits_of fuel n)) + Z.of_N n).
Proof.
  revert n acc. induction fuel as [|fuel IH]; intros n acc Hn.
  - simpl in *. f_equal. lia.
  - simpl digits_of. destruct (N.ltb_spec n 10) as [Hlt|Hge].
    + cbn [digits_value]. by rewrite digit10_digit.
    + assert (n mod 10 < 10)%N as Hm by (apply N.mod_lt; lia).
      pose proof (N.div_mod n 10 ltac:(lia)) as Hdm.
      rewrite digits_value_app, IH.
      * cbn [digits_value]. rewrite digit10_digit by done.
        rewrite length_app, Nat2Z.inj_add. cbn [length].
        change (Z.of_nat 1) with 1. rewrite Z.pow_add_r by lia.
        rewrite Z.pow_1_r. f_equal. lia.
      * rewrite Nat2N.inj_succ, N.pow_succ_r' in Hn.
        apply N.Div0.div_lt_upper_bound. lia.
Qed.

Lemma show_N_fuel n : (n < 10 ^ N.of_nat (S (N.size_nat n)))%N.
Proof.
  apply N.lt_le_trans with (2 ^ N.of_nat (S (N.size_nat n)))%N;
    [|apply N.pow_le_mono_l; lia].
  rewrite Nat2N.inj_succ, N.pow_succ_r'.
  pose proof (N.size_gt n) as H.
  replace (N.of_nat (N.size_nat n)) with (N.size n); [lia|clear H].
  symmetry. destruct n as [|p]; simpl; [done|].
  induction p as [p IH|p IH|]; cbn [Pos.size_nat Pos.size]; [| |done].
  all: by rewrite Nat2N.inj_succ, IH.
Qed.

Lemma digits_of_digits fuel n : Forall (λ c, is_ascii_digit c = true) (digits_of fuel n).
Proof.
  revert n. induction fuel as [|fuel IH]; intros n; cbn [digits_of]; [done|].
  assert (n mod 10 < 10)%N by (apply N.mod_lt; lia).
  destruct (N.ltb_spec n 10).
  - constructor; [|done]. unfold is_ascii_digit. by rewrite !(proj2 (N.leb_le _ _)) by lia.
  - apply Forall_app. split; [done|]. constructor; [|done].
    unfold is_ascii_digit. generalize dependent (n mod 10)%N. intros m Hm.
    by rewrite !(proj2 (N.leb_le _ _)) by lia.
Qed.

Lemma show_N_not_nil n : show_N n ≠ [].
Proof. unfold show_N. simpl. destruct (n <? 10)%N; [done|]. by destruct (digits_of _ _). Qed.

Lemma show_N_digits n : Forall (λ c, is_ascii_digit c = true) (show_N n).
Proof. apply digits_of_digits. Qed.

Lemma show_N_value n : digits_value digit10 10 0 (show_N n) = Some (Z.of_N n).
Proof. unfold show_N. rewrite digits_of_value; [f_equal; lia|apply show_N_fuel]. Qed.

(** A run of digits reads back as its value, whatever the width. *)
Lemma parse_unsigned_digits maxv t v :
  t ≠ [] → Forall (λ c, is_ascii_digit c = true) t →
  digits_value digit10 10 0 t = Some v → v <= maxv →
  parse_unsigned_radix digit10 10 maxv t = Some v.
Proof.
  intros Hne Hd Hv Hle. unfold parse_unsigned_radix.
  destruct t as [|c t]; [done|].
  inversion Hd as [|?? Hc _]; subst.
  assert (c ≠ chPLUS) by (intros ->; done).
  destruct t; [|rewrite decide_False by done]; rewrite Hv, decide_True; done.
Qed.

Lemma zeros_value w acc t :
  digits_value digit10 10 acc (replicate w 48%N ++ t) =
  digits_value digit10 10 (acc * 10 ^ Z.of_nat w) t.
Proof.
  revert acc. induction w as [|w IH]; intros acc.
  - simpl. f_equal. lia.
  - cbn [replicate app digits_value]. change (digit10 48) with (Some 0%N). cbn iota beta.
    rewrite IH. f_equal. rewrite Nat2Z.inj_succ, Z.pow_succ_r by lia. lia.
Qed.

Lemma show_Z_nonneg z : 0 <= z → show_Z z = show_N (Z.to_N z).
Proof. intros. unfold show_Z. by rewrite decide_False by lia. Qed.

Lemma show_padded_value w z :
  0 <= z → digits_value digit10 10 0 (show_padded w z) = Some z.
Proof.
  intros Hz. unfold show_padded. rewrite show_Z_nonneg by done.
  rewrite zeros_value, Z.mul_0_l, show_N_value. f_equal. lia.
Qed.

Lemma show_padded_digits w z :
  0 <= z → Forall (λ c, is_ascii_digit c = true) (show_padded w z).
Proof.
  intros Hz. unfold show_padded. rewrite show_Z_nonneg by done.
  apply Forall_app. split; [by apply Forall_replicate|apply show_N_digits].
Qed.

Lemma show_padded_not_nil w z : 0 <= z → show_padded w z ≠ [].
Proof.
  intros Hz. unfold show_padded. rewrite show_Z_nonneg by done.
  pose proof (show_N_not_nil (Z.to_N z)). by destruct (replicate _ _).
Qed.

Lemma parse_show_padded maxv w z :
  0 <= z <= maxv → parse_unsigned_radix digit10 10 maxv (show_padded w z) = Some z.
Proof.
  intros [Hz Hle]. apply parse_unsigned_digits;
    auto using show_padded_not_nil, show_padded_digits, show_padded_value.
Qed.

Lemma parse_show_Z maxv z :
  0 <= z <= maxv → parse_unsigned_radix digit10 10 maxv (show_Z z) = Some z.
Proof. intros Hz. apply (parse_show_padded maxv 0 z Hz). Qed.

Lemma digits_notin c t :
  is_ascii_digit c = false → Forall (λ c, is_ascii_digit c = true) t → c ∉ t.
Proof. intros Hc Ht Hin. rewrite Forall_forall in Ht. specialize (Ht c Hin). congruence. Qed.

(** ** Bounds of parsed numbers *)

Lemma digit10_bound c d : digit10 c = Some d → (d < 10)%N.
Proof. unfold digit10, is_ascii_digit. case_match eqn:E; [|done]. intros [= <-]. N_bool. lia. Qed.

Lemma digit16_bound c d : digit16 c = Some d → (d < 16)%N.
Proof.
  unfold digit16, is_ascii_digit. intros H. repeat case_match; try done; simplify_eq;
    N_bool; lia.
Qed.

Lemma digits_value_bound digit radix acc t v :
  (∀ c d, digit c = Some d → Z.of_N d < radix) → 0 <= radix → 0 <= acc →
  digits_value digit radix acc t = Some v →
  acc * radix ^ Z.of_nat (length t) <= v < (acc + 1) * radix ^ Z.of_nat (length t).
Proof.
  intros Hd Hr. revert acc. induction t as [|c t IH]; cbn [digits_value length]; intros acc Ha.
  - intros [= <-]. change (Z.of_nat 0) with 0. rewrite Z.pow_0_r. lia.
  - destruct (digit c) as [d|] eqn:E; [|done]. intros Hv. apply Hd in E.
    apply IH in Hv; [|nia]. rewrite Nat2Z.inj_succ, Z.pow_succ_r by lia.
    assert (0 <= radix ^ Z.of_nat (length t)) by (apply Z.pow_nonneg; lia). nia.
Qed.

Lemma parse_unsigned_bound digit radix maxv t v :
  (∀ c d, digit c = Some d → Z.of_N d < radix) → 0 <= radix →
  parse_unsigned_radix digit radix maxv t = Some v → 0 <= v <= maxv.
Proof.
  intros Hd Hr. unfold parse_unsigned_radix.
  generalize (match t with c :: (_ :: _) as rest => if decide (c = chPLUS) then tail t else t | _ => t end).
  intros body. destruct body as [|c b]; [done|].
  destruct (digits_value _ _ _ _) as [z|] eqn:E; [|done]. case_decide; [|done]. intros [= ->].
  apply digits_value_bound in E; [|done..]. lia.
Qed.

Lemma parse_u10_bound maxv t v :
  parse_unsigned_radix digit10 10 maxv t = Some v → 0 <= v <= maxv.
Proof. apply parse_unsigned_bound; [|lia]. intros c d H%digit10_bound. lia. Qed.

(** A run of digits alone is bounded by its length. *)
Lemma parse_u10_length maxv t v :
  Forall (λ c, is_ascii_digit c = true) t →
  parse_unsigned_radix digit10 10 maxv t = Some v → 0 <= v < 10 ^ Z.of_nat (length t).
Proof.
  intros Hd. unfold parse_unsigned_radix.
  assert (match t with c :: (_ :: _) as rest => if decide (c = chPLUS) then tail t else t | _ => t end = t) as ->.
  { destruct t as [|c [|d t]]; [done..|]. rewrite decide_False; [done|]. intros ->. by inversion Hd. }
  destruct t as [|c t]; [done|].
  destruct (digits_value _ _ _ _) as [z|] eqn:E; [|done]. case_decide; [|done]. intros [= ->].
  apply digits_value_bound in E; [lia| |lia..]. intros c' d H'%digit10_bound. lia.
Qed.

(** ** Checks by computation over an initial segment *)

Fixpoint check_from (n : nat) (z : Z) (P : Z → bool) : bool :=
  match n with O => true | S n => if P z then check_from n (z + 1) P else false end.
Definition check_below (n : nat) (P : Z → bool) : bool := check_from n 0 P.

Lemma check_from_spec n z0 P z :
  check_from n z0 P = true → z0 <= z < z0 + Z.of_nat n → P z = true.
Proof.
  revert z0. induction n as [|n IH]; cbn [check_from]; intros z0 H Hz; [lia|].
  destruct (P z0) eqn:E; [|done].
  destruct (decide (z = z0)) as [-> |]; [done|]. apply (IH (z0 + 1)); [done|lia].
Qed.

Lemma check_below_spec n P z :
  check_below n P = true → 0 <= z < Z.of_nat n → P z = true.
Proof. intros H Hz. by apply (check_from_spec n 0). Qed.


(** ** [slice::sort_by_key]: a stable sort *)
Section sort_by_key.
Context {A : Type} (key : A → Z).

Fixpoint insert_by (x : A) (l : list A) : list A :=
  match l with
  | [] => [x]
  | y :: rest => if decide (key x <= key y) then x :: l else y :: insert_by x rest
  end.
Definition sort_by_key (l : list A) : list A := foldr insert_by [] l.

Lemma insert_by_perm x l : insert_by x l ≡ₚ x :: l.
Proof.
  induction l as [|y l IH]; simpl; [done|]. case_decide; [done|].
  rewrite IH. apply Permutation_swap.
Qed.

Lemma sort_by_key_perm l : sort_by_key l ≡ₚ l.
Proof. induction l as [|x l IH]; simpl; [done|]. by rewrite insert_by_perm, IH. Qed.

(** Sorting a list that a finer order already sorts keeps that order among equal
    keys: the result is sorted by the key first and by the finer order next. *)
Lemma sort_by_key_sorted (R : relation A) l :
  StronglySorted R l →
  StronglySorted (λ x y, key x < key y ∨ (key x = key y ∧ R x y)) (sort_by_key l).
Proof.
  induction 1 as [|x l _ IH Hx]; simpl; [constructor|].
  rewrite <- (sort_by_key_perm l) in Hx. unfold sort_by_key in *. revert IH Hx.
  generalize (foldr insert_by [] l). clear. intros l IH Hx.
  induction IH as [|y l Hs IH Hy]; simpl; [by repeat constructor|].
  inversion Hx as [|?? Hxy Hxl]; subst. case_decide as Hk.
  - constructor; [by constructor|]. constructor.
    + destruct (decide (key x = key y)); [by right|left; lia].
    + apply Forall_forall. intros z Hz. rewrite Forall_forall in Hy, Hxl.
      specialize (Hy z Hz). specialize (Hxl z Hz).
      destruct Hy as [?|[? _]]; [left; lia|].
      destruct (decide (key x = key z)); [by right|left; lia].
  - constructor; [by apply IH|]. rewrite insert_by_perm. constructor; [left; lia|done].
Qed.
End sort_by_key.

(** ** [slice::chunks] *)
Fixpoint chunks_fuel {A} (fuel n : nat) (l : list A) : list (list A) :=
  match fuel with
  | O => []
  | S fuel =>
      match l with
      | [] => []
      | _ => take n l :: chunks_fuel fuel n (drop n l)
      end
  end.
(** Each chunk takes at least one element, so the length is fuel enough. *)
Definition chunks {A} (n : nat) (l : list A) : list (list A) := chunks_fuel (length l) n l.

Lemma chunks_fuel_enough {A} fuel fuel' n (l : list A) :
  (0 < n)%nat → (length l <= fuel)%nat → (length l <= fuel')%nat →
  chunks_fuel fuel n l = chunks_fuel fuel' n l.
Proof.
  intros Hn. revert fuel' l. induction fuel as [|fuel IH]; intros [|fuel'] [|x l] H1 H2;
    simpl in *; try done; try lia.
  f_equal. apply IH; rewrite length_drop; simpl; lia.
Qed.

Lemma chunks_cons {A} n (l : list A) :
  (0 < n)%nat → l ≠ [] → chunks n l = take n l :: chunks n (drop n l).
Proof.
  intros Hn Hl. unfold chunks. destruct l as [|x l]; [done|]. cbn [length chunks_fuel]. f_equal.
  apply chunks_fuel_enough; [done| |done]. rewrite length_drop. simpl. lia.
Qed.

Lemma chunks_concat {A} n (l : list A) : (0 < n)%nat → concat (chunks n l) = l.
Proof.
  intros Hn.
  remember (length l) as k eqn:Hk. revert l Hk. induction (lt_wf k) as [k _ IH]. intros l ->.
  destruct l as [|x l]; [done|]. rewrite chunks_cons by done. cbn [concat].
  rewrite (IH (length (drop n (x :: l)))) by (done || (rewrite length_drop; simpl; lia)).
  apply take_drop.
Qed.

Lemma chunks_Forall {A} n (l : list A) :
  (0 < n)%nat → Forall (λ c, c ≠ [] ∧ (length c <= n)%nat) (chunks n l).
Proof.
  intros Hn. remember (length l) as k eqn:Hk. revert l Hk. induction (lt_wf k) as [k _ IH].
  intros l ->. destruct l as [|x l]; [constructor|]. rewrite chunks_cons by done.
  constructor.
  - split; [by destruct n; [lia|]|]. rewrite length_take. lia.
  - apply (IH (length (drop n (x :: l)))); [|done]. rewrite length_drop. simpl. lia.
Qed.

(** Every [i64] reads back from its decimal form, sign included. *)
Lemma parse_i64_show n : i64_min <= n <= i64_max → parse_i64 (show_Z n) = Some n.
Proof.
  intros Hn. unfold parse_i64, show_Z. case_decide as Hneg.
  - pose proof (show_N_not_nil (Z.to_N (- n))) as Hne. pose proof (show_N_value (Z.to_N (- n))) as Hv.
    destruct (show_N (Z.to_N (- n))) as [|c t]; [done|].
    rewrite decide_True by done. cbn [tail]. rewrite Hv.
    rewrite decide_True by lia. f_equal. lia.
  - pose proof (parse_show_Z i64_max n ltac:(lia)) as Hp. rewrite show_Z_nonneg in Hp by lia.
    pose proof (show_N_digits (Z.to_N n)) as Hd.
    destruct (show_N (Z.to_N n)) as [|c [|d t]]; [done..|].
    rewrite decide_False; [done|]. intros ->. by inversion Hd.
Qed.
