(* ===== verification/Utf8.v ===== *)
(** * UTF-8

    The byte view of text: the length a [str] reports, the bytes [as_bytes] and
    [into_bytes] give, and the lossy decoding of [String::from_utf8_lossy] that
    the engine applies to each line it reads. *)
From S2P Require Import Prelude.

Local Open Scope N_scope.

(** A byte, between 0 and 255. *)
Abbreviation octet := N (only parsing).

(** Unicode scalar values: what a [char] may hold. *)
Definition is_scalar (c : char) : bool :=
  (c <? 55296) || ((57344 <=? c) && (c <=? 1114111)).
Abbreviation valid_text t := (Forall (λ c, is_scalar c = true) t).

(** [char::len_utf8] and [str::len]. *)
Definition len_utf8 (c : char) : nat :=
  if c <? 128 then 1 else if c <? 2048 then 2 else if c <? 65536 then 3 else 4.
Fixpoint utf8_len (t : text) : nat :=
  match t with [] => 0 | c :: t => len_utf8 c + utf8_len t end.

Definition cont (n : N) : octet := 128 + n mod 64.
Definition encode_char (c : char) : list octet :=
  if c <? 128 then [c]
  else if c <? 2048 then [192 + c / 64; cont c]
  else if c <? 65536 then [224 + c / 4096; cont (c / 64); cont c]
  else [240 + c / 262144; cont (c / 4096); cont (c / 64); cont c].
Definition encode (t : text) : list octet := t ≫= encode_char.

Definition is_cont (b : octet) : bool := (128 <=? b) && (b <=? 191).
(** The second byte a three- or four-byte sequence may continue with. *)
Definition second3 (b0 b1 : octet) : bool :=
  if b0 =? 224 then (160 <=? b1) && (b1 <=? 191)
  else if b0 =? 237 then (128 <=? b1) && (b1 <=? 159)
  else is_cont b1.
Definition second4 (b0 b1 : octet) : bool :=
  if b0 =? 240 then (144 <=? b1) && (b1 <=? 191)
  else if b0 =? 244 then (128 <=? b1) && (b1 <=? 143)
  else is_cont b1.

(** One step of the decoder: a character, or [None] for a maximal invalid prefix,
    with the bytes after it. *)
Definition decode_step (bs : list octet) : option (option char * list octet) :=
  match bs with
  | [] => None
  | b0 :: r =>
      if b0 <? 128 then Some (Some b0, r)
      else if (194 <=? b0) && (b0 <=? 223) then
        match r with
        | b1 :: r1 =>
            if is_cont b1 then Some (Some ((b0 - 192) * 64 + (b1 - 128)), r1) else Some (None, r)
        | [] => Some (None, r)
        end
      else if (224 <=? b0) && (b0 <=? 239) then
        match r with
        | b1 :: r1 =>
            if second3 b0 b1 then
              match r1 with
              | b2 :: r2 =>
                  if is_cont b2
                  then Some (Some ((b0 - 224) * 4096 + (b1 - 128) * 64 + (b2 - 128)), r2)
                  else Some (None, r1)
              | [] => Some (None, r1)
              end
            else Some (None, r)
        | [] => Some (None, r)
        end
      else if (240 <=? b0) && (b0 <=? 244) then
        match r with
        | b1 :: r1 =>
            if second4 b0 b1 then
              match r1 with
              | b2 :: r2 =>
                  if is_cont b2 then
                    match r2 with
                    | b3 :: r3 =>
                        if is_cont b3
                        then Some (Some ((b0 - 240) * 262144 + (b1 - 128) * 4096
                                           + (b2 - 128) * 64 + (b3 - 128)), r3)
                        else Some (None, r2)
                    | [] => Some (None, r2)
                    end
                  else Some (None, r1)
              | [] => Some (None, r1)
              end
            else Some (None, r)
        | [] => Some (None, r)
        end
      else Some (None, r)
  end.

Fixpoint decode_lossy (fuel : nat) (bs : list octet) : text :=
  match fuel with
  | O => []
  | S fuel =>
      match decode_step bs with
      | None => []
      | Some (Some c, rest) => c :: decode_lossy fuel rest
      | Some (None, rest) => 65533 :: decode_lossy fuel rest
      end
  end.
(** [String::from_utf8_lossy]. Every step consumes a byte, so the length is fuel
    enough. *)
Definition from_utf8_lossy (bs : list octet) : text := decode_lossy (length bs) bs.

Fixpoint decode_strict (fuel : nat) (bs : list octet) : option text :=
  match fuel with
  | O => Some []
  | S fuel =>
      match decode_step bs with
      | None => Some []
      | Some (Some c, rest) => c' ← decode_strict fuel rest; Some (c :: c')
      | Some (None, _) => None
      end
  end.
(** [core::str::from_utf8]. *)
Definition from_utf8 (bs : list octet) : option text := decode_strict (length bs) bs.

(** ** Lemmas *)

Lemma length_encode_char c : length (encode_char c) = len_utf8 c.
Proof. unfold encode_char, len_utf8. by repeat case_match. Qed.

Lemma utf8_len_app a b : utf8_len (a ++ b) = (utf8_len a + utf8_len b)%nat.
Proof. induction a; simpl; [done|]. rewrite IHa. lia. Qed.

Lemma encode_app a b : encode (a ++ b) = encode a ++ encode b.
Proof. unfold encode. by rewrite bind_app. Qed.

Lemma length_encode t : length (encode t) = utf8_len t.
Proof.
  induction t as [|c t IH]; simpl; [done|].
  rewrite length_app, length_encode_char. by rewrite <- IH.
Qed.


(** Decide the boolean tests of the goal by arithmetic. *)
Ltac N_test :=
  repeat match goal with
  | |- context [N.leb ?a ?b] =>
      first [rewrite (proj2 (N.leb_le a b)) by lia | rewrite (proj2 (N.leb_gt a b)) by lia]
  | |- context [N.ltb ?a ?b] =>
      first [rewrite (proj2 (N.ltb_lt a b)) by lia | rewrite (proj2 (N.ltb_ge a b)) by lia]
  end; cbn [andb orb negb].

Lemma cont_spec n : ∃ k, cont n = 128 + k ∧ k < 64 ∧ n = n / 64 * 64 + k.
Proof.
  exists (n mod 64). split; [done|].
  assert (n mod 64 < 64) by (apply N.mod_lt; lia).
  pose proof (N.div_mod n 64 ltac:(lia)). split; [done|lia].
Qed.

Lemma second3_ok c h k q r :
  is_scalar c = true → 2048 <= c < 65536 → c = q * 64 + r → r < 64 → k < 64 →
  q = h * 64 + k → second3 (224 + h) (128 + k) = true.
Proof.
  intros Hs Hc Hq Hr Hk ->. unfold is_scalar in Hs. unfold second3, is_cont.
  apply orb_true_iff in Hs.
  destruct (N.eqb_spec (224 + h) 224); [|destruct (N.eqb_spec (224 + h) 237)].
  - N_test; done.
  - destruct Hs; N_bool; N_test; done.
  - N_test; done.
Qed.

Lemma second4_ok c h k q r :
  is_scalar c = true → 65536 <= c → c = q * 4096 + r → r < 4096 → k < 64 →
  q = h * 64 + k → second4 (240 + h) (128 + k) = true.
Proof.
  intros Hs Hc Hq Hr Hk ->. unfold is_scalar in Hs. unfold second4, is_cont.
  apply orb_true_iff in Hs.
  destruct (N.eqb_spec (240 + h) 240); [|destruct (N.eqb_spec (240 + h) 244)].
  - N_test; done.
  - destruct Hs; N_bool; N_test; done.
  - N_test; done.
Qed.

Lemma decode_step_encode c r :
  is_scalar c = true → decode_step (encode_char c ++ r) = Some (Some c, r).
Proof.
  intros Hs. unfold encode_char.
  assert (c <= 1114111) as Hmax.
  { unfold is_scalar in Hs. apply orb_true_iff in Hs as [?|?]; N_bool; lia. }
  destruct (cont_spec c) as (k0 & E0 & Hk0 & D0).
  destruct (cont_spec (c / 64)) as (k1 & E1 & Hk1 & D1).
  destruct (cont_spec (c / 4096)) as (k2 & E2 & Hk2 & D2).
  rewrite E0, E1, E2. clear E0 E1 E2.
  rewrite N.Div0.div_div in D1, D2.
  change (64 * 64) with 4096 in D1. change (4096 * 64) with 262144 in D2.
  revert D0 D1 D2. generalize (c / 262144), (c / 4096), (c / 64).
  intros q3 q2 q1 D0 D1 D2.
  destruct (N.ltb_spec c 128) as [H1|H1]; cbn [app decode_step]; [by N_test|].
  destruct (N.ltb_spec c 2048) as [H2|H2]; cbn [app decode_step].
  { unfold is_cont. N_test. do 3 f_equal. lia. }
  destruct (N.ltb_spec c 65536) as [H3|H3]; cbn [app decode_step].
  { rewrite (second3_ok c q2 k1 q1 k0) by (done || lia).
    unfold is_cont. N_test. do 3 f_equal. lia. }
  rewrite (second4_ok c q3 k2 q2 (k1 * 64 + k0)) by (done || lia).
  unfold is_cont. N_test. do 3 f_equal. lia.
Qed.

Lemma decode_lossy_encode fuel t :
  valid_text t → (length (encode t) <= fuel)%nat → decode_lossy fuel (encode t) = t.
Proof.
  revert t. induction fuel as [|fuel IH]; intros [|c t] Hv Hl; try done.
  - exfalso. revert Hl. rewrite length_encode. simpl. unfold len_utf8. repeat case_match; lia.
  - inversion Hv as [|?? Hc Ht]; subst.
    change (encode (c :: t)) with (encode_char c ++ encode t) in *.
    cbn [decode_lossy]. rewrite decode_step_encode by done. f_equal. apply IH; [done|].
    rewrite length_app, length_encode_char in Hl. unfold len_utf8 in Hl.
    repeat case_match; lia.
Qed.

(** Valid UTF-8 passes the lossy decoder unchanged. *)
Lemma from_utf8_lossy_encode t : valid_text t → from_utf8_lossy (encode t) = t.
Proof. intros. by apply decode_lossy_encode. Qed.

Lemma decode_strict_encode fuel t :
  valid_text t → (length (encode t) <= fuel)%nat → decode_strict fuel (encode t) = Some t.
Proof.
  revert t. induction fuel as [|fuel IH]; intros [|c t] Hv Hl; try done.
  - exfalso. revert Hl. rewrite length_encode. simpl. unfold len_utf8. repeat case_match; lia.
  - inversion Hv as [|?? Hc Ht]; subst.
    change (encode (c :: t)) with (encode_char c ++ encode t) in *.
    cbn [decode_strict]. rewrite decode_step_encode by done. rewrite IH; [done..|].
    rewrite length_app, length_encode_char in Hl. unfold len_utf8 in Hl.
    repeat case_match; lia.
Qed.

Lemma from_utf8_encode t : valid_text t → from_utf8 (encode t) = Some t.
Proof. intros. by apply decode_strict_encode. Qed.
