(* ===== verification/Casemap.v ===== *)
(** * Server casemapping (src/crates/obby-proto/src/casemap.rs)

    [Casemapping] folds a name to the key that identifies it. [fold] allocates the
    folded form and [eq] compares two names character by character; the theorems
    relate the two. *)
From S2P Require Import Prelude Utf8.

(** A nick or channel name folded under a server's casemapping. *)
Abbreviation CaseFolded := (list N) (only parsing).

Module Casemapping.
(* obby-proto/src/casemap.rs 14-23 Casemapping *)
Inductive t := Ascii | Rfc1459 | Rfc1459Strict.

#[global] Instance t_eq_dec : EqDecision t.
Proof. solve_decision. Defined.

(* obby-proto/src/casemap.rs 18-20 Casemapping *)
Definition default : t := Rfc1459.

(* obby-proto/src/casemap.rs 25-34 Casemapping::parse *)
Definition parse (token : text) : t :=
  if decide (token = "ascii") then Ascii
  else if decide (token = "rfc1459-strict") then Rfc1459Strict
  else Rfc1459.

(* obby-proto/src/casemap.rs 36-48 Casemapping::fold_char *)
Definition fold_char (m : t) (c : char) : char :=
  if is_ascii_upper c then to_ascii_lowercase c
  else if bool_decide (c ∈ [91; 93; 92]%N) && bool_decide (m ≠ Ascii) then
    if decide (c = 91%N) then 123%N else if decide (c = 93%N) then 125%N else 124%N
  else if bool_decide (c = 126%N) && bool_decide (m = Rfc1459) then 94%N
  else c.

(* obby-proto/src/casemap.rs 50-53 Casemapping::fold *)
Definition fold (m : t) (name : text) : CaseFolded := fold_char m <$> name.

(* obby-proto/src/casemap.rs 55-66 Casemapping::eq *)
Fixpoint eq (m : t) (a b : text) : bool :=
  match a, b with
  | [], [] => true
  | x :: a, y :: b => if decide (fold_char m x = fold_char m y) then eq m a b else false
  | _, _ => false
  end.
End Casemapping.

(** [From<&str> for CaseFolded]: the default mapping. *)
(* obby-proto/src/casemap.rs 118-123 From<&str> for CaseFolded *)
Definition folded_of_str (name : text) : CaseFolded :=
  Casemapping.fold Casemapping.default name.
(** [CaseFolded::already_folded]. *)
(* obby-proto/src/casemap.rs 125-130 CaseFolded::already_folded *)
Definition already_folded (value : text) : CaseFolded := value.

(** ** Properties *)

Lemma eq_fold_iff m a b :
  Casemapping.eq m a b = true ↔ Casemapping.fold m a = Casemapping.fold m b.
Proof.
  unfold Casemapping.fold. revert b.
  induction a as [|x a IH]; intros [|y b]; simpl; try done.
  case_decide as Hc; [rewrite IH, Hc|].
  - split; [intros E; f_equal; exact E|by intros [= ?]].
  - split; [done|]. by intros [= ?].
Qed.

Lemma fold_char_ascii m c : Casemapping.fold_char m c = c ∨ (c < 128 ∧ Casemapping.fold_char m c < 128)%N.
Proof.
  unfold Casemapping.fold_char, is_ascii_upper, to_ascii_lowercase.
  destruct (_ && _) eqn:E.
  - right. N_bool. destruct (is_ascii_upper c); lia.
  - case_match eqn:E1.
    + right. apply andb_prop in E1 as [Hin%bool_decide_eq_true _].
      rewrite !elem_of_cons in Hin.
      destruct Hin as [->|[->|[->|Hin]]]; [by vm_compute..|set_solver].
    + case_match eqn:E2; [|by left].
      apply andb_prop in E2 as [->%bool_decide_eq_true _]. by right.
Qed.

Lemma fold_char_idemp m c :
  Casemapping.fold_char m (Casemapping.fold_char m c) = Casemapping.fold_char m c.
Proof.
  destruct (fold_char_ascii m c) as [E|[Hc _]]; [by rewrite !E|].
  assert (forallb (λ c, Casemapping.fold_char m (Casemapping.fold_char m c)
                        =? Casemapping.fold_char m c)%N (N.of_nat <$> seq 0 128) = true) as Hall.
  { destruct m; vm_compute; reflexivity. }
  rewrite forallb_forall in Hall. apply N.eqb_eq, Hall, list_elem_of_In, list_elem_of_fmap.
  exists (N.to_nat c). split; [lia|]. apply elem_of_seq. lia.
Qed.

(** The optimised comparison decides equality of the folded keys, and folding
    again changes nothing: a [CaseFolded] is a fixed point of its mapping. *)
Theorem fold_is_canonical (m : Casemapping.t) (a b : text) :
  (Casemapping.eq m a b = true ↔ Casemapping.fold m a = Casemapping.fold m b)
  ∧ Casemapping.fold m (Casemapping.fold m a) = Casemapping.fold m a
  ∧ Casemapping.eq m a (Casemapping.fold m a) = true.
Proof.
  assert (Casemapping.fold m (Casemapping.fold m a) = Casemapping.fold m a) as Hid.
  { unfold Casemapping.fold. rewrite <- list_fmap_compose.
    apply list_fmap_ext. intros ? c _. apply fold_char_idemp. }
  split_and!; [apply eq_fold_iff|done|]. by apply eq_fold_iff.
Qed.

Lemma len_utf8_fold_char m c : len_utf8 (Casemapping.fold_char m c) = len_utf8 c.
Proof.
  destruct (fold_char_ascii m c) as [-> | [Hc Hf]]; [done|].
  unfold len_utf8. by rewrite !(proj2 (N.ltb_lt _ _)) by done.
Qed.

(** Folding keeps every character at its byte offset, so an offset found in folded
    text is valid in the text it was folded from. *)
Lemma utf8_len_fold m t : utf8_len (Casemapping.fold m t) = utf8_len t.
Proof.
  unfold Casemapping.fold. induction t as [|c t IH]; csimpl; [done|].
  by rewrite len_utf8_fold_char, IH.
Qed.
