(* ===== verification/Tags.v ===== *)
(** * Message tags and their escaping (src/crates/obby-proto/src/tags.rs)

    The tag section of a line keeps its order and its duplicates. [unescape] and
    [escape] are the two directions of the value escaping; [Tags.parse] and
    [Tags.show] read and write a whole section. *)
From S2P Require Import Prelude.

Module Tag.
(* obby-proto/src/tags.rs 15-20 Tag *)
Record t := mk { key : text; value : option text }.

#[global] Instance t_eq_dec : EqDecision t.
Proof. solve_decision. Defined.

(* obby-proto/src/tags.rs 23-29 Tag::new *)
Definition new (key value : text) : t := mk key (Some value).
(* obby-proto/src/tags.rs 31-37 Tag::flag *)
Definition flag (key : text) : t := mk key None.
(* obby-proto/src/tags.rs 39-42 Tag::is_client_only *)
Definition is_client_only (tag : t) : bool := starts_with_char chPLUS (key tag).
End Tag.

(* obby-proto/src/tags.rs 158-175 unescape *)
Fixpoint unescape_loop (value : text) : text :=
  match value with
  | [] => []
  | c :: rest =>
      if decide (c = chBSLASH) then
        match rest with
        | [] => []
        | d :: rest =>
            (if decide (d = chCOLON) then chSEMI
             else if decide (d = 115%N) then chSPACE
             else if decide (d = 114%N) then chCR
             else if decide (d = 110%N) then chLF
             else d) :: unescape_loop rest
        end
      else c :: unescape_loop rest
  end.
(* obby-proto/src/tags.rs 150-176 unescape *)
Definition unescape (value : text) : text :=
  if negb (contains_char chBSLASH value) then value else unescape_loop value.

(* obby-proto/src/tags.rs 178-195 Escaped *)
Definition escape_char (c : char) : text :=
  if decide (c = chSEMI) then [chBSLASH; chCOLON]
  else if decide (c = chSPACE) then [chBSLASH; 115%N]
  else if decide (c = chBSLASH) then [chBSLASH; chBSLASH]
  else if decide (c = chCR) then [chBSLASH; 114%N]
  else if decide (c = chLF) then [chBSLASH; 110%N]
  else [c].
Definition escape (value : text) : text := value ≫= escape_char.

(* obby-proto/src/tags.rs 146-148 key_of *)
Definition key_of (part : text) : text :=
  match split_once chEQ part with Some (key, _) => key | None => part end.

Module Tags.
Definition t := list Tag.t.

(** The tag a non-empty part between semicolons stands for. *)
(* obby-proto/src/tags.rs 61-64 Tags::parse *)
Definition parse_part (part : text) : Tag.t :=
  match split_once chEQ part with
  | None | Some (_, []) => Tag.flag (key_of part)
  | Some (key, value) => Tag.new key (unescape value)
  end.
(* obby-proto/src/tags.rs 56-67 Tags::parse *)
Definition parse (raw : text) : t :=
  parse_part <$> filter (λ part, part ≠ []) (split_char chSEMI raw).

(* obby-proto/src/tags.rs 69-80 Tags::get *)
Definition get (tags : t) (key : text) : option text :=
  '(_, tag) ← list_find (λ tag, Tag.key tag = key) (reverse tags); Tag.value tag.

(* obby-proto/src/tags.rs 82-85 Tags::contains *)
Definition contains (tags : t) (key : text) : bool :=
  existsb (λ tag, bool_decide (Tag.key tag = key)) tags.

(* obby-proto/src/tags.rs 87-93 Tags::set *)
Fixpoint set (tags : t) (tag : Tag.t) : t :=
  match tags with
  | [] => [tag]
  | existing :: rest =>
      if decide (Tag.key existing = Tag.key tag) then tag :: rest
      else existing :: set rest tag
  end.

(* obby-proto/src/tags.rs 95-98 Tags::remove *)
Definition remove (tags : t) (key : text) : t :=
  filter (λ tag, Tag.key tag ≠ key) tags.

(* obby-proto/src/tags.rs 100-103 Tags::is_empty *)
Definition is_empty (tags : t) : bool := match tags with [] => true | _ => false end.
(* obby-proto/src/tags.rs 105-108 Tags::len *)
Definition len (tags : t) : nat := length tags.

(* obby-proto/src/tags.rs 137-140 Display for Tags *)
Definition show_tag (tag : Tag.t) : text :=
  Tag.key tag ++ match Tag.value tag with Some value => chEQ :: escape value | None => [] end.
(* obby-proto/src/tags.rs 131-144 Display for Tags *)
Definition show (tags : t) : text := join_with chSEMI (show_tag <$> tags).
End Tags.

(** ** Escaping *)

Lemma unescape_loop_noop value : chBSLASH ∉ value → unescape_loop value = value.
Proof.
  induction value as [|c value IH]; intros Hn; simpl; [done|].
  rewrite decide_False by set_solver. rewrite IH by set_solver. done.
Qed.

(** The early return of [unescape] is only an optimisation. *)
Lemma unescape_eq value : unescape value = unescape_loop value.
Proof.
  unfold unescape, contains_char. case_bool_decide; simpl; [done|].
  by rewrite unescape_loop_noop.
Qed.

Lemma unescape_escape_char c rest :
  unescape_loop (escape_char c ++ rest) = c :: unescape_loop rest.
Proof.
  unfold escape_char. repeat case_decide; subst; try done.
  simpl. by rewrite decide_False.
Qed.

Lemma unescape_escape value : unescape (escape value) = value.
Proof.
  rewrite unescape_eq. induction value as [|c value IH]; [done|].
  change (escape (c :: value)) with (escape_char c ++ escape value).
  by rewrite unescape_escape_char, IH.
Qed.

(** The characters that would end a value, a section or a line early. *)
Definition delimiters : list char := [chSEMI; chSPACE; chCR; chLF].

Lemma escape_safe value c : c ∈ escape value → c ∉ delimiters.
Proof.
  unfold escape. intros (d & Hd & _)%list_elem_of_bind. unfold escape_char in Hd.
  unfold delimiters. rewrite !not_elem_of_cons.
  repeat case_decide; set_unfold; subst; naive_solver.
Qed.

Lemma escape_nil value : escape value = [] → value = [].
Proof.
  destruct value as [|c value]; [done|].
  change (escape (c :: value)) with (escape_char c ++ escape value).
  unfold escape_char. by repeat case_decide.
Qed.

(** ** Reading back a section *)

(** What a tag must look like for its written form to stand for it: the key holds
    neither delimiter of the grammar, and the value is not present but empty. *)
Definition wf_tag (tag : Tag.t) : Prop :=
  chSEMI ∉ Tag.key tag ∧ chEQ ∉ Tag.key tag ∧ Tag.value tag ≠ Some [] ∧
  (Tag.key tag ≠ [] ∨ Tag.value tag ≠ None).

Lemma parse_part_show_tag tag : wf_tag tag → Tags.parse_part (Tags.show_tag tag) = tag.
Proof.
  intros (_ & Heq & Hv & _). destruct tag as [key [value|]]; unfold Tags.parse_part, Tags.show_tag; simpl in *.
  - rewrite split_once_app by done.
    destruct (escape value) as [|c v] eqn:E.
    + apply escape_nil in E. by subst.
    + by rewrite <- E, unescape_escape.
  - rewrite app_nil_r. rewrite (proj2 (split_once_None _ _)) by done.
    unfold key_of. by rewrite (proj2 (split_once_None _ _)).
Qed.

Lemma show_tag_not_nil tag : wf_tag tag → Tags.show_tag tag ≠ [].
Proof.
  intros (_ & _ & _ & Hne). unfold Tags.show_tag.
  destruct tag as [[|c key] [value|]]; simpl in *; naive_solver.
Qed.

Lemma show_tag_nosemi tag : wf_tag tag → chSEMI ∉ Tags.show_tag tag.
Proof.
  intros (Hs & _). unfold Tags.show_tag. rewrite not_elem_of_app. split; [done|].
  destruct (Tag.value tag) as [v|]; [|set_solver].
  rewrite not_elem_of_cons. split; [done|]. intros Hin%escape_safe. apply Hin. by left.
Qed.

Lemma tags_parse_show tags : Forall wf_tag tags → Tags.parse (Tags.show tags) = tags.
Proof.
  intros Hall. destruct tags as [|tag tags]; [done|].
  unfold Tags.parse, Tags.show. rewrite split_char_join.
  - induction Hall as [|x l Hx _ IH]; [done|]. csimpl.
    rewrite filter_cons_True by by apply show_tag_not_nil. csimpl.
    rewrite IH, parse_part_show_tag; done.
  - done.
  - apply Forall_fmap. eapply Forall_impl; [done|]. intros. by apply show_tag_nosemi.
Qed.

(** ** Lookup after update *)

Lemma get_snoc tags tag k :
  Tags.get (tags ++ [tag]) k = if decide (Tag.key tag = k) then Tag.value tag else Tags.get tags k.
Proof.
  unfold Tags.get. rewrite reverse_snoc. simpl. case_decide; [done|].
  by destruct (list_find _ _) as [[??]|].
Qed.

Lemma get_singleton tag k :
  Tags.get [tag] k = if decide (Tag.key tag = k) then Tag.value tag else None.
Proof. apply (get_snoc [] tag k). Qed.

Lemma get_not_in tags k : k ∉ (Tag.key <$> tags) → Tags.get tags k = None.
Proof.
  induction tags as [|tag tags IH] using rev_ind; intros Hn; [done|].
  rewrite get_snoc. rewrite fmap_app in Hn.
  rewrite decide_False by set_solver. apply IH. set_solver.
Qed.

Lemma get_cons tag tags k :
  k ∉ (Tag.key <$> tags) →
  Tags.get (tag :: tags) k = if decide (Tag.key tag = k) then Tag.value tag else None.
Proof.
  intros Hn. induction tags as [|x tags IH] using rev_ind; [apply get_singleton|].
  rewrite app_comm_cons, get_snoc. rewrite fmap_app in Hn.
  rewrite decide_False by set_solver. apply IH. set_solver.
Qed.

Lemma get_cons_ne tag tags k :
  Tag.key tag ≠ k → Tags.get (tag :: tags) k = Tags.get tags k.
Proof.
  intros Hne. induction tags as [|x tags IH] using rev_ind.
  - rewrite get_singleton. by rewrite decide_False.
  - rewrite app_comm_cons, !get_snoc. by rewrite IH.
Qed.

Lemma get_cons_in tag tags k :
  k ∈ (Tag.key <$> tags) → Tags.get (tag :: tags) k = Tags.get tags k.
Proof.
  induction tags as [|x tags IH] using rev_ind; intros Hin; [set_solver|].
  rewrite app_comm_cons, !get_snoc. case_decide; [done|]. apply IH.
  rewrite fmap_app in Hin. set_solver.
Qed.

Lemma keys_set tags tag :
  Tag.key <$> Tags.set tags tag =
  if decide (Tag.key tag ∈ Tag.key <$> tags) then Tag.key <$> tags
  else (Tag.key <$> tags) ++ [Tag.key tag].
Proof.
  induction tags as [|x tags IH]; csimpl; [done|].
  destruct (decide (Tag.key x = Tag.key tag)) as [Hx|Hx]; csimpl.
  - clear IH. rewrite decide_True by (rewrite Hx; by left). by rewrite Hx.
  - rewrite IH. clear IH. destruct (decide (Tag.key tag ∈ Tag.key <$> tags)) as [Hin|Hin].
    + by rewrite decide_True by by right.
    + rewrite decide_False; [done|]. rewrite elem_of_cons. naive_solver.
Qed.

Lemma get_set_ne tags tag k :
  Tag.key tag ≠ k → Tags.get (Tags.set tags tag) k = Tags.get tags k.
Proof.
  intros Hne. induction tags as [|x tags IH]; simpl.
  - by rewrite get_singleton, decide_False.
  - case_decide as Hx; [by rewrite !get_cons_ne by congruence|].
    destruct (decide (Tag.key x = k)) as [Hk|]; [subst k|by rewrite !get_cons_ne].
    assert (Tag.key x ∈ Tag.key <$> Tags.set tags tag ↔ Tag.key x ∈ Tag.key <$> tags) as Hin.
    { rewrite keys_set. case_decide; set_solver. }
    destruct (decide (Tag.key x ∈ Tag.key <$> tags)).
    + by rewrite !get_cons_in by tauto.
    + by rewrite !get_cons by tauto.
Qed.

(** With one tag per key, [set] then [get] reads the value just set, leaves the
    other keys alone and keeps one tag per key. *)
Theorem tags_set_get (tags : Tags.t) (tag : Tag.t) :
  NoDup (Tag.key <$> tags) →
  Tags.get (Tags.set tags tag) (Tag.key tag) = Tag.value tag
  ∧ (∀ k, k ≠ Tag.key tag → Tags.get (Tags.set tags tag) k = Tags.get tags k)
  ∧ NoDup (Tag.key <$> Tags.set tags tag).
Proof.
  intros Hnd. split_and!.
  - induction tags as [|x tags IH]; simpl; [by rewrite get_singleton, decide_True|].
    apply NoDup_cons in Hnd as [Hx Hnd]. destruct (decide (Tag.key x = Tag.key tag)) as [Heq|Heq].
    + rewrite get_cons by (by rewrite <- Heq). by rewrite decide_True.
    + rewrite get_cons_ne by done. by apply IH.
  - intros k Hk. by apply get_set_ne.
  - rewrite keys_set. case_decide; [done|].
    apply NoDup_app. set_solver by eauto using NoDup_singleton.
Qed.

Lemma tags_set_get_witness :
  NoDup (Tag.key <$> [Tag.new "a" "1"; Tag.flag "b"]) ∧
  Tags.get (Tags.set [Tag.new "a" "1"; Tag.flag "b"] (Tag.new "a" "2")) "a" = Some (lit "2").
Proof.
  split; [apply (bool_decide_unpack _); vm_compute; exact I|].
  apply (tags_set_get [Tag.new "a" "1"; Tag.flag "b"] (Tag.new "a" "2")).
  apply (bool_decide_unpack _). vm_compute. exact I.
Defined.

(** A key may legally arrive twice. [get] then reads the last occurrence while
    [set] replaced the first, so the value just set is not the one read back. *)
Theorem tags_set_shadowed_by_duplicate :
  ∃ (tags : Tags.t) (tag : Tag.t),
    tags = Tags.parse "label=a;label=b"
    ∧ Tags.get (Tags.set tags tag) (Tag.key tag) ≠ Tag.value tag
    ∧ Tags.get (Tags.set tags tag) (Tag.key tag) = Some (lit "b").
Proof. exists (Tags.parse "label=a;label=b"), (Tag.new "label" "c"). by vm_compute. Qed.

(** A value that is only a backslash unescapes to nothing, so it parses to a
    present but empty value, which is not the absent value a bare [a=] parses to,
    and the written form no longer reads back. *)
Theorem tags_parse_empty_value :
  Tags.parse "a=\" = [Tag.mk "a" (Some [])]
  ∧ Tags.parse "a=" = [Tag.mk "a" None]
  ∧ Tags.parse (Tags.show (Tags.parse "a=\")) ≠ Tags.parse "a=\".
Proof. split_and!; [vm_compute; reflexivity..|vm_compute; discriminate]. Qed.
