(* ===== verification/Message.v ===== *)
(** * One protocol line (src/crates/obby-proto/src/message.rs)

    [Message.parse] reads a line into tags, source, command and parameters, and
    [Message.show] writes one. The parameter loop of the parser is a fixpoint on
    fuel, which the length of the rest of the line bounds ([params_fuel]). *)
From S2P Require Import Prelude Utf8 Tags.

(* obby-proto/src/message.rs 10-16 ParseError *)
Inductive ParseError := MissingCommand.

Module Source.
(* obby-proto/src/message.rs 22-33 Source *)
Record t := mk { name : text; user : option text; host : option text }.

#[global] Instance t_eq_dec : EqDecision t.
Proof. solve_decision. Defined.

(* obby-proto/src/message.rs 36-60 Source::parse *)
Definition parse (raw : text) : t :=
  match split_once chBANG raw with
  | Some (name, rest) =>
      match split_once chAT rest with
      | Some (u, h) => mk name (Some u) (Some h)
      | None => mk name (Some rest) None
      end
  | None =>
      match split_once chAT raw with
      | Some (n, h) => mk n None (Some h)
      | None => mk raw None None
      end
  end.

(* obby-proto/src/message.rs 62-69 Source::looks_like_server *)
Definition looks_like_server (source : t) : bool :=
  bool_decide (user source = None) && contains_char chDOT (name source).

(* obby-proto/src/message.rs 72-83 Display for Source *)
Definition show (source : t) : text :=
  name source
  ++ (match user source with Some user => chBANG :: user | None => [] end)
  ++ (match host source with Some host => chAT :: host | None => [] end).
End Source.

Module Message.
(* obby-proto/src/message.rs 94-104 Message *)
Record t := mk {
  tags : Tags.t;
  source : option Source.t;
  command : text;
  params : list text;
}.

#[global] Instance t_eq_dec : EqDecision t.
Proof. solve_decision. Defined.

(* obby-proto/src/message.rs 107-115 Message::new *)
Definition new (command : text) (params : list text) : t := mk [] None command params.

Definition is_space (c : char) : bool := bool_decide (c = chSPACE).
Definition is_line_end (c : char) : bool := bool_decide (c ∈ [chCR; chLF]).

(* obby-proto/src/message.rs 140-157 Message::parse *)
Fixpoint parse_params (fuel : nat) (rest : text) : list text :=
  match fuel with
  | O => []
  | S fuel =>
      let rest := trim_start_matches is_space rest in
      match rest with
      | [] => []
      | _ =>
          match strip_prefix_char chCOLON rest with
          | Some trailing => [trailing]
          | None =>
              match split_once chSPACE rest with
              | Some (param, remainder) => param :: parse_params fuel remainder
              | None => [rest]
              end
          end
      end
  end.

(* obby-proto/src/message.rs 121-126 Message::parse *)
Definition parse_tags (rest : text) : ParseError + (Tags.t * text) :=
  match strip_prefix_char chAT rest with
  | Some after =>
      match split_once chSPACE after with
      | Some (raw, remainder) => inr (Tags.parse raw, trim_start_matches is_space remainder)
      | None => inl MissingCommand
      end
  | None => inr ([], rest)
  end.

(* obby-proto/src/message.rs 128-133 Message::parse *)
Definition parse_source (rest : text) : ParseError + (option Source.t * text) :=
  match strip_prefix_char chCOLON rest with
  | Some after =>
      match split_once chSPACE after with
      | Some (raw, remainder) =>
          inr (Some (Source.parse raw), trim_start_matches is_space remainder)
      | None => inl MissingCommand
      end
  | None => inr (None, rest)
  end.

(* obby-proto/src/message.rs 117-165 Message::parse *)
Definition parse (line : text) : ParseError + t :=
  match parse_tags (trim_end_matches is_line_end line) with
  | inl e => inl e
  | inr (tags, rest) =>
      match parse_source rest with
      | inl e => inl e
      | inr (source, rest) =>
          let '(command, rest) :=
            match split_once chSPACE rest with Some p => p | None => (rest, []) end in
          match command with
          | [] => inl MissingCommand
          | _ => inr (mk tags source command (parse_params (S (length rest)) rest))
          end
      end
  end.

(* obby-proto/src/message.rs 167-170 Message::is *)
Definition is_command (m : t) (command : text) : bool := eq_ignore_ascii_case (Message.command m) command.
(* obby-proto/src/message.rs 172-175 Message::param *)
Definition param (m : t) (index : nat) : option text := params m !! index.
(* obby-proto/src/message.rs 177-180 Message::trailing *)
Definition trailing (m : t) : option text := last (params m).
(* obby-proto/src/message.rs 182-185 Message::tag *)
Definition tag (m : t) (key : text) : option text := Tags.get (tags m) key.

(** A parameter that can only travel as the trailing one. *)
(* obby-proto/src/message.rs 199-201 Display for Message *)
Definition needs_marker (param : text) : bool :=
  match param with [] => true | _ => contains_char chSPACE param || starts_with_char chCOLON param end.
(* obby-proto/src/message.rs 197-206 Display for Message *)
Fixpoint show_params (params : list text) : text :=
  match params with
  | [] => []
  | [param] => if needs_marker param then chSPACE :: chCOLON :: param else chSPACE :: param
  | param :: rest => chSPACE :: param ++ show_params rest
  end.
(* obby-proto/src/message.rs 188-209 Display for Message *)
Definition show (m : t) : text :=
  (if Tags.is_empty (tags m) then [] else chAT :: Tags.show (tags m) ++ [chSPACE])
  ++ (match source m with Some source => chCOLON :: Source.show source ++ [chSPACE] | None => [] end)
  ++ command m ++ show_params (params m).
End Message.

(** ** The parameter loop *)

Lemma parse_params_space fuel rest :
  Message.parse_params (S fuel) (chSPACE :: rest) = Message.parse_params (S fuel) rest.
Proof. done. Qed.

(** More fuel than the rest is long changes nothing: the loop ends on its own. *)
Lemma params_fuel fuel fuel' rest :
  (length rest < fuel)%nat → (length rest < fuel')%nat →
  Message.parse_params fuel rest = Message.parse_params fuel' rest.
Proof.
  revert fuel' rest. induction fuel as [|fuel IH]; intros [|fuel'] rest H1 H2; try lia.
  cbn [Message.parse_params].
  pose proof (trim_start_length Message.is_space rest) as Hl.
  destruct (trim_start_matches _ rest) as [|c r] eqn:E; [done|].
  destruct (strip_prefix_char _ _); [done|].
  destruct (split_once chSPACE (c :: r)) as [[a b]|] eqn:Es; [|done].
  f_equal. apply split_once_length in Es. apply IH; lia.
Qed.

(** A parameter that survives anywhere but last. *)
Definition wf_middle (p : text) : Prop :=
  p ≠ [] ∧ chSPACE ∉ p ∧ starts_with_char chCOLON p = false.

Lemma trim_space_noop t :
  starts_with_char chSPACE t = false → trim_start_matches Message.is_space t = t.
Proof.
  intros H. apply trim_start_noop. intros c Hc. destruct t; simplify_eq/=.
  unfold Message.is_space. done.
Qed.

Lemma starts_with_char_false c t : c ∉ t → starts_with_char c t = false.
Proof. destruct t as [|d t]; [done|]. intros. apply bool_decide_eq_false. set_solver. Qed.

Lemma strip_prefix_char_None c t : starts_with_char c t = false → strip_prefix_char c t = None.
Proof.
  destruct t as [|d t]; simpl; [done|]. intros ?%bool_decide_eq_false.
  by rewrite decide_False.
Qed.

Lemma parse_params_middle fuel p rest :
  wf_middle p →
  Message.parse_params (S fuel) (p ++ chSPACE :: rest) = p :: Message.parse_params fuel rest.
Proof.
  intros (Hne & Hsp & Hc). destruct p as [|c p]; [done|].
  cbn [Message.parse_params]. rewrite trim_space_noop by by apply (starts_with_char_false _ (c :: p)).
  rewrite <- app_comm_cons, strip_prefix_char_None by done.
  rewrite app_comm_cons, split_once_app by done. done.
Qed.

Lemma parse_params_last fuel p :
  Message.parse_params (S (S fuel)) (Message.show_params [p]) = [p].
Proof.
  simpl Message.show_params. unfold Message.needs_marker. destruct p as [|c p]; [done|].
  unfold contains_char. case_bool_decide as Hin; [done|]. cbn [orb].
  destruct (starts_with_char chCOLON (c :: p)) eqn:E; [done|].
  rewrite parse_params_space. cbn [Message.parse_params].
  rewrite trim_space_noop by by apply starts_with_char_false.
  rewrite strip_prefix_char_None by done.
  by rewrite (proj2 (split_once_None _ _)).
Qed.

Lemma show_params_cons q l :
  l ≠ [] → Message.show_params (q :: l) = chSPACE :: q ++ Message.show_params l.
Proof. by destruct l. Qed.

Lemma show_params_head l : l ≠ [] → ∃ r, Message.show_params l = chSPACE :: r.
Proof.
  destruct l as [|p [|q l]]; intros H; [done| |by eexists].
  simpl. destruct (Message.needs_marker p); by eexists.
Qed.

Lemma snoc_not_nil {A} (l : list A) x : l ++ [x] ≠ [].
Proof. by destruct l. Qed.

Lemma parse_show_params fuel ps p :
  Forall wf_middle ps → (length ps < fuel)%nat →
  Message.parse_params (S fuel) (Message.show_params (ps ++ [p])) = ps ++ [p].
Proof.
  revert fuel. induction ps as [|q ps IH]; intros fuel Hall Hf.
  - destruct fuel; [lia|]. apply parse_params_last.
  - inversion Hall as [|?? Hq Hps]; subst.
    destruct fuel as [|fuel]; simpl in Hf; [lia|].
    rewrite <- app_comm_cons, show_params_cons by apply snoc_not_nil.
    rewrite parse_params_space.
    destruct (show_params_head (ps ++ [p])) as [r Hr]; [apply snoc_not_nil|].
    rewrite Hr, parse_params_middle by done.
    f_equal. rewrite <- (IH fuel) by (done || lia). by rewrite Hr.
Qed.

(** ** Round trip *)

(** A source whose written form splits back into its parts. *)
Definition wf_source (s : Source.t) : Prop :=
  chSPACE ∉ Source.show s ∧ chBANG ∉ Source.name s ∧
  match Source.user s with
  | Some u => chAT ∉ u
  | None => chAT ∉ Source.name s ∧ chBANG ∉ Source.show s
  end.

Lemma source_parse_show s : wf_source s → Source.parse (Source.show s) = s.
Proof.
  destruct s as [name user host]. unfold wf_source, Source.parse, Source.show. simpl.
  intros (_ & Hb & Hu). destruct user as [u|].
  - rewrite <- app_comm_cons, split_once_app by done.
    destruct host as [h|]; [by rewrite split_once_app|].
    rewrite app_nil_r. by rewrite (proj2 (split_once_None _ _)).
  - destruct Hu as [Ha Hn]. simpl in *.
    rewrite (proj2 (split_once_None chBANG _)) by done.
    destruct host as [h|]; [by rewrite split_once_app|].
    rewrite app_nil_r. by rewrite (proj2 (split_once_None _ _)).
Qed.

(** No trailing CR or LF. *)
Definition ends_clean (t : text) : Prop := ∀ c, last t = Some c → Message.is_line_end c = false.

(** The messages whose line stands for them: no delimiter where the grammar gives
    it a meaning, and nothing after the command that the reader would strip. *)
Record wf_message (m : Message.t) : Prop := {
  wf_tags : Forall (λ tag, wf_tag tag ∧ chSPACE ∉ Tag.key tag) (Message.tags m);
  wf_src : ∀ s, Message.source m = Some s → wf_source s;
  wf_command : Message.command m ≠ [] ∧ chSPACE ∉ Message.command m;
  wf_command_head :
    Message.source m = None →
    starts_with_char chCOLON (Message.command m) = false ∧
    (Message.tags m = [] → starts_with_char chAT (Message.command m) = false);
  wf_params : ∀ ps p, Message.params m = ps ++ [p] → Forall wf_middle ps;
  wf_end : ends_clean (default (Message.command m) (last (Message.params m)));
}.

Lemma tags_show_nospace tags :
  Forall (λ tag, wf_tag tag ∧ chSPACE ∉ Tag.key tag) tags → chSPACE ∉ Tags.show tags.
Proof.
  unfold Tags.show. induction 1 as [|tag tags [_ Hk] _ IH]; [set_solver|].
  assert (chSPACE ∉ Tags.show_tag tag) as Ht.
  { unfold Tags.show_tag. rewrite not_elem_of_app. split; [done|].
    destruct (Tag.value tag) as [v|]; [|set_solver].
    rewrite not_elem_of_cons. split; [done|]. intros Hin%escape_safe. apply Hin. right. by left. }
  destruct tags as [|t2 tags]; csimpl in *; [done|].
  rewrite not_elem_of_app, not_elem_of_cons. done.
Qed.

Lemma last_show_params c ps p :
  last (Message.show_params (ps ++ [p])) = Some c → c = chSPACE ∨ c = chCOLON ∨ last p = Some c.
Proof.
  induction ps as [|q ps IH].
  - simpl. destruct (Message.needs_marker p); destruct p as [|x p]; simpl; try naive_solver.
    all: intros H; simplify_eq; auto.
  - intros H. apply IH. revert H.
    rewrite <- app_comm_cons, show_params_cons by apply snoc_not_nil.
    rewrite app_comm_cons, last_app.
    destruct (show_params_head (ps ++ [p])) as [r Hr]; [apply snoc_not_nil|].
    rewrite Hr. by destruct (last (chSPACE :: r)) eqn:E; [|apply last_None in E].
Qed.

Lemma show_ends_clean m : wf_message m → ends_clean (Message.show m).
Proof.
  intros [_ _ [Hc _] _ _ He] c Hl. unfold Message.show in Hl.
  rewrite !last_app in Hl.
  destruct (Message.params m) as [|p ps] eqn:E using rev_ind.
  - simpl in *. destruct (last (Message.command m)) eqn:El.
    + apply He. by simplify_eq.
    + by apply last_None in El.
  - rewrite last_snoc in He. simpl in He.
    destruct (show_params_head (ps ++ [p])) as [r Hr]; [apply snoc_not_nil|].
    destruct (last (Message.show_params (ps ++ [p]))) as [d|] eqn:El.
    + simplify_eq. apply last_show_params in El as [-> | [-> |?]]; [done..|]. by apply He.
    + apply last_None in El. congruence.
Qed.

Definition show_source (source : option Source.t) : text :=
  match source with Some s => chCOLON :: Source.show s ++ [chSPACE] | None => [] end.

Lemma parse_tags_show m :
  wf_message m →
  Message.parse_tags (Message.show m) =
  inr (Message.tags m, show_source (Message.source m) ++ Message.command m
                         ++ Message.show_params (Message.params m)).
Proof.
  intros [Ht Hs [Hc Hcs] Hch _ _]. unfold Message.show, Message.parse_tags.
  fold (show_source (Message.source m)).
  destruct (Message.command m) as [|c0 cmd] eqn:Ec; [done|].
  destruct (Message.tags m) as [|tag tags] eqn:E.
  - cbn [Tags.is_empty app]. rewrite strip_prefix_char_None; [done|].
    destruct (Message.source m) as [s|] eqn:Es; [done|].
    cbn [show_source app starts_with_char]. by apply Hch.
  - cbn [Tags.is_empty]. rewrite <- app_comm_cons.
    rewrite (proj2 (strip_prefix_char_Some _ _ _) eq_refl).
    rewrite <- app_assoc. cbn [app]. rewrite split_once_app by by apply tags_show_nospace.
    rewrite trim_space_noop.
    + rewrite tags_parse_show; [done|]. eapply Forall_impl; [done|]. naive_solver.
    + destruct (Message.source m); simpl; [done|]. apply bool_decide_eq_false. set_solver.
Qed.

Lemma parse_source_show m :
  wf_message m →
  Message.parse_source (show_source (Message.source m) ++ Message.command m
                          ++ Message.show_params (Message.params m)) =
  inr (Message.source m, Message.command m ++ Message.show_params (Message.params m)).
Proof.
  intros [_ Hs [Hc Hcs] Hch _ _]. unfold Message.parse_source.
  destruct (Message.command m) as [|c0 cmd] eqn:Ec; [done|].
  destruct (Message.source m) as [s|] eqn:Es.
  - specialize (Hs s eq_refl). cbn [show_source]. rewrite <- app_comm_cons.
    rewrite (proj2 (strip_prefix_char_Some _ _ _) eq_refl).
    rewrite <- app_assoc. cbn [app]. rewrite split_once_app by apply Hs.
    rewrite trim_space_noop; [by rewrite source_parse_show|].
    simpl. apply bool_decide_eq_false. set_solver.
  - cbn [show_source app]. rewrite strip_prefix_char_None; [done|].
    cbn [starts_with_char]. by apply Hch.
Qed.

Lemma show_params_length ps : (length ps <= length (Message.show_params ps))%nat.
Proof.
  induction ps as [|p [|q ps] IH]; [done| |].
  - simpl. destruct (Message.needs_marker p); simpl; lia.
  - rewrite show_params_cons by done. simpl length in *. rewrite length_app. lia.
Qed.

Lemma parse_params_show ps p :
  Forall wf_middle ps →
  ∀ r, Message.show_params (ps ++ [p]) = chSPACE :: r →
  Message.parse_params (S (length r)) r = ps ++ [p].
Proof.
  intros Hp r Hr. pose proof (show_params_length (ps ++ [p])) as Hl.
  rewrite (params_fuel _ (S (S (length (Message.show_params (ps ++ [p])))))).
  - rewrite <- parse_params_space, <- Hr.
    apply parse_show_params; [done|]. rewrite length_app in Hl. simpl in Hl. lia.
  - lia.
  - rewrite Hr. simpl. lia.
Qed.

Lemma parse_show (m : Message.t) :
  wf_message m → Message.parse (Message.show m) = inr m.
Proof.
  intros Hwf. unfold Message.parse.
  rewrite trim_end_noop by by apply show_ends_clean.
  rewrite parse_tags_show, parse_source_show by done.
  destruct Hwf as [_ _ [Hc Hcs] _ Hp _].
  destruct m as [tags source command params]; cbn [Message.tags Message.source Message.command Message.params] in *.
  destruct params as [|p ps _] using rev_ind.
  - simpl. rewrite app_nil_r, (proj2 (split_once_None _ _)) by done. by destruct command.
  - destruct (show_params_head (ps ++ [p])) as [r Hr]; [apply snoc_not_nil|].
    rewrite Hr, split_once_app by done. destruct command; [done|].
    rewrite (parse_params_show ps p); eauto.
Qed.

(** A message whose parts use no delimiter out of place is read back exactly from
    the line written for it. *)
Theorem message_parse_show (m : Message.t) :
  wf_message m → Message.parse (Message.show m) = inr m.
Proof. apply parse_show. Qed.

Definition sample_message : Message.t :=
  Message.mk [Tag.new "msgid" "a;b"; Tag.flag "+draft"]
    (Some (Source.mk "nick" (Some (lit "user")) (Some (lit "host"))))
    "PRIVMSG" [lit "#chan"; lit "hello: world"].

Lemma message_parse_show_witness :
  Message.parse "@msgid=a\:b;+draft :nick!user@host PRIVMSG #chan :hello: world"
  = inr sample_message.
Proof.
  apply (message_parse_show sample_message). split.
  - apply (Forall_cons_2 _ _ _); [|apply Forall_singleton];
      unfold wf_tag; split_and!; try (apply (bool_decide_unpack _); vm_compute; exact I).
    all: first [discriminate | left; discriminate].
  - intros s [= <-]. unfold wf_source. simpl.
    split_and!; apply (bool_decide_unpack _); vm_compute; exact I.
  - split; [discriminate|]. apply (bool_decide_unpack _). vm_compute. exact I.
  - discriminate.
  - intros ps p. change (Message.params sample_message) with ([lit "#chan"] ++ [lit "hello: world"]).
    intros [<- _]%app_inj_tail. apply Forall_singleton. unfold wf_middle.
    split_and!; [discriminate| |reflexivity]. apply (bool_decide_unpack _). vm_compute. exact I.
  - intros c. vm_compute. by intros [= <-].
Defined.

(** ** What the parser can produce *)

Lemma starts_with_strip_None c t : strip_prefix_char c t = None → starts_with_char c t = false.
Proof.
  destruct t as [|d t]; simpl; [done|]. case_decide; [done|]. by rewrite bool_decide_eq_false_2.
Qed.

Lemma trim_space_starts t : starts_with_char chSPACE (trim_start_matches Message.is_space t) = false.
Proof.
  pose proof (trim_start_head Message.is_space t) as H.
  destruct (trim_start_matches _ t) as [|c r]; [done|]. specialize (H c eq_refl).
  unfold Message.is_space in H. simpl. done.
Qed.

Lemma parse_params_shape fuel rest ps p :
  Message.parse_params fuel rest = ps ++ [p] → Forall wf_middle ps.
Proof.
  revert rest ps. induction fuel as [|fuel IH]; intros rest ps; cbn [Message.parse_params].
  { by destruct ps. }
  pose proof (trim_space_starts rest) as Hsp.
  assert (∀ q, [q] = ps ++ [p] → Forall wf_middle ps) as Hone.
  { intros q. destruct ps as [|x [|y ps]]; [constructor|intros [=]|intros [=]]. }
  destruct (trim_start_matches _ rest) as [|c r] eqn:E; [by destruct ps|].
  destruct (strip_prefix_char _ _) eqn:Ec; [by apply Hone|].
  destruct (split_once chSPACE (c :: r)) as [[a b]|] eqn:Es; [|by apply Hone].
  destruct ps as [|q ps]; [constructor|]. intros [= <- Hps].
  constructor; [|by eapply IH].
  apply split_once_Some in Es as [Er Ha]. apply starts_with_strip_None in Ec.
  destruct a as [|d a]; simpl in *; simplify_eq; done.
Qed.

Lemma trim_space_split t :
  ∃ spaces, t = spaces ++ trim_start_matches Message.is_space t ∧ Forall (eq chSPACE) spaces.
Proof.
  destruct (trim_start_suffix Message.is_space t) as (sp & Ht & Hsp).
  exists sp. split; [done|]. eapply Forall_impl; [exact Hsp|].
  intros c Hc. symmetry. unfold Message.is_space in Hc. by apply bool_decide_unpack in Hc.
Qed.

(** The rest of a line after its tags in which no command is found. *)
Inductive no_command : text → Prop :=
  | no_command_nil : no_command []
  | no_command_space tail : no_command (chSPACE :: tail)
  | no_command_source raw : chSPACE ∉ raw → no_command (chCOLON :: raw)
  | no_command_after raw spaces :
      Forall (eq chSPACE) spaces → no_command (chCOLON :: raw ++ chSPACE :: spaces).

(** A line in which no command is found. *)
Inductive refused : text → Prop :=
  | refused_tags raw : chSPACE ∉ raw → refused (chAT :: raw)
  | refused_rest rest : no_command rest → refused rest
  | refused_after raw spaces rest :
      Forall (eq chSPACE) spaces → no_command rest →
      refused (chAT :: raw ++ chSPACE :: spaces ++ rest).

Definition parsed_shape (m : Message.t) : Prop :=
  Message.command m ≠ [] ∧ chSPACE ∉ Message.command m
  ∧ ∀ ps p, Message.params m = ps ++ [p] → Forall wf_middle ps.

Lemma parse_source_inl rest e : Message.parse_source rest = inl e → no_command rest.
Proof.
  unfold Message.parse_source. destruct (strip_prefix_char chCOLON rest) as [after|] eqn:Ec; [|done].
  apply strip_prefix_char_Some in Ec as ->.
  destruct (split_once chSPACE after) as [[raw remainder]|] eqn:Es; [done|].
  intros _. by apply no_command_source, split_once_None.
Qed.

Lemma parse_source_inr rest source rest' :
  Message.parse_source rest = inr (source, rest') →
  (rest' = [] ∨ (∃ t, rest' = chSPACE :: t)) → no_command rest.
Proof.
  unfold Message.parse_source. destruct (strip_prefix_char chCOLON rest) as [after|] eqn:Ec.
  - apply strip_prefix_char_Some in Ec as ->.
    destruct (split_once chSPACE after) as [[raw remainder]|] eqn:Es; [|done].
    apply split_once_Some in Es as [-> _]. intros [= _ <-].
    pose proof (trim_space_starts remainder) as Hst.
    destruct (trim_space_split remainder) as (sp & Hr & Hsp).
    intros [E|[t E]]; rewrite E in *; [|done].
    rewrite Hr, app_nil_r. by apply no_command_after.
  - intros [= _ ->] [-> | [t ->]]; constructor.
Qed.

(** C33. Every line the parser accepts has a command that is one word, and only its last
    parameter can be empty, hold a space or start with a colon; a line it refuses
    has a tag section or a source that nothing but spaces follows, or starts with
    nothing at all where the command should be. *)
Theorem message_parse_shape (line : text) :
  match Message.parse line with
  | inr m => parsed_shape m
  | inl MissingCommand => refused (trim_end_matches Message.is_line_end line)
  end.
Proof.
  unfold Message.parse. set (l := trim_end_matches _ line).
  assert (∀ tags rest, Message.parse_tags l = inr (tags, rest) → no_command rest → refused l) as Href.
  { unfold Message.parse_tags. intros tags rest.
    destruct (strip_prefix_char chAT l) as [after|] eqn:Ea.
    - apply strip_prefix_char_Some in Ea as ->.
      destruct (split_once chSPACE after) as [[raw remainder]|] eqn:Es; [|done].
      apply split_once_Some in Es as [-> _]. intros [= _ <-].
      destruct (trim_space_split remainder) as (sp & Hr & Hsp). rewrite Hr at 2.
      by apply refused_after.
    - intros [= _ <-]. apply refused_rest. }
  destruct (Message.parse_tags l) as [[]|[tags rest]] eqn:Et.
  - unfold Message.parse_tags in Et. repeat case_match; simplify_eq.
    rename H into Ea, H0 into Es.
    apply strip_prefix_char_Some in Ea as ->. by apply refused_tags, split_once_None.
  - specialize (Href _ _ eq_refl).
    destruct (Message.parse_source rest) as [[]|[source rest']] eqn:Eso.
    { by eapply Href, parse_source_inl. }
    destruct (split_once chSPACE rest') as [[cmd rest1]|] eqn:Es.
    + apply split_once_Some in Es as [-> Hn]. destruct cmd.
      * eapply Href, parse_source_inr; [done|]. right. by eexists.
      * split_and!; [done..|]. intros. by eapply parse_params_shape.
    + apply split_once_None in Es. destruct rest' as [|c r].
      * eapply Href, parse_source_inr; [done|]. by left.
      * split_and!; [done..|]. intros. by eapply parse_params_shape.
Qed.
