(* ===== verification/ServerTime.v ===== *)
(** * The [server-time] tag (src/crates/obby-proto/src/servertime.rs)

    [parse] reads an instant to milliseconds since the epoch and [format] writes
    one. The calendar is Hinnant's, in the source's own integer arithmetic: [i64]
    division truncates ([Z.quot]), the [u64] one is [Z.div] on non-negative
    numbers. *)
From S2P Require Import Prelude.

Module ServerTime.
(* obby-proto/src/servertime.rs 92-101 days_from_civil *)
Definition days_from_civil (year month day : Z) : Z :=
  let year := if decide (month <= 2) then year - 1 else year in
  let era := Z.quot (if decide (year >= 0) then year else year - 399) 400 in
  let year_of_era := year - era * 400 in
  let shifted_month := if decide (month > 2) then month - 3 else month + 9 in
  let day_of_year := Z.quot (153 * shifted_month + 2) 5 + day - 1 in
  let day_of_era :=
    year_of_era * 365 + Z.quot year_of_era 4 - Z.quot year_of_era 100 + day_of_year in
  era * 146097 + day_of_era - 719468.

(* obby-proto/src/servertime.rs 107-123 civil_from_days *)
Definition civil_from_days (days : Z) : Z * Z * Z :=
  let era_days := days + 719468 in
  let era := era_days / 146097 in
  let day_of_era := era_days mod 146097 in
  let year_of_era :=
    (day_of_era - day_of_era / 1460 + day_of_era / 36524 - day_of_era / 146096) / 365 in
  let day_of_year := day_of_era - (365 * year_of_era + year_of_era / 4 - year_of_era / 100) in
  let shifted_month := (5 * day_of_year + 2) / 153 in
  let day := day_of_year - (153 * shifted_month + 2) / 5 + 1 in
  let month := if decide (shifted_month < 10) then shifted_month + 3 else shifted_month - 9 in
  let year := year_of_era + era * 400 + (if decide (month <= 2) then 1 else 0) in
  (year, month, day).

(* obby-proto/src/servertime.rs 74-86 millis_from_fraction *)
Definition millis_from_fraction (fraction : text) : option Z :=
  if negb (forallb is_ascii_digit fraction) then None
  else
    let digits := if decide (3 <= length fraction)%nat then take 3 fraction else fraction in
    value ← parse_u16 digits;
    Some (match length digits with
          | 0%nat => 0
          | 1%nat => value * 100
          | 2%nat => value * 10
          | _ => value
          end).

(* obby-proto/src/servertime.rs 21-33 parse *)
Definition parse_date (date : text) : option (Z * Z * Z) :=
  match split_char chMINUS date with
  | [y; m; d] =>
      year ← parse_i64 y; month ← parse_u32 m; day ← parse_u32 d;
      if decide ((1 <= year <= 9999) ∧ (1 <= month <= 12) ∧ (1 <= day <= 31))
      then Some (year, month, day) else None
  | _ => None
  end.

(* obby-proto/src/servertime.rs 36-42 parse *)
Definition parse_clock (clock : text) : option Z :=
  match split_char chCOLON clock with
  | [h; m; s] =>
      hour ← parse_u64 h; minute ← parse_u64 m; second ← parse_u64 s;
      if decide (hour > 23 ∨ minute > 59 ∨ second > 60) then None
      else Some (hour * 3600 + minute * 60 + second)
  | _ => None
  end.

(* obby-proto/src/servertime.rs 17-53 parse *)
Definition parse (value : text) : option Z :=
  '(date, rest) ← split_once 84%N value;
  time ← strip_suffix_char 90%N rest;
  '(year, month, day) ← parse_date date;
  let '(clock, fraction) :=
    match split_once chDOT time with Some p => p | None => (time, lit "0") end in
  second_of_day ← parse_clock clock;
  millis ← millis_from_fraction fraction;
  let days := days_from_civil year month day in
  seconds ← checked_i64 (days * 86400);
  seconds ← checked_i64 (seconds + second_of_day);
  ms ← checked_i64 (seconds * 1000);
  ms ← checked_i64 (ms + millis);
  if decide (0 <= ms) then Some ms else None.

(* obby-proto/src/servertime.rs 59-72 format *)
Definition format (unix_ms : Z) : text :=
  let seconds := unix_ms / 1000 in
  let millis := unix_ms mod 1000 in
  let days := seconds / 86400 in
  let second_of_day := seconds mod 86400 in
  let '(year, month, day) := civil_from_days days in
  show_padded 4 year ++ chMINUS :: show_padded 2 month ++ chMINUS :: show_padded 2 day
  ++ 84%N :: show_padded 2 (second_of_day / 3600)
  ++ chCOLON :: show_padded 2 ((second_of_day / 60) mod 60)
  ++ chCOLON :: show_padded 2 (second_of_day mod 60)
  ++ chDOT :: show_padded 3 millis ++ [90%N].
End ServerTime.

Example servertime_example :
  ServerTime.parse "2026-09-06T10:00:00.000Z" = Some 1788688800000.
Proof. reflexivity. Qed.

(** ** The calendar, one era at a time *)

(** The fields [civil_from_days] computes from the day of a 400-year era. *)
Definition era_fields (doe : Z) : Z * Z * Z :=
  let yoe := (doe - doe / 1460 + doe / 36524 - doe / 146096) / 365 in
  let doy := doe - (365 * yoe + yoe / 4 - yoe / 100) in
  let sm := (5 * doy + 2) / 153 in
  (yoe, sm, doy - (153 * sm + 2) / 5 + 1).

(** The shifted month and the day of the month, from the day of the shifted year. *)
Definition month_check (doy : Z) : bool :=
  let sm := (5 * doy + 2) / 153 in
  let day := doy - (153 * sm + 2) / 5 + 1 in
  (0 <=? sm) && (sm <? 12) && (1 <=? day) && (day <=? 31) && ((305 <? doy) || (sm <? 10)).

(** Every day of a year, by computation. *)
Lemma month_check_all : check_below 366 month_check = true.
Proof. vm_compute. reflexivity. Qed.

(** The year of an era leaves a day of the year between 0 and 365. *)
Lemma year_of_era_ok doe :
  0 <= doe < 146097 →
  let yoe := (doe - doe / 1460 + doe / 36524 - doe / 146096) / 365 in
  0 <= yoe < 400 ∧ 0 <= doe - (365 * yoe + yoe / 4 - yoe / 100) <= 365.
Proof.
  intros Hd.
  assert (∃ a, doe / 1460 = a ∧ 1460 * a <= doe < 1460 * a + 1460) as (a & Ea & Ha)
    by (eexists; split; [done|]; Z.to_euclidean_division_equations; lia).
  assert (∃ b, doe / 36524 = b ∧ 36524 * b <= doe < 36524 * b + 36524) as (b & Eb & Hb)
    by (eexists; split; [done|]; Z.to_euclidean_division_equations; lia).
  assert (∃ c, doe / 146096 = c ∧ 146096 * c <= doe < 146096 * c + 146096) as (c & Ec & Hc)
    by (eexists; split; [done|]; Z.to_euclidean_division_equations; lia).
  rewrite Ea, Eb, Ec. intros yoe.
  assert (365 * yoe <= doe - a + b - c < 365 * yoe + 365)
    by (subst yoe; Z.to_euclidean_division_equations; lia).
  assert (4 * (yoe / 4) <= yoe < 4 * (yoe / 4) + 4 ∧ 100 * (yoe / 100) <= yoe < 100 * (yoe / 100) + 100)
    as [H4 H100] by (clearbody yoe; Z.to_euclidean_division_equations; lia).
  clearbody yoe. revert H4 H100. generalize (yoe / 4), (yoe / 100). intros d e H4 H100.
  assert (b = 0 ∨ b = 1 ∨ b = 2 ∨ b = 3 ∨ b = 4) as Hb' by lia.
  assert (c = 0 ∨ c = 1) as [-> | ->] by lia;
    destruct Hb' as [-> |[-> |[-> |[-> | ->]]]]; lia.
Qed.

Record era_ok (doe yoe sm day : Z) : Prop := {
  era_yoe : 0 <= yoe < 400;
  era_sm : 0 <= sm < 12;
  era_day : 1 <= day <= 31;
  era_inv : yoe * 365 + yoe / 4 - yoe / 100 + ((153 * sm + 2) / 5 + day - 1) = doe;
  era_last : doe <= 146036 → sm < 10 ∨ yoe < 399;
}.

Lemma era_fields_ok doe :
  0 <= doe < 146097 → ∃ yoe sm day, era_fields doe = (yoe, sm, day) ∧ era_ok doe yoe sm day.
Proof.
  intros H. pose proof (year_of_era_ok doe H) as [Hy Hdoy]. unfold era_fields.
  cbv zeta in *. set (yoe := (doe - doe / 1460 + doe / 36524 - doe / 146096) / 365) in *.
  set (doy := doe - (365 * yoe + yoe / 4 - yoe / 100)) in *.
  pose proof (check_below_spec _ _ doy month_check_all ltac:(lia)) as Hc.
  unfold month_check in Hc. eexists _, _, _; split; [done|].
  set (sm := (5 * doy + 2) / 153) in *.
  rewrite !andb_true_iff, !orb_true_iff, !Z.leb_le, !Z.ltb_lt in Hc.
  split; [lia..| |].
  - lia.
  - intros Hl. destruct (decide (yoe < 399)); [auto|]. left.
    assert (yoe = 399) as E by lia.
    assert (yoe / 4 = 99 ∧ yoe / 100 = 3) as [E4 E100] by by rewrite E.
    assert (doy <= 305) by (unfold doy; lia). lia.
Qed.

Lemma civil_from_days_era days yoe sm day :
  era_fields ((days + 719468) mod 146097) = (yoe, sm, day) →
  ServerTime.civil_from_days days =
    (yoe + (days + 719468) / 146097 * 400 + (if decide (sm < 10) then 0 else 1),
     if decide (sm < 10) then sm + 3 else sm - 9, day) ∨ sm < 0 ∨ 12 <= sm.
Proof.
  unfold era_fields, ServerTime.civil_from_days. intros [= Hy Hs Hd].
  rewrite Hy in *. rewrite Hs in *. rewrite Hd.
  destruct (decide (0 <= sm < 12)); [left|lia].
  destruct (decide (sm < 10)); [rewrite decide_False by lia|rewrite decide_True by lia]; done.
Qed.

Lemma civil_days_ok days :
  0 <= days →
  ∃ year month day, ServerTime.civil_from_days days = (year, month, day)
    ∧ ServerTime.days_from_civil year month day = days
    ∧ 1 <= year ∧ 1 <= month <= 12 ∧ 1 <= day <= 31
    ∧ (days <= 2932896 → year <= 9999).
Proof.
  intros Hd. set (e := days + 719468).
  pose proof (Z.div_mod e 146097 ltac:(lia)) as Hdm.
  pose proof (Z.mod_pos_bound e 146097 ltac:(lia)) as Hm.
  destruct (era_fields_ok (e mod 146097) Hm) as (yoe & sm & day & Hf & [Hy Hs Hday Hinv Hlast]).
  destruct (civil_from_days_era _ _ _ _ Hf) as [Hc|Hbad]; [|lia].
  eexists _, _, _; split; [exact Hc|]. fold e.
  set (era := e / 146097) in *. assert (1 <= era * 400 + yoe) as Hpos.
  { assert (4 <= era); [|lia]. unfold era, e. apply Z.div_le_lower_bound; lia. }
  split_and!; [|destruct (decide (sm < 10)); lia..|].
  - unfold ServerTime.days_from_civil.
    assert (∀ s : Z, s = sm → Z.quot (153 * s + 2) 5 = (153 * sm + 2) / 5) as Hq.
    { intros s ->. apply Z.quot_div_nonneg; lia. }
    assert (Z.quot (yoe + era * 400) 400 = era) as He.
    { rewrite Z.quot_div_nonneg by lia. rewrite Z.div_add by lia. rewrite Z.div_small; lia. }
    assert (yoe + era * 400 - era * 400 = yoe) as Hy' by lia.
    assert (Z.quot yoe 4 = yoe / 4 ∧ Z.quot yoe 100 = yoe / 100) as [H4 H100].
    { split; apply Z.quot_div_nonneg; lia. }
    destruct (decide (sm < 10)).
    + rewrite (decide_False (P := sm + 3 <= 2)), (decide_True (P := sm + 3 > 2)) by lia.
      rewrite decide_True by lia. rewrite (Hq (sm + 3 - 3)) by lia.
      rewrite Z.add_0_r, He, Hy', H4, H100. unfold era in *. lia.
    + rewrite (decide_True (P := sm - 9 <= 2)), (decide_False (P := sm - 9 > 2)) by lia.
      rewrite decide_True by lia. rewrite (Hq (sm - 9 + 9)) by lia.
      replace (yoe + era * 400 + 1 - 1) with (yoe + era * 400) by lia.
      rewrite He, Hy', H4, H100. unfold era in *. lia.
  - intros Hle. assert (era < 25) by (unfold era, e; apply Z.div_lt_upper_bound; lia).
    destruct (decide (sm < 10)); [lia|]. destruct (decide (era = 24)); lia.
Qed.

(** ** Reading a written instant back *)

Lemma parse_i64_padded w z :
  0 <= z <= i64_max → parse_i64 (show_padded w z) = Some z.
Proof.
  intros Hz. unfold parse_i64.
  pose proof (show_padded_digits w z ltac:(lia)) as Hd.
  pose proof (parse_show_padded i64_max w z Hz) as Hp.
  destruct (show_padded w z) as [|c [|d t]]; [done..|].
  rewrite decide_False; [done|]. intros ->. by inversion Hd.
Qed.

Lemma padded_notin w z c : 0 <= z → is_ascii_digit c = false → c ∉ show_padded w z.
Proof. intros Hz Hc. eapply digits_notin, show_padded_digits; done. Qed.

Lemma parse_date_show year month day :
  1 <= year <= 9999 → 1 <= month <= 12 → 1 <= day <= 31 →
  ServerTime.parse_date
    (show_padded 4 year ++ chMINUS :: show_padded 2 month ++ chMINUS :: show_padded 2 day)
  = Some (year, month, day).
Proof.
  intros Hy Hm Hd. unfold ServerTime.parse_date.
  rewrite split_char_app, split_char_app, split_char_nosep by (by apply padded_notin; [lia|]).
  rewrite parse_i64_padded by (unfold i64_max; lia). cbn [mbind option_bind].
  unfold parse_u32. rewrite !parse_show_padded by (unfold u32_max; lia). cbn [mbind option_bind].
  by rewrite decide_True.
Qed.

Lemma parse_clock_show h m s :
  0 <= h <= 23 → 0 <= m <= 59 → 0 <= s <= 60 →
  ServerTime.parse_clock
    (show_padded 2 h ++ chCOLON :: show_padded 2 m ++ chCOLON :: show_padded 2 s)
  = Some (h * 3600 + m * 60 + s).
Proof.
  intros Hh Hm Hs. unfold ServerTime.parse_clock.
  rewrite split_char_app, split_char_app, split_char_nosep by (by apply padded_notin; [lia|]).
  unfold parse_u64. rewrite !parse_show_padded by (unfold u64_max; lia). cbn [mbind option_bind].
  rewrite decide_False by lia. done.
Qed.

Lemma millis_check : check_below 1000 (λ z,
  bool_decide (ServerTime.millis_from_fraction (show_padded 3 z) = Some z)) = true.
Proof. vm_compute. reflexivity. Qed.

Lemma millis_show z :
  0 <= z < 1000 → ServerTime.millis_from_fraction (show_padded 3 z) = Some z.
Proof.
  intros Hz. pose proof (check_below_spec _ _ z millis_check ltac:(lia)) as H.
  by apply bool_decide_eq_true in H.
Qed.

Lemma checked_i64_ok z : i64_min <= z <= i64_max → checked_i64 z = Some z.
Proof. intros. unfold checked_i64. by rewrite decide_True. Qed.

(** Every millisecond up to the end of the year 9999 is written so that it reads
    back exactly, with every field in its calendar range on the way. *)
Theorem servertime_parse_format (ms : Z) :
  0 <= ms <= 253402300799999 → ServerTime.parse (ServerTime.format ms) = Some ms.
Proof.
  intros Hms. unfold ServerTime.format.
  set (s := ms / 1000). set (d := s / 86400). set (r := s mod 86400).
  pose proof (Z.div_mod ms 1000 ltac:(lia)) as E1. fold s in E1.
  pose proof (Z.mod_pos_bound ms 1000 ltac:(lia)) as B1.
  pose proof (Z.div_mod s 86400 ltac:(lia)) as E2. fold d r in E2.
  pose proof (Z.mod_pos_bound s 86400 ltac:(lia)) as B2. fold r in B2.
  generalize dependent (ms mod 1000). intros f E1 B1.
  destruct (civil_days_ok d) as (y & m & day & -> & Hinv & Hy & Hm & Hday & Hmax); [lia|].
  specialize (Hmax ltac:(lia)).
  assert (r / 3600 * 3600 + (r / 60) mod 60 * 60 + r mod 60 = r
    ∧ 0 <= r / 3600 <= 23 ∧ 0 <= (r / 60) mod 60 <= 59 ∧ 0 <= r mod 60 <= 60) as (Hr & Bh & Bm & Bs).
  { Z.to_euclidean_division_equations. lia. }
  unfold ServerTime.parse.
  replace (show_padded 4 y ++ _) with
    ((show_padded 4 y ++ chMINUS :: show_padded 2 m ++ chMINUS :: show_padded 2 day)
     ++ 84%N :: (((show_padded 2 (r / 3600) ++ chCOLON :: show_padded 2 ((r / 60) mod 60)
        ++ chCOLON :: show_padded 2 (r mod 60)) ++ chDOT :: show_padded 3 f) ++ [90%N])).
  2:{ repeat first [rewrite <- app_assoc | progress cbn [app]]. done. }
  assert (∀ w z c, 0 <= z → is_ascii_digit c = false → c ∉ show_padded w z) as Hni
    by (intros; by apply padded_notin).
  rewrite split_once_app.
  2:{ rewrite !not_elem_of_app, !not_elem_of_cons, !not_elem_of_app, not_elem_of_cons.
      split_and!; try done; apply Hni; done || lia. }
  cbn [mbind option_bind]. rewrite (proj2 (strip_suffix_char_Some _ _ _) eq_refl).
  cbn [mbind option_bind]. rewrite parse_date_show by lia. cbn [mbind option_bind].
  rewrite split_once_app.
  2:{ rewrite !not_elem_of_app, !not_elem_of_cons, !not_elem_of_app, not_elem_of_cons.
      split_and!; try done; apply Hni; done || lia. }
  rewrite parse_clock_show, millis_show by lia. cbn [mbind option_bind].
  rewrite Hinv, Hr.
  rewrite !checked_i64_ok by (unfold i64_min, i64_max; lia). cbn [mbind option_bind].
  rewrite !checked_i64_ok by (unfold i64_min, i64_max; lia). cbn [mbind option_bind].
  rewrite !checked_i64_ok by (unfold i64_min, i64_max; lia). cbn [mbind option_bind].
  rewrite !checked_i64_ok by (unfold i64_min, i64_max; lia). cbn [mbind option_bind].
  rewrite decide_True by lia. f_equal. lia.
Qed.

Lemma servertime_parse_format_witness :
  ServerTime.parse "2026-09-06T10:00:00.123Z" = Some 1788688800123.
Proof. apply (servertime_parse_format 1788688800123). lia. Defined.

(** ** Bounds *)

Lemma days_from_civil_upper year month day :
  1 <= year <= 9999 → 1 <= month <= 12 → 1 <= day <= 31 →
  -719162 <= ServerTime.days_from_civil year month day <= 2932896.
Proof.
  intros Hy Hm Hd. unfold ServerTime.days_from_civil.
  rewrite (decide_True (P := _ >= 0)) by (case_decide; lia).
  repeat case_decide; try lia.
  all: match goal with |- context [Z.quot ?y 400] =>
    pose proof (Z.quot_div_nonneg y 400 ltac:(lia) ltac:(lia)) as ->;
    pose proof (Z.div_mod y 400 ltac:(lia)); pose proof (Z.mod_pos_bound y 400 ltac:(lia));
    replace (y - y / 400 * 400) with (y mod 400) by lia;
    generalize dependent (y / 400); generalize dependent (y mod 400) end.
  all: intros yoe Hb era He; Z.to_euclidean_division_equations; lia.
Qed.

Lemma parse_date_range date year month day :
  ServerTime.parse_date date = Some (year, month, day) →
  1 <= year <= 9999 ∧ 1 <= month <= 12 ∧ 1 <= day <= 31.
Proof.
  unfold ServerTime.parse_date. destruct (split_char _ _) as [|y [|m [|d [|]]]]; try done.
  intros (? & _ & (? & _ & (? & _ & H)%bind_Some)%bind_Some)%bind_Some.
  case_decide; by simplify_eq.
Qed.

Lemma parse_clock_range clock s : ServerTime.parse_clock clock = Some s → 0 <= s <= 86400.
Proof.
  unfold ServerTime.parse_clock. destruct (split_char _ _) as [|h [|m [|x [|]]]]; try done.
  intros (? & Hh%parse_u10_bound & (? & Hm%parse_u10_bound & (? & Hs%parse_u10_bound & H)%bind_Some)%bind_Some)%bind_Some.
  case_decide; simplify_eq. lia.
Qed.

Lemma millis_range fraction ms : ServerTime.millis_from_fraction fraction = Some ms → 0 <= ms <= 999.
Proof.
  unfold ServerTime.millis_from_fraction. destruct (forallb _ _) eqn:Ef; [|done]. cbn [negb].
  set (digits := if decide _ then _ else _).
  assert (Forall (λ c, is_ascii_digit c = true) digits ∧ (length digits <= 3)%nat) as [Hd Hl].
  { rewrite forallb_forall in Ef.
    assert (Forall (λ c, is_ascii_digit c = true) fraction) as Hf.
    { apply Forall_forall. intros c Hc. by apply Ef, list_elem_of_In. }
    subst digits. case_decide; [|split; [done|lia]].
    split; [by apply Forall_take|]. rewrite length_take. lia. }
  clearbody digits. intros (v & Hv & [= <-])%bind_Some.
  apply parse_u10_length in Hv; [|done].
  destruct digits as [|? [|? [|? [|]]]]; simpl in *; lia.
Qed.

Lemma checked_i64_Some z z' : checked_i64 z = Some z' → z' = z.
Proof. unfold checked_i64. case_decide; naive_solver. Qed.

(** A value that is read at all lies between the epoch and the leap second that ends
    the year 9999, so no caller sees a wrapped or a negative instant. *)
Theorem servertime_parse_bounds (value : text) (ms : Z) :
  ServerTime.parse value = Some ms → 0 <= ms <= 253402300800999.
Proof.
  unfold ServerTime.parse.
  intros ([date rest] & _ & (time & _ & ([[year month] day] & Hd%parse_date_range & H)%bind_Some)%bind_Some)%bind_Some.
  destruct (match split_once chDOT time with Some p => p | None => _ end) as [clock fraction].
  apply bind_Some in H as (s & Hs%parse_clock_range & (f & Hf%millis_range & H)%bind_Some).
  apply bind_Some in H as (? & ->%checked_i64_Some & H).
  apply bind_Some in H as (? & ->%checked_i64_Some & H).
  apply bind_Some in H as (? & ->%checked_i64_Some & H).
  apply bind_Some in H as (? & ->%checked_i64_Some & H).
  pose proof (days_from_civil_upper year month day). case_decide; simplify_eq. lia.
Qed.

Lemma servertime_parse_bounds_witness :
  ServerTime.parse "9999-12-31T23:59:60.999Z" = Some 253402300800999
  ∧ 0 <= 253402300800999 <= 253402300800999.
Proof.
  split; [vm_compute; reflexivity|].
  apply (servertime_parse_bounds "9999-12-31T23:59:60.999Z"). vm_compute. reflexivity.
Defined.

(** A day that its month does not have is read as the day of the next month it
    overflows to, and a field may carry a plus sign. *)
Theorem servertime_reads_impossible_dates :
  ServerTime.parse "2026-02-31T00:00:00Z" = ServerTime.parse "2026-03-03T00:00:00.000Z"
  ∧ ServerTime.parse "+2026-+2-3T0:0:+0Z" = ServerTime.parse "2026-02-03T00:00:00.000Z"
  ∧ is_Some (ServerTime.parse "2026-02-31T00:00:00Z").
Proof. split_and!; [vm_compute; reflexivity..|vm_compute; by eexists]. Qed.
