(* ===== verification/Isupport.v ===== *)
(** * ISUPPORT tokens and the settings they drive (src/crates/obby-proto/src/isupport.rs)

    [Isupport.t] holds the raw tokens beside the typed views the engine reads; the
    invariant [typed_views] says the views are what the tokens say they are, and
    [apply] keeps it. *)
From S2P Require Import Prelude Utf8 Casemap.

(** [iter().position(..)] on a slice of characters. *)
Definition position (c : char) (l : list char) : option nat :=
  fst <$> list_find (λ x, x = c) l.

Module Prefix.
(* obby-proto/src/isupport.rs 18-22 Prefix *)
Record t := mk { modes : list char; chars : list char }.

#[global] Instance t_eq_dec : EqDecision t.
Proof. solve_decision. Defined.

(* obby-proto/src/isupport.rs 24-31 Default for Prefix *)
Definition default : t := mk "ov" "@+".

(* obby-proto/src/isupport.rs 34-46 Prefix::parse *)
Definition parse (value : text) : option t :=
  inner ← strip_prefix_char 40%N value;
  '(modes, chars) ← split_once 41%N inner;
  if decide (modes = [] ∨ length modes ≠ length chars) then None
  else Some (mk modes chars).

(* obby-proto/src/isupport.rs 48-52 Prefix::char_for_mode *)
Definition char_for_mode (p : t) (mode : char) : option char :=
  index ← position mode (modes p); chars p !! index.
(* obby-proto/src/isupport.rs 54-58 Prefix::mode_for_char *)
Definition mode_for_char (p : t) (prefix : char) : option char :=
  index ← position prefix (chars p); modes p !! index.
(* obby-proto/src/isupport.rs 60-63 Prefix::is_membership_mode *)
Definition is_membership_mode (p : t) (mode : char) : bool := contains_char mode (modes p).
(* obby-proto/src/isupport.rs 65-68 Prefix::rank *)
Definition rank (p : t) (prefix : char) : option nat := position prefix (chars p).

(** [split_at] of the first character that is not a prefix; the offsets of
    [char_indices] are character boundaries, so cutting the text there is cutting
    the characters. *)
(* obby-proto/src/isupport.rs 70-80 Prefix::split *)
Fixpoint split (p : t) (entry : text) : text * text :=
  match entry with
  | c :: rest =>
      if contains_char c (chars p) then
        let '(a, b) := split p rest in (c :: a, b)
      else ([], entry)
  | [] => ([], [])
  end.
End Prefix.

Module ChanModes.
(* obby-proto/src/isupport.rs 83-97 ChanModes *)
Record t := mk { list_ : text; always_arg : text; arg_on_set : text; flag : text }.

#[global] Instance t_eq_dec : EqDecision t.
Proof. solve_decision. Defined.

(* obby-proto/src/isupport.rs 99-108 Default for ChanModes *)
Definition default : t := mk "b" "k" "l" "imnpst".

(* obby-proto/src/isupport.rs 110-121 ChanModes::parse *)
Definition parse (value : text) : t :=
  let parts := split_char chCOMMA value in
  let next i := option.default [] (parts !! i) in
  mk (next 0%nat) (next 1%nat) (next 2%nat) (next 3%nat).
End ChanModes.

(** The escape marker, a backslash and an [x]. *)
Definition escape_marker : text := [chBSLASH; 120%N].

(** [str::get(2..4)] and [get(4..)] of a text that starts with the marker: the two
    characters after it if they are one byte each (a range that cuts a character, or
    runs past the end, gives [None]). A two-byte character also fills the range, but
    [from_str_radix] refuses it, as it refuses the two bytes of nothing. *)
Definition hex_pair (after : text) : option (text * text) :=
  match after with
  | a :: b :: rest => if (a <? 128)%N && (b <? 128)%N then Some ([a; b], rest) else None
  | _ => None
  end.

(* obby-proto/src/isupport.rs 290-305 unescape *)
Fixpoint unescape_loop (fuel : nat) (rest : text) : text :=
  match fuel with
  | O => []
  | S fuel =>
      match find_str escape_marker rest with
      | None => rest
      | Some (before, from) =>
          let after := drop 2 from in
          match ('(h, after4) ← hex_pair after; byte ← parse_u8_hex h; Some (byte, after4)) with
          | Some (byte, after4) => before ++ Z.to_N byte :: unescape_loop fuel after4
          | None => before ++ escape_marker ++ unescape_loop fuel after
          end
      end
  end.
(* obby-proto/src/isupport.rs 282-305 unescape *)
Definition unescape (value : text) : text :=
  match find_str escape_marker value with
  | None => value
  | Some _ => unescape_loop (S (length value)) value
  end.

Module Token.
(* obby-proto/src/isupport.rs 135-146 Token *)
Record t := mk { name : text; value : option text; removed : bool }.
End Token.

Module Isupport.
(* obby-proto/src/isupport.rs 124-133 Isupport *)
Record t := mk {
  tokens : gmap text (option text);
  casemapping : Casemapping.t;
  prefix : Prefix.t;
  chanmodes : ChanModes.t;
  chantypes : text;
  statusmsg : text;
}.
Definition default : t :=
  mk ∅ Casemapping.default Prefix.default ChanModes.default [] [].

(* obby-proto/src/isupport.rs 194-216 Isupport::recompute *)
Definition recompute (name : text) (value : option text) (s : t) : t :=
  let 'mk tokens casemapping prefix chanmodes chantypes statusmsg := s in
  if decide (name = "CASEMAPPING") then
    mk tokens (from_option Casemapping.parse Casemapping.default value)
       prefix chanmodes chantypes statusmsg
  else if decide (name = "PREFIX") then
    mk tokens casemapping
       (match value ≫= Prefix.parse with
        | Some p => p
        | None => match value with None => Prefix.default | Some _ => prefix end
        end) chanmodes chantypes statusmsg
  else if decide (name = "CHANMODES") then
    mk tokens casemapping prefix (from_option ChanModes.parse ChanModes.default value)
       chantypes statusmsg
  else if decide (name = "CHANTYPES") then
    mk tokens casemapping prefix chanmodes (option.default [] value) statusmsg
  else if decide (name = "STATUSMSG") then
    mk tokens casemapping prefix chanmodes chantypes (option.default [] value)
  else s.

Definition set_tokens (tokens : gmap text (option text)) (s : t) : t :=
  mk tokens (casemapping s) (prefix s) (chanmodes s) (chantypes s) (statusmsg s).

(* obby-proto/src/isupport.rs 148-192 Isupport::apply *)
Definition apply (token : text) (s : t) : t * Token.t :=
  match strip_prefix_char chMINUS token with
  | Some n =>
      let n := option.default n (head (split_char chEQ n)) in
      (recompute n None (set_tokens (delete n (tokens s)) s), Token.mk n None true)
  | None =>
      match split_once chEQ token with
      | None =>
          (recompute token None (set_tokens (<[token:=None]> (tokens s)) s),
           Token.mk token None false)
      | Some (n, raw) =>
          let '(n, v) :=
            match strip_suffix_char chPLUS n with
            | Some n => (n, option.default [] (mjoin (tokens s !! n)) ++ unescape raw)
            | None => (n, unescape raw)
            end in
          (recompute n (Some v) (set_tokens (<[n:=Some v]> (tokens s)) s),
           Token.mk n (Some v) false)
      end
  end.

(* obby-proto/src/isupport.rs 218-221 Isupport::get *)
Definition get (s : t) (name : text) : option (option text) := tokens s !! name.
(* obby-proto/src/isupport.rs 223-226 Isupport::has *)
Definition has (s : t) (name : text) : bool := bool_decide (is_Some (tokens s !! name)).
(* obby-proto/src/isupport.rs 228-231 Isupport::number *)
Definition number (s : t) (name : text) : option Z := value ← get s name; value ≫= parse_u32.
(* obby-proto/src/isupport.rs 238-241 Isupport::fold *)
Definition fold (s : t) (name : text) : CaseFolded := Casemapping.fold (casemapping s) name.
(* obby-proto/src/isupport.rs 253-264 Isupport::is_channel *)
Definition is_channel (s : t) (name : text) : bool :=
  let types := match chantypes s with [] => lit "#&" | types => types end in
  match name with c :: _ => contains_char c types | [] => false end.
(* obby-proto/src/isupport.rs 266-269 Isupport::is_statusmsg *)
Definition is_statusmsg (s : t) (c : char) : bool := contains_char c (statusmsg s).
(* obby-proto/src/isupport.rs 271-279 Isupport::targmax *)
Definition targmax (s : t) (command : text) : option Z :=
  value ← mjoin (get s "TARGMAX");
  '(_, (_, limit)) ← list_find (λ p, eq_ignore_ascii_case p.1 command = true)
                       (omap (split_once chCOLON) (split_char chCOMMA value));
  parse_u32 limit.
End Isupport.

Example isupport_example :
  let s := (Isupport.apply "PREFIX=(qaohv)~&@%+" Isupport.default).1 in
  Prefix.split (Isupport.prefix s) "&@nick" = (lit "&@", lit "nick")
  ∧ Prefix.mode_for_char (Isupport.prefix s) 38%N = Some 97%N.
Proof. by vm_compute. Qed.

(** ** The typed views *)

(** What the raw tokens say a view must be. [PREFIX] alone may differ: a malformed
    value keeps the prefixes that were there, which [prefix_in_force] follows. *)
Record typed_views (s : Isupport.t) : Prop := {
  view_casemapping : Isupport.casemapping s =
    from_option Casemapping.parse Casemapping.default (mjoin (Isupport.get s "CASEMAPPING"));
  view_chanmodes : Isupport.chanmodes s =
    from_option ChanModes.parse ChanModes.default (mjoin (Isupport.get s "CHANMODES"));
  view_chantypes : Isupport.chantypes s = default [] (mjoin (Isupport.get s "CHANTYPES"));
  view_statusmsg : Isupport.statusmsg s = default [] (mjoin (Isupport.get s "STATUSMSG"));
  view_prefix : match mjoin (Isupport.get s "PREFIX") with
    | None => Isupport.prefix s = Prefix.default
    | Some v => ∀ p, Prefix.parse v = Some p → Isupport.prefix s = p
    end;
  view_paired : length (Prefix.modes (Isupport.prefix s)) = length (Prefix.chars (Isupport.prefix s))
                ∧ Prefix.modes (Isupport.prefix s) ≠ [];
}.

Lemma prefix_parse_paired v p :
  Prefix.parse v = Some p → length (Prefix.modes p) = length (Prefix.chars p) ∧ Prefix.modes p ≠ [].
Proof.
  unfold Prefix.parse. intros (inner & _ & ([m c] & _ & H)%bind_Some)%bind_Some.
  case_decide; [done|]. simplify_eq/=. split; [|tauto]. destruct (decide (length m = length c)); tauto.
Qed.

Lemma tokens_recompute n v s : Isupport.tokens (Isupport.recompute n v s) = Isupport.tokens s.
Proof. destruct s. unfold Isupport.recompute. by repeat case_decide. Qed.

(** Setting or removing one token and recomputing keeps the views in step. *)
Lemma typed_views_recompute s n (o : option (option text)) :
  typed_views s →
  typed_views (Isupport.recompute n (mjoin o)
    (Isupport.set_tokens (partial_alter (λ _, o) n (Isupport.tokens s)) s)).
Proof.
  intros [Hcm Hch Hct Hst Hp Hpair]. destruct s as [tk cm pf ch ct st]; simpl in *.
  unfold Isupport.recompute, Isupport.set_tokens, Isupport.get in *; simpl in *.
  assert (∀ k, mjoin (partial_alter (λ _, o) n tk !! k) =
               if decide (n = k) then mjoin o else mjoin (tk !! k)) as Hl.
  { intros k. case_decide; subst; [by rewrite lookup_partial_alter_eq|by rewrite lookup_partial_alter_ne]. }
  repeat case_decide; subst; split; unfold Isupport.get;
    cbn [Isupport.tokens Isupport.casemapping Isupport.prefix Isupport.chanmodes
         Isupport.chantypes Isupport.statusmsg]; rewrite ?Hl;
    rewrite ?decide_True by done; rewrite ?decide_False by done; try done.
  - destruct (mjoin o) as [v|]; simpl; [|done]. intros p Hv. by rewrite Hv.
  - destruct (mjoin o) as [v|]; simpl; [|done].
    destruct (Prefix.parse v) eqn:E; [by eapply prefix_parse_paired|done].
Qed.

Lemma typed_views_default : typed_views Isupport.default.
Proof. by split. Qed.

Lemma typed_views_apply token s : typed_views s → typed_views (Isupport.apply token s).1.
Proof.
  intros Hs. unfold Isupport.apply.
  destruct (strip_prefix_char chMINUS token) as [n|].
  { by apply (typed_views_recompute s _ None). }
  destruct (split_once chEQ token) as [[n raw]|].
  - destruct (match strip_suffix_char chPLUS n with Some _ => _ | None => _ end) as [n' v].
    by apply (typed_views_recompute s n' (Some (Some v))).
  - by apply (typed_views_recompute s token (Some None)).
Qed.

(** *** The prefixes in force *)

Definition after_tokens (toks : list text) : Isupport.t := foldl (λ s token, (Isupport.apply token s).1) Isupport.default toks.
(** What PREFIX was held to be after each of the tokens, [None] where it was not held or had no value. *)
Definition prefix_values (toks : list text) : list (option text) :=
  (λ n, mjoin (Isupport.get (after_tokens (take n toks)) "PREFIX")) <$> seq 1 (length toks).
(** The last value that reads as prefixes since there last was none. *)
Definition prefix_in_force (values : list (option text)) : Prefix.t :=
  foldl (λ p value, match value with None => Prefix.default | Some v => default p (Prefix.parse v) end) Prefix.default values.

Lemma prefix_recompute s n (o : option (option text)) :
  typed_views s →
  let s' := Isupport.recompute n (mjoin o) (Isupport.set_tokens (partial_alter (λ _, o) n (Isupport.tokens s)) s) in
  Isupport.prefix s' = match mjoin (Isupport.get s' "PREFIX") with
                       | None => Prefix.default
                       | Some v => default (Isupport.prefix s) (Prefix.parse v)
                       end.
Proof.
  intros [_ _ _ _ Hp _]. cbv zeta. unfold Isupport.get in *. rewrite tokens_recompute. cbn [Isupport.tokens Isupport.set_tokens].
  destruct (decide (n = lit "PREFIX")) as [-> |Hne].
  - rewrite lookup_partial_alter_eq. destruct s. unfold Isupport.recompute. cbn.
    destruct (mjoin o) as [v|]; [|done]. cbn. by destruct (Prefix.parse v).
  - rewrite lookup_partial_alter_ne by done.
    assert (Isupport.prefix (Isupport.recompute n (mjoin o)
      (Isupport.set_tokens (partial_alter (λ _, o) n (Isupport.tokens s)) s)) = Isupport.prefix s) as ->.
    { destruct s. unfold Isupport.recompute, Isupport.set_tokens. repeat case_decide; done. }
    destruct (mjoin _) as [v|]; [|done]. destruct (Prefix.parse v) as [p|]; [by apply Hp|done].
Qed.

Lemma prefix_apply token s : typed_views s →
  let s' := (Isupport.apply token s).1 in
  Isupport.prefix s' = match mjoin (Isupport.get s' "PREFIX") with
                       | None => Prefix.default
                       | Some v => default (Isupport.prefix s) (Prefix.parse v)
                       end.
Proof.
  intros Hs. unfold Isupport.apply. destruct (strip_prefix_char chMINUS token) as [n|].
  { by apply (prefix_recompute s _ None). }
  destruct (split_once chEQ token) as [[n raw]|].
  - destruct (match strip_suffix_char chPLUS n with Some _ => _ | None => _ end) as [n' v].
    by apply (prefix_recompute s n' (Some (Some v))).
  - by apply (prefix_recompute s token (Some None)).
Qed.

Lemma typed_views_after toks : typed_views (after_tokens toks).
Proof.
  induction toks as [|token toks IH] using rev_ind; [apply typed_views_default|].
  unfold after_tokens. rewrite foldl_app. by apply typed_views_apply.
Qed.

Lemma prefix_values_snoc toks token :
  prefix_values (toks ++ [token]) = prefix_values toks ++ [mjoin (Isupport.get (after_tokens (toks ++ [token])) "PREFIX")].
Proof.
  unfold prefix_values. rewrite length_app. cbn [length]. rewrite Nat.add_1_r, seq_S, fmap_app. f_equal.
  - apply list_fmap_ext. intros i n [-> Hi]%lookup_seq. rewrite take_app_le by lia. done.
  - cbn. by rewrite firstn_all2 by (rewrite length_app; cbn; lia).
Qed.

(** C40. Whatever tokens arrive, in whatever order, repeated, withdrawn or malformed, the
    typed settings are the ones the token map holds, and every prefix mode has its
    prefix character. The prefixes alone look back: a malformed PREFIX leaves in force
    the last one that could be read, until another can be or the token is withdrawn,
    which restores the default. *)
Theorem isupport_views_follow_tokens (toks : list text) :
  typed_views (after_tokens toks) ∧ Isupport.prefix (after_tokens toks) = prefix_in_force (prefix_values toks).
Proof.
  split; [apply typed_views_after|]. induction toks as [|token toks IH] using rev_ind; [done|].
  rewrite prefix_values_snoc. unfold prefix_in_force. rewrite foldl_app. cbn [foldl]. fold (prefix_in_force (prefix_values toks)).
  rewrite <- IH. unfold after_tokens. rewrite foldl_app. cbn [foldl]. fold (after_tokens toks).
  apply (prefix_apply token), typed_views_after.
Qed.

(** ** Values in pieces *)

(** A token name that the grammar reads as one: no equals sign, no leading minus and
    no trailing plus. *)
Definition wf_token_name (n : text) : Prop :=
  chEQ ∉ n ∧ starts_with_char chMINUS n = false ∧ n ≠ [].

Definition append_token (n fragment : text) : text := n ++ chPLUS :: chEQ :: fragment.

Lemma apply_append n fragment s :
  wf_token_name n →
  let s' := (Isupport.apply (append_token n fragment) s).1 in
  let v := default [] (mjoin (Isupport.get s n)) ++ unescape fragment in
  Isupport.tokens s' = <[n := Some v]> (Isupport.tokens s)
  ∧ (Isupport.apply (append_token n fragment) s).2 = Token.mk n (Some v) false.
Proof.
  intros (Heq & Hm & Hne). unfold Isupport.apply, append_token.
  assert (strip_prefix_char chMINUS (n ++ chPLUS :: chEQ :: fragment) = None) as ->.
  { destruct n as [|c n]; [done|]. simpl in *. apply bool_decide_eq_false in Hm. by rewrite decide_False. }
  replace (n ++ chPLUS :: chEQ :: fragment) with ((n ++ [chPLUS]) ++ chEQ :: fragment)
    by by rewrite <- app_assoc.
  rewrite split_once_app by set_solver.
  rewrite (proj2 (strip_suffix_char_Some _ _ _) eq_refl). cbv beta iota.
  cbn [fst snd]. split; [by rewrite tokens_recompute|done].
Qed.

(** A value sent in fragments is the concatenation of the fragments, after whatever
    was already held, and no other token changes. *)
Theorem isupport_append_accumulates (s : Isupport.t) (n : text) (fragments : list text) :
  wf_token_name n → fragments ≠ [] →
  let s' := foldl (λ s fragment, (Isupport.apply (append_token n fragment) s).1) s fragments in
  Isupport.get s' n =
    Some (Some (default [] (mjoin (Isupport.get s n)) ++ concat (unescape <$> fragments)))
  ∧ ∀ k, k ≠ n → Isupport.get s' k = Isupport.get s k.
Proof.
  intros Hn Hne. cbv zeta.
  assert (∀ l, mjoin (Isupport.get (foldl (λ s fragment, (Isupport.apply (append_token n fragment) s).1) s l) n)
      = (if decide (l = []) then mjoin (Isupport.get s n)
         else Some (default [] (mjoin (Isupport.get s n)) ++ concat (unescape <$> l)))
    ∧ (l ≠ [] → is_Some (Isupport.get (foldl (λ s fragment, (Isupport.apply (append_token n fragment) s).1) s l) n))
    ∧ ∀ k, k ≠ n → Isupport.get (foldl (λ s fragment, (Isupport.apply (append_token n fragment) s).1) s l) k
             = Isupport.get s k) as Hall.
  { induction l as [|x l (IHn & _ & IHo)] using rev_ind; [done|].
    rewrite foldl_app. cbn [foldl].
    destruct (apply_append n x (foldl (λ s fragment, (Isupport.apply (append_token n fragment) s).1) s l) Hn)
      as [Ht _]. unfold Isupport.get in *. rewrite Ht, lookup_insert_eq.
    rewrite decide_False by by destruct l. split_and!; [|by eexists|].
    - simpl. f_equal. rewrite fmap_app, concat_app. simpl. rewrite app_nil_r.
      rewrite IHn. case_decide; subst; simpl; [done|by rewrite app_assoc].
    - intros k Hk. rewrite lookup_insert_ne by done. by apply IHo. }
  destruct (Hall fragments) as (Hv & Hs & Ho). split; [|done].
  rewrite decide_False in Hv by done. destruct (Hs Hne) as [o Ho']. rewrite Ho' in *.
  simpl in Hv. by f_equal.
Qed.

Lemma isupport_append_accumulates_witness :
  Isupport.get (foldl (λ s fragment, (Isupport.apply (append_token "X" fragment) s).1)
    (Isupport.apply "X=a" Isupport.default).1 [lit "b"; lit "\x20c"]) "X"
  = Some (Some (lit "ab c")).
Proof.
  apply (isupport_append_accumulates (Isupport.apply "X=a" Isupport.default).1 "X" [lit "b"; lit "\x20c"]).
  - split_and!; [|reflexivity|discriminate]. apply (bool_decide_unpack _). vm_compute. exact I.
  - discriminate.
Defined.

(** ** Prefixes *)

Lemma position_Some c l i :
  position c l = Some i ↔ l !! i = Some c ∧ ∀ j, (j < i)%nat → l !! j ≠ Some c.
Proof.
  unfold position. rewrite fmap_Some. split.
  - intros ([k x] & Hf & ->). apply list_find_Some in Hf as (Hk & -> & Hj).
    split; [done|]. intros j Hlt E. by eapply (Hj j c).
  - intros [Hi Hj]. exists (i, c). split; [|done]. apply list_find_Some.
    split_and!; [done..|]. intros j y Hy Hlt ->. by eapply Hj.
Qed.

Lemma position_NoDup c l i : NoDup l → l !! i = Some c → position c l = Some i.
Proof.
  intros Hnd Hi. apply position_Some. split; [done|].
  intros j Hlt Hj. pose proof (NoDup_lookup _ _ _ _ Hnd Hi Hj). lia.
Qed.

Lemma prefix_split_spec p entry a b :
  Prefix.split p entry = (a, b) →
  entry = a ++ b ∧ Forall (λ c, c ∈ Prefix.chars p) a
  ∧ ∀ c, head b = Some c → c ∉ Prefix.chars p.
Proof.
  revert a b. induction entry as [|c rest IH]; intros a b; simpl; [by intros [= <- <-]|].
  unfold contains_char. case_bool_decide.
  - destruct (Prefix.split p rest) as [a' b']. intros [= <- <-].
    destruct (IH a' b' eq_refl) as (-> & Ha & Hb). split_and!; [done|by constructor|done].
  - intros [= <- <-]. split_and!; [done..|]. by intros ? [= ->].
Qed.

(** The two views of a parsed [PREFIX] with no character twice undo each other, a
    letter is a membership mode exactly when it has a character, and a NAMES entry
    splits into its longest run of prefix characters and the nick. *)
Theorem prefix_paired (value : text) (p : Prefix.t) :
  Prefix.parse value = Some p → NoDup (Prefix.modes p) → NoDup (Prefix.chars p) →
  (∀ m c, Prefix.char_for_mode p m = Some c ↔ Prefix.mode_for_char p c = Some m)
  ∧ (∀ m, Prefix.is_membership_mode p m = true ↔ is_Some (Prefix.char_for_mode p m))
  ∧ (∀ c c' i j, Prefix.rank p c = Some i → Prefix.rank p c' = Some j → i = j → c = c')
  ∧ (∀ prefixes nick, Forall (λ c, c ∈ Prefix.chars p) prefixes →
       (∀ c, head nick = Some c → c ∉ Prefix.chars p) →
       Prefix.split p (prefixes ++ nick) = (prefixes, nick)).
Proof.
  intros [Hlen _]%prefix_parse_paired Hm Hc. split_and!.
  - intros m c. unfold Prefix.char_for_mode, Prefix.mode_for_char. rewrite !bind_Some. split.
    + intros (i & Hp & Hl). apply position_Some in Hp as [Hi _]. exists i.
      split; [by apply position_NoDup|done].
    + intros (i & Hp & Hl). apply position_Some in Hp as [Hi _]. exists i.
      split; [by apply position_NoDup|done].
  - intros m. unfold Prefix.is_membership_mode, contains_char, Prefix.char_for_mode.
    rewrite bool_decide_eq_true, list_elem_of_lookup. split.
    + intros [i Hi]. destruct (lookup_lt_is_Some_2 (Prefix.chars p) i) as [c Hci].
      { apply lookup_lt_Some in Hi. lia. }
      exists c. rewrite (position_NoDup m _ i) by done. done.
    + intros [c (i & Hp & _)%bind_Some]. apply position_Some in Hp as [Hi _]. eauto.
  - intros c c' i j Hi Hj ->. apply position_Some in Hi as [Hi _], Hj as [Hj _]. congruence.
  - intros prefixes nick Hall Hnick. induction Hall as [|c l Hin _ IH]; simpl.
    + destruct nick as [|c nick]; [done|]. simpl. unfold contains_char.
      rewrite bool_decide_eq_false_2; [done|]. by apply Hnick.
    + unfold contains_char. rewrite bool_decide_eq_true_2 by done. by rewrite IH.
Qed.

Lemma prefix_paired_witness :
  Prefix.split (Prefix.mk "qaohv" "~&@%+") (lit "~@" ++ lit "nick") = (lit "~@", lit "nick").
Proof.
  refine (proj2 (proj2 (proj2 (prefix_paired "(qaohv)~&@%+" (Prefix.mk "qaohv" "~&@%+") _ _ _))) _ _ _ _).
  - vm_compute. reflexivity.
  - apply (bool_decide_unpack _). vm_compute. exact I.
  - apply (bool_decide_unpack _). vm_compute. exact I.
  - apply (bool_decide_unpack _). vm_compute. exact I.
  - intros c [= <-]. apply (bool_decide_unpack _). vm_compute. exact I.
Defined.

(** ** Escapes *)

Lemma find_marker_length t a b : find_str escape_marker t = Some (a, b) → (2 <= length b <= length t)%nat.
Proof.
  intros [-> [r Hr]]%find_str_Some. apply strip_prefix_Some in Hr as ->.
  rewrite !length_app. simpl. lia.
Qed.

Lemma hex_pair_length t h r : hex_pair t = Some (h, r) → (length r <= length t)%nat.
Proof. destruct t as [|a [|b t]]; simpl; [done..|]. case_match; [|done]. intros [= _ <-]. lia. Qed.

(** Each turn of the loop consumes the marker it found, so the fuel is never what
    stops it. *)
Lemma unescape_fuel fuel fuel' t :
  (length t < fuel)%nat → (length t < fuel')%nat → unescape_loop fuel t = unescape_loop fuel' t.
Proof.
  revert fuel' t. induction fuel as [|fuel IH]; intros [|fuel'] t H1 H2; try lia. simpl.
  destruct (find_str escape_marker t) as [[before from]|] eqn:E; [|done].
  apply find_marker_length in E.
  assert (length (drop 2 from) < length t)%nat by (rewrite length_drop; lia).
  destruct (hex_pair (drop 2 from)) as [[h r]|] eqn:Eh; cbn [mbind option_bind].
  - apply hex_pair_length in Eh. destruct (parse_u8_hex h); cbn [mbind option_bind].
    + by rewrite (IH fuel' r) by lia.
    + by rewrite (IH fuel' (drop 2 from)) by lia.
  - by rewrite (IH fuel' (drop 2 from)) by lia.
Qed.

Definition hex_digit (n : N) : char := if (n <? 10)%N then (48 + n)%N else (87 + n)%N.
(** How a server writes a value: the characters a value cannot hold directly, and the
    backslash that starts an escape, as hex. *)
Definition hex_escape_char (c : char) : text :=
  if bool_decide (c ∈ [chSPACE; chEQ; chBSLASH; chCR; chLF; 0%N])
  then [chBSLASH; 120%N; hex_digit (c / 16); hex_digit (c mod 16)] else [c].
Definition hex_escape (value : text) : text := value ≫= hex_escape_char.

Lemma find_marker_before a t :
  chBSLASH ∉ a →
  find_str escape_marker (a ++ t) =
    match find_str escape_marker t with Some (x, y) => Some (a ++ x, y) | None => None end.
Proof.
  induction a as [|c a IH]; intros Hn; cbn [app].
  - by destruct (find_str _ _) as [[]|].
  - cbn [find_str]. rewrite decide_False.
    + rewrite IH by set_solver. by destruct (find_str _ t) as [[]|].
    + intros [r Hr]. apply strip_prefix_Some in Hr. simplify_eq/=. set_solver.
Qed.

Lemma find_marker_none t : chBSLASH ∉ t → find_str escape_marker t = None.
Proof. intros. rewrite <- (app_nil_r t), find_marker_before by done. done. Qed.

Lemma hex_escape_step fuel a c t :
  chBSLASH ∉ a → c ∈ [chSPACE; chEQ; chBSLASH; chCR; chLF; 0%N] →
  unescape_loop (S fuel) (a ++ hex_escape_char c ++ t) = a ++ c :: unescape_loop fuel t.
Proof.
  intros Ha Hc. cbn [unescape_loop]. rewrite find_marker_before by done.
  repeat (apply elem_of_cons in Hc as [-> | Hc]; [simpl; by rewrite app_nil_r|]). set_solver.
Qed.

(** A value in which the server escaped what it must reads back as it was meant,
    whatever it holds. *)
Theorem isupport_unescape_hex (value : text) : unescape (hex_escape value) = value.
Proof.
  assert (∀ value a fuel, chBSLASH ∉ a → (length (a ++ hex_escape value) < fuel)%nat →
    unescape_loop fuel (a ++ hex_escape value) = a ++ value) as Hloop.
  { clear value. intros value. induction value as [|c value IH]; intros a fuel Ha Hf.
    - change (hex_escape []) with (@nil N) in *. rewrite app_nil_r in *.
      destruct fuel; [lia|]. cbn [unescape_loop]. by rewrite find_marker_none.
    - change (hex_escape (c :: value)) with (hex_escape_char c ++ hex_escape value) in *.
      destruct (decide (c ∈ [chSPACE; chEQ; chBSLASH; chCR; chLF; 0%N])) as [Hc|Hc].
      + destruct fuel as [|fuel]; [lia|]. rewrite hex_escape_step by done.
        do 2 f_equal. apply (IH []); [set_solver|].
        rewrite !length_app in Hf. unfold hex_escape_char in Hf.
        rewrite bool_decide_eq_true_2 in Hf by done. simpl in *. lia.
      + unfold hex_escape_char in *. rewrite bool_decide_eq_false_2 in * by done.
        rewrite (app_assoc a [c]) in *. rewrite IH; [by rewrite <- app_assoc| |done].
        rewrite !not_elem_of_cons in Hc. set_solver. }
  unfold unescape. destruct (find_str _ _) as [[x y]|] eqn:E.
  - apply (Hloop value []); [set_solver|]. simpl. lia.
  - specialize (Hloop value [] (S (length (hex_escape value)))). cbn [app unescape_loop] in Hloop.
    rewrite E in Hloop. apply Hloop; [set_solver|lia].
Qed.
