(* ===== verification/Mode.v ===== *)
(** * MODE changes (src/crates/obby-proto/src/mode.rs)

    A mode string is read letter by letter under a sign, each letter taking its
    argument from the parameters that follow when its class says so. *)
From S2P Require Import Prelude Casemap Isupport.

Module Mode.
(* obby-proto/src/mode.rs 12-26 ModeChange *)
Record Change := mk { set : bool; mode : char; arg : option text; membership : bool }.

#[global] Instance change_eq_dec : EqDecision Change.
Proof. solve_decision. Defined.

(* obby-proto/src/mode.rs 50-54 parse_channel_modes *)
Definition takes_arg (isupport : Isupport.t) (set : bool) (mode : char) : bool :=
  let chanmodes := Isupport.chanmodes isupport in
  Prefix.is_membership_mode (Isupport.prefix isupport) mode
  || contains_char mode (ChanModes.list_ chanmodes)
  || contains_char mode (ChanModes.always_arg chanmodes)
  || (set && contains_char mode (ChanModes.arg_on_set chanmodes)).

(* obby-proto/src/mode.rs 43-65 parse_channel_modes *)
Fixpoint channel_loop (isupport : Isupport.t) (set : bool) (args : list text) (spec : text)
    : list Change :=
  match spec with
  | [] => []
  | c :: spec =>
      if decide (c = chPLUS) then channel_loop isupport true args spec
      else if decide (c = chMINUS) then channel_loop isupport false args spec
      else
        let membership := Prefix.is_membership_mode (Isupport.prefix isupport) c in
        let '(arg, args) :=
          if takes_arg isupport set c then (head args, tail args) else (None, args) in
        mk set c arg membership :: channel_loop isupport set args spec
  end.

(* obby-proto/src/mode.rs 28-66 parse_channel_modes *)
Definition parse_channel_modes (isupport : Isupport.t) (params : list text) : list Change :=
  match params with
  | [] => []
  | spec :: args => channel_loop isupport true args spec
  end.

(* obby-proto/src/mode.rs 72-83 parse_user_modes *)
Fixpoint user_loop (set : bool) (spec : text) : list Change :=
  match spec with
  | [] => []
  | c :: spec =>
      if decide (c = chPLUS) then user_loop true spec
      else if decide (c = chMINUS) then user_loop false spec
      else mk set c None false :: user_loop set spec
  end.
(* obby-proto/src/mode.rs 68-85 parse_user_modes *)
Definition parse_user_modes (spec : text) : list Change := user_loop true spec.
End Mode.

(** Mode letters: everything in a mode string but the two signs. *)
Definition is_sign (c : char) : Prop := c = chPLUS ∨ c = chMINUS.
#[global] Instance is_sign_dec c : Decision (is_sign c).
Proof. unfold is_sign. apply _. Defined.

(** The class of a change's own letter under its own sign. *)
Definition change_takes (isupport : Isupport.t) (ch : Mode.Change) : bool :=
  Mode.takes_arg isupport (Mode.set ch) (Mode.mode ch).

Lemma channel_loop_letters i set args spec :
  Mode.mode <$> Mode.channel_loop i set args spec = filter (λ c, ¬ is_sign c) spec.
Proof.
  revert set args. induction spec as [|c spec IH]; intros set args; simpl; [done|].
  destruct (decide (c = chPLUS)) as [-> |Hp].
  { rewrite IH, filter_cons_False; [done|]. intros H. apply H. by left. }
  destruct (decide (c = chMINUS)) as [-> |Hm].
  { rewrite IH, filter_cons_False; [done|]. intros H. apply H. by right. }
  rewrite filter_cons_True by (by intros [?|?]).
  destruct (Mode.takes_arg i set c); csimpl; by rewrite IH.
Qed.

Lemma channel_loop_args i set args spec :
  let changes := Mode.channel_loop i set args spec in
  omap Mode.arg changes = take (length (filter (λ ch, change_takes i ch = true) changes)) args
  ∧ Forall (λ ch, Mode.membership ch = Prefix.is_membership_mode (Isupport.prefix i) (Mode.mode ch)
                  ∧ (change_takes i ch = false → Mode.arg ch = None)) changes.
Proof.
  revert set args. induction spec as [|c spec IH]; intros set args; cbn [Mode.channel_loop]; [done|].
  destruct (decide (c = chPLUS)); [apply IH|]. destruct (decide (c = chMINUS)); [apply IH|].
  destruct (Mode.takes_arg i set c) eqn:Ht; cbn zeta iota beta.
  - destruct (IH set (tail args)) as [Ho Hf]. rewrite filter_cons_True by done.
    split; [|by constructor; [split; [done|cbn]; unfold change_takes; simpl; congruence|]].
    destruct args as [|a args]; cbn [head tail omap list_omap length take] in *; simpl.
    + rewrite Ho. by rewrite take_nil.
    + by rewrite Ho.
  - destruct (IH set args) as [Ho Hf]. rewrite filter_cons_False by (unfold change_takes; simpl; congruence).
    split; [done|]. by constructor.
Qed.

(** Each letter of a MODE line gives one change, in order; the arguments go, in
    order, to exactly the letters whose class takes one, and a letter the server never
    advertised consumes none. *)
Theorem mode_arguments (i : Isupport.t) (spec : text) (args : list text) :
  let changes := Mode.parse_channel_modes i (spec :: args) in
  Mode.mode <$> changes = filter (λ c, ¬ is_sign c) spec
  ∧ omap Mode.arg changes = take (length (filter (λ ch, change_takes i ch = true) changes)) args
  ∧ Forall (λ ch, Mode.membership ch = Prefix.is_membership_mode (Isupport.prefix i) (Mode.mode ch)
                  ∧ (change_takes i ch = false → Mode.arg ch = None)) changes.
Proof. split; [apply channel_loop_letters|apply channel_loop_args]. Qed.

(** ** Reading back a written change *)

(** A list of changes as a MODE line would carry it, a sign before every letter. *)
Definition render_spec (changes : list Mode.Change) : text :=
  changes ≫= λ ch, [if Mode.set ch then chPLUS else chMINUS; Mode.mode ch].

(** A change the server could have sent: its argument is there exactly when its
    letter takes one. *)
Definition wf_change (i : Isupport.t) (ch : Mode.Change) : Prop :=
  ¬ is_sign (Mode.mode ch)
  ∧ Mode.membership ch = Prefix.is_membership_mode (Isupport.prefix i) (Mode.mode ch)
  ∧ (change_takes i ch = true ↔ is_Some (Mode.arg ch)).

(** Any list of well-formed changes, however its signs alternate, is read back from
    the line that carries it, so no argument lands on another letter. *)
Theorem mode_parse_render (i : Isupport.t) (changes : list Mode.Change) :
  Forall (wf_change i) changes →
  Mode.parse_channel_modes i (render_spec changes :: omap Mode.arg changes) = changes.
Proof.
  intros Hall. unfold Mode.parse_channel_modes. generalize true.
  induction Hall as [|[set mode arg mem] changes (Hs & Hm & Ha) _ IH]; intros s; [done|].
  unfold change_takes in Ha. simpl in Hs, Hm, Ha.
  change (render_spec (Mode.mk set mode arg mem :: changes)) with
    ((if set then chPLUS else chMINUS) :: mode :: render_spec changes).
  assert (∀ b c args, Mode.channel_loop i s args ((if set then chPLUS else chMINUS) :: c :: b)
            = Mode.channel_loop i set args (c :: b)) as -> by by destruct set.
  cbn [Mode.channel_loop].
  rewrite (decide_False (P := mode = chPLUS)) by (intros ->; by apply Hs; left).
  rewrite (decide_False (P := mode = chMINUS)) by (intros ->; by apply Hs; right).
  destruct arg as [a|]; simpl.
  - rewrite (proj2 Ha) by eauto. simpl. by rewrite IH, Hm.
  - destruct (Mode.takes_arg i set mode) eqn:E; [by destruct (proj1 Ha eq_refl)|].
    by rewrite IH, Hm.
Qed.

Lemma mode_parse_render_witness :
  Mode.parse_channel_modes Isupport.default [lit "+o-k+l-i"; lit "nick"; lit "key"; lit "5"]
  = [Mode.mk true 111%N (Some (lit "nick")) true; Mode.mk false 107%N (Some (lit "key")) false;
     Mode.mk true 108%N (Some (lit "5")) false; Mode.mk false 105%N None false].
Proof.
  apply (mode_parse_render Isupport.default
    [Mode.mk true 111%N (Some (lit "nick")) true; Mode.mk false 107%N (Some (lit "key")) false;
     Mode.mk true 108%N (Some (lit "5")) false; Mode.mk false 105%N None false]).
  repeat constructor; try (intros [?|?]; discriminate); try discriminate; eauto.
  intros [? ?]; discriminate.
Defined.
