(* ===== verification/Format.v ===== *)
(** * Formatting codes and CTCP (src/crates/obby-proto/src/format.rs)

    A message body is a run of characters with toggles and colour codes mixed in;
    [parse_spans] cuts it into styled spans. The peekable iterator of the source is
    the text still to be read, a probe that is dropped is a rest that is not
    returned. *)
From S2P Require Import Prelude.

Module Format.
(* obby-proto/src/format.rs 14-23 control characters *)
Definition BOLD : char := 2%N.
Definition ITALIC : char := 29%N.
Definition UNDERLINE : char := 31%N.
Definition STRIKETHROUGH : char := 30%N.
Definition MONOSPACE : char := 17%N.
Definition REVERSE : char := 22%N.
Definition RESET : char := 15%N.
Definition COLOUR : char := 3%N.
Definition HEX_COLOUR : char := 4%N.
Definition CTCP_DELIM : char := 1%N.

(* obby-proto/src/format.rs 32-37 Colour *)
Inductive Colour := Numbered (n : Z) | Hex (r g b : Z).
#[global] Instance colour_eq_dec : EqDecision Colour.
Proof. solve_decision. Defined.

(* obby-proto/src/format.rs 92-103 Style *)
Record Style := mkStyle { emphasis : Z; foreground : option Colour; background : option Colour }.
#[global] Instance style_eq_dec : EqDecision Style.
Proof. solve_decision. Defined.
Definition default_style : Style := mkStyle 0 None None.

(** The bit a toggle character flips, [Emphasis::BOLD] to [Emphasis::REVERSE]. *)
(* obby-proto/src/format.rs 48-54 Emphasis *)
Definition emphasis_bit (c : char) : option Z :=
  if decide (c = BOLD) then Some 1
  else if decide (c = ITALIC) then Some 2
  else if decide (c = UNDERLINE) then Some 4
  else if decide (c = STRIKETHROUGH) then Some 8
  else if decide (c = MONOSPACE) then Some 16
  else if decide (c = REVERSE) then Some 32
  else None.
(* obby-proto/src/format.rs 56-85 Emphasis::bold *)
Definition has_emphasis (e bit : Z) : bool := negb (Z.land e bit =? 0).
(* obby-proto/src/format.rs 87-89 Emphasis::toggle *)
Definition toggle (bit : Z) (s : Style) : Style :=
  mkStyle (Z.lxor (emphasis s) bit) (foreground s) (background s).

(* obby-proto/src/format.rs 105-114 Span *)
Record Span := mkSpan { text_ : text; style : Style }.
#[global] Instance span_eq_dec : EqDecision Span.
Proof. solve_decision. Defined.

(* obby-proto/src/format.rs 116-125 Ctcp *)
Record Ctcp := mkCtcp { command : text; params : text }.

(* obby-proto/src/format.rs 127-143 parse_ctcp *)
Definition parse_ctcp (body : text) : option Ctcp :=
  inner ← strip_prefix_char CTCP_DELIM body;
  let inner := default inner (strip_suffix_char CTCP_DELIM inner) in
  let '(command, params) := default (inner, []) (split_once chSPACE inner) in
  Some (mkCtcp command params).

(* obby-proto/src/format.rs 254-274 take_digits *)
Fixpoint take_digits_loop (max : nat) (count : nat) (value : Z) (probe : text) : nat * Z * text :=
  match max with
  | O => (count, value, probe)
  | S max =>
      match probe with
      | c :: rest =>
          match digit10 c with
          | Some digit => take_digits_loop max (S count) (value * 10 + Z.of_N digit) rest
          | None => (count, value, probe)
          end
      | [] => (count, value, probe)
      end
  end.
(* obby-proto/src/format.rs 254-274 take_digits *)
Definition take_digits (chars : text) (max : nat) : option (Z * text) :=
  let '(count, value, probe) := take_digits_loop max 0 0 chars in
  if decide (count = 0%nat) then None else Some (value, probe).

(* obby-proto/src/format.rs 276-284 take_comma_digits *)
Definition take_comma_digits (chars : text) : option (Z * text) :=
  probe ← strip_prefix_char chCOMMA chars; take_digits probe 2.

(* obby-proto/src/format.rs 286-290 hex_byte *)
Definition hex_byte (chars : text) : option (Z * text) :=
  match chars with
  | a :: b :: rest =>
      hi ← digit16 a; lo ← digit16 b;
      Some (Z.lor (Z.shiftl (Z.of_N hi) 4) (Z.of_N lo), rest)
  | _ => None
  end.
(* obby-proto/src/format.rs 292-301 take_hex_triple *)
Definition take_hex_triple (chars : text) : option (Z * Z * Z * text) :=
  '(r, probe) ← hex_byte chars; '(g, probe) ← hex_byte probe; '(b, probe) ← hex_byte probe;
  Some (r, g, b, probe).
(* obby-proto/src/format.rs 303-311 take_comma_hex_triple *)
Definition take_comma_hex_triple (chars : text) : option (Colour * text) :=
  probe ← strip_prefix_char chCOMMA chars;
  '(r, g, b, probe) ← take_hex_triple probe;
  Some (Hex r g b, probe).

(* obby-proto/src/format.rs 231-241 parse_numbered_colour *)
Definition parse_numbered_colour (chars : text) : option (Colour * option Colour) * text :=
  match take_digits chars 2 with
  | None => (None, chars)
  | Some (fg, rest) =>
      match take_comma_digits rest with
      | Some (bg, rest) => (Some (Numbered fg, Some (Numbered bg)), rest)
      | None => (Some (Numbered fg, None), rest)
      end
  end.
(* obby-proto/src/format.rs 243-252 parse_hex_colour *)
Definition parse_hex_colour (chars : text) : option (Colour * option Colour) * text :=
  match take_hex_triple chars with
  | None => (None, chars)
  | Some (r, g, b, rest) =>
      match take_comma_hex_triple rest with
      | Some (bg, rest) => (Some (Hex r g b, Some bg), rest)
      | None => (Some (Hex r g b, None), rest)
      end
  end.

(* obby-proto/src/format.rs 218-229 apply_colour *)
Definition apply_colour (s : Style) (parsed : option (Colour * option Colour)) : Style :=
  match parsed with
  | Some (fg, bg) =>
      mkStyle (emphasis s) (Some fg) (match bg with Some _ => bg | None => background s end)
  | None => mkStyle (emphasis s) None None
  end.

(** The span [flush] pushes, if any. *)
(* obby-proto/src/format.rs 208-216 flush *)
Definition flush (current : text) (s : Style) : list Span :=
  match current with [] => [] | _ => [mkSpan current s] end.

(** What a control character does to the style and to the text after it; [None]
    for a character that is text. *)
(* obby-proto/src/format.rs 156-193 parse_spans *)
Definition control (c : char) (rest : text) (s : Style) : option (Style * text) :=
  match emphasis_bit c with
  | Some bit => Some (toggle bit s, rest)
  | None =>
      if decide (c = RESET) then Some (default_style, rest)
      else if decide (c = COLOUR) then
        let '(parsed, rest) := parse_numbered_colour rest in Some (apply_colour s parsed, rest)
      else if decide (c = HEX_COLOUR) then
        let '(parsed, rest) := parse_hex_colour rest in Some (apply_colour s parsed, rest)
      else None
  end.

(* obby-proto/src/format.rs 155-197 parse_spans *)
Fixpoint spans_loop (fuel : nat) (chars current : text) (s : Style) : list Span :=
  match fuel with
  | O => flush current s
  | S fuel =>
      match chars with
      | [] => flush current s
      | c :: rest =>
          match control c rest s with
          | Some (s', rest) => flush current s ++ spans_loop fuel rest [] s'
          | None => spans_loop fuel rest (current ++ [c]) s
          end
      end
  end.
(* obby-proto/src/format.rs 145-198 parse_spans *)
Definition parse_spans (body : text) : list Span :=
  spans_loop (length body) body [] default_style.

(* obby-proto/src/format.rs 200-206 strip_formatting *)
Definition strip_formatting (body : text) : text := concat (text_ <$> parse_spans body).
End Format.

Example spans_example :
  Format.parse_spans ([2%N] ++ lit "b" ++ [3%N] ++ lit "5,123") =
  [Format.mkSpan "b" (Format.mkStyle 1 None None);
   Format.mkSpan "3" (Format.mkStyle 1 (Some (Format.Numbered 5)) (Some (Format.Numbered 12)))].
Proof. reflexivity. Qed.

(** ** The loop *)

Lemma take_digits_rest max count value probe c v rest :
  Format.take_digits_loop max count value probe = (c, v, rest) → (length rest <= length probe)%nat.
Proof.
  revert count value probe. induction max as [|max IH]; intros count value probe; simpl;
    [by intros [= _ _ <-]|].
  destruct probe as [|d probe]; [by intros [= _ _ <-]|].
  destruct (digit10 d); [|by intros [= _ _ <-]]. intros H%IH. simpl. lia.
Qed.

Lemma take_digits_length chars max v rest :
  Format.take_digits chars max = Some (v, rest) → (length rest <= length chars)%nat.
Proof.
  unfold Format.take_digits. destruct (Format.take_digits_loop _ _ _ _) as [[c v'] r] eqn:E.
  case_decide; [done|]. intros [= _ <-]. by eapply take_digits_rest.
Qed.

Lemma hex_byte_length chars v rest :
  Format.hex_byte chars = Some (v, rest) → (length rest <= length chars)%nat.
Proof.
  destruct chars as [|a [|b r]]; try done.
  intros (? & _ & (? & _ & [= _ <-])%bind_Some)%bind_Some. simpl. lia.
Qed.

Lemma take_hex_length chars r g b rest :
  Format.take_hex_triple chars = Some (r, g, b, rest) → (length rest <= length chars)%nat.
Proof.
  unfold Format.take_hex_triple.
  intros ([? ?] & H1%hex_byte_length &
    ([? ?] & H2%hex_byte_length & ([? ?] & H3%hex_byte_length & [= _ _ _ <-])%bind_Some)%bind_Some)%bind_Some.
  lia.
Qed.

Lemma control_length c rest s s' rest' :
  Format.control c rest s = Some (s', rest') → (length rest' <= length rest)%nat.
Proof.
  unfold Format.control. destruct (Format.emphasis_bit c); [by intros [= _ <-]|].
  repeat case_decide; [by intros [= _ <-]| | |done].
  - unfold Format.parse_numbered_colour, Format.take_comma_digits.
    destruct (Format.take_digits rest 2) as [[v r]|] eqn:E1; [|by intros [= _ <-]].
    apply take_digits_length in E1. destruct (_ ≫= _) as [[v2 r2]|] eqn:E2; intros [= _ <-]; [|done].
    apply bind_Some in E2 as (p & ->%strip_prefix_char_Some & Hp%take_digits_length). simpl in *. lia.
  - unfold Format.parse_hex_colour, Format.take_comma_hex_triple.
    destruct (Format.take_hex_triple rest) as [[[[? ?] ?] r]|] eqn:E1; [|by intros [= _ <-]].
    apply take_hex_length in E1. destruct (_ ≫= _) as [[v2 r2]|] eqn:E2; intros [= _ <-]; [|done].
    apply bind_Some in E2 as (p & ->%strip_prefix_char_Some & ([[[? ?] ?] ?] & Hp%take_hex_length & [= _ <-])%bind_Some).
    simpl in *. lia.
Qed.

Lemma spans_fuel fuel fuel' chars current s :
  (length chars <= fuel)%nat → (length chars <= fuel')%nat →
  Format.spans_loop fuel chars current s = Format.spans_loop fuel' chars current s.
Proof.
  revert fuel' chars current s. induction fuel as [|fuel IH]; intros [|fuel'] [|c rest] current s H1 H2;
    simpl in *; try done; try lia.
  destruct (Format.control c rest s) as [[s' r]|] eqn:E.
  - apply control_length in E. f_equal. apply IH; lia.
  - apply IH; lia.
Qed.

(** ** What every span is *)

Definition is_control (c : char) : bool :=
  bool_decide (c ∈ [2; 29; 31; 30; 17; 22; 15; 3; 4]%N).

Lemma control_None c rest s : Format.control c rest s = None ↔ is_control c = false.
Proof.
  unfold Format.control, Format.emphasis_bit, is_control, Format.BOLD, Format.ITALIC,
    Format.UNDERLINE, Format.STRIKETHROUGH, Format.MONOSPACE, Format.REVERSE, Format.RESET,
    Format.COLOUR, Format.HEX_COLOUR.
  destruct (Format.parse_numbered_colour rest), (Format.parse_hex_colour rest).
  rewrite bool_decide_eq_false, !not_elem_of_cons.
  repeat case_decide; subst; split; try done; try tauto.
  intros _. split_and!; try done. apply not_elem_of_nil.
Qed.

Definition wf_colour (c : Format.Colour) : Prop :=
  match c with
  | Format.Numbered n => 0 <= n <= 99
  | Format.Hex r g b => 0 <= r <= u8_max ∧ 0 <= g <= u8_max ∧ 0 <= b <= u8_max
  end.

(** Six bits of toggles, colours in range, and a background only under a
    foreground. *)
Record wf_style (s : Format.Style) : Prop := {
  wf_emphasis : 0 <= Format.emphasis s < 64;
  wf_foreground : ∀ c, Format.foreground s = Some c → wf_colour c;
  wf_background : ∀ c, Format.background s = Some c → wf_colour c ∧ is_Some (Format.foreground s);
}.

Lemma lxor_bound a b n : 0 <= n → 0 <= a < 2 ^ n → 0 <= b < 2 ^ n → 0 <= Z.lxor a b < 2 ^ n.
Proof.
  intros Hn Ha Hb. assert (0 <= Z.lxor a b) as H0 by (apply Z.lxor_nonneg; lia).
  split; [done|]. rewrite <- (Z.mod_small a (2 ^ n)), <- (Z.mod_small b (2 ^ n)) by done.
  rewrite <- !Z.land_ones by done.
  assert (Z.lxor (Z.land a (Z.ones n)) (Z.land b (Z.ones n)) = Z.land (Z.lxor a b) (Z.ones n)) as ->.
  { apply Z.bits_inj'. intros i Hi. rewrite Z.lxor_spec, !Z.land_spec, Z.lxor_spec.
    by destruct (Z.testbit a i), (Z.testbit b i), (Z.testbit (Z.ones n) i). }
  rewrite Z.land_ones by done. apply Z.mod_pos_bound. lia.
Qed.

Lemma emphasis_bit_bound c bit : Format.emphasis_bit c = Some bit → 0 <= bit < 64.
Proof. unfold Format.emphasis_bit. repeat case_decide; intros [= <-] || done; lia. Qed.

Lemma take_digits_bound chars v rest : Format.take_digits chars 2 = Some (v, rest) → 0 <= v <= 99.
Proof.
  unfold Format.take_digits. simpl. destruct chars as [|a [|b r]]; simpl; try done.
  - destruct (digit10 a) eqn:Ea; simpl; [|done]. apply digit10_bound in Ea. intros [= <- _]. lia.
  - destruct (digit10 a) eqn:Ea; simpl; [|done]. apply digit10_bound in Ea.
    destruct (digit10 b) eqn:Eb; simpl; intros [= <- _]; [apply digit10_bound in Eb|]; lia.
Qed.

Definition nibbles : list N := N.of_nat <$> seq 0 16.

Lemma elem_of_nibbles n : (n < 16)%N → n ∈ nibbles.
Proof.
  intros Hn. apply list_elem_of_fmap. exists (N.to_nat n). split; [lia|]. apply elem_of_seq. lia.
Qed.

Lemma hex_byte_check : forallb (λ hi, forallb (λ lo,
  Z.lor (Z.shiftl (Z.of_N hi) 4) (Z.of_N lo) =? 16 * Z.of_N hi + Z.of_N lo) nibbles) nibbles = true.
Proof. vm_compute. reflexivity. Qed.

Lemma hex_byte_value hi lo : (hi < 16)%N → (lo < 16)%N →
  Z.lor (Z.shiftl (Z.of_N hi) 4) (Z.of_N lo) = 16 * Z.of_N hi + Z.of_N lo.
Proof.
  intros Hh%elem_of_nibbles Hl%elem_of_nibbles. pose proof hex_byte_check as H.
  rewrite forallb_forall in H. specialize (H hi (proj1 (list_elem_of_In _ _) Hh)). cbv beta in H.
  rewrite forallb_forall in H. specialize (H lo (proj1 (list_elem_of_In _ _) Hl)).
  by apply Z.eqb_eq in H.
Qed.

Lemma hex_byte_bound chars v rest : Format.hex_byte chars = Some (v, rest) → 0 <= v <= u8_max.
Proof.
  destruct chars as [|a [|b r]]; try done.
  intros (hi & Hh%digit16_bound & (lo & Hl%digit16_bound & [= <- _])%bind_Some)%bind_Some.
  rewrite hex_byte_value by done. unfold u8_max. lia.
Qed.

Lemma take_hex_bound chars r g b rest :
  Format.take_hex_triple chars = Some (r, g, b, rest) → wf_colour (Format.Hex r g b).
Proof.
  unfold Format.take_hex_triple.
  intros ([? ?] & H1%hex_byte_bound &
    ([? ?] & H2%hex_byte_bound & ([? ?] & H3%hex_byte_bound & [= <- <- <- _])%bind_Some)%bind_Some)%bind_Some.
  done.
Qed.

Lemma parse_colour_wf p rest r :
  (p, r) = Format.parse_numbered_colour rest ∨ (p, r) = Format.parse_hex_colour rest →
  ∀ fg bg, p = Some (fg, bg) → wf_colour fg ∧ ∀ c, bg = Some c → wf_colour c.
Proof.
  unfold Format.parse_numbered_colour, Format.parse_hex_colour,
    Format.take_comma_digits, Format.take_comma_hex_triple.
  intros [H|H] fg bg ->.
  - destruct (Format.take_digits rest 2) as [[v x]|] eqn:E; [|done]. apply take_digits_bound in E.
    destruct (strip_prefix_char _ _ ≫= _) as [[v2 y]|] eqn:E2; simplify_eq; [|done].
    apply bind_Some in E2 as (q & _ & Hq%take_digits_bound). by split; [|intros ? [= <-]].
  - destruct (Format.take_hex_triple rest) as [[[[? ?] ?] x]|] eqn:E; [|done]. apply take_hex_bound in E.
    destruct (strip_prefix_char _ _ ≫= _) as [[v2 y]|] eqn:E2; simplify_eq; [|done].
    apply bind_Some in E2 as (q & _ & ([[[? ?] ?] ?] & Hq%take_hex_bound & [= <- _])%bind_Some).
    by split; [|intros ? [= <-]].
Qed.

Lemma wf_default_style : wf_style Format.default_style.
Proof. by split. Qed.

Lemma wf_apply_colour s p :
  wf_style s → (∀ fg bg, p = Some (fg, bg) → wf_colour fg ∧ ∀ c, bg = Some c → wf_colour c) →
  wf_style (Format.apply_colour s p).
Proof.
  intros [He Hf Hb] Hp. destruct p as [[fg bg]|]; simpl; [|by split].
  destruct (Hp fg bg eq_refl) as [Hfg Hbg].
  split; simpl; [done|by intros ? [= <-]|]. intros c Hc.
  split; [|by eexists]. destruct bg; [by apply Hbg|by apply Hb in Hc as [? _]].
Qed.

Lemma control_wf c rest s s' r :
  Format.control c rest s = Some (s', r) → wf_style s → wf_style s'.
Proof.
  unfold Format.control. destruct (Format.emphasis_bit c) as [bit|] eqn:Eb.
  - intros [= <- _] [He Hf Hb]. apply emphasis_bit_bound in Eb.
    split; simpl; [by apply (lxor_bound _ _ 6)|done|done].
  - repeat case_decide; [by intros [= <- _]| | |done].
    + destruct (Format.parse_numbered_colour rest) as [p x] eqn:E. intros [= <- _] Hs.
      apply wf_apply_colour; [done|]. eapply parse_colour_wf. by left.
    + destruct (Format.parse_hex_colour rest) as [p x] eqn:E. intros [= <- _] Hs.
      apply wf_apply_colour; [done|]. eapply parse_colour_wf. by right.
Qed.

Definition plain (t : text) : Prop := Forall (λ c, is_control c = false) t.

(** A span as the parser promises it: some text, none of it a control code, under a
    style that can be drawn. *)
Definition wf_span (sp : Format.Span) : Prop :=
  Format.text_ sp ≠ [] ∧ plain (Format.text_ sp) ∧ wf_style (Format.style sp).

Lemma flush_wf current s : plain current → wf_style s → Forall wf_span (Format.flush current s).
Proof. destruct current; simpl; [done|]. intros. by apply Forall_singleton. Qed.

Lemma spans_loop_wf fuel chars current s :
  plain current → wf_style s → Forall wf_span (Format.spans_loop fuel chars current s).
Proof.
  revert chars current s. induction fuel as [|fuel IH]; intros chars current s Hc Hs;
    [by apply flush_wf|]. destruct chars as [|c rest]; [by apply flush_wf|]. cbn [Format.spans_loop].
  destruct (Format.control c rest s) as [[s' r]|] eqn:E.
  - apply Forall_app. split; [by apply flush_wf|]. apply IH; [by constructor|]. by eapply control_wf.
  - apply IH; [|done]. apply Forall_app. split; [done|].
    apply Forall_singleton. by eapply control_None.
Qed.

Lemma spans_loop_plain fuel chars current s :
  plain chars → (length chars <= fuel)%nat →
  Format.spans_loop fuel chars current s = Format.flush (current ++ chars) s.
Proof.
  revert chars current. induction fuel as [|fuel IH]; intros [|c rest] current Hp Hl; simpl in *;
    rewrite ?app_nil_r; try done; try lia.
  inversion Hp as [|?? Hc Hr]; subst. apply (control_None c rest s) in Hc as ->.
  rewrite IH by (done || lia). by rewrite <- app_assoc.
Qed.

(** Whatever the body, every span holds text, no control code survives in it and its
    style is in range; stripping is therefore idempotent, and changes nothing in a body
    without control codes. *)
Theorem spans_are_clean (body : text) :
  Forall wf_span (Format.parse_spans body)
  ∧ plain (Format.strip_formatting body)
  ∧ Format.strip_formatting (Format.strip_formatting body) = Format.strip_formatting body
  ∧ (plain body → Format.strip_formatting body = body).
Proof.
  assert (∀ b, plain b → Format.strip_formatting b = b) as Hplain.
  { intros b Hb. unfold Format.strip_formatting, Format.parse_spans.
    rewrite spans_loop_plain by done. destruct b as [|c b]; [done|]. simpl. by rewrite app_nil_r. }
  assert (Forall wf_span (Format.parse_spans body)) as Hall.
  { apply spans_loop_wf; [by constructor|apply wf_default_style]. }
  assert (plain (Format.strip_formatting body)) as Hp.
  { unfold Format.strip_formatting. induction Hall as [|sp l (_ & Hsp & _) _ IH]; csimpl; [by constructor|].
    by apply Forall_app. }
  split_and!; auto.
Qed.

(** ** Writing spans and reading them back *)

Definition hex_digit (n : N) : char := if (n <? 10)%N then (48 + n)%N else (87 + n)%N.
Definition hex2 (v : Z) : text := [hex_digit (Z.to_N v / 16); hex_digit (Z.to_N v mod 16)].
Definition colour_value (c : Format.Colour) : text :=
  match c with
  | Format.Numbered n => show_padded 2 n
  | Format.Hex r g b => hex2 r ++ hex2 g ++ hex2 b
  end.
Definition colour_intro (c : Format.Colour) : char :=
  match c with Format.Numbered _ => Format.COLOUR | Format.Hex _ _ _ => Format.HEX_COLOUR end.

(** The toggles of a style, each written as its character. *)
Definition toggles (e : Z) : text :=
  [2; 29; 31; 30; 17; 22]%N ≫= λ c,
    match Format.emphasis_bit c with
    | Some bit => if Format.has_emphasis e bit then [c] else []
    | None => []
    end.
(** A colour code leaves the other half alone, so a background is set first, under
    a foreground of its own, and the foreground after it. *)
Definition colours (s : Format.Style) : text :=
  match Format.foreground s with
  | None => []
  | Some fg =>
      (match Format.background s with
       | Some bg => colour_intro bg :: colour_value bg ++ chCOMMA :: colour_value bg
       | None => []
       end) ++ colour_intro fg :: colour_value fg
  end.
Definition render_span (sp : Format.Span) : text :=
  Format.RESET :: toggles (Format.emphasis (Format.style sp)) ++ colours (Format.style sp)
  ++ Format.text_ sp.

Definition run (chars current : text) (s : Format.Style) : list Format.Span :=
  Format.spans_loop (length chars) chars current s.

Lemma run_control c rest s s' r current :
  Format.control c rest s = Some (s', r) →
  run (c :: rest) current s = Format.flush current s ++ run r [] s'.
Proof.
  intros E. unfold run. cbn [length Format.spans_loop]. rewrite E. f_equal.
  apply control_length in E. by apply spans_fuel.
Qed.

Lemma run_plain t rest current s :
  plain t → run (t ++ rest) current s = run rest (current ++ t) s.
Proof.
  intros Ht. revert current. induction Ht as [|c t Hc _ IH]; intros current; [by rewrite app_nil_r|].
  cbn [app]. transitivity (run (t ++ rest) (current ++ [c]) s).
  - unfold run. cbn [length Format.spans_loop]. by rewrite (proj2 (control_None c _ s) Hc).
  - by rewrite IH, <- app_assoc.
Qed.

Lemma run_toggles l rest s :
  Forall (λ c, is_Some (Format.emphasis_bit c)) l →
  run (l ++ rest) [] s =
  run rest [] (foldl (λ s c, Format.toggle (default 0 (Format.emphasis_bit c)) s) s l).
Proof.
  intros Hl. revert s. induction Hl as [|c l [bit Hb] _ IH]; intros s; [done|]. cbn [app foldl].
  rewrite <- IH. erewrite run_control; [done|]. unfold Format.control. by rewrite Hb.
Qed.

Lemma toggles_are_toggles e : Forall (λ c, is_Some (Format.emphasis_bit c)) (toggles e).
Proof.
  apply Forall_forall. intros c (d & Hd & _)%list_elem_of_bind.
  destruct (Format.emphasis_bit d) eqn:E; [|set_solver].
  destruct (Format.has_emphasis _ _); [|set_solver].
  apply list_elem_of_singleton in Hd as ->. by eexists.
Qed.

Lemma toggles_check : check_below 64 (λ e, bool_decide (
  foldl (λ s c, Format.toggle (default 0 (Format.emphasis_bit c)) s) Format.default_style (toggles e)
  = Format.mkStyle e None None)) = true.
Proof. vm_compute. reflexivity. Qed.

Lemma hex2_check : check_below 256 (λ v, bool_decide (Format.hex_byte (hex2 v) = Some (v, []))) = true.
Proof. vm_compute. reflexivity. Qed.

Lemma hex_byte_hex2 v rest : 0 <= v <= u8_max → Format.hex_byte (hex2 v ++ rest) = Some (v, rest).
Proof.
  intros Hv. pose proof (check_below_spec _ _ v hex2_check ltac:(unfold u8_max in *; lia)) as H.
  apply bool_decide_eq_true in H. revert H. unfold hex2, Format.hex_byte. cbn [app].
  destruct (digit16 (hex_digit (Z.to_N v / 16))); cbn [mbind option_bind]; [|done].
  destruct (digit16 (hex_digit (Z.to_N v mod 16))); cbn [mbind option_bind]; [|done]. by intros [= ->].
Qed.

Lemma digits2_check : check_below 100 (λ n,
  match show_padded 2 n with
  | [a; b] => match digit10 a, digit10 b with
              | Some x, Some y => Z.of_N x * 10 + Z.of_N y =? n | _, _ => false end
  | _ => false
  end) = true.
Proof. vm_compute. reflexivity. Qed.

Lemma take_digits_show n rest : 0 <= n <= 99 → Format.take_digits (show_padded 2 n ++ rest) 2 = Some (n, rest).
Proof.
  intros Hn. pose proof (check_below_spec _ _ n digits2_check ltac:(lia)) as H.
  cbv beta in H. revert H. destruct (show_padded 2 n) as [|a [|b [|]]]; try done.
  unfold Format.take_digits. cbn [app Format.take_digits_loop].
  destruct (digit10 a) as [x|]; [|done]. destruct (digit10 b) as [y|]; [|done].
  intros H%Z.eqb_eq. rewrite decide_False by done. by rewrite Z.add_0_l, H.
Qed.

Lemma control_colour c rest s :
  wf_colour c → (∀ d, head rest = Some d → d ≠ chCOMMA) →
  Format.control (colour_intro c) (colour_value c ++ rest) s
  = Some (Format.mkStyle (Format.emphasis s) (Some c) (Format.background s), rest).
Proof.
  intros Hc Hr. assert (strip_prefix_char chCOMMA rest = None) as Hn.
  { destruct rest as [|d r]; [done|]. simpl. rewrite decide_False; [done|]. by apply Hr. }
  destruct c as [n|r g b]; unfold Format.control.
  - cbn [colour_intro]. change (Format.emphasis_bit Format.COLOUR) with (@None Z). cbn iota beta.
    rewrite decide_False, decide_True by done. unfold Format.parse_numbered_colour. cbn [colour_value].
    rewrite take_digits_show by done. unfold Format.take_comma_digits. by rewrite Hn.
  - cbn [colour_intro]. change (Format.emphasis_bit Format.HEX_COLOUR) with (@None Z). cbn iota beta.
    rewrite !decide_False, decide_True by done. unfold Format.parse_hex_colour, Format.take_hex_triple.
    destruct Hc as (Hr' & Hg & Hb). cbn [colour_value]. rewrite <- !app_assoc.
    rewrite hex_byte_hex2 by done. cbn [mbind option_bind].
    rewrite hex_byte_hex2 by done. cbn [mbind option_bind].
    rewrite hex_byte_hex2 by done. cbn [mbind option_bind].
    unfold Format.take_comma_hex_triple. by rewrite Hn.
Qed.

Lemma control_colours c rest s :
  wf_colour c →
  Format.control (colour_intro c) (colour_value c ++ chCOMMA :: colour_value c ++ rest) s
  = Some (Format.mkStyle (Format.emphasis s) (Some c) (Some c), rest).
Proof.
  intros Hc. destruct c as [n|r g b]; unfold Format.control.
  - cbn [colour_intro]. change (Format.emphasis_bit Format.COLOUR) with (@None Z). cbn iota beta.
    rewrite decide_False, decide_True by done. unfold Format.parse_numbered_colour. cbn [colour_value].
    rewrite take_digits_show by done. unfold Format.take_comma_digits.
    rewrite (proj2 (strip_prefix_char_Some _ _ _) eq_refl). cbn [mbind option_bind].
    by rewrite take_digits_show.
  - cbn [colour_intro]. change (Format.emphasis_bit Format.HEX_COLOUR) with (@None Z). cbn iota beta.
    rewrite !decide_False, decide_True by done. unfold Format.parse_hex_colour, Format.take_comma_hex_triple.
    assert (∀ x, Format.take_hex_triple (hex2 r ++ hex2 g ++ hex2 b ++ x) = Some (r, g, b, x)) as Ht.
    { intros x. destruct Hc as (Hr' & Hg & Hb). unfold Format.take_hex_triple.
      rewrite hex_byte_hex2 by done. cbn [mbind option_bind].
      rewrite hex_byte_hex2 by done. cbn [mbind option_bind].
      by rewrite hex_byte_hex2. }
    cbn [colour_value]. rewrite <- !app_assoc, Ht.
    rewrite (proj2 (strip_prefix_char_Some _ _ _) eq_refl). cbn [mbind option_bind].
    by rewrite Ht.
Qed.

Lemma run_colours s e rest :
  wf_style s → e = Format.emphasis s → (∀ d, head rest = Some d → d ≠ chCOMMA) →
  run (colours s ++ rest) [] (Format.mkStyle e None None) = run rest [] s.
Proof.
  intros [_ Hf Hb] -> Hr. destruct s as [e fg bg]. unfold colours.
  cbn [Format.emphasis Format.foreground Format.background] in *.
  destruct fg as [fg|]; [|by destruct bg as [bg|]; [destruct (Hb bg eq_refl) as [_ [? ?]]|]].
  specialize (Hf fg eq_refl). destruct bg as [bg|]; repeat first [rewrite <- app_assoc | progress cbn [app]].
  - erewrite run_control by by apply control_colours, Hb.
    by erewrite run_control by by apply control_colour.
  - by erewrite run_control by by apply control_colour.
Qed.

Lemma run_span sp rest current s :
  wf_span sp → head (Format.text_ sp) ≠ Some chCOMMA →
  run (render_span sp ++ rest) current s
  = Format.flush current s ++ run rest (Format.text_ sp) (Format.style sp).
Proof.
  intros (Hne & Hp & Hs) Hcomma. unfold render_span. cbn [app]. rewrite <- !app_assoc.
  erewrite run_control by done. f_equal. rewrite run_toggles by apply toggles_are_toggles.
  pose proof (check_below_spec _ _ (Format.emphasis (Format.style sp)) toggles_check (wf_emphasis _ Hs)) as ->%bool_decide_eq_true.
  rewrite run_colours by (try done; destruct (Format.text_ sp); simpl in *; congruence).
  by rewrite run_plain.
Qed.

(** Any list of drawable spans can be written as a body that parses back to exactly
    those spans: the codes are expressive enough for every style and the parser reads
    each of them. (A text that starts with a comma would be read as the rest of a
    colour code, so it is excluded.) *)
Theorem spans_parse_render (spans : list Format.Span) :
  Forall (λ sp, wf_span sp ∧ head (Format.text_ sp) ≠ Some chCOMMA) spans →
  Format.parse_spans (spans ≫= render_span) = spans.
Proof.
  intros Hall. change (Format.parse_spans ?b) with (run b [] Format.default_style).
  assert (∀ current s, run (spans ≫= render_span) current s = Format.flush current s ++ spans) as H.
  { induction Hall as [|sp l [Hsp Hc] _ IH]; intros current s.
    - simpl. by rewrite app_nil_r.
    - change ((sp :: l) ≫= render_span) with (render_span sp ++ (l ≫= render_span)). rewrite run_span by done. rewrite IH. destruct Hsp as (Hne & _).
      destruct sp as [[|c t] st]; [done|]. done. }
  by rewrite H.
Qed.

Lemma spans_parse_render_witness :
  let spans := [Format.mkSpan "bold" (Format.mkStyle 1 None None);
    Format.mkSpan "7 up" (Format.mkStyle 34 (Some (Format.Numbered 4)) (Some (Format.Hex 255 0 18)))] in
  Format.parse_spans (spans ≫= render_span) = spans.
Proof.
  intros spans. apply (spans_parse_render spans).
  assert (∀ t, forallb (λ c, negb (is_control c)) t = true → plain t) as Hp.
  { intros t H. rewrite forallb_forall in H. apply Forall_forall.
    intros c Hc%list_elem_of_In%H. by apply negb_true_iff. }
  unfold spans. apply Forall_cons_2; [|apply Forall_singleton].
  all: split; [split_and!; [discriminate|apply Hp; vm_compute; reflexivity|split; cbn]|vm_compute; congruence].
  all: try (intros ? [= <-]); try (split; [|by eexists]); cbn; unfold u8_max; try discriminate; lia.
Defined.
