(* ===== verification/Timer.v ===== *)
(** * Deadlines and backoff (src/crates/obby-client/src/timer.rs)

    [drain_due] is the one place where "due" is decided; the timer wheel and the
    labelled commands share it. Instants are [u64] milliseconds. *)
From S2P Require Import Prelude.

(** ** Draining a map of deadlines *)
Section drain.
Context {K V : Type} `{Lexico K, !TrichotomyT (@lexico K _), !StrictOrder (@lexico K _),
  EqDecision K, !Countable K}.

(* obby-client/src/timer.rs 181-183 drain_due *)
Fixpoint take_due (due : list (Z * K)) (map : gmap K V) : list (K * V) * gmap K V :=
  match due with
  | [] => ([], map)
  | (_, key) :: due =>
      match map !! key with
      | Some value => let '(l, map) := take_due due (delete key map) in ((key, value) :: l, map)
      | None => take_due due map
      end
  end.

(* obby-client/src/timer.rs 162-184 drain_due *)
Definition drain_due (map : gmap K V) (now_ms : Z) (deadline_of : V → Z)
    : list (K * V) * gmap K V :=
  let due := (λ p, (deadline_of p.2, p.1))
               <$> filter (λ p, deadline_of p.2 <= now_ms) (sorted_items map) in
  take_due (sort_by_key fst due) map.

(** Earliest first, and by key among equals. *)
Definition due_order (deadline_of : V → Z) (x y : K * V) : Prop :=
  deadline_of x.2 < deadline_of y.2
  ∨ (deadline_of x.2 = deadline_of y.2 ∧ key_le x.1 y.1).

(** What a drain returns, as a relation between the map before, the instant, the
    entries and the map after. *)
Record drained (m : gmap K V) (now : Z) (deadline_of : V → Z) (l : list (K * V)) (m' : gmap K V)
    : Prop := {
  drained_due : ∀ k v, (k, v) ∈ l ↔ m !! k = Some v ∧ deadline_of v <= now;
  drained_once : NoDup l.*1;
  drained_sorted : StronglySorted (due_order deadline_of) l;
  drained_rest : m' = filter (λ p, now < deadline_of p.2) m;
}.

Lemma StronglySorted_Forall2 {A B} (R : relation A) (S : relation B) (P : A → B → Prop) l l' :
  (∀ x y x' y', R x y → P x x' → P y y' → S x' y') →
  StronglySorted R l → Forall2 P l l' → StronglySorted S l'.
Proof.
  intros HRS Hs. revert l'. induction Hs as [|x l _ IH Hx]; intros l' Hl.
  - apply Forall2_nil_inv_l in Hl as ->. constructor.
  - apply Forall2_cons_inv_l in Hl as (x' & l'' & Hxx & Hl & ->).
    constructor; [by apply IH|]. clear IH. induction Hl; [constructor|].
    inversion Hx; subst. constructor; [by eapply HRS|]. by apply IHHl.
Qed.

Lemma StronglySorted_filter {A} (R : relation A) (P : A → Prop) `{∀ x, Decision (P x)} l :
  StronglySorted R l → StronglySorted R (filter P l).
Proof.
  induction 1 as [|x l _ IH Hx]; [constructor|].
  rewrite filter_cons. case_decide; [|done]. constructor; [done|].
  apply Forall_forall. intros y [_ Hy]%list_elem_of_filter. by rewrite Forall_forall in Hx; apply Hx.
Qed.

Lemma take_due_spec deadline_of due m l m' :
  NoDup due.*2 → Forall (λ p, ∃ v, m !! p.2 = Some v ∧ deadline_of v = p.1) due →
  take_due due m = (l, m') →
  Forall2 (λ p q, p.2 = q.1 ∧ deadline_of q.2 = p.1 ∧ m !! q.1 = Some q.2) due l
  ∧ ∀ k, m' !! k = if decide (k ∈ due.*2) then None else m !! k.
Proof.
  revert m l m'. induction due as [|[at_ k] due IH]; intros m l m' Hnd Hall; cbn [take_due].
  - intros [= <- <-]. done.
  - inversion Hall as [|?? (v & Hv & Hat) Hrest]; subst. simpl in *. rewrite Hv.
    apply NoDup_cons in Hnd as [Hk Hnd].
    destruct (take_due due (delete k m)) as [l0 m0] eqn:E. intros [= <- <-].
    apply IH in E as [Hf Hm]; [|done|].
    + split.
      * constructor; [done|]. eapply Forall2_impl; [exact Hf|]. intros p q (H1 & H2 & H3).
        split_and!; [done..|]. by apply lookup_delete_Some in H3 as [_ ?].
      * intros k'. rewrite Hm. destruct (decide (k' = k)) as [-> |Hne].
        -- rewrite decide_False by done. rewrite decide_True by by left. apply lookup_delete_eq.
        -- rewrite lookup_delete_ne by done. repeat case_decide; set_solver.
    + apply Forall_forall. intros [a k'] Hin. rewrite Forall_forall in Hrest.
      destruct (Hrest _ Hin) as (v' & Hv' & <-). exists v'. simpl in *.
      rewrite lookup_delete_ne; [done|]. intros ->. apply Hk.
      apply list_elem_of_fmap. by eexists; split; [|exact Hin].
Qed.

(** The entries that are due, before they are put in deadline order. *)
Definition due_items (m : gmap K V) (now : Z) (deadline_of : V → Z) : list (K * V) :=
  filter (λ p, deadline_of p.2 <= now) (sorted_items m).
Definition due_keys (m : gmap K V) (now : Z) (deadline_of : V → Z) : list (Z * K) :=
  (λ p, (deadline_of p.2, p.1)) <$> due_items m now deadline_of.

Lemma elem_of_due_items m now deadline_of k v :
  (k, v) ∈ due_items m now deadline_of ↔ m !! k = Some v ∧ deadline_of v <= now.
Proof. unfold due_items. rewrite list_elem_of_filter, elem_of_sorted_items. naive_solver. Qed.

Lemma due_keys_snd m now deadline_of :
  (due_keys m now deadline_of).*2 = (due_items m now deadline_of).*1.
Proof. unfold due_keys. rewrite <- list_fmap_compose. by apply list_fmap_ext. Qed.

Lemma due_items_NoDup m now deadline_of : NoDup (due_items m now deadline_of).*1.
Proof.
  unfold due_items. pose proof (sorted_items_NoDup_fst m) as Hnd.
  induction (sorted_items m) as [|p l IH]; [done|]. apply NoDup_cons in Hnd as [Hp Hnd].
  rewrite filter_cons. case_decide; [|by apply IH]. csimpl. apply NoDup_cons.
  split; [|by apply IH]. intros (q & Hq & [_ Hin]%list_elem_of_filter)%list_elem_of_fmap.
  apply Hp, list_elem_of_fmap. by exists q.
Qed.

Lemma due_keys_sorted m now deadline_of :
  StronglySorted (λ x y : Z * K, key_le x.2 y.2) (due_keys m now deadline_of).
Proof.
  apply (StronglySorted_Forall2 entry_le _ (λ p q, q = (deadline_of p.2, p.1))
           (due_items m now deadline_of)).
  - by intros [??] [??] ? ? ? -> ->.
  - apply StronglySorted_filter, sorted_items_sorted.
  - unfold due_keys. induction (due_items m now deadline_of); constructor; done.
Qed.

Lemma due_keys_lookup m now deadline_of :
  Forall (λ p, ∃ v, m !! p.2 = Some v ∧ deadline_of v = p.1) (due_keys m now deadline_of).
Proof.
  apply Forall_forall. intros [a k] ([k0 v] & [= -> ->] & Hin)%list_elem_of_fmap.
  apply elem_of_due_items in Hin as [? _]. by exists v.
Qed.

Lemma due_keys_elem m now deadline_of k v :
  m !! k = Some v → (deadline_of v, k) ∈ due_keys m now deadline_of ↔ deadline_of v <= now.
Proof.
  intros Hk. unfold due_keys. rewrite list_elem_of_fmap. split.
  - intros ([k0 v0] & [= -> ->] & [Hm Hle]%elem_of_due_items). by simplify_eq/=.
  - intros Hle. exists (k, v). split; [done|]. by apply elem_of_due_items.
Qed.

Lemma drain_due_drained m now deadline_of l m' :
  drain_due m now deadline_of = (l, m') → drained m now deadline_of l m'.
Proof.
  unfold drain_due. fold (due_items m now deadline_of). fold (due_keys m now deadline_of).
  pose proof (sort_by_key_perm fst (due_keys m now deadline_of)) as Hperm. intros Ht.
  apply (take_due_spec deadline_of) in Ht as [Hf Hm].
  2:{ rewrite Hperm, due_keys_snd. apply due_items_NoDup. }
  2:{ rewrite Hperm. apply due_keys_lookup. }
  assert (l.*1 = (sort_by_key fst (due_keys m now deadline_of)).*2) as Hkeys.
  { clear -Hf. induction Hf as [|p q ?? (E & _) _ IH]; csimpl; [done|]. by rewrite IH, E. }
  assert (∀ k v, (k, v) ∈ l ↔ m !! k = Some v ∧ deadline_of v <= now) as Hl.
  { intros k v. split.
    - intros [i Hi]%list_elem_of_lookup.
      destruct (Forall2_lookup_r _ _ _ _ _ Hf Hi) as ([a k'] & Hdi & Hk & Ha & Hv). simpl in *; subst.
      split; [done|]. apply list_elem_of_lookup_2 in Hdi. rewrite Hperm in Hdi.
      by eapply due_keys_elem.
    - intros [Hk Hle]. assert ((deadline_of v, k) ∈ sort_by_key fst (due_keys m now deadline_of)) as Hd
        by by rewrite Hperm; apply due_keys_elem.
      apply list_elem_of_lookup in Hd as [i Hi].
      destruct (Forall2_lookup_l _ _ _ _ _ Hf Hi) as ([k' v'] & Hli & Hk' & Ha & Hv). simpl in *; subst.
      replace v with v' by congruence. by eapply list_elem_of_lookup_2. }
  split; [done| | |].
  - rewrite Hkeys, Hperm, due_keys_snd. apply due_items_NoDup.
  - eapply StronglySorted_Forall2; [|exact (sort_by_key_sorted fst _ _ (due_keys_sorted m now deadline_of))|exact Hf].
    intros [a k] [b k'] [k1 v1] [k2 v2] Hr (E1 & E2 & _) (E3 & E4 & _). simpl in *; subst.
    by destruct Hr as [?|[? ?]]; [left|right].
  - apply map_eq. intros k. rewrite Hm, map_lookup_filter.
    assert (k ∈ (sort_by_key fst (due_keys m now deadline_of)).*2
            ↔ ∃ v, m !! k = Some v ∧ deadline_of v <= now) as Hin.
    { rewrite Hperm, due_keys_snd, list_elem_of_fmap. split.
      - intros ([k0 v] & -> & Hin%elem_of_due_items). eauto.
      - intros (v & Hin%elem_of_due_items). by exists (k, v). }
    destruct (m !! k) as [v|]; simpl; [|by case_decide].
    case_decide as Hd; [|case_guard; [done|]].
    + apply Hin in Hd as (? & [= <-] & ?). case_guard; [lia|done].
    + destruct Hd. apply Hin. exists v. split; [done|]. lia.
Qed.

(** A drain splits the entries: none is lost and none is duplicated. *)
Lemma drained_perm m now deadline_of l m' :
  drained m now deadline_of l m' → map_to_list m ≡ₚ l ++ map_to_list m'.
Proof.
  intros [Hl Hnd _ ->]. apply NoDup_Permutation.
  - apply NoDup_map_to_list.
  - apply NoDup_app. split_and!; [by eapply NoDup_fmap_1| |apply NoDup_map_to_list].
    intros [k v] [_ Hle]%Hl [_ Hlt]%elem_of_map_to_list%map_lookup_filter_Some. simpl in *. lia.
  - intros [k v]. rewrite elem_of_app, Hl, !elem_of_map_to_list, map_lookup_filter_Some. simpl.
    split; [|tauto]. intros Hk. destruct (decide (deadline_of v <= now)); [by left|right; split; [done|lia]].
Qed.
End drain.

(* obby-client/src/timer.rs 15-22 Now *)
Record Now := mkNow { monotonic_ms : Z; unix_ms : Z }.

(* obby-client/src/timer.rs 24-34 constants *)
Definition PING_KEEPALIVE_MS : Z := 30000.
Definition DEAD_LINK_MS : Z := 10000.
Definition TYPING_EXPIRY_MS : Z := 6000.

(* obby-client/src/timer.rs 36-53 Deadline *)
Inductive Deadline := PingKeepalive | DeadLink | Reconnect | Typing (target nick : text).

#[global] Instance deadline_eq_dec : EqDecision Deadline.
Proof. solve_decision. Defined.

(** The derived order: by constructor, then by the fields of [Typing]. *)
Definition deadline_key (d : Deadline) : N * (text * text) :=
  match d with
  | PingKeepalive => (0%N, ([], []))
  | DeadLink => (1%N, ([], []))
  | Reconnect => (2%N, ([], []))
  | Typing a b => (3%N, (a, b))
  end.
Definition deadline_of_key (k : N * (text * text)) : option Deadline :=
  match k.1 with
  | 0%N => Some PingKeepalive
  | 1%N => Some DeadLink
  | 2%N => Some Reconnect
  | _ => Some (Typing k.2.1 k.2.2)
  end.
Lemma deadline_of_key_key d : deadline_of_key (deadline_key d) = Some d.
Proof. by destruct d. Qed.
#[global] Instance deadline_countable : Countable Deadline :=
  inj_countable deadline_key deadline_of_key deadline_of_key_key.
#[global] Instance deadline_lexico : Lexico Deadline := λ a b, lexico (deadline_key a) (deadline_key b).
#[global] Instance deadline_trichotomy : TrichotomyT (@lexico Deadline _).
Proof.
  intros a b. destruct (trichotomyT lexico (deadline_key a) (deadline_key b)) as [[H|H]|H].
  - left; by left.
  - left; right. assert (Some a = Some b) as [= ->]; [|done].
    by rewrite <- (deadline_of_key_key a), H, deadline_of_key_key.
  - by right.
Defined.
#[global] Instance deadline_strict : StrictOrder (@lexico Deadline _).
Proof.
  split.
  - intros a H. by apply (irreflexivity lexico (deadline_key a)).
  - intros a b c H1 H2. unfold lexico, deadline_lexico in *. by etransitivity.
Qed.

Module Timers.
(* obby-client/src/timer.rs 55-62 Timers *)
Definition t := gmap Deadline Z.

(* obby-client/src/timer.rs 65-68 Timers::new *)
Definition new : t := ∅.
(* obby-client/src/timer.rs 70-73 Timers::set *)
Definition set (deadline : Deadline) (at_ms : Z) (s : t) : t := <[deadline := at_ms]> s.
(* obby-client/src/timer.rs 75-78 Timers::clear *)
Definition clear (deadline : Deadline) (s : t) : t := delete deadline s.
(* obby-client/src/timer.rs 80-87 Timers::expire *)
Definition expire (now : Now) (s : t) : list Deadline * t :=
  let '(due, s) := drain_due s (monotonic_ms now) (λ at_ms, at_ms) in (due.*1, s).
(* obby-client/src/timer.rs 89-92 Timers::next *)
Definition next (s : t) : option Z :=
  match (sorted_items s).*2 with
  | [] => None
  | x :: l => Some (foldr Z.min x l)
  end.
End Timers.

Module ReconnectBackoff.
(* obby-client/src/timer.rs 102-108 ReconnectBackoff *)
Record t := mk { base_ms : Z; cap_ms : Z; max_attempts : Z; attempts : Z }.

(* obby-client/src/timer.rs 118-126 ReconnectBackoff::new *)
Definition new (base_ms cap_ms max_attempts : Z) : t := mk base_ms cap_ms max_attempts 0.
(* obby-client/src/timer.rs 150-160 Default for ReconnectBackoff *)
Definition default : t := new 2000 300000 100.

(** [1u64.checked_shl]. *)
Definition checked_shl_1 (n : Z) : option Z :=
  if decide (n < 64) then Some (Z.shiftl 1 n) else None.

(* obby-client/src/timer.rs 128-142 ReconnectBackoff::next_delay_ms *)
Definition next_delay_ms (s : t) : option Z * t :=
  if decide (attempts s >= max_attempts s) then (None, s)
  else
    let factor := option.default u64_max (checked_shl_1 (attempts s)) in
    let delay := Z.min (saturating_mul_u64 (base_ms s) factor) (cap_ms s) in
    (Some delay, mk (base_ms s) (cap_ms s) (max_attempts s) (attempts s + 1)).

(* obby-client/src/timer.rs 144-147 ReconnectBackoff::reset *)
Definition reset (s : t) : t := mk (base_ms s) (cap_ms s) (max_attempts s) 0.

(** The state after [n] delays were asked for. *)
Fixpoint after (n : nat) (s : t) : t :=
  match n with O => s | S n => (next_delay_ms (after n s)).2 end.
End ReconnectBackoff.

(** ** Timers *)

Lemma foldr_min_spec x l :
  foldr Z.min x l ∈ x :: l ∧ ∀ y, y ∈ x :: l → foldr Z.min x l <= y.
Proof.
  induction l as [|z l [Hin Hle]]; simpl.
  - split; [by left|]. intros y Hy%list_elem_of_singleton. lia.
  - split.
    + destruct (Z.min_spec z (foldr Z.min x l)) as [[_ ->]|[_ ->]]; [set_solver|].
      clear Hle. set_solver.
    + intros y Hy. assert (y = z ∨ y ∈ x :: l) as [-> |H] by (clear Hle Hin; set_solver); [lia|].
      specialize (Hle y H). lia.
Qed.

Lemma next_Some s t :
  Timers.next s = Some t ↔ (∃ d, s !! d = Some t) ∧ ∀ d t', s !! d = Some t' → t <= t'.
Proof.
  unfold Timers.next.
  assert (∀ v, v ∈ (sorted_items s).*2 ↔ ∃ d, s !! d = Some v) as Hin.
  { intros v. rewrite list_elem_of_fmap. split.
    - intros ([d v'] & -> & H%elem_of_sorted_items). eauto.
    - intros [d H%elem_of_sorted_items]. by exists (d, v). }
  destruct ((sorted_items s).*2) as [|x l].
  - split; [done|]. intros [[d Hd] _]. assert (t ∈ ([] : list Z)) as H by (apply Hin; eauto).
    by apply elem_of_nil in H.
  - pose proof (foldr_min_spec x l) as [H1 H2]. split.
    + intros [= <-]. split; [by apply Hin|]. intros d t' Ht'. apply H2, Hin. eauto.
    + intros [Ht Hmin]. f_equal. apply Hin in H1 as [d Hd]. apply Hin in Ht.
      specialize (H2 t Ht). specialize (Hmin d _ Hd). lia.
Qed.

Lemma next_None s : Timers.next s = None ↔ s = ∅.
Proof.
  unfold Timers.next. rewrite <- (map_size_empty_iff (M := gmap Deadline) s), <- length_sorted_items.
  destruct (sorted_items s); simpl; split; done.
Qed.

Lemma drain_nothing_due {K V} `{Lexico K, !TrichotomyT (@lexico K _), !StrictOrder (@lexico K _),
    EqDecision K, !Countable K} (m : gmap K V) now deadline_of :
  (∀ k v, m !! k = Some v → now < deadline_of v) → (drain_due m now deadline_of).1 = [].
Proof.
  intros Hlate. destruct (drain_due m now deadline_of) as [l m'] eqn:E.
  apply drain_due_drained in E as [Hl _ _ _]. destruct l as [|[k v] l]; [done|].
  destruct (proj1 (Hl k v)) as [Hk Hle]; [by left|]. specialize (Hlate k v Hk). lia.
Qed.

Lemma drain_nothing_left {K V} `{Lexico K, !TrichotomyT (@lexico K _), !StrictOrder (@lexico K _),
    EqDecision K, !Countable K} (m : gmap K V) now deadline_of :
  (∀ k v, m !! k = Some v → now < deadline_of v) → drain_due m now deadline_of = ([], m).
Proof.
  intros Hlate. pose proof (drain_nothing_due m now deadline_of Hlate) as Hnil.
  destruct (drain_due m now deadline_of) as [l m'] eqn:E. cbn in Hnil. subst l. f_equal.
  rewrite (drained_rest _ _ _ _ _ (drain_due_drained _ _ _ _ _ E)). apply map_filter_id. by intros k v Hk%Hlate.
Qed.

(** Before the next deadline there is nothing to drain. *)
Lemma expire_early (s : Timers.t) (now : Now) :
  (∀ t, Timers.next s = Some t → monotonic_ms now < t) → Timers.expire now s = ([], s).
Proof.
  intros Hearly. unfold Timers.expire. rewrite drain_nothing_left; [done|]. intros d at_ms Hd.
  destruct (Timers.next s) as [t|] eqn:En.
  - destruct (proj1 (next_Some s t) En) as [_ Hmin]. specialize (Hmin d at_ms Hd). specialize (Hearly t eq_refl). lia.
  - apply next_None in En. subst s. apply lookup_empty_Some in Hd as [].
Qed.

(** A drain hands over exactly the deadlines that are due, each once and earliest
    first, and leaves exactly the others, so a second drain at the same instant finds
    nothing; and a host that sleeps until [next] sleeps exactly long enough: nothing is
    due before it, and something is due from it on. *)
Theorem timers_expire_exactly (s : Timers.t) (now : Now) :
  let '(due, s') := Timers.expire now s in
  (∀ d, d ∈ due ↔ ∃ at_ms, s !! d = Some at_ms ∧ at_ms <= monotonic_ms now)
  ∧ NoDup due
  ∧ StronglySorted (λ a b, ∀ ta tb, s !! a = Some ta → s !! b = Some tb → ta <= tb) due
  ∧ (∀ d at_ms, s' !! d = Some at_ms ↔ s !! d = Some at_ms ∧ monotonic_ms now < at_ms)
  ∧ (Timers.expire now s').1 = []
  ∧ (due = [] ↔ ∀ t, Timers.next s = Some t → monotonic_ms now < t).
Proof.
  unfold Timers.expire at 1. destruct (drain_due _ _ _) as [l s'] eqn:E.
  apply drain_due_drained in E as [Hl Hnd Hs Hs']. cbn beta iota zeta.
  assert (∀ d, d ∈ l.*1 ↔ ∃ at_ms, s !! d = Some at_ms ∧ at_ms <= monotonic_ms now) as Hin.
  { intros d. rewrite list_elem_of_fmap. split.
    - intros ([d' v] & -> & H%Hl). eauto.
    - intros (v & H%Hl). by exists (d, v). }
  assert (∀ d at_ms, s' !! d = Some at_ms ↔ s !! d = Some at_ms ∧ monotonic_ms now < at_ms) as Hrest.
  { intros d v. rewrite Hs'. apply map_lookup_filter_Some. }
  split_and!; [done|done| |done| |].
  - assert (∀ k v, (k, v) ∈ l → s !! k = Some v) as Hlk by (intros k v H%Hl; tauto).
    clear -Hs Hlk. induction Hs as [|[k v] l _ IH Hx]; csimpl; [constructor|].
    constructor; [apply IH; intros ?? H; apply Hlk; by right|].
    apply Forall_fmap, Forall_forall. intros [k' v'] Hin ta tb Ha Hb. simpl in Ha, Hb.
    rewrite (Hlk k v) in Ha by by left. rewrite (Hlk k' v') in Hb by by right.
    rewrite Forall_forall in Hx. specialize (Hx _ Hin). unfold due_order in Hx. simpl in Hx.
    simplify_eq. destruct Hx as [?|[? _]]; lia.
  - unfold Timers.expire.
    pose proof (drain_nothing_due s' (monotonic_ms now) (λ t, t)) as Hn.
    destruct (drain_due s' _ _). simpl in *. rewrite Hn; [done|]. intros d v H%Hrest. tauto.
  - split.
    + intros Hnil t [[d Hd] Hmin]%next_Some. destruct (decide (t <= monotonic_ms now)); [|lia].
      assert (d ∈ l.*1) as H by (apply Hin; eauto). rewrite Hnil in H. by apply elem_of_nil in H.
    + intros Hlate. destruct (l.*1) as [|d l'] eqn:El; [done|].
      destruct (proj1 (Hin d)) as (v & Hv & Hle); [by left|].
      destruct (Timers.next s) as [t|] eqn:En.
      * specialize (Hlate t eq_refl). apply next_Some in En as [_ Hmin]. specialize (Hmin d v Hv). lia.
      * apply next_None in En. subst. by apply (lookup_empty_Some (M:=gmap Deadline)) in Hv.
Qed.

(** ** Backoff *)

Record wf_backoff (s : ReconnectBackoff.t) : Prop := {
  wf_base : 0 < ReconnectBackoff.base_ms s <= u64_max;
  wf_cap : 0 <= ReconnectBackoff.cap_ms s <= u64_max;
  wf_attempts : 0 <= ReconnectBackoff.attempts s;
  wf_max : ReconnectBackoff.max_attempts s <= u32_max;
}.

(** The delay without any width: [base * 2^n] up to the cap. *)
Definition ideal_delay (s : ReconnectBackoff.t) (n : Z) : Z :=
  Z.min (ReconnectBackoff.base_ms s * 2 ^ n) (ReconnectBackoff.cap_ms s).

Lemma next_delay_ideal s :
  wf_backoff s → ReconnectBackoff.attempts s < ReconnectBackoff.max_attempts s →
  (ReconnectBackoff.next_delay_ms s).1 = Some (ideal_delay s (ReconnectBackoff.attempts s)).
Proof.
  intros [Hb Hc Ha _] Hlt. unfold ReconnectBackoff.next_delay_ms. rewrite decide_False by lia.
  cbn [fst]. f_equal. unfold ideal_delay, saturating_mul_u64, ReconnectBackoff.checked_shl_1.
  case_decide; cbn [from_option id]; unfold u64_max in *.
  - rewrite Z.shiftl_mul_pow2, Z.mul_1_l by lia. lia.
  - assert (2 ^ 64 <= 2 ^ ReconnectBackoff.attempts s) by (apply Z.pow_le_mono_r; lia). 
    set (p := 2 ^ ReconnectBackoff.attempts s) in *. nia.
Qed.

Lemma after_state n s :
  wf_backoff s → ReconnectBackoff.attempts s = 0 → 0 <= ReconnectBackoff.max_attempts s →
  ReconnectBackoff.after n s =
  ReconnectBackoff.mk (ReconnectBackoff.base_ms s) (ReconnectBackoff.cap_ms s)
    (ReconnectBackoff.max_attempts s) (Z.min (Z.of_nat n) (ReconnectBackoff.max_attempts s)).
Proof.
  intros Hwf Ha Hm. induction n as [|n IH]; cbn [ReconnectBackoff.after].
  - destruct s; simpl in *. subst. f_equal. lia.
  - rewrite IH. unfold ReconnectBackoff.next_delay_ms.
    case_decide; simpl in *; f_equal; lia.
Qed.

(** The n-th delay since the start is exactly the doubled base up to the cap, although
    the shift and the product are done in 64 bits; after the configured number of
    attempts there is never another delay, until [reset] starts the sequence over. *)
Theorem backoff_sequence (base cap max : Z) (n : nat) :
  0 < base <= u64_max → 0 <= cap <= u64_max → 0 <= max <= u32_max →
  let s := ReconnectBackoff.new base cap max in
  (ReconnectBackoff.next_delay_ms (ReconnectBackoff.after n s)).1 =
    (if decide (Z.of_nat n < max) then Some (Z.min (base * 2 ^ Z.of_nat n) cap) else None)
  ∧ ReconnectBackoff.reset (ReconnectBackoff.after n s) = s
  ∧ 0 <= ReconnectBackoff.attempts (ReconnectBackoff.after n s) <= u32_max.
Proof.
  intros Hb Hc Hm s.
  assert (∀ k, 0 <= k → wf_backoff (ReconnectBackoff.mk base cap max k)) as Hwf by (intros; split; done || apply Hm).
  rewrite after_state by (apply (Hwf 0); done) || (simpl; lia).
  cbn [ReconnectBackoff.base_ms ReconnectBackoff.cap_ms ReconnectBackoff.max_attempts
       ReconnectBackoff.attempts s ReconnectBackoff.new]. split_and!; [|done|lia|lia].
  case_decide as Hn.
  - rewrite Z.min_l by lia. rewrite next_delay_ideal; [done|apply Hwf; lia|done].
  - unfold ReconnectBackoff.next_delay_ms. by rewrite decide_True by (simpl; lia).
Qed.

Lemma backoff_sequence_witness :
  (ReconnectBackoff.next_delay_ms (ReconnectBackoff.after 7 ReconnectBackoff.default)).1 = Some 256000.
Proof. apply (backoff_sequence 2000 300000 100 7); unfold u64_max, u32_max; lia. Defined.
