(* ===== verification/Batch.v ===== *)
(** * BATCH framing (src/crates/obby-client/src/batch.rs)

    Open batches are keyed by their reference, so siblings may interleave; every
    buffer and the table itself are bounded. [is_within] walks the chain of outer
    batches, which a server may have made a cycle. *)
From S2P Require Import Prelude Tags Message.

Module Batch.
(* obby-client/src/batch.rs 14-24 constants *)
Definition DEFAULT_MAX_BUFFERED : nat := 1024.
Definition DEFAULT_MAX_OPEN : nat := 64.

(* obby-client/src/batch.rs 26-40 ClosedBatch *)
Record Closed := mkClosed {
  c_kind : text;
  c_params : list text;
  c_parent : option text;
  c_messages : list Message.t;
  c_overflowed : bool;
}.

(* obby-client/src/batch.rs 42-54 OpenBatch *)
Record Open := mkOpen {
  kind : text;
  params : list text;
  parent : option text;
  messages : list Message.t;
  seen : gset text;
  overflowed : bool;
}.

(* obby-client/src/batch.rs 56-75 OpenBatch::push *)
Definition push (max_buffered : nat) (message : Message.t) (b : Open) : Open :=
  if overflowed b then b
  else
    let msgid := Message.tag message "msgid" in
    if match msgid with Some id => bool_decide (id ∈ seen b) | None => false end then b
    else if decide (max_buffered <= length (messages b))%nat then
      mkOpen (kind b) (params b) (parent b) (messages b) (seen b) true
    else
      mkOpen (kind b) (params b) (parent b) (messages b ++ [message])
        (match msgid with Some id => {[id]} ∪ seen b | None => seen b end) (overflowed b).

(* obby-client/src/batch.rs 77-85 OpenBatch::into_closed *)
Definition into_closed (b : Open) : Closed :=
  mkClosed (kind b) (params b) (parent b) (messages b) (overflowed b).

(* obby-client/src/batch.rs 88-98 Batches *)
Record t := mk {
  by_reference : gmap text Open;
  max_buffered : nat;
  max_open : nat;
}.
Definition set_by_reference (m : gmap text Open) (s : t) : t := mk m (max_buffered s) (max_open s).

(* obby-client/src/batch.rs 106-113 Batches::with_max_buffered *)
Definition with_max_buffered (max_buffered : nat) : t := mk ∅ max_buffered DEFAULT_MAX_OPEN.
(* obby-client/src/batch.rs 100-104 Batches::new *)
Definition new : t := with_max_buffered DEFAULT_MAX_BUFFERED.

(* obby-client/src/batch.rs 115-149 Batches::open *)
Definition open (message : Message.t) (s : t) : t :=
  match (marker ← Message.param message 0; strip_prefix_char chPLUS marker), Message.param message 1 with
  | Some reference, Some kind =>
      if decide (is_Some (by_reference s !! reference)) then s
      else if decide (max_open s <= size (by_reference s))%nat then s
      else set_by_reference
             (<[reference := mkOpen kind (drop 2 (Message.params message))
                  (Message.tag message "batch") [] ∅ false]> (by_reference s)) s
  | _, _ => s
  end.

(* obby-client/src/batch.rs 151-160 Batches::close *)
Definition close (message : Message.t) (s : t) : option Closed * t :=
  match (marker ← Message.param message 0; strip_prefix_char chMINUS marker) with
  | Some reference =>
      match by_reference s !! reference with
      | Some b => (Some (into_closed b), set_by_reference (delete reference (by_reference s)) s)
      | None => (None, s)
      end
  | None => (None, s)
  end.

(* obby-client/src/batch.rs 162-179 Batches::route *)
Definition route (message : Message.t) (s : t) : option Message.t * t :=
  match Message.tag message "batch" with
  | None => (Some message, s)
  | Some reference =>
      match by_reference s !! reference with
      | Some b =>
          (None, set_by_reference (<[reference := push (max_buffered s) message b]> (by_reference s)) s)
      | None => (Some message, s)
      end
  end.

(** The walk of [is_within]: [budget] is how many more ancestors may be visited. *)
(* obby-client/src/batch.rs 191-207 Batches::is_within *)
Fixpoint within_loop (m : gmap text Open) (k : text) (budget : nat) (current : option Open) : bool :=
  match current with
  | None => false
  | Some b =>
      if decide (kind b = k) then true
      else match budget with
           | O => false
           | S budget => within_loop m k budget (p ← parent b; m !! p)
           end
  end.
(* obby-client/src/batch.rs 181-208 Batches::is_within *)
Definition is_within (s : t) (reference k : text) : bool :=
  within_loop (by_reference s) k (size (by_reference s)) (by_reference s !! reference).

(* obby-client/src/batch.rs 210-216 Batches::drop_all *)
Definition drop_all (s : t) : t := set_by_reference ∅ s.
End Batch.

(** ** The ancestor walk *)

(** The batch a reference names is of this kind, or lies inside one that is. *)
Inductive inside (m : gmap text Batch.Open) (k : text) : text → Prop :=
  | inside_here r b : m !! r = Some b → Batch.kind b = k → inside m k r
  | inside_up r b p : m !! r = Some b → Batch.parent b = Some p → inside m k p → inside m k r.

Section walk.
Context (m : gmap text Batch.Open) (k : text).

(** The reference [n] links up. *)
Fixpoint ancestor (n : nat) (r : text) : option text :=
  match n with O => Some r | S n => b ← m !! r; p ← Batch.parent b; ancestor n p end.
Definition hit (r : text) (n : nat) : Prop :=
  ∃ r' b, ancestor n r = Some r' ∧ m !! r' = Some b ∧ Batch.kind b = k.

#[local] Instance hit_dec r n : Decision (hit r n).
Proof.
  unfold hit. destruct (ancestor n r) as [r'|]; [|right; naive_solver].
  destruct (m !! r') as [b|] eqn:E; [|right; naive_solver].
  destruct (decide (Batch.kind b = k)); [left; naive_solver|right; naive_solver].
Qed.

Lemma hit_S r n : hit r (S n) ↔ ∃ b p, m !! r = Some b ∧ Batch.parent b = Some p ∧ hit p n.
Proof.
  unfold hit. cbn [ancestor]. split.
  - intros (r' & b & (b0 & Hb0 & (p & Hp & Ha)%bind_Some)%bind_Some & Hb). eauto 8.
  - intros (b0 & p & Hb0 & Hp & r' & b & Ha & Hb). exists r', b. split; [|done].
    by rewrite Hb0; simpl; rewrite Hp.
Qed.

Lemma within_loop_hit budget r :
  Batch.within_loop m k budget (m !! r) = true ↔ ∃ n, (n <= budget)%nat ∧ hit r n.
Proof.
  revert r. induction budget as [|budget IH]; intros r; cbn [Batch.within_loop].
  all: destruct (m !! r) as [b|] eqn:E; [case_decide as Hk|].
  - split; [|done]. intros _. exists 0%nat. split; [lia|]. by exists r, b.
  - split; [done|]. intros (n & Hn & Hh). assert (n = 0%nat) as -> by lia.
    destruct Hh as (r' & b' & [= <-] & Hb & Hk'). congruence.
  - split; [done|]. intros (n & Hn & Hh). assert (n = 0%nat) as -> by lia.
    destruct Hh as (r' & b' & [= <-] & Hb & Hk'). congruence.
  - split; [|done]. intros _. exists 0%nat. split; [lia|]. by exists r, b.
  - split.
    + intros H. destruct (Batch.parent b) as [p|] eqn:Ep; [|by destruct budget].
      apply IH in H as (n & Hn & Hh). exists (S n). split; [lia|]. apply hit_S. eauto.
    + intros ([|n] & Hn & Hh); [destruct Hh as (r' & b' & [= <-] & Hb & Hk'); congruence|].
      apply hit_S in Hh as (b' & p & Hb' & Hp & Hh). simplify_eq. rewrite Hp. simpl.
      apply IH. exists n. split; [lia|done].
  - split; [done|]. intros ([|n] & Hn & Hh).
    + destruct Hh as (r' & b' & [= <-] & Hb & _). congruence.
    + apply hit_S in Hh as (b' & p & Hb' & _). congruence.
Qed.

Lemma ancestor_add a b r : ancestor (a + b) r = ancestor a r ≫= ancestor b.
Proof.
  revert r. induction a as [|a IH]; intros r; [done|]. simpl.
  destruct (m !! r) as [x|]; [|done]. simpl. destruct (Batch.parent x); simpl; [apply IH|done].
Qed.

Lemma hit_add r a b r' : ancestor a r = Some r' → hit r (a + b) ↔ hit r' b.
Proof. intros Ha. unfold hit. by rewrite ancestor_add, Ha. Qed.

(** A hit has a first hit, and up to it no reference repeats. *)
Lemma hit_first r n : hit r n → ∃ n0, hit r n0 ∧ ∀ i, (i < n0)%nat → ¬ hit r i.
Proof.
  induction (lt_wf n) as [n _ IH]. intros Hn.
  destruct (decide (Exists (hit r) (seq 0 n))) as [He|He].
  - apply Exists_exists in He as (i & Hi & Hh). apply elem_of_seq in Hi. apply (IH i); [lia|done].
  - exists n. split; [done|]. intros i Hi Hh. apply He, Exists_exists. exists i.
    split; [apply elem_of_seq; lia|done].
Qed.

Lemma hit_bound r n : (∀ i, (i < n)%nat → ¬ hit r i) → hit r n → (n <= size m)%nat.
Proof.
  intros Hmin Hn.
  assert (∀ i, (i <= n)%nat → ∃ x, ancestor i r = Some x ∧ is_Some (m !! x)) as Hall.
  { intros i Hi. replace n with (i + (n - i))%nat in Hn by lia.
    destruct Hn as (r' & b & Ha & Hb). rewrite ancestor_add in Ha.
    apply bind_Some in Ha as (x & Hx & Ha). exists x. split; [done|].
    destruct (n - i)%nat as [|j]; simpl in Ha; [simplify_eq; naive_solver|].
    apply bind_Some in Ha as (bx & Hbx & _). eauto. }
  assert (∀ i j x, (i < j)%nat → (j <= n)%nat → ancestor i r = Some x → ancestor j r = Some x → False) as Hinj.
  { intros i j x Hij Hj Hi Hjx. apply (Hmin (i + (n - j))%nat); [lia|].
    apply (hit_add _ _ _ x Hi), (hit_add _ j _ x Hjx). by replace (j + (n - j))%nat with n by lia. }
  set (l := omap (λ i, ancestor i r) (seq 0 (S n))).
  assert (∀ j len, (j + len <= S n)%nat →
    NoDup (omap (λ i, ancestor i r) (seq j len)) ∧ length (omap (λ i, ancestor i r) (seq j len)) = len
    ∧ ∀ x, x ∈ omap (λ i, ancestor i r) (seq j len) → is_Some (m !! x)) as Hl.
  { intros j len. revert j. induction len as [|len IHl]; intros j Hj.
    - split_and!; [constructor|done|]. intros x Hx. by apply elem_of_nil in Hx.
    - destruct (IHl (S j) ltac:(lia)) as (Hnd & Hlen & Hdom). destruct (Hall j ltac:(lia)) as (x & Hx & Hs).
      cbn [seq omap list_omap]. fold (omap (M:=list) (λ i, ancestor i r)). rewrite Hx.
      split_and!; [|simpl; by f_equal|by intros y [-> |Hy]%elem_of_cons; auto].
      apply NoDup_cons. split; [|done]. intros (i & Hi & Hix)%list_elem_of_omap.
      apply elem_of_seq in Hi. by apply (Hinj j i x); [lia|lia|..]. }
  destruct (Hl 0%nat (S n) ltac:(lia)) as (Hnd & Hlen & Hdom). fold l in Hnd, Hlen, Hdom.
  assert (size (list_to_set l : gset text) <= size (dom m))%nat as Hs.
  { apply subseteq_size. intros x. rewrite elem_of_list_to_set, elem_of_dom. apply Hdom. }
  rewrite size_list_to_set, Hlen, size_dom in Hs by done. lia.
Qed.

Lemma inside_hit r : inside m k r ↔ ∃ n, hit r n.
Proof.
  split.
  - induction 1 as [r b Hb Hk|r b p Hb Hp _ [n Hn]].
    + exists 0%nat. by exists r, b.
    + exists (S n). apply hit_S. eauto.
  - intros [n Hn]. revert r Hn. induction n as [|n IH]; intros r Hn.
    + destruct Hn as (r' & b & [= <-] & Hb & Hk). by econstructor.
    + apply hit_S in Hn as (b & p & Hb & Hp & Hh). eapply inside_up; eauto.
Qed.
End walk.

(** The bounded walk decides nesting exactly: whatever references the server made
    each other's parents, a cycle included, it ends and finds every ancestor. *)
Theorem is_within_iff (s : Batch.t) (reference k : text) :
  Batch.is_within s reference k = true ↔ inside (Batch.by_reference s) k reference.
Proof.
  unfold Batch.is_within. rewrite within_loop_hit, inside_hit. split; [naive_solver|].
  intros [n Hn]. apply hit_first in Hn as (n0 & Hn0 & Hmin). exists n0.
  split; [by eapply hit_bound|done].
Qed.

(** ** What a batch collects *)

Definition msgid (m : Message.t) : option text := Message.tag m "msgid".

(** Routing a list of messages, as they arrive. *)
Definition route_all (msgs : list Message.t) (s : Batch.t) : Batch.t :=
  foldl (λ s message, (Batch.route message s).2) s msgs.

(** The messages tagged for one reference. *)
Definition tagged (reference : text) (msgs : list Message.t) : list Message.t :=
  filter (λ m, Message.tag m "batch" = Some reference) msgs.

Lemma max_buffered_route m s : Batch.max_buffered (Batch.route m s).2 = Batch.max_buffered s.
Proof. unfold Batch.route. by repeat case_match. Qed.

Lemma lookup_route m s r :
  Batch.by_reference (Batch.route m s).2 !! r =
  (if decide (Message.tag m "batch" = Some r) then Batch.push (Batch.max_buffered s) m else id)
    <$> Batch.by_reference s !! r.
Proof.
  unfold Batch.route. destruct (Message.tag m "batch") as [r'|].
  - destruct (Batch.by_reference s !! r') as [b|] eqn:E; simpl.
    + destruct (decide (Some r' = Some r)) as [[= ->]|Hne].
      * by rewrite lookup_insert_eq, E.
      * rewrite lookup_insert_ne by congruence. by destruct (_ !! r).
    + case_decide as Hr; [simplify_eq; by rewrite E|]. by destruct (_ !! r).
  - rewrite decide_False by done. simpl. by destruct (_ !! r).
Qed.

(** Sibling batches interleave freely: however the lines of several batches are mixed,
    each open batch ends up with what its own lines alone would have given it, in their
    order; and a close hands over exactly that and forgets the reference. *)
Theorem batches_interleave (s : Batch.t) (msgs : list Message.t) (reference : text) :
  let b := Batch.by_reference s !! reference in
  let collected := (λ b, foldl (λ b m, Batch.push (Batch.max_buffered s) m b) b (tagged reference msgs)) <$> b in
  Batch.by_reference (route_all msgs s) !! reference = collected
  ∧ ∀ close, Message.param close 0 = Some (chMINUS :: reference) →
      (Batch.close close (route_all msgs s)).1 = Batch.into_closed <$> collected
      ∧ Batch.by_reference (Batch.close close (route_all msgs s)).2 !! reference = None.
Proof.
  cbv zeta.
  assert (Batch.by_reference (route_all msgs s) !! reference =
    (λ b, foldl (λ b m, Batch.push (Batch.max_buffered s) m b) b (tagged reference msgs))
      <$> Batch.by_reference s !! reference) as Hall.
  { revert s. unfold route_all, tagged. induction msgs as [|m msgs IH]; intros s; csimpl.
    - by destruct (_ !! _).
    - rewrite IH, max_buffered_route, lookup_route, filter_cons.
      case_decide; by destruct (Batch.by_reference s !! reference). }
  split; [done|]. intros close Hp. unfold Batch.close. rewrite Hp. cbn [mbind option_bind].
  rewrite (proj2 (strip_prefix_char_Some _ _ _) eq_refl), <- Hall.
  destruct (Batch.by_reference (route_all msgs s) !! reference) as [b|] eqn:E; simpl; [|by rewrite E].
  split; [done|]. apply lookup_delete_eq.
Qed.

Lemma batches_interleave_witness :
  let line s := default (Message.new "X" []) (match Message.parse s with inr m => Some m | _ => None end) in
  (Batch.close (line "BATCH -a")
    (route_all [line "@batch=a PRIVMSG #c :1"; line "@batch=b PRIVMSG #c :2"; line "@batch=a PRIVMSG #c :3"]
      (Batch.open (line "BATCH +b netsplit x y") (Batch.open (line "BATCH +a chathistory #c") Batch.new)))).1
  = Some (Batch.mkClosed "chathistory" [lit "#c"] None
            [line "@batch=a PRIVMSG #c :1"; line "@batch=a PRIVMSG #c :3"] false).
Proof.
  intros line.
  pose proof (batches_interleave
    (Batch.open (line "BATCH +b netsplit x y") (Batch.open (line "BATCH +a chathistory #c") Batch.new))
    [line "@batch=a PRIVMSG #c :1"; line "@batch=b PRIVMSG #c :2"; line "@batch=a PRIVMSG #c :3"] "a") as [_ H].
  destruct (H (line "BATCH -a")) as [H1 _]; [vm_compute; reflexivity|].
  rewrite H1. vm_compute. reflexivity.
Defined.

(** ** Bounds *)

(** One open batch within its bound: no msgid twice, [seen] holds exactly the msgids
    buffered, and only a full buffer is marked overflowed. *)
Record wf_open (max_buffered : nat) (b : Batch.Open) : Prop := {
  open_bounded : (length (Batch.messages b) <= max_buffered)%nat;
  open_msgids : NoDup (omap msgid (Batch.messages b));
  open_seen : ∀ id, id ∈ Batch.seen b ↔ id ∈ omap msgid (Batch.messages b);
  open_overflow : Batch.overflowed b = true → length (Batch.messages b) = max_buffered;
}.

Lemma push_wf max_buffered m b : wf_open max_buffered b → wf_open max_buffered (Batch.push max_buffered m b).
Proof.
  intros Hb. unfold Batch.push. fold (msgid m). destruct (Batch.overflowed b) eqn:Eo; [done|].
  destruct (match msgid m with Some id => bool_decide (id ∈ Batch.seen b) | None => false end) eqn:Ed; [done|].
  destruct Hb as [Hlen Hnd Hseen Hov]. case_decide as Hfull.
  - split; simpl; [done..|lia].
  - assert (omap msgid (Batch.messages b ++ [m]) =
            omap msgid (Batch.messages b) ++ option_list (msgid m)) as Happ.
    { rewrite omap_app. simpl. by destruct (msgid m). }
    split; simpl.
    + rewrite length_app. simpl. lia.
    + rewrite Happ. apply NoDup_app. split_and!; [done| |].
      * intros id Hin. destruct (msgid m) as [id'|]; simpl; [|apply not_elem_of_nil].
        apply bool_decide_eq_false in Ed. rewrite list_elem_of_singleton. intros ->. by apply Ed, Hseen.
      * destruct (msgid m); simpl; [apply NoDup_singleton|constructor].
    + intros id. rewrite Happ, elem_of_app, <- Hseen.
      destruct (msgid m) as [id'|]; simpl; [|rewrite elem_of_nil; tauto].
      rewrite elem_of_union, elem_of_singleton, list_elem_of_singleton. tauto.
    + done.
Qed.

Inductive op := Open (m : Message.t) | Close (m : Message.t) | Route (m : Message.t) | DropAll.
Definition step (s : Batch.t) (o : op) : Batch.t :=
  match o with
  | Open m => Batch.open m s
  | Close m => (Batch.close m s).2
  | Route m => (Batch.route m s).2
  | DropAll => Batch.drop_all s
  end.

Record wf_batches (max_buffered : nat) (s : Batch.t) : Prop := {
  batches_max : Batch.max_buffered s = max_buffered ∧ Batch.max_open s = Batch.DEFAULT_MAX_OPEN;
  batches_size : (size (Batch.by_reference s) <= Batch.DEFAULT_MAX_OPEN)%nat;
  batches_open : map_Forall (λ _ b, wf_open max_buffered b) (Batch.by_reference s);
}.

Lemma wf_batches_new n : wf_batches n (Batch.with_max_buffered n).
Proof. split; [done|simpl; rewrite map_size_empty; lia|apply map_Forall_empty]. Qed.

Lemma step_wf n s o : wf_batches n s → wf_batches n (step s o).
Proof.
  intros [Hm Hs Ho]. destruct o as [m|m|m|]; simpl.
  - unfold Batch.open. repeat case_match; try by split. repeat case_decide; try by split.
    split; simpl; [done| |].
    + rewrite map_size_insert_None by by apply eq_None_not_Some. destruct Hm as [_ Hm]. lia.
    + apply map_Forall_insert_2; [|done]. split; simpl; [lia|constructor|set_solver|done].
  - unfold Batch.close. repeat case_match; try by split. split; simpl; [done| |].
    + rewrite map_size_delete. case_match; simpl; lia.
    + by apply map_Forall_delete.
  - unfold Batch.route. repeat case_match; try by split. split; simpl; [done| |].
    + rewrite map_size_insert_Some by by eexists. done.
    + apply map_Forall_insert_2; [|done]. destruct Hm as [-> _]. apply push_wf. by eapply Ho.
  - split; simpl; [done|rewrite map_size_empty; lia|apply map_Forall_empty].
Qed.

(** Whatever a server sends, at most 64 batches are open, each holds at most the
    configured number of messages and no msgid twice, and a batch is marked overflowed
    only once its buffer is full. *)
Theorem batches_bounded (max_buffered : nat) (ops : list op) :
  wf_batches max_buffered (foldl step (Batch.with_max_buffered max_buffered) ops).
Proof.
  induction ops as [|o ops IH] using rev_ind; [apply wf_batches_new|].
  rewrite foldl_app. by apply step_wf.
Qed.
