(* ===== verification/Label.v ===== *)
(** * Labelled responses (src/crates/obby-client/src/label.rs)

    A label is registered with a deadline and the caller's own data; the data comes
    back when the response is complete or the deadline passes. The theorems follow the
    data: none is lost, none comes back twice. *)
From S2P Require Import Prelude Tags Message Timer.

(* obby-client/src/label.rs 14-16 DEFAULT_TIMEOUT_MS *)
Definition DEFAULT_TIMEOUT_MS : Z := 30000.

Module Labels.
Section labels.
Context {T : Type}.

(* obby-client/src/label.rs 18-26 Pending *)
Record Pending := mkPending { deadline_ms : Z; batch_id : option text; data : T }.

(* obby-client/src/label.rs 28-40 Labels *)
Record t := mk {
  next_id : Z;
  pending : gmap text Pending;
  open_batches : gmap text text;
}.

(* obby-client/src/label.rs 43-50 Labels::new *)
Definition new : t := mk 0 ∅ ∅.

(** The counter is a [u64]. *)
(* obby-client/src/label.rs 52-60 Labels::generate *)
Definition generate (s : t) : text * t :=
  let id := wrapping_add_u64 (next_id s) 1 in
  (108%N :: show_Z id, mk id (pending s) (open_batches s)).

(* obby-client/src/label.rs 62-72 Labels::register *)
Definition register (label : text) (deadline : Z) (d : T) (s : t) : t :=
  mk (next_id s) (<[label := mkPending deadline None d]> (pending s)) (open_batches s).

(* obby-client/src/label.rs 81-94 Labels::resolve *)
Definition resolve_batch (message : Message.t) (s : t) : option T * t :=
  match Message.param message 0 with
  | None => (None, s)
  | Some marker =>
      match strip_prefix_char chMINUS marker with
      | Some id =>
          match open_batches s !! id with
          | None => (None, s)
          | Some label =>
              (data <$> pending s !! label,
               mk (next_id s) (delete label (pending s)) (delete id (open_batches s)))
          end
      | None =>
          match strip_prefix_char chPLUS marker, Message.tag message "label" with
          | Some id, Some label =>
              match pending s !! label with
              | Some p =>
                  (None,
                   mk (next_id s) (<[label := mkPending (deadline_ms p) (Some id) (data p)]> (pending s))
                      (<[id := label]> (open_batches s)))
              | None => (None, s)
              end
          | _, _ => (None, s)
          end
      end
  end.

(* obby-client/src/label.rs 74-102 Labels::resolve *)
Definition resolve (message : Message.t) (s : t) : option T * t :=
  if Message.is_command message "BATCH" then resolve_batch message s
  else
    match Message.tag message "label" with
    | None => (None, s)
    | Some label =>
        match pending s !! label with
        | None => (None, s)
        | Some p =>
            (Some (data p),
             mk (next_id s) (delete label (pending s))
                (match batch_id p with Some id => delete id (open_batches s) | None => open_batches s end))
        end
    end.

(* obby-client/src/label.rs 104-118 Labels::expire *)
Definition expire (now_monotonic_ms : Z) (s : t) : list T * t :=
  let '(due, pending) := drain_due (pending s) now_monotonic_ms deadline_ms in
  (data <$> due.*2,
   mk (next_id s) pending
      (foldl (λ m p, match batch_id p.2 with Some id => delete id m | None => m end)
         (open_batches s) due)).
End labels.
Arguments t : clear implicits.
Arguments Pending : clear implicits.
End Labels.

(** ** Runs *)

Section run.
Context {T : Type}.

(** What the client does with its labels: send a request under a fresh label, hand an
    inbound message over, collect what timed out. *)
Inductive label_op := Request (deadline : Z) (d : T) | Inbound (m : Message.t) | Tick (now : Z).

(** The state after an operation and the data it handed back. *)
Definition label_step (s : Labels.t T) (o : label_op) : Labels.t T * list T :=
  match o with
  | Request deadline d =>
      let '(label, s) := Labels.generate s in (Labels.register label deadline d s, [])
  | Inbound m => let '(r, s) := Labels.resolve m s in (s, option_list r)
  | Tick now => let '(l, s) := Labels.expire now s in (s, l)
  end.
Fixpoint label_run (s : Labels.t T) (ops : list label_op) : Labels.t T * list T :=
  match ops with
  | [] => (s, [])
  | o :: ops =>
      let '(s, out) := label_step s o in
      let '(s, outs) := label_run s ops in (s, out ++ outs)
  end.

Definition requested (ops : list label_op) : list T :=
  omap (λ o, match o with Request _ d => Some d | _ => None end) ops.
Definition outstanding (s : Labels.t T) : list T :=
  Labels.data <$> (map_to_list (Labels.pending s)).*2.

(** Every pending label was generated here. *)
Definition wf_labels (s : Labels.t T) : Prop :=
  0 <= Labels.next_id s
  ∧ ∀ label, is_Some (Labels.pending s !! label) →
      ∃ i, 1 <= i <= Labels.next_id s ∧ label = 108%N :: show_Z i.

Lemma show_Z_inj a b : 0 <= a → 0 <= b → show_Z a = show_Z b → a = b.
Proof.
  intros Ha Hb E.
  pose proof (parse_show_Z (Z.max a b) a ltac:(lia)) as H1.
  pose proof (parse_show_Z (Z.max a b) b ltac:(lia)) as H2. rewrite E in H1. congruence.
Qed.

Lemma outstanding_delete s label p :
  Labels.pending s !! label = Some p →
  outstanding s ≡ₚ Labels.data p :: (Labels.data <$> (map_to_list (delete label (Labels.pending s))).*2).
Proof.
  intros Hp. unfold outstanding. rewrite <- (insert_delete_id _ _ _ Hp) at 1.
  by rewrite map_to_list_insert by apply lookup_delete_eq.
Qed.

Lemma outstanding_alter s label p p' nid ob :
  Labels.pending s !! label = Some p → Labels.data p' = Labels.data p →
  outstanding (Labels.mk nid (<[label := p']> (Labels.pending s)) ob) ≡ₚ outstanding s.
Proof.
  intros Hp Hd. rewrite (outstanding_delete s label p Hp), <- Hd.
  unfold outstanding. simpl. rewrite <- insert_delete_eq.
  by rewrite map_to_list_insert by apply lookup_delete_eq.
Qed.

Lemma outstanding_resolve m s r s' :
  Labels.resolve m s = (r, s') →
  outstanding s ≡ₚ option_list r ++ outstanding s'
  ∧ Labels.next_id s' = Labels.next_id s
  ∧ ∀ l, is_Some (Labels.pending s' !! l) → is_Some (Labels.pending s !! l).
Proof.
  assert (∀ label p, Labels.pending s !! label = Some p → ∀ l,
    is_Some (delete label (Labels.pending s) !! l) → is_Some (Labels.pending s !! l)) as Hdel.
  { intros label p _ l [x Hx%lookup_delete_Some]. naive_solver. }
  unfold Labels.resolve, Labels.resolve_batch.
  destruct (Message.is_command m "BATCH"); [destruct (Message.param m 0) as [marker|];
    [destruct (strip_prefix_char chMINUS marker) as [id|];
      [destruct (Labels.open_batches s !! id) as [label|]
      |destruct (strip_prefix_char chPLUS marker) as [id|];
        [destruct (Message.tag m "label") as [label|];
          [destruct (Labels.pending s !! label) as [p|] eqn:Ep|]|]]|]
    |destruct (Message.tag m "label") as [label|];
      [destruct (Labels.pending s !! label) as [p|] eqn:Ep|]];
    intros [= <- <-]; try done.
  - destruct (Labels.pending s !! label) as [p|] eqn:Ep; simpl.
    + split_and!; [by apply outstanding_delete|done|by eapply Hdel].
    + unfold outstanding. simpl. by rewrite delete_id.
  - split_and!; [by rewrite outstanding_alter|done|]. intros l. simpl.
    destruct (decide (l = label)) as [-> |]; [eauto|by rewrite lookup_insert_ne].
  - split_and!; [by apply outstanding_delete|done|by eapply Hdel].
Qed.

Lemma label_step_spec s o s' out :
  label_step s o = (s', out) → wf_labels s → Labels.next_id s < u64_max →
  requested [o] ++ outstanding s ≡ₚ out ++ outstanding s'
  ∧ wf_labels s' ∧ Labels.next_id s' <= Labels.next_id s + 1.
Proof.
  intros Hstep [H0 Hwf] Hmax. destruct o as [deadline d|m|now]; simpl in *.
  - assert (wrapping_add_u64 (Labels.next_id s) 1 = Labels.next_id s + 1) as Hw.
    { unfold wrapping_add_u64, u64_max in *. apply Z.mod_small. lia. }
    rewrite Hw in Hstep. set (label := 108%N :: show_Z (Labels.next_id s + 1)) in *.
    injection Hstep as <- <-. assert (Labels.pending s !! label = None) as Hfresh.
    { apply eq_None_not_Some. intros Hs. destruct (Hwf _ Hs) as (i & Hi & Hl).
      unfold label in Hl. injection Hl as Hl. apply show_Z_inj in Hl; lia. }
    split_and!.
    + unfold outstanding. simpl. by rewrite map_to_list_insert.
    + split; simpl; [lia|]. intros l [x [[<- _]|[_ Hx]]%lookup_insert_Some].
      * exists (Labels.next_id s + 1). split; [lia|done].
      * destruct (Hwf l ltac:(eauto)) as (i & Hi & ->). exists i. split; [lia|done].
    + simpl. lia.
  - destruct (Labels.resolve m s) as [r s1] eqn:E. injection Hstep as <- <-.
    apply outstanding_resolve in E as (Hp & Hn & Hd). split_and!; [done| |lia].
    split; rewrite Hn; [done|]. intros l Hl. by apply Hwf, Hd.
  - unfold Labels.expire in Hstep. destruct (drain_due _ _ _) as [due pend] eqn:E. injection Hstep as <- <-.
    apply drain_due_drained in E. split_and!; [| |simpl; lia].
    + unfold outstanding. rewrite (drained_perm _ _ _ _ _ E). simpl. by rewrite !fmap_app.
    + split; simpl; [done|]. intros l [x Hx]. apply Hwf. rewrite (drained_rest _ _ _ _ _ E) in Hx.
      apply map_lookup_filter_Some in Hx as [Hx _]. eauto.
Qed.
End run.
Arguments label_op : clear implicits.

(** C37. Follow any interleaving of requests, replies and timeouts: what was handed back
    together with what is still outstanding is exactly what was requested, so no
    request is ever lost, and none is answered twice. *)
Theorem labels_conserve {T} (ops : list (label_op T)) :
  Z.of_nat (length ops) <= u64_max →
  let '(s, returned) := label_run Labels.new ops in
  returned ++ outstanding s ≡ₚ requested ops.
Proof.
  intros Hlen.
  assert (∀ s ops, wf_labels s → Labels.next_id s + Z.of_nat (length ops) <= u64_max →
    let '(s', returned) := label_run s ops in
    returned ++ outstanding s' ≡ₚ requested ops ++ outstanding (T := T) s) as Hrun.
  { clear. intros s ops. revert s. induction ops as [|o ops IH]; intros s Hwf Hmax; [by cbn [label_run]; reflexivity|].
    cbn [label_run length] in *. destruct (label_step s o) as [s1 out] eqn:E.
    apply label_step_spec in E as (Hp & Hwf1 & Hn); [|done|lia].
    specialize (IH s1 Hwf1 ltac:(lia)). destruct (label_run s1 ops) as [s2 outs].
    rewrite <- app_assoc, IH. change (requested (o :: ops)) with (requested ([o] ++ ops)).
    unfold requested in *. rewrite omap_app, <- app_assoc.
    rewrite app_assoc, (Permutation_app_comm out), <- app_assoc, <- Hp.
    rewrite !app_assoc. f_equiv. apply Permutation_app_comm. }
  specialize (Hrun Labels.new ops). destruct (label_run _ _) as [s ret].
  rewrite Hrun; [|split; [done|]|done].
  - unfold outstanding. simpl. by rewrite map_to_list_empty, app_nil_r.
  - intros l [x Hx]. simpl in Hx. by apply lookup_empty_Some in Hx.
Qed.

Lemma labels_conserve_witness :
  let ack := match Message.parse "@label=l1 :srv ACK" with inr m => m | _ => Message.new "" [] end in
  let '(s, returned) := label_run Labels.new [Request 10 1; Request 20 2; Inbound ack; Tick 15] in
  returned ++ outstanding s ≡ₚ [1; 2].
Proof.
  intros ack. apply (labels_conserve [Request 10 1; Request 20 2; Inbound ack; Tick 15]).
  vm_compute. discriminate.
Defined.

(** A labelled batch answers at its close and not before, whatever comes between;
    the close then leaves nothing behind. *)
Theorem labels_batch_answer {T} (s : Labels.t T) (label id : text) (p : Labels.Pending T)
    (opening closing : Message.t) :
  Labels.pending s !! label = Some p →
  Message.is_command opening "BATCH" = true → Message.is_command closing "BATCH" = true →
  Message.param opening 0 = Some (chPLUS :: id) → Message.tag opening "label" = Some label →
  Message.param closing 0 = Some (chMINUS :: id) →
  let '(r1, s1) := Labels.resolve opening s in
  let '(r2, s2) := Labels.resolve closing s1 in
  r1 = None ∧ r2 = Some (Labels.data p)
  ∧ Labels.pending s2 = delete label (Labels.pending s)
  ∧ Labels.open_batches s2 = delete id (Labels.open_batches s).
Proof.
  intros Hp Ho Hc Hop Hl Hcp. unfold Labels.resolve at 1. rewrite Ho. unfold Labels.resolve_batch.
  rewrite Hop. cbn [strip_prefix_char]. rewrite decide_False, decide_True by done. rewrite Hl, Hp.
  unfold Labels.resolve. rewrite Hc. unfold Labels.resolve_batch. rewrite Hcp.
  rewrite (proj2 (strip_prefix_char_Some _ _ _) eq_refl). simpl.
  rewrite !lookup_insert_eq. simpl. split_and!; [done..| |]; by rewrite delete_insert_eq.
Qed.

Lemma labels_batch_answer_witness :
  let line s := match Message.parse s with inr m => m | _ => Message.new "" [] end in
  let s := Labels.register "l1" 10 7 Labels.new in
  let '(r1, s1) := Labels.resolve (line "@label=l1 BATCH +x chathistory #c") s in
  let '(r2, s2) := Labels.resolve (line "BATCH -x") s1 in
  r1 = None ∧ r2 = Some 7 ∧ Labels.pending s2 = delete (lit "l1") (Labels.pending s)
  ∧ Labels.open_batches s2 = delete (lit "x") (Labels.open_batches s).
Proof.
  intros line s.
  apply (labels_batch_answer s "l1" "x" (Labels.mkPending 10 None 7)
    (line "@label=l1 BATCH +x chathistory #c") (line "BATCH -x"));
    vm_compute; reflexivity.
Defined.

(** One label that opens two batches keeps the first one's entry after it was
    answered through the second, and no timeout ever removes it. *)
Theorem labels_reopened_batch_leaks (now : Z) :
  let line s := match Message.parse s with inr m => m | _ => Message.new "" [] end in
  let s := Labels.register "l1" 10 7 Labels.new in
  let s := (Labels.resolve (line "@label=l1 BATCH +x a") s).2 in
  let s := (Labels.resolve (line "@label=l1 BATCH +y a") s).2 in
  let '(r, s) := Labels.resolve (line "BATCH -y") s in
  let '(_, s) := Labels.expire now s in
  r = Some 7 ∧ Labels.pending s = ∅ ∧ Labels.open_batches s = {[ lit "x" := lit "l1" ]}.
Proof.
  intros line s s' s1.
  assert (Labels.resolve (line "BATCH -y") s1 = (Some 7, Labels.mk 0 ∅ {[ lit "x" := lit "l1" ]})) as E
    by by vm_compute.
  rewrite E. unfold Labels.expire, drain_due. by vm_compute.
Qed.
