(* ===== verification/Caps.v ===== *)
(** * Capability negotiation (src/crates/obby-client/src/caps.rs)

    What the server offers, what was acknowledged and what is still being waited for.
    The features that are on by default are on here, so [WANTED_CAPS] is the whole
    list. *)
From S2P Require Import Prelude.

Module Caps.
(* obby-client/src/caps.rs 8-67 WANTED_CAPS *)
Definition WANTED_CAPS : list text := lit <$> [
  "message-tags"; "server-time"; "batch"; "labeled-response"; "echo-message";
  "draft/multiline"; "multi-prefix"; "userhost-in-names"; "extended-join";
  "account-notify"; "account-tag"; "away-notify"; "chghost"; "invite-notify"; "setname";
  "cap-notify"; "monitor"; "extended-monitor"; "draft/chathistory"; "draft/event-playback";
  "draft/read-marker"; "draft/typing"; "draft/message-redaction"; "draft/channel-rename";
  "channel-context"; "draft/channel-context"; "standard-replies"; "draft/named-modes";
  "draft/metadata-2"; "draft/extended-isupport"; "draft/extended-isupport-0.2"; "sasl";
  "znc.in/playback"; "obsidianirc/cmdslist"; "obby.world/channel-bots"; "draft/bot-cmds";
  "obby.world/whois"; "obby.world/invitation"; "draft/authtoken"; "obsidianirc/voice"]%string.

(* obby-client/src/caps.rs 80-91 Capabilities *)
Record t := mk {
  available : gmap text (option text);
  acknowledged : gmap text (option text);
  pending : list text;
}.
Definition default : t := mk ∅ ∅ [].

(* obby-client/src/caps.rs 188-192 split_value *)
Definition split_value (token : text) : text * option text :=
  match split_once chEQ token with
  | Some (name, value) => (name, Some value)
  | None => (token, None)
  end.

(* obby-client/src/caps.rs 93-101 Capabilities::advertise *)
Definition advertise (list_ : text) (s : t) : t :=
  mk (foldl (λ m token, let '(name, value) := split_value token in <[name := value]> m)
        (available s) (split_whitespace list_)) (acknowledged s) (pending s).

(* obby-client/src/caps.rs 103-110 Capabilities::withdraw *)
Definition withdraw (list_ : text) (s : t) : t :=
  foldl (λ s token, let '(name, _) := split_value token in
           mk (delete name (available s)) (delete name (acknowledged s)) (pending s))
    s (split_whitespace list_).

(* obby-client/src/caps.rs 112-121 Capabilities::to_request *)
Definition to_request (s : t) : list text :=
  filter (λ name, is_Some (available s !! name) ∧ acknowledged s !! name = None ∧ name ∉ pending s)
    WANTED_CAPS.

(* obby-client/src/caps.rs 123-126 Capabilities::requested *)
Definition requested (names : list text) (s : t) : t :=
  mk (available s) (acknowledged s) (pending s ++ names).

(** [Vec::retain] of everything but one name. *)
Definition retain_not (name : text) (l : list text) : list text := filter (λ p, p ≠ name) l.

(* obby-client/src/caps.rs 131-147 Capabilities::acknowledge *)
Definition acknowledge_token (token : text) (s : t) : t * list text :=
  match strip_prefix_char chMINUS token with
  | Some name =>
      (mk (available s) (delete name (acknowledged s)) (retain_not name (pending s)), [])
  | None =>
      let '(name, value) := split_value token in
      let value := match value with Some _ => value | None => mjoin (available s !! name) end in
      (mk (available s) (<[name := value]> (acknowledged s)) (retain_not name (pending s)), [name])
  end.
(* obby-client/src/caps.rs 128-149 Capabilities::acknowledge *)
Definition acknowledge (list_ : text) (s : t) : t * list text :=
  foldl (λ '(s, acked) token, let '(s, more) := acknowledge_token token s in (s, acked ++ more))
    (s, []) (split_whitespace list_).

(* obby-client/src/caps.rs 151-157 Capabilities::reject *)
Definition reject (list_ : text) (s : t) : t :=
  foldl (λ s token, let '(name, _) := split_value token in
           mk (available s) (acknowledged s) (retain_not name (pending s)))
    s (split_whitespace list_).

(* obby-client/src/caps.rs 159-162 Capabilities::has *)
Definition has (s : t) (name : text) : bool := bool_decide (is_Some (acknowledged s !! name)).
(* obby-client/src/caps.rs 164-167 Capabilities::value *)
Definition value (s : t) (name : text) : option text := mjoin (acknowledged s !! name).
(* obby-client/src/caps.rs 169-172 Capabilities::offers *)
Definition offers (s : t) (name : text) : bool := bool_decide (is_Some (available s !! name)).
(* obby-client/src/caps.rs 174-177 Capabilities::settled *)
Definition settled (s : t) : bool := bool_decide (pending s = []).
(* obby-client/src/caps.rs 179-185 Capabilities::enabled *)
Definition enabled (s : t) : list (text * option text) := sorted_items (acknowledged s).
End Caps.

(** ** What is asked for *)

Lemma wanted_NoDup : NoDup Caps.WANTED_CAPS.
Proof. apply (bool_decide_unpack _). vm_compute. exact I. Qed.

(** A request names each capability once, only capabilities this engine knows, only
    ones the server offers, and none it holds or is already waiting for; once it is
    noted as sent, there is nothing left to request. *)
Theorem caps_request_exact (s : Caps.t) :
  NoDup (Caps.to_request s)
  ∧ (∀ name, name ∈ Caps.to_request s ↔
       name ∈ Caps.WANTED_CAPS ∧ Caps.offers s name = true ∧ Caps.has s name = false ∧ name ∉ Caps.pending s)
  ∧ Caps.to_request (Caps.requested (Caps.to_request s) s) = [].
Proof.
  assert (∀ name, name ∈ Caps.to_request s ↔
       name ∈ Caps.WANTED_CAPS ∧ Caps.offers s name = true ∧ Caps.has s name = false ∧ name ∉ Caps.pending s) as Hin.
  { intros name. unfold Caps.to_request, Caps.offers, Caps.has.
    rewrite list_elem_of_filter, bool_decide_eq_true, bool_decide_eq_false, <- eq_None_not_Some. tauto. }
  split_and!; [apply NoDup_filter, wanted_NoDup|done|].
  destruct (Caps.to_request (Caps.requested _ s)) as [|x l] eqn:E; [done|].
  assert (x ∈ Caps.to_request (Caps.requested (Caps.to_request s) s)) as Hx by (rewrite E; by left).
  unfold Caps.to_request in Hx at 1. apply list_elem_of_filter in Hx as [(Ha & Hk & Hp) Hw].
  simpl in *. rewrite not_elem_of_app in Hp. destruct Hp as [Hp Hn].
  exfalso. apply Hn. apply list_elem_of_filter. done.
Qed.

(** ** Answers *)

Inductive answer := Ack (list_ : text) | Nak (list_ : text).
Definition apply_answer (s : Caps.t) (a : answer) : Caps.t :=
  match a with Ack l => (Caps.acknowledge l s).1 | Nak l => Caps.reject l s end.

(** The name an answer's token settles. *)
Definition ack_name (token : text) : text :=
  match strip_prefix_char chMINUS token with
  | Some name => name
  | None => (Caps.split_value token).1
  end.
Definition answered (a : answer) : list text :=
  match a with
  | Ack l => ack_name <$> split_whitespace l
  | Nak l => (λ t, (Caps.split_value t).1) <$> split_whitespace l
  end.

Lemma filter_not_in_cons (x : text) l (p : list text) :
  filter (λ n, n ∉ x :: l) p = filter (λ n, n ∉ l) (Caps.retain_not x p).
Proof.
  unfold Caps.retain_not. rewrite list_filter_filter. apply list_filter_iff.
  intros n. rewrite not_elem_of_cons. tauto.
Qed.

Lemma acknowledge_token_pending token s :
  Caps.pending (Caps.acknowledge_token token s).1 = Caps.retain_not (ack_name token) (Caps.pending s)
  ∧ Caps.available (Caps.acknowledge_token token s).1 = Caps.available s.
Proof.
  unfold Caps.acknowledge_token, ack_name. destruct (strip_prefix_char _ _); [done|].
  by destruct (Caps.split_value token).
Qed.

Lemma acknowledge_fst tokens s acked :
  (foldl (λ '(s, acked) token, let '(s, more) := Caps.acknowledge_token token s in (s, acked ++ more))
     (s, acked) tokens).1
  = foldl (λ s token, (Caps.acknowledge_token token s).1) s tokens.
Proof.
  revert s acked. induction tokens as [|t tokens IH]; intros s acked; simpl; [done|].
  destruct (Caps.acknowledge_token t s) as [s' more]. apply IH.
Qed.

Lemma pending_apply_answer s a :
  Caps.pending (apply_answer s a) = filter (λ n, n ∉ answered a) (Caps.pending s)
  ∧ Caps.available (apply_answer s a) = Caps.available s.
Proof.
  assert (∀ p : list text, filter (λ n, n ∉ ([] : list text)) p = p) as Hnil.
  { intros p. induction p as [|x p IH]; [done|].
    rewrite filter_cons_True by apply not_elem_of_nil. by rewrite IH. }
  destruct a as [l|l]; simpl.
  - unfold Caps.acknowledge. rewrite acknowledge_fst.
    revert s. induction (split_whitespace l) as [|t tokens IH]; intros s; csimpl; [by rewrite Hnil|].
    destruct (IH (Caps.acknowledge_token t s).1) as [-> ->].
    destruct (acknowledge_token_pending t s) as [-> ->]. by rewrite filter_not_in_cons.
  - unfold Caps.reject. revert s.
    induction (split_whitespace l) as [|t tokens IH]; intros s; csimpl; [by rewrite Hnil|].
    destruct (Caps.split_value t) as [n v]. destruct (IH (Caps.mk (Caps.available s) (Caps.acknowledged s)
      (Caps.retain_not n (Caps.pending s)))) as [-> ->]. simpl. by rewrite filter_not_in_cons.
Qed.

(** Negotiation settles exactly when every requested name was answered, by however
    many ACK and NAK lines in whatever order: no answer is needed twice, and one
    missing answer holds it open. *)
Theorem caps_settle (s : Caps.t) (answers : list answer) :
  let s' := foldl apply_answer s answers in
  Caps.pending s' = filter (λ n, n ∉ concat (answered <$> answers)) (Caps.pending s)
  ∧ (Caps.settled s' = true ↔ ∀ n, n ∈ Caps.pending s → n ∈ concat (answered <$> answers)).
Proof.
  cbv zeta.
  assert (Caps.pending (foldl apply_answer s answers)
          = filter (λ n, n ∉ concat (answered <$> answers)) (Caps.pending s)) as Hp.
  { revert s. induction answers as [|a answers IH]; intros s; csimpl.
    - induction (Caps.pending s) as [|x p IH]; [done|].
      rewrite filter_cons_True by apply not_elem_of_nil. by rewrite <- IH.
    - rewrite IH. destruct (pending_apply_answer s a) as [-> _]. rewrite list_filter_filter.
      apply list_filter_iff. intros n. rewrite not_elem_of_app. tauto. }
  split; [done|]. unfold Caps.settled. rewrite bool_decide_eq_true, Hp. split.
  - intros Hnil n Hn. destruct (decide (n ∈ concat (answered <$> answers))) as [|Hno]; [done|].
    assert (n ∈ filter (λ n, n ∉ concat (answered <$> answers)) (Caps.pending s)) as H
      by by apply list_elem_of_filter. rewrite Hnil in H. by apply elem_of_nil in H.
  - intros Hall. destruct (filter _ _) as [|n l] eqn:E; [done|].
    assert (n ∈ filter (λ n, n ∉ concat (answered <$> answers)) (Caps.pending s)) as H by (rewrite E; by left).
    apply list_elem_of_filter in H as [Hno Hn]. by apply Hall in Hn.
Qed.

(** A granted capability keeps the value it was advertised with: the SASL mechanism
    list survives an ACK that does not repeat it. *)
Lemma acknowledge_keeps_value s name v :
  split_whitespace name = [name] → starts_with_char chMINUS name = false → chEQ ∉ name →
  Caps.available s !! name = Some (Some v) →
  Caps.value (Caps.acknowledge name s).1 name = Some v.
Proof.
  intros Hw Hm Heq Ha. unfold Caps.acknowledge. rewrite Hw. simpl.
  unfold Caps.acknowledge_token. assert (strip_prefix_char chMINUS name = None) as ->.
  { destruct name as [|c n]; [done|]. simpl in *. apply bool_decide_eq_false in Hm. by rewrite decide_False. }
  unfold Caps.split_value. rewrite (proj2 (split_once_None _ _)) by done. simpl.
  unfold Caps.value. simpl. by rewrite lookup_insert_eq, Ha.
Qed.
