(* ===== verification/Monitor.v ===== *)
(** * Presence (src/crates/obby-client/src/monitor.rs)

    The watch list and the splitting of MONITOR targets into requests the server
    accepts. *)
From S2P Require Import Prelude Casemap.

Module Monitor.
(* obby-client/src/monitor.rs 12-20 WatchList *)
Record WatchList := mk { watching : gset text; online : gset text }.

(* obby-client/src/monitor.rs 22-26 WatchList::new *)
Definition new : WatchList := mk ∅ ∅.
(* obby-client/src/monitor.rs 28-31 WatchList::watch *)
Definition watch (folded : list CaseFolded) (s : WatchList) : WatchList :=
  mk (watching s ∪ list_to_set folded) (online s).
(* obby-client/src/monitor.rs 33-39 WatchList::unwatch *)
Definition unwatch (folded : list CaseFolded) (s : WatchList) : WatchList :=
  foldl (λ s nick, mk (watching s ∖ {[nick]}) (online s ∖ {[nick]})) s folded.
(* obby-client/src/monitor.rs 41-45 WatchList::clear *)
Definition clear (s : WatchList) : WatchList := mk ∅ ∅.
(* obby-client/src/monitor.rs 47-51 WatchList::mark_online *)
Definition mark_online (folded : CaseFolded) (s : WatchList) : WatchList :=
  mk ({[folded]} ∪ watching s) ({[folded]} ∪ online s).
(* obby-client/src/monitor.rs 53-56 WatchList::mark_offline *)
Definition mark_offline (folded : CaseFolded) (s : WatchList) : WatchList :=
  mk (watching s) (online s ∖ {[folded]}).
(* obby-client/src/monitor.rs 58-61 WatchList::is_watching *)
Definition is_watching (s : WatchList) (folded : CaseFolded) : bool := bool_decide (folded ∈ watching s).
(* obby-client/src/monitor.rs 63-66 WatchList::is_online *)
Definition is_online (s : WatchList) (folded : CaseFolded) : bool := bool_decide (folded ∈ online s).
(* obby-client/src/monitor.rs 68-71 WatchList::watched *)
Definition watched (s : WatchList) : list CaseFolded := sorted_elements (watching s).
(* obby-client/src/monitor.rs 73-76 WatchList::len *)
Definition len (s : WatchList) : nat := size (watching s).
(* obby-client/src/monitor.rs 78-81 WatchList::is_empty *)
Definition is_empty (s : WatchList) : bool := bool_decide (watching s = ∅).
(* obby-client/src/monitor.rs 83-86 WatchList::forget_presence *)
Definition forget_presence (s : WatchList) : WatchList := mk (watching s) ∅.

(* obby-client/src/monitor.rs 89-99 batched *)
Definition batched (targets : list text) (limit : nat) : list text :=
  join_with chCOMMA <$> chunks (Nat.max limit 1) targets.
(* obby-client/src/monitor.rs 101-107 split_targets *)
Definition split_targets (list_ : text) : list text :=
  filter (λ target, target ≠ []) (split_char chCOMMA list_).
End Monitor.

(** Targets a MONITOR list can carry. *)
Definition wf_target (t : text) : Prop := t ≠ [] ∧ chCOMMA ∉ t.

Lemma split_targets_join targets :
  Forall wf_target targets → Monitor.split_targets (join_with chCOMMA targets) = targets.
Proof.
  intros Hall. destruct targets as [|t l]; [done|]. unfold Monitor.split_targets.
  rewrite split_char_join; [|done|].
  - induction Hall as [|x l' [Hx _] _ IH]; [done|]. rewrite filter_cons_True by done. by rewrite IH.
  - eapply Forall_impl; [done|]. by intros x [_ ?].
Qed.

(** However long the list and whatever the limit, zero included, no request names more
    targets than the server allows, none is empty, and reading the requests back gives
    exactly the targets, in order. *)
Theorem monitor_requests_cover (targets : list text) (limit : nat) :
  Forall wf_target targets →
  Forall (λ r, (1 <= length (Monitor.split_targets r) <= Nat.max limit 1)%nat) (Monitor.batched targets limit)
  ∧ concat (Monitor.split_targets <$> Monitor.batched targets limit) = targets.
Proof.
  intros Hall. assert (0 < Nat.max limit 1)%nat as Hn by lia.
  assert (Monitor.split_targets <$> Monitor.batched targets limit = chunks (Nat.max limit 1) targets) as Hs.
  { unfold Monitor.batched. rewrite <- list_fmap_compose. rewrite <- (chunks_concat _ _ Hn) in Hall at 1.
    induction (chunks (Nat.max limit 1) targets) as [|c cs IH]; [done|]. csimpl in *.
    apply Forall_app in Hall as [Hc Hcs]. rewrite IH by done. by rewrite split_targets_join. }
  split; [|by rewrite Hs, chunks_concat].
  pose proof (chunks_Forall (Nat.max limit 1) targets Hn) as Hc. rewrite <- Hs in Hc.
  apply Forall_fmap in Hc. eapply Forall_impl; [exact Hc|]. intros r [Hne Hle]. simpl in *.
  destruct (Monitor.split_targets r); [done|]. simpl in *. lia.
Qed.

Lemma monitor_requests_cover_witness :
  concat (Monitor.split_targets <$> Monitor.batched [lit "a"; lit "b"; lit "c"] 2)
  = [lit "a"; lit "b"; lit "c"].
Proof.
  apply (monitor_requests_cover [lit "a"; lit "b"; lit "c"] 2).
  repeat constructor; try discriminate; apply (bool_decide_unpack _); vm_compute; exact I.
Defined.

(** ** The watch list *)

Inductive watch_op :=
  | Watch (l : list CaseFolded) | Unwatch (l : list CaseFolded) | Clear
  | Online (n : CaseFolded) | Offline (n : CaseFolded) | Forget.
Definition watch_step (s : Monitor.WatchList) (o : watch_op) : Monitor.WatchList :=
  match o with
  | Watch l => Monitor.watch l s
  | Unwatch l => Monitor.unwatch l s
  | Clear => Monitor.clear s
  | Online n => Monitor.mark_online n s
  | Offline n => Monitor.mark_offline n s
  | Forget => Monitor.forget_presence s
  end.

Lemma unwatch_spec l s :
  Monitor.watching (Monitor.unwatch l s) = Monitor.watching s ∖ list_to_set l
  ∧ Monitor.online (Monitor.unwatch l s) = Monitor.online s ∖ list_to_set l.
Proof.
  unfold Monitor.unwatch. revert s. induction l as [|n l IH]; intros s; simpl.
  - split; apply set_eq; set_solver.
  - destruct (IH (Monitor.mk (Monitor.watching s ∖ {[n]}) (Monitor.online s ∖ {[n]}))) as [-> ->]. simpl.
    clear IH. split; apply set_eq; set_solver.
Qed.

(** Nobody is ever online without being watched, so what a reconnect asks for again
    covers everyone whose presence was known. *)
Lemma online_watched ops s :
  Monitor.online s ⊆ Monitor.watching s →
  Monitor.online (foldl watch_step s ops) ⊆ Monitor.watching (foldl watch_step s ops).
Proof.
  revert s. induction ops as [|o ops IH]; intros s Hs; [done|]. cbn [foldl]. apply IH. clear IH.
  destruct o; simpl; try set_solver. destruct (unwatch_spec l s) as [-> ->]. set_solver.
Qed.
