(* ===== verification/Base64.v ===== *)
(** * Base64, a library the source only calls

    The [base64] crate is not part of the repository. Its documented behaviour is the
    class [Base64Laws]; [standard] is an implementation of the class, with the standard
    alphabet and padding, which shows the laws can hold. *)
From S2P Require Import Prelude Utf8.

Class Base64 := {
  encode64 : list octet → text;
  decode64 : text → option (list octet);
}.

(** The characters an encoding may hold. *)
Definition is_base64_char (c : char) : bool :=
  is_ascii_alphanumeric c || bool_decide (c ∈ [43; 47; 61]%N).

Abbreviation octets l := (Forall (λ b : N, (b < 256)%N) l).

Class Base64Laws (B : Base64) : Prop := {
  decode_encode64 bs : octets bs → decode64 (encode64 bs) = Some bs;
  encode64_alphabet bs : Forall (λ c, is_base64_char c = true) (encode64 bs);
  encode64_length bs : length (encode64 bs) = (4 * ((length bs + 2) / 3))%nat;
}.

Module Standard64.
Local Open Scope N_scope.

Definition char_of (v : N) : char :=
  if v <? 26 then 65 + v else if v <? 52 then 71 + v else if v <? 62 then v - 4
  else if v =? 62 then 43 else 47.
Definition value_of (c : char) : option N :=
  if is_ascii_upper c then Some (c - 65)
  else if is_ascii_lower c then Some (c - 71)
  else if is_ascii_digit c then Some (c + 4)
  else if c =? 43 then Some 62 else if c =? 47 then Some 63 else None.

Fixpoint encode (bs : list octet) : text :=
  match bs with
  | [] => []
  | [a] => [char_of (a / 4); char_of (a mod 4 * 16); chEQ; chEQ]
  | [a; b] => [char_of (a / 4); char_of (a mod 4 * 16 + b / 16); char_of (b mod 16 * 4); chEQ]
  | a :: b :: c :: rest =>
      char_of (a / 4) :: char_of (a mod 4 * 16 + b / 16) :: char_of (b mod 16 * 4 + c / 64)
      :: char_of (c mod 64) :: encode rest
  end.

Fixpoint decode (t : text) : option (list octet) :=
  match t with
  | [] => Some []
  | x :: y :: z :: w :: rest =>
      i ← value_of x; j ← value_of y;
      if decide (w = chEQ) then
        match rest with
        | [] =>
            if decide (z = chEQ) then Some [i * 4 + j / 16]
            else k ← value_of z; Some [i * 4 + j / 16; j mod 16 * 16 + k / 4]
        | _ => None
        end
      else
        k ← value_of z; l ← value_of w; bs ← decode rest;
        Some (i * 4 + j / 16 :: j mod 16 * 16 + k / 4 :: k mod 4 * 64 + l :: bs)
  | _ => None
  end.

Lemma alphabet_check : forallb (λ v,
  bool_decide (value_of (char_of v) = Some v) && negb (char_of v =? 61) && is_base64_char (char_of v))
  (N.of_nat <$> seq 0 64) = true.
Proof. vm_compute. reflexivity. Qed.

Lemma char_of_ok v : v < 64 →
  value_of (char_of v) = Some v ∧ char_of v ≠ chEQ ∧ is_base64_char (char_of v) = true.
Proof.
  intros Hv. pose proof alphabet_check as H. rewrite forallb_forall in H. specialize (H v).
  assert (In v (N.of_nat <$> seq 0 64)) as Hin.
  { apply list_elem_of_In, list_elem_of_fmap. exists (N.to_nat v). split; [lia|]. apply elem_of_seq. lia. }
  apply H in Hin. rewrite !andb_true_iff, bool_decide_eq_true, negb_true_iff, N.eqb_neq in Hin. tauto.
Qed.

Lemma split_sum q r d : r < d → (q * d + r) / d = q ∧ (q * d + r) mod d = r.
Proof.
  intros H. split.
  - symmetry. apply (N.div_unique _ _ q r); lia.
  - symmetry. apply (N.mod_unique _ _ q r); lia.
Qed.

Lemma byte_bounds a : a < 256 →
  a / 4 < 64 ∧ a / 16 < 16 ∧ a / 64 < 4 ∧ a mod 4 < 4 ∧ a mod 16 < 16 ∧ a mod 64 < 64.
Proof.
  intros H. split_and!; try (apply N.mod_lt; lia); apply N.Div0.div_lt_upper_bound; lia.
Qed.

Lemma decode_encode bs : octets bs → decode (encode bs) = Some bs.
Proof.
  intros Hbs. remember (length bs) as n eqn:Hn. revert bs Hbs Hn.
  induction (lt_wf n) as [n _ IH]. intros bs Hbs ->.
  assert (∀ x, x / 4 * 4 + x mod 4 = x) as H4 by (intros x; pose proof (N.div_mod x 4); lia).
  assert (∀ x, x / 16 * 16 + x mod 16 = x) as H16 by (intros x; pose proof (N.div_mod x 16); lia).
  assert (∀ x, x / 64 * 64 + x mod 64 = x) as H64 by (intros x; pose proof (N.div_mod x 64); lia).
  destruct bs as [|a [|b [|c rest]]]; [done| | |];
    repeat match goal with H : Forall _ (_ :: _) |- _ => inversion H; clear H; subst end;
    repeat match goal with H : ?x < 256 |- _ => pose proof (byte_bounds x H); clear H end;
    cbn [encode decode].
  - destruct (char_of_ok (a / 4)) as (-> & _); [lia|].
    destruct (char_of_ok (a mod 4 * 16)) as (-> & _); [lia|]. simpl.
    rewrite N.div_mul by done. by rewrite H4.
  - destruct (char_of_ok (a / 4)) as (-> & _); [lia|].
    destruct (char_of_ok (a mod 4 * 16 + b / 16)) as (-> & _); [lia|].
    destruct (char_of_ok (b mod 16 * 4)) as (E & Hne & _); [lia|]. simpl. rewrite decide_False, E by done. simpl.
    destruct (split_sum (a mod 4) (b / 16) 16) as [-> ->]; [lia|].
    rewrite N.div_mul by done. by rewrite H4, H16.
  - destruct (char_of_ok (a / 4)) as (-> & _); [lia|].
    destruct (char_of_ok (a mod 4 * 16 + b / 16)) as (-> & _); [lia|].
    destruct (char_of_ok (b mod 16 * 4 + c / 64)) as (E & _ & _); [lia|].
    destruct (char_of_ok (c mod 64)) as (E' & Hne & _); [lia|]. simpl. rewrite decide_False, E, E' by done. simpl.
    destruct (split_sum (a mod 4) (b / 16) 16) as [-> ->]; [lia|].
    destruct (split_sum (b mod 16) (c / 64) 4) as [-> ->]; [lia|].
    rewrite H4, H16, H64. rewrite (IH (length rest)) by (done || simpl; lia). done.
Qed.

Lemma encode_alphabet bs : Forall (λ c, is_base64_char c = true) (encode bs).
Proof.
  remember (length bs) as n eqn:Hn. revert bs Hn. induction (lt_wf n) as [n _ IH]. intros bs ->.
  assert (∀ v, is_base64_char (char_of v) = true) as Hc.
  { intros v. destruct (N.lt_ge_cases v 64) as [?|?]; [by apply char_of_ok|].
    unfold char_of. N_test. by destruct (N.eqb_spec v 62); [lia|]. }
  destruct bs as [|a [|b [|c rest]]]; cbn [encode];
    [constructor|repeat (constructor; [done || apply Hc|]); constructor..|].
  repeat (constructor; [apply Hc|]). apply (IH (length rest)); [simpl; lia|done].
Qed.

Lemma encode_length bs : length (encode bs) = (4 * ((length bs + 2) / 3))%nat.
Proof.
  remember (length bs) as n eqn:Hn. revert bs Hn. induction (lt_wf n) as [n _ IH]. intros bs ->.
  destruct bs as [|a [|b [|c rest]]]; [done..|]. cbn [encode length].
  rewrite (IH (length rest)) by (done || simpl; lia).
  replace (S (S (S (length rest))) + 2)%nat with (length rest + 2 + 1 * 3)%nat by lia.
  rewrite Nat.div_add by lia. lia.
Qed.
End Standard64.

Definition standard : Base64 := {| encode64 := Standard64.encode; decode64 := Standard64.decode |}.
Lemma standard_laws : Base64Laws standard.
Proof.
  split; [apply Standard64.decode_encode|apply Standard64.encode_alphabet|apply Standard64.encode_length].
Qed.

(** ** What the users of the interface rely on *)
Section laws.
Context {B : Base64} {HB : Base64Laws B}.

Lemma encode64_nil bs : encode64 bs = [] ↔ bs = [].
Proof.
  pose proof (encode64_length bs) as Hl. split; intros E; rewrite E in *.
  - destruct bs as [|b bs]; [done|]. simpl length in Hl.
    assert (1 <= (S (length bs) + 2) / 3)%nat by (apply Nat.div_le_lower_bound; lia). lia.
  - by apply nil_length_inv.
Qed.

Lemma encode64_ascii bs : Forall (λ c, (c < 128)%N) (encode64 bs).
Proof.
  eapply Forall_impl; [apply encode64_alphabet|]. intros c Hc.
  unfold is_base64_char, is_ascii_alphanumeric, is_ascii_digit, is_ascii_upper, is_ascii_lower in Hc.
  rewrite !orb_true_iff, !andb_true_iff, !N.leb_le, bool_decide_eq_true, !elem_of_cons, elem_of_nil in Hc.
  lia.
Qed.

Lemma encode64_notin bs c : is_base64_char c = false → c ∉ encode64 bs.
Proof.
  intros Hc Hin. pose proof (encode64_alphabet bs) as Ha. rewrite Forall_forall in Ha.
  specialize (Ha c Hin). congruence.
Qed.
End laws.
