(* ===== verification/Sasl.v ===== *)
(** * SASL (src/crates/obby-client/src/sasl.rs)

    The payloads of the AUTHENTICATE lines and the state that holds [CAP END] back.
    The base64 of a response is all ASCII, so cutting its bytes every 400 is cutting
    its characters. *)
From S2P Require Import Prelude Utf8 Base64.

Module Sasl.
(* obby-client/src/sasl.rs 12-13 CHUNK *)
Definition CHUNK : nat := 400.

(* obby-client/src/sasl.rs 15-46 Credentials *)
Inductive Credentials :=
  | Plain (username password : text)
  | External
  | Scram (username password nonce : text).

(* obby-client/src/sasl.rs 69-76 Credentials::mechanism *)
Definition mechanism (c : Credentials) : text :=
  match c with Plain _ _ => "PLAIN" | External => "EXTERNAL" | Scram _ _ _ => "SCRAM-SHA-256" end.

(* obby-client/src/sasl.rs 78-94 Credentials::response *)
Definition response (c : Credentials) : list octet :=
  match c with
  | Plain username password => 0%N :: encode username ++ 0%N :: encode password
  | External | Scram _ _ _ => []
  end.

(* obby-client/src/sasl.rs 96-99 Credentials::is_challenge_response *)
Definition is_challenge_response (c : Credentials) : bool :=
  match c with Scram _ _ _ => true | _ => false end.

(* obby-client/src/sasl.rs 102-121 encode_response *)
Definition encode_response `{Base64} (payload : list octet) : list text :=
  match payload with
  | [] => [lit "+"]
  | _ =>
      let encoded := encode64 payload in
      let lines := chunks CHUNK encoded in
      if decide (length encoded mod CHUNK = 0)%nat then lines ++ [lit "+"] else lines
  end.

(* obby-client/src/sasl.rs 123-129 decode_challenge *)
Definition decode_challenge `{Base64} (payload : text) : option (list octet) :=
  if decide (payload = "+") then Some [] else decode64 payload.

(* obby-client/src/sasl.rs 131-139 offers *)
Definition offers (advertised : option text) (mechanism : text) : bool :=
  match advertised with
  | None | Some [] => true
  | Some l => existsb (λ m, eq_ignore_ascii_case m mechanism) (split_char chCOMMA l)
  end.

(* obby-client/src/sasl.rs 141-160 SaslFailure *)
Inductive SaslFailure :=
  Rejected | TooLong | Aborted | AlreadyAuthenticated | NoSharedMechanism | ServerNotVerified.

(* obby-client/src/sasl.rs 162-178 SaslState *)
Inductive SaslState := Idle | Offered | Responded | ScramChallenged | ScramProved | Settled.
#[global] Instance sasl_state_eq_dec : EqDecision SaslState.
Proof. solve_decision. Defined.

(* obby-client/src/sasl.rs 180-188 SaslState::in_flight *)
Definition in_flight (s : SaslState) : bool :=
  match s with Offered | Responded | ScramChallenged | ScramProved => true | _ => false end.
End Sasl.

(** ** What the server reads *)

(** The SASL framing of the specification, from the server's side: lines of exactly
    400 characters continue, a shorter line or a [+] ends the response. [None] means the
    server is still waiting. *)
Fixpoint server_collect `{Base64} (acc : text) (lines : list text) : option (list octet * list text) :=
  match lines with
  | [] => None
  | line :: rest =>
      if decide (line = "+") then bs ← (if decide (acc = []) then Some [] else decode64 acc); Some (bs, rest)
      else if decide (length line = Sasl.CHUNK) then server_collect (acc ++ line) rest
      else bs ← decode64 (acc ++ line); Some (bs, rest)
  end.

Section sasl.
Context {B : Base64} {HB : Base64Laws B}.

Lemma chunk_not_plus c : (1 < length c)%nat → c ≠ lit "+".
Proof. intros Hl ->. simpl in Hl. lia. Qed.

(** Lines cut from a text whose length is a multiple of four. *)
Lemma server_collect_chunks encoded acc tail bs :
  encoded ≠ [] ∨ acc ≠ [] → (∃ k, length encoded = 4 * k)%nat →
  decode64 (acc ++ encoded) = Some bs →
  server_collect acc (chunks Sasl.CHUNK encoded ++
    (if decide (length encoded mod Sasl.CHUNK = 0)%nat then [lit "+"] else []) ++ tail) = Some (bs, tail).
Proof.
  remember (length encoded) as n eqn:Hn. revert encoded acc Hn. induction (lt_wf n) as [n _ IH].
  intros encoded acc -> Hne [k Hk] Hd. destruct encoded as [|x e] eqn:Ee.
  - simpl. rewrite app_nil_r in Hd. destruct (decide (acc = [])); [naive_solver|].
    rewrite Hd. done.
  - rewrite <- Ee in *. assert (4 <= length encoded)%nat as H4 by (rewrite Ee in *; simpl in *; lia).
    rewrite chunks_cons by (unfold Sasl.CHUNK; lia || by rewrite Ee).
    set (c := take Sasl.CHUNK encoded). set (r := drop Sasl.CHUNK encoded).
    assert (length c = Nat.min Sasl.CHUNK (length encoded)) as Hc by apply length_take.
    assert (length r = length encoded - Sasl.CHUNK)%nat as Hr by apply length_drop.
    assert (encoded = c ++ r) as Hcr by (symmetry; apply take_drop).
    unfold Sasl.CHUNK in *. cbn [app server_collect].
    rewrite decide_False by (apply chunk_not_plus; lia).
    destruct (decide (400 <= length encoded)%nat) as [Hbig|Hsmall].
    + rewrite decide_True by (unfold Sasl.CHUNK; lia).
      assert ((length encoded) mod 400 = length r mod 400)%nat as ->.
      { replace (length encoded) with (length r + 1 * 400)%nat by lia. apply Nat.Div0.mod_add. }
      apply (IH (length r)); [lia|done| | |].
      * right. intros [_ E]%app_eq_nil. apply (f_equal length) in E. cbn [length] in E. lia.
      * exists (k - 100)%nat. lia.
      * by rewrite <- app_assoc, <- Hcr.
    + rewrite decide_False by (unfold Sasl.CHUNK; lia).
      assert (r = []) as Hrn by (apply nil_length_inv; lia). rewrite Hrn, app_nil_r in Hcr.
      rewrite <- Hcr, Hd. rewrite Nat.mod_small by lia. rewrite decide_False by lia.
      rewrite Hrn. done.
Qed.
End sasl.

(** Whatever the credentials, a server that follows the SASL framing reads exactly the
    response out of the lines: it is not left waiting when the base64 fills the last
    line exactly, and the lines stay within 400 characters. *)
Theorem sasl_response_read {B : Base64} {HB : Base64Laws B} (payload : list octet) (later : list text) :
  octets payload →
  server_collect [] (Sasl.encode_response payload ++ later) = Some (payload, later)
  ∧ Forall (λ line, (1 <= length line <= Sasl.CHUNK)%nat) (Sasl.encode_response payload).
Proof.
  intros Ho. unfold Sasl.encode_response. destruct payload as [|b p] eqn:E.
  - split; [done|]. apply Forall_singleton. unfold Sasl.CHUNK. simpl. lia.
  - rewrite <- E in *. pose proof (encode64_length payload) as Hl.
    assert (Forall (λ line, (1 <= length line <= Sasl.CHUNK)%nat) (chunks Sasl.CHUNK (encode64 payload))) as Hall.
    { eapply Forall_impl; [apply chunks_Forall; unfold Sasl.CHUNK; lia|].
      intros c [Hne Hle]. destruct c; [done|]. simpl in *. lia. }
    split.
    + rewrite <- (server_collect_chunks (encode64 payload) [] later payload).
      * case_decide; [by rewrite <- app_assoc|done].
      * left. rewrite encode64_nil. by rewrite E.
      * eauto.
      * by apply decode_encode64.
    + case_decide; [|done]. apply Forall_app. split; [done|].
      apply Forall_singleton. unfold Sasl.CHUNK. simpl. lia.
Qed.

Lemma sasl_response_read_witness :
  server_collect (H := standard) [] (Sasl.encode_response (H := standard) (Sasl.response (Sasl.Plain "jilles" "sesame")))
  = Some (Sasl.response (Sasl.Plain "jilles" "sesame"), []).
Proof.
  pose proof (sasl_response_read (HB := standard_laws) (Sasl.response (Sasl.Plain "jilles" "sesame")) []) as H.
  rewrite app_nil_r in H. apply H.
  apply Forall_forall. intros c Hc. apply N.ltb_lt. revert c Hc. apply Forall_forall.
  apply (bool_decide_unpack _). vm_compute. exact I.
Defined.
