(* ===== verification/Json.v ===== *)
(** * JSON (src/crates/obby-client/src/json.rs and the write half in voice.rs)

    The parser is a cursor over the bytes of a [str]. Every byte it tests for is ASCII,
    and no byte of a longer character is, so the cursor is modelled on the characters:
    the state is the text still to be read. Recursion and the element loops share one
    fuel, and what a run comes to says which it was, a refusal or a want of fuel:
    [parse_fed] shows that the fuel [parse] starts with never runs out. *)
From S2P Require Import Prelude.

(** ** What a run with so much fuel comes to *)

Inductive run (A : Type) := Starved | Refused | Read (x : A).
Arguments Starved {A}.
Arguments Refused {A}.
Arguments Read {A} x.

#[global] Instance run_bind : MBind run := λ A B f r,
  match r with Starved => Starved | Refused => Refused | Read x => f x end.
(** A step that takes no fuel. *)
Definition lift {A} (o : option A) : run A := match o with Some x => Read x | None => Refused end.
Definition fed {A} (r : run A) : Prop := r ≠ Starved.

Lemma bind_Read {A B} (r : run A) (f : A → run B) y : r ≫= f = Read y ↔ ∃ x, r = Read x ∧ f x = Read y.
Proof. destruct r; cbn; naive_solver. Qed.
Lemma lift_Read {A} (o : option A) x : lift o = Read x ↔ o = Some x.
Proof. destruct o; cbn; naive_solver. Qed.
Lemma fed_bind {A B} (r : run A) (f : A → run B) : fed r → (∀ x, r = Read x → fed (f x)) → fed (r ≫= f).
Proof. unfold fed. destruct r; cbn; naive_solver. Qed.
Lemma fed_lift {A} (o : option A) : fed (lift o).
Proof. by destruct o. Qed.
Lemma run_bind_ext {A B} (r : run A) (f g : A → run B) : (∀ x, r = Read x → f x = g x) → r ≫= f = r ≫= g.
Proof. destruct r; cbn; auto. Qed.

Module Json.
(* obby-client/src/json.rs 11-19 Json *)
Inductive t :=
  | Null
  | Bool (b : bool)
  | Num (n : Z)
  | Str (s : text)
  | Array (items : list t)
  | Object (fields : list (text * t)).

(** Induction through the lists. *)
Fixpoint t_ind' (P : t → Prop)
    (HNull : P Null) (HBool : ∀ b, P (Bool b)) (HNum : ∀ n, P (Num n)) (HStr : ∀ s, P (Str s))
    (HArray : ∀ items, Forall P items → P (Array items))
    (HObject : ∀ fields, Forall (λ p, P p.2) fields → P (Object fields)) (j : t) : P j :=
  let rec := t_ind' P HNull HBool HNum HStr HArray HObject in
  match j with
  | Null => HNull
  | Bool b => HBool b
  | Num n => HNum n
  | Str s => HStr s
  | Array items =>
      HArray items ((fix go l : Forall P l :=
        match l with [] => Forall_nil_2 _ | x :: l => Forall_cons_2 _ _ _ (rec x) (go l) end) items)
  | Object fields =>
      HObject fields ((fix go l : Forall (λ p, P p.2) l :=
        match l with
        | [] => Forall_nil_2 _
        | p :: l => Forall_cons_2 (λ p, P p.2) p l (rec p.2) (go l)
        end) fields)
  end.

(* obby-client/src/json.rs 37-45 Json::field *)
Definition field (j : t) (key : text) : option t :=
  match j with
  | Object fields => snd <$> (snd <$> list_find (λ p, p.1 = key) fields)
  | _ => None
  end.
(* obby-client/src/json.rs 47-52 Json::as_str *)
Definition as_str (j : t) : option text := match j with Str s => Some s | _ => None end.
(* obby-client/src/json.rs 54-59 Json::as_array *)
Definition as_array (j : t) : option (list t) := match j with Array l => Some l | _ => None end.
(* obby-client/src/json.rs 62-64 field_string *)
Definition field_string (j : t) (key : text) : option text := v ← field j key; as_str v.

(* obby-client/src/json.rs 99-103 Parser::skip_ws *)
Definition is_ws (c : char) : bool := bool_decide (c ∈ [32; 9; 10; 13]%N).
Definition skip_ws (s : text) : text := trim_start_matches is_ws s.

(* obby-client/src/json.rs 119-127 Parser::parse_literal *)
Definition parse_literal (lit_ : text) (value : t) (s : text) : option (t * text) :=
  rest ← strip_prefix lit_ s; Some (value, rest).

(* obby-client/src/json.rs 151-155 Parser::skip_digits *)
Fixpoint span_digits (s : text) : text * text :=
  match s with
  | c :: rest =>
      if is_ascii_digit c then let '(a, b) := span_digits rest in (c :: a, b) else ([], s)
  | [] => ([], [])
  end.

(** What follows the integer part is skipped: a fraction, then an exponent. *)
(* obby-client/src/json.rs 136-146 Parser::parse_number *)
Definition skip_fraction (s : text) : text :=
  let s := match strip_prefix_char chDOT s with Some r => (span_digits r).2 | None => s end in
  match s with
  | c :: r =>
      if bool_decide (c ∈ [101; 69]%N) then
        let r := match r with
                 | d :: r' => if bool_decide (d ∈ [chPLUS; chMINUS]) then r' else r
                 | [] => r
                 end in (span_digits r).2
      else s
  | [] => s
  end.

(* obby-client/src/json.rs 129-149 Parser::parse_number *)
Definition parse_number (s : text) : option (t * text) :=
  let '(sign, s) :=
    match strip_prefix_char chMINUS s with Some r => ([chMINUS], r) | None => ([], s) end in
  let '(digits, s) := span_digits s in
  n ← parse_i64 (sign ++ digits);
  Some (Num n, skip_fraction s).

(* obby-client/src/json.rs 255-261 Parser::parse_hex4 *)
Definition parse_hex4 (s : text) : option (Z * text) :=
  match s with
  | a :: b :: c :: d :: rest => v ← parse_u32_hex [a; b; c; d]; Some (v, rest)
  | _ => None
  end.

(** [char::from_u32]. *)
Definition from_u32 (v : Z) : option char :=
  if (v <? 55296) || ((57344 <=? v) && (v <=? 1114111)) then Some (Z.to_N v) else None.

(* obby-client/src/json.rs 239-253 Parser::parse_unicode_escape *)
Definition parse_unicode_escape (s : text) : option (char * text) :=
  '(unit, s) ← parse_hex4 s;
  if (55296 <=? unit) && (unit <=? 56319) then
    s ← strip_prefix_char chBSLASH s;
    s ← strip_prefix_char 117%N s;
    '(low, s) ← parse_hex4 s;
    if negb ((56320 <=? low) && (low <=? 57343)) then None
    else c ← from_u32 (65536 + Z.shiftl (unit - 55296) 10 + (low - 56320)); Some (c, s)
  else c ← from_u32 unit; Some (c, s).

(* obby-client/src/json.rs 223-237 Parser::parse_escape *)
Definition parse_escape (s : text) : option (char * text) :=
  match s with
  | [] => None
  | c :: rest =>
      if decide (c = 34%N) then Some (34%N, rest)
      else if decide (c = chBSLASH) then Some (chBSLASH, rest)
      else if decide (c = 47%N) then Some (47%N, rest)
      else if decide (c = 98%N) then Some (8%N, rest)
      else if decide (c = 102%N) then Some (12%N, rest)
      else if decide (c = 110%N) then Some (10%N, rest)
      else if decide (c = 114%N) then Some (13%N, rest)
      else if decide (c = 116%N) then Some (9%N, rest)
      else if decide (c = 117%N) then parse_unicode_escape rest
      else None
  end.

(** The characters up to the closing quote; each turn reads at least one. *)
(* obby-client/src/json.rs 204-220 Parser::parse_string *)
Fixpoint string_loop (fuel : nat) (s : text) : run (text * text) :=
  match fuel with
  | O => Starved
  | S fuel =>
      match s with
      | [] => Refused
      | c :: rest =>
          if decide (c = 34%N) then Read ([], rest)
          else if decide (c = chBSLASH) then
            '(d, rest) ← lift (parse_escape rest); '(out, rest) ← string_loop fuel rest; Read (d :: out, rest)
          else '(out, rest) ← string_loop fuel rest; Read (c :: out, rest)
      end
  end.
(* obby-client/src/json.rs 200-221 Parser::parse_string *)
Definition parse_string (s : text) : run (text * text) :=
  s ← lift (strip_prefix_char 34%N s); string_loop (S (length s)) s.

(* obby-client/src/json.rs 105-117 Parser::parse_value *)
Fixpoint parse_value (fuel : nat) (s : text) : run (t * text) :=
  match fuel with
  | O => Starved
  | S fuel =>
      let s := skip_ws s in
      match s with
      | [] => Refused
      | c :: rest =>
          if decide (c = 34%N) then '(v, rest) ← parse_string s; Read (Str v, rest)
          else if decide (c = 123%N) then
            let rest := skip_ws rest in
            match strip_prefix_char 125%N rest with
            | Some rest => Read (Object [], rest)
            | None => '(fields, rest) ← parse_fields fuel rest; Read (Object fields, rest)
            end
          else if decide (c = 91%N) then
            let rest := skip_ws rest in
            match strip_prefix_char 93%N rest with
            | Some rest => Read (Array [], rest)
            | None => '(items, rest) ← parse_items fuel rest; Read (Array items, rest)
            end
          else if decide (c = 116%N) then lift (parse_literal "true" (Bool true) s)
          else if decide (c = 102%N) then lift (parse_literal "false" (Bool false) s)
          else if decide (c = 110%N) then lift (parse_literal "null" Null s)
          else if (c =? chMINUS)%N || is_ascii_digit c then lift (parse_number s)
          else Refused
      end
  end
(* obby-client/src/json.rs 157-174 Parser::parse_array *)
with parse_items (fuel : nat) (s : text) : run (list t * text) :=
  match fuel with
  | O => Starved
  | S fuel =>
      '(v, s) ← parse_value fuel s;
      match skip_ws s with
      | c :: rest =>
          if decide (c = chCOMMA) then
            '(vs, rest) ← parse_items fuel (skip_ws rest); Read (v :: vs, rest)
          else if decide (c = 93%N) then Read ([v], rest)
          else Refused
      | [] => Refused
      end
  end
(* obby-client/src/json.rs 176-198 Parser::parse_object *)
with parse_fields (fuel : nat) (s : text) : run (list (text * t) * text) :=
  match fuel with
  | O => Starved
  | S fuel =>
      '(key, s) ← parse_string (skip_ws s);
      s ← lift (strip_prefix_char chCOLON (skip_ws s));
      '(v, s) ← parse_value fuel s;
      match skip_ws s with
      | c :: rest =>
          if decide (c = chCOMMA) then
            '(vs, rest) ← parse_fields fuel rest; Read ((key, v) :: vs, rest)
          else if decide (c = 125%N) then Read ([(key, v)], rest)
          else Refused
      | [] => Refused
      end
  end.

(* obby-client/src/json.rs 22-35 Json::parse *)
Definition parse (s : text) : option t :=
  match parse_value (S (2 * length s)) (skip_ws s) with
  | Read (v, rest) => match skip_ws rest with [] => Some v | _ => None end
  | Refused | Starved => None
  end.

(* obby-client/src/voice.rs 48-53 Json::as_u32 *)
Definition as_u32 (j : t) : option Z :=
  match j with Num n => if decide (0 <= n <= u32_max) then Some n else None | _ => None end.

Definition hex_digit (n : N) : char := if (n <? 10)%N then (48 + n)%N else (87 + n)%N.
(** [\u{:04x}] of a control character. *)
Definition hex4 (c : char) : text := [48%N; 48%N; hex_digit (c / 16); hex_digit (c mod 16)].
(* obby-client/src/voice.rs 83-93 write_json_string *)
Definition write_char (c : char) : text :=
  if decide (c = 34%N) then [chBSLASH; 34%N]
  else if decide (c = chBSLASH) then [chBSLASH; chBSLASH]
  else if decide (c = 10%N) then [chBSLASH; 110%N]
  else if decide (c = 13%N) then [chBSLASH; 114%N]
  else if decide (c = 9%N) then [chBSLASH; 116%N]
  else if (c <? 32)%N then chBSLASH :: 117%N :: hex4 c
  else [c].
(* obby-client/src/voice.rs 80-96 write_json_string *)
Definition write_string (s : text) : text := 34%N :: (s ≫= write_char) ++ [34%N].

(* obby-client/src/voice.rs 34-78 Json::write *)
Fixpoint write (j : t) : text :=
  match j with
  | Null => "null"
  | Bool b => if b then "true" else "false"
  | Num n => show_Z n
  | Str s => write_string s
  | Array items => 91%N :: join_with chCOMMA (write <$> items) ++ [93%N]
  | Object fields =>
      123%N :: join_with chCOMMA ((λ p, write_string p.1 ++ chCOLON :: write p.2) <$> fields) ++ [125%N]
  end.
End Json.

(** Text with its apostrophes read as double quotes, to write examples in. *)
Definition quoted (s : text) : text := (λ c, if decide (c = 39%N) then 34%N else c) <$> s.

Example json_example :
  Json.parse (quoted "{'type': 'ice', 'm': [1, -20.5e3, null, true], 's': 'a\u0041\n'}")
  = Some (Json.Object [(lit "type", Json.Str "ice");
      (lit "m", Json.Array [Json.Num 1; Json.Num (-20); Json.Null; Json.Bool true]);
      (lit "s", Json.Str [97; 65; 10]%N)]).
Proof. reflexivity. Qed.

(** ** The parser consumes what it reads *)

Lemma skip_ws_length s : (length (Json.skip_ws s) <= length s)%nat.
Proof. apply trim_start_length. Qed.

Lemma strip_prefix_char_length c s r : strip_prefix_char c s = Some r → length s = S (length r).
Proof. by intros ->%strip_prefix_char_Some. Qed.

Lemma strip_prefix_length p s r : strip_prefix p s = Some r → (length r <= length s)%nat.
Proof. intros ->%strip_prefix_Some. rewrite length_app. lia. Qed.

Lemma parse_hex4_length s v r : Json.parse_hex4 s = Some (v, r) → (length r < length s)%nat.
Proof.
  destruct s as [|a [|b [|c [|d s]]]]; try done. simpl. intros (? & _ & [= _ <-])%bind_Some. lia.
Qed.

Lemma parse_escape_length s c r : Json.parse_escape s = Some (c, r) → (length r < length s)%nat.
Proof.
  unfold Json.parse_escape. destruct s as [|d s]; [done|]. simpl.
  repeat case_decide; try (by intros [= _ <-]; lia).
  unfold Json.parse_unicode_escape. intros ([u s1] & Hl1%parse_hex4_length & HX)%bind_Some.
  case_match.
  - apply bind_Some in HX as (s2 & Hl2%strip_prefix_char_length & HX).
    apply bind_Some in HX as (s3 & Hl3%strip_prefix_char_length & HX).
    apply bind_Some in HX as ([low s4] & Hl4%parse_hex4_length & HX).
    case_match; [done|]. apply bind_Some in HX as (? & _ & [= _ <-]). lia.
  - apply bind_Some in HX as (? & _ & [= _ <-]). lia.
Qed.

Lemma string_loop_length fuel s out r :
  Json.string_loop fuel s = Read (out, r) → (length r < length s)%nat.
Proof.
  revert s out r. induction fuel as [|fuel IH]; intros [|c s] out r; cbn [Json.string_loop length]; try done.
  repeat case_decide.
  - intros [= _ <-]. lia.
  - intros ([d s1] & H1%lift_Read%parse_escape_length & ([o s2] & H2%IH & [= _ <-])%bind_Read)%bind_Read. lia.
  - intros ([o s2] & H2%IH & [= _ <-])%bind_Read. lia.
Qed.

Lemma parse_string_length s out r : Json.parse_string s = Read (out, r) → (length r < length s)%nat.
Proof.
  unfold Json.parse_string. intros (s1 & H1%lift_Read%strip_prefix_char_length & H2%string_loop_length)%bind_Read. lia.
Qed.

Lemma span_digits_app s a b : Json.span_digits s = (a, b) → s = a ++ b.
Proof.
  revert a b. induction s as [|c s IH]; intros a b; simpl; [by intros [= <- <-]|].
  destruct (is_ascii_digit c); [|by intros [= <- <-]].
  destruct (Json.span_digits s) as [a' b']. intros [= <- <-]. simpl. f_equal. by apply IH.
Qed.

Lemma span_digits_length s : (length (Json.span_digits s).2 <= length s)%nat.
Proof.
  destruct (Json.span_digits s) as [a b] eqn:E. apply span_digits_app in E as ->.
  rewrite length_app. simpl. lia.
Qed.

Lemma skip_fraction_length s : (length (Json.skip_fraction s) <= length s)%nat.
Proof.
  unfold Json.skip_fraction.
  assert (length (match strip_prefix_char chDOT s with Some r => (Json.span_digits r).2 | None => s end)
          <= length s)%nat as H.
  { destruct (strip_prefix_char chDOT s) as [r|] eqn:E; [|done].
    apply strip_prefix_char_length in E. pose proof (span_digits_length r). lia. }
  revert H. generalize (match strip_prefix_char chDOT s with Some r => (Json.span_digits r).2 | None => s end).
  intros [|c r] H; [done|]. case_bool_decide; [|done]. simpl in H.
  etransitivity; [apply span_digits_length|]. destruct r as [|d r]; simpl in *; [lia|].
  case_bool_decide; simpl; lia.
Qed.

Lemma parse_number_length s v r : Json.parse_number s = Some (v, r) → (length r < length s)%nat.
Proof.
  unfold Json.parse_number.
  destruct (strip_prefix_char chMINUS s) as [x|] eqn:E.
  - destruct (Json.span_digits x) as [a b] eqn:Eb. intros (n & _ & [= _ <-])%bind_Some.
    pose proof (skip_fraction_length b). pose proof (span_digits_length x). rewrite Eb in *.
    apply strip_prefix_char_length in E. simpl in *. lia.
  - destruct (Json.span_digits s) as [a b] eqn:Eb. intros (n & Hn & [= _ <-])%bind_Some.
    pose proof (skip_fraction_length b). apply span_digits_app in Eb as ->.
    destruct a as [|c a]; [done|]. simpl. rewrite length_app. lia.
Qed.

(** Everything the value parser reads is strictly shorter afterwards. *)
Lemma parse_length fuel :
  (∀ s v r, Json.parse_value fuel s = Read (v, r) → (length r < length s)%nat)
  ∧ (∀ s l r, Json.parse_items fuel s = Read (l, r) → (length r < length s)%nat)
  ∧ (∀ s l r, Json.parse_fields fuel s = Read (l, r) → (length r < length s)%nat).
Proof.
  induction fuel as [|fuel (IHv & IHi & IHf)]; [done|]. split_and!.
  - intros s v r. cbn [Json.parse_value]. pose proof (skip_ws_length s) as Hs.
    destruct (Json.skip_ws s) as [|c rest]; [done|]. simpl in Hs.
    pose proof (skip_ws_length rest) as Hr. unfold Json.parse_literal.
    repeat case_decide;
      try (intros (x & Hx%strip_prefix_Some & [= _ <-])%lift_Read%bind_Some; apply (f_equal length) in Hx; simpl in Hx; lia).
    + intros ([x y] & Hx%parse_string_length & [= _ <-])%bind_Read. simpl in Hx. lia.
    + destruct (strip_prefix_char _ _) eqn:E; [apply strip_prefix_char_length in E; intros [= _ <-]; lia|].
      intros ([x y] & Hx%IHf & [= _ <-])%bind_Read. lia.
    + destruct (strip_prefix_char _ _) eqn:E; [apply strip_prefix_char_length in E; intros [= _ <-]; lia|].
      intros ([x y] & Hx%IHi & [= _ <-])%bind_Read. lia.
    + case_match; [|done]. intros Hn%lift_Read%parse_number_length. simpl in Hn. lia.
  - intros s l r. cbn [Json.parse_items]. intros ([v s1] & Hv%IHv & H)%bind_Read.
    pose proof (skip_ws_length s1). destruct (Json.skip_ws s1) as [|c rest]; [done|]. simpl in *.
    pose proof (skip_ws_length rest). repeat case_decide; [| |done].
    + apply bind_Read in H as ([vs r'] & Hi%IHi & [= _ <-]). lia.
    + injection H as _ <-. lia.
  - intros s l r. cbn [Json.parse_fields]. intros ([k s1] & Hk%parse_string_length & H)%bind_Read.
    pose proof (skip_ws_length s). pose proof (skip_ws_length s1).
    apply bind_Read in H as (s2 & H2%lift_Read%strip_prefix_char_length & H).
    apply bind_Read in H as ([v s3] & Hv%IHv & H).
    pose proof (skip_ws_length s3). destruct (Json.skip_ws s3) as [|c rest]; [done|]. simpl in *.
    repeat case_decide; [| |done].
    + apply bind_Read in H as ([vs r'] & Hi%IHf & [= _ <-]). lia.
    + injection H as _ <-. lia.
Qed.

(** Two steps of fuel for every character are enough: with that much, more changes nothing. *)
Lemma parse_fuel_enough fuel :
  (∀ fuel' s, (2 * length s < fuel)%nat → (2 * length s < fuel')%nat →
     Json.parse_value fuel s = Json.parse_value fuel' s)
  ∧ (∀ fuel' s, (S (2 * length s) < fuel)%nat → (S (2 * length s) < fuel')%nat →
     Json.parse_items fuel s = Json.parse_items fuel' s)
  ∧ (∀ fuel' s, (S (2 * length s) < fuel)%nat → (S (2 * length s) < fuel')%nat →
     Json.parse_fields fuel s = Json.parse_fields fuel' s).
Proof.
  induction fuel as [|fuel (IHv & IHi & IHf)]; [split_and!; lia|].
  split_and!; intros [|fuel'] s H1 H2; try lia.
  - cbn [Json.parse_value]. pose proof (skip_ws_length s) as Hs.
    destruct (Json.skip_ws s) as [|c rest]; [done|]. simpl in Hs.
    pose proof (skip_ws_length rest) as Hr.
    rewrite (IHi fuel' (Json.skip_ws rest)), (IHf fuel' (Json.skip_ws rest)) by lia. done.
  - cbn [Json.parse_items]. rewrite (IHv fuel' s) by lia.
    apply run_bind_ext. intros [v s1] Hv%(proj1 (parse_length _)).
    pose proof (skip_ws_length s1). destruct (Json.skip_ws s1) as [|c rest]; [done|]. simpl in *.
    pose proof (skip_ws_length rest). by rewrite (IHi fuel' (Json.skip_ws rest)) by lia.
  - cbn [Json.parse_fields]. pose proof (skip_ws_length s).
    apply run_bind_ext. intros [k s1] Hk%parse_string_length. pose proof (skip_ws_length s1).
    apply run_bind_ext. intros s2 H3%lift_Read%strip_prefix_char_length. rewrite (IHv fuel' s2) by lia.
    apply run_bind_ext. intros [v s3] Hv%(proj1 (parse_length _)).
    pose proof (skip_ws_length s3). destruct (Json.skip_ws s3) as [|c rest]; [done|]. simpl in *.
    by rewrite (IHf fuel' rest) by lia.
Qed.

(** And with that much the parser is never left without: every call it makes has fuel for what it is given. *)
Lemma string_fed fuel s : (length s < fuel)%nat → fed (Json.string_loop fuel s).
Proof.
  revert s. induction fuel as [|fuel IH]; intros [|c s] Hf; cbn [Json.string_loop length] in *; try lia; [done|].
  repeat case_decide; [done| |].
  - apply fed_bind; [apply fed_lift|]. intros [d s1] Hd%lift_Read%parse_escape_length.
    apply fed_bind; [apply IH; lia|by intros []].
  - apply fed_bind; [apply IH; lia|by intros []].
Qed.
Lemma parse_string_fed s : fed (Json.parse_string s).
Proof. unfold Json.parse_string. apply fed_bind; [apply fed_lift|]. intros s1 _. apply string_fed. lia. Qed.

Lemma parse_fed fuel :
  (∀ s, (2 * length s < fuel)%nat → fed (Json.parse_value fuel s))
  ∧ (∀ s, (S (2 * length s) < fuel)%nat → fed (Json.parse_items fuel s))
  ∧ (∀ s, (S (2 * length s) < fuel)%nat → fed (Json.parse_fields fuel s)).
Proof.
  induction fuel as [|fuel (IHv & IHi & IHf)]; [split_and!; lia|]. split_and!; intros s Hf.
  - cbn [Json.parse_value]. pose proof (skip_ws_length s) as Hs. destruct (Json.skip_ws s) as [|c rest]; [done|]. simpl in Hs.
    pose proof (skip_ws_length rest) as Hr.
    repeat case_decide; try apply fed_lift.
    + apply fed_bind; [apply parse_string_fed|by intros []].
    + case_match; [done|]. apply fed_bind; [apply IHf; lia|by intros []].
    + case_match; [done|]. apply fed_bind; [apply IHi; lia|by intros []].
    + case_match; [apply fed_lift|done].
  - cbn [Json.parse_items]. apply fed_bind; [apply IHv; lia|]. intros [v s1] Hv%(proj1 (parse_length _)).
    pose proof (skip_ws_length s1). destruct (Json.skip_ws s1) as [|c rest]; [done|]. simpl in *.
    pose proof (skip_ws_length rest). repeat case_decide; [|done..]. apply fed_bind; [apply IHi; lia|by intros []].
  - cbn [Json.parse_fields]. pose proof (skip_ws_length s) as Hs. apply fed_bind; [apply parse_string_fed|].
    intros [k s1] Hk%parse_string_length. pose proof (skip_ws_length s1).
    apply fed_bind; [apply fed_lift|]. intros s2 H2%lift_Read%strip_prefix_char_length.
    apply fed_bind; [apply IHv; lia|]. intros [v s3] Hv%(proj1 (parse_length _)).
    pose proof (skip_ws_length s3). destruct (Json.skip_ws s3) as [|c rest]; [done|]. simpl in *.
    repeat case_decide; [|done..]. apply fed_bind; [apply IHf; lia|by intros []].
Qed.

(** ** Reading back what was written *)

(** The values that can be written: every number fits the [i64] it is held in. *)
Fixpoint wf_json (j : Json.t) : Prop :=
  match j with
  | Json.Num n => i64_min <= n <= i64_max
  | Json.Array items => foldr (λ x P, wf_json x ∧ P) True items
  | Json.Object fields => foldr (λ p P, wf_json p.2 ∧ P) True fields
  | _ => True
  end.

(** What may follow a value: nothing that a number would swallow. *)
Definition ends_value (rest : text) : Prop :=
  match rest with
  | c :: _ => is_ascii_digit c = false ∧ c ∉ [46; 101; 69]%N
  | [] => True
  end.

Lemma control_escape_check : forallb (λ c,
  bool_decide (Json.parse_hex4 (Json.hex4 c) = Some (Z.of_N c, []))) (N.of_nat <$> seq 0 32) = true.
Proof. vm_compute. reflexivity. Qed.

Lemma parse_hex4_control c rest : (c < 32)%N → Json.parse_hex4 (Json.hex4 c ++ rest) = Some (Z.of_N c, rest).
Proof.
  intros Hc. pose proof control_escape_check as H. rewrite forallb_forall in H. specialize (H c).
  assert (In c (N.of_nat <$> seq 0 32)) as Hin.
  { apply list_elem_of_In, list_elem_of_fmap. exists (N.to_nat c). split; [lia|]. apply elem_of_seq. lia. }
  apply H, bool_decide_eq_true in Hin. unfold Json.hex4, Json.parse_hex4 in *. cbn [app].
  apply bind_Some in Hin as (v & Hv & [= ->]). by rewrite Hv.
Qed.

Lemma string_loop_write fuel s rest :
  (length s < fuel)%nat →
  Json.string_loop fuel ((s ≫= Json.write_char) ++ 34%N :: rest) = Read (s, rest).
Proof.
  revert fuel. induction s as [|c s IH]; intros [|fuel] Hf; simpl in Hf; try lia.
  - cbn [app Json.string_loop mbind list_bind]. by rewrite decide_True.
  - change ((c :: s) ≫= Json.write_char) with (Json.write_char c ++ (s ≫= Json.write_char)).
    rewrite <- app_assoc. specialize (IH fuel ltac:(lia)). revert IH.
    generalize ((s ≫= Json.write_char) ++ 34%N :: rest). intros tl IH.
    unfold Json.write_char. repeat case_decide; subst;
      try (cbn [app Json.string_loop Json.parse_escape]; by rewrite decide_False, decide_True by done; simpl; rewrite IH).
    destruct (N.ltb_spec c 32) as [Hc|Hc].
    + cbn [app Json.string_loop]. rewrite decide_False, decide_True by done.
      unfold Json.parse_escape. repeat (rewrite decide_False by done). rewrite decide_True by done.
      unfold Json.parse_unicode_escape. change (?a :: ?b :: ?x :: ?y :: tl) with ([a; b; x; y] ++ tl).
      fold (Json.hex4 c). rewrite parse_hex4_control by done. cbn [mbind option_bind run_bind lift].
      rewrite (proj2 (andb_false_iff _ _)) by (left; apply Z.leb_gt; lia).
      unfold Json.from_u32. rewrite (proj2 (Z.ltb_lt _ _)) by lia. cbn [orb mbind option_bind run_bind lift].
      rewrite IH, N2Z.id. done.
    + cbn [app Json.string_loop]. rewrite !decide_False by done. by rewrite IH.
Qed.

Lemma write_char_length c : (1 <= length (Json.write_char c))%nat.
Proof. unfold Json.write_char. repeat case_match; simpl; lia. Qed.

Lemma parse_string_write s rest : Json.parse_string (Json.write_string s ++ rest) = Read (s, rest).
Proof.
  unfold Json.write_string, Json.parse_string. cbn [app].
  rewrite (proj2 (strip_prefix_char_Some _ _ _) eq_refl). cbn [mbind option_bind run_bind lift].
  rewrite <- app_assoc. cbn [app]. apply string_loop_write.
  rewrite length_app. simpl.
  assert (length s <= length (s ≫= Json.write_char))%nat; [|lia].
  induction s as [|c s IH]; [done|]. csimpl. rewrite length_app. pose proof (write_char_length c). lia.
Qed.

Lemma span_digits_show t rest :
  Forall (λ c, is_ascii_digit c = true) t → ends_value rest → Json.span_digits (t ++ rest) = (t, rest).
Proof.
  intros Ht Hr. induction Ht as [|c t Hc _ IH]; simpl; [|by rewrite Hc, IH].
  destruct rest as [|c r]; [done|]. destruct Hr as [Hr _]. simpl. by rewrite Hr.
Qed.

Lemma skip_fraction_ends rest : ends_value rest → Json.skip_fraction rest = rest.
Proof.
  destruct rest as [|c r]; [done|]. intros [_ Hc]. rewrite !not_elem_of_cons in Hc.
  unfold Json.skip_fraction. simpl. rewrite decide_False by tauto.
  rewrite bool_decide_eq_false_2; [done|]. rewrite !not_elem_of_cons. split_and!; first [tauto | apply not_elem_of_nil].
Qed.

Lemma parse_number_write n rest :
  i64_min <= n <= i64_max → ends_value rest →
  Json.parse_number (show_Z n ++ rest) = Some (Json.Num n, rest).
Proof.
  intros Hn Hr. pose proof (parse_i64_show n Hn) as Hp. unfold Json.parse_number, show_Z in *.
  case_decide.
  - cbn [app]. rewrite (proj2 (strip_prefix_char_Some _ _ _) eq_refl).
    rewrite span_digits_show by (done || apply show_N_digits). cbn [app]. rewrite Hp. simpl.
    by rewrite skip_fraction_ends.
  - pose proof (show_N_digits (Z.to_N n)) as Hd. pose proof (show_N_not_nil (Z.to_N n)).
    assert (strip_prefix_char chMINUS (show_N (Z.to_N n) ++ rest) = None) as ->.
    { destruct (show_N (Z.to_N n)) as [|c t]; [done|]. simpl. rewrite decide_False; [done|].
      intros ->. by inversion Hd. }
    rewrite span_digits_show by done. cbn [app]. rewrite Hp. simpl. by rewrite skip_fraction_ends.
Qed.

(** A written value starts with a character that is neither space nor a closer. *)
Lemma write_head j :
  ∃ c r, Json.write j = c :: r ∧ Json.is_ws c = false ∧ c ≠ 93%N ∧ c ≠ 125%N.
Proof.
  destruct j as [|[]|n|s|l|l]; try (eexists _, _; split; [reflexivity|done]).
  cbn [Json.write]. unfold show_Z. case_decide; [by eexists _, _|].
  pose proof (show_N_digits (Z.to_N n)) as Hd. pose proof (show_N_not_nil (Z.to_N n)).
  destruct (show_N (Z.to_N n)) as [|c t]; [done|]. eexists _, _. split; [done|].
  inversion Hd as [|?? Hc _]; subst. unfold is_ascii_digit in Hc. N_bool. unfold Json.is_ws.
  split_and!; [|lia..]. rewrite bool_decide_eq_false_2; [done|]. rewrite !not_elem_of_cons.
  split_and!; first [lia | apply not_elem_of_nil].
Qed.

Lemma skip_ws_head c r : Json.is_ws c = false → Json.skip_ws (c :: r) = c :: r.
Proof. intros H. unfold Json.skip_ws. simpl. by rewrite H. Qed.

Lemma skip_ws_write j rest : Json.skip_ws (Json.write j ++ rest) = Json.write j ++ rest.
Proof. destruct (write_head j) as (c & r & -> & Hc & _). by apply skip_ws_head. Qed.

(** Fuel to read a value back: one for the value, one more for each element passed. *)
Fixpoint need (j : Json.t) : nat :=
  match j with
  | Json.Array items => S (foldr (λ x n, S (max (need x) n)) 0 items)
  | Json.Object fields => S (foldr (λ p n, S (max (need p.2) n)) 0 fields)
  | _ => 1
  end%nat.

Lemma ends_closer c rest : c = chCOMMA ∨ c = 93%N ∨ c = 125%N → ends_value (c :: rest).
Proof.
  intros H. split; [destruct H as [-> |[-> | ->]]; done|].
  rewrite !not_elem_of_cons. destruct H as [-> |[-> | ->]]; split_and!; first [done | apply not_elem_of_nil].
Qed.
#[local] Hint Resolve ends_closer : core.

Definition reads_back (j : Json.t) : Prop :=
  ∀ fuel rest, wf_json j → (need j <= fuel)%nat → ends_value rest →
    Json.parse_value fuel (Json.write j ++ rest) = Read (j, rest).

Lemma join_cons x y l : join_with chCOMMA (x :: y :: l) = x ++ chCOMMA :: join_with chCOMMA (y :: l).
Proof. done. Qed.

Lemma items_read_back items fuel rest :
  items ≠ [] → Forall reads_back items → foldr (λ x P, wf_json x ∧ P) True items →
  (foldr (λ x n, S (max (need x) n)) 0 items <= fuel)%nat →
  Json.parse_items fuel (join_with chCOMMA (Json.write <$> items) ++ 93%N :: rest) = Read (items, rest).
Proof.
  intros Hne Hall. revert fuel Hne. induction Hall as [|x l Hx Hl IH]; intros fuel Hne Hwf Hf; [done|].
  cbn [foldr] in *. destruct fuel as [|fuel]; [lia|]. destruct Hwf as [Hwx Hwl].
  cbn [Json.parse_items]. destruct l as [|y l].
  - csimpl. rewrite Hx by (done || lia || auto). simpl. done.
  - rewrite !fmap_cons, join_cons, <- app_assoc, <- app_comm_cons.
    rewrite Hx by (done || lia || auto). cbn [mbind option_bind run_bind lift].
    rewrite skip_ws_head by done. rewrite decide_True by done.
    rewrite <- fmap_cons. replace (Json.skip_ws _) with
      (join_with chCOMMA (Json.write <$> y :: l) ++ 93%N :: rest).
    + rewrite IH; [done|done|by simpl in *|simpl in *; lia].
    + symmetry. destruct (write_head y) as (c & r & E & Hc & _).
      assert (∃ r', join_with chCOMMA (Json.write <$> y :: l) = c :: r') as [r' ->].
      { rewrite fmap_cons, E. destruct l; csimpl; eauto. }
      by apply skip_ws_head.
Qed.

Lemma fields_read_back fields fuel rest :
  fields ≠ [] → Forall (λ p, reads_back p.2) fields → foldr (λ p P, wf_json p.2 ∧ P) True fields →
  (foldr (λ p n, S (max (need p.2) n)) 0 fields <= fuel)%nat →
  Json.parse_fields fuel
    (join_with chCOMMA ((λ p, Json.write_string p.1 ++ chCOLON :: Json.write p.2) <$> fields) ++ 125%N :: rest)
  = Read (fields, rest).
Proof.
  intros Hne Hall. revert fuel Hne. induction Hall as [|[k x] l Hx Hl IH]; intros fuel Hne Hwf Hf; [done|].
  cbn [foldr fst snd] in *. destruct fuel as [|fuel]; [lia|]. destruct Hwf as [Hwx Hwl].
  assert (∀ tl, ends_value tl → (x0 ← Json.parse_string (Json.skip_ws ((Json.write_string k ++ chCOLON :: Json.write x) ++ tl));
     let '(key, s) := x0 in s ← lift (strip_prefix_char chCOLON (Json.skip_ws s)); Json.parse_value fuel s) = Read (x, tl)) as Hstep.
  { intros tl Htl. rewrite <- app_assoc. replace (Json.skip_ws _) with (Json.write_string k ++ (chCOLON :: Json.write x) ++ tl)
      by (symmetry; by apply skip_ws_head).
    rewrite parse_string_write. cbn [mbind option_bind run_bind lift app]. rewrite skip_ws_head by done.
    rewrite (proj2 (strip_prefix_char_Some _ _ _) eq_refl). cbn [mbind option_bind run_bind lift].
    apply Hx; [done|lia|done]. }
  assert (∀ tl, ends_value tl → Json.parse_fields (S fuel) ((Json.write_string k ++ chCOLON :: Json.write x) ++ tl) =
    match Json.skip_ws tl with
    | c :: rest =>
        if decide (c = chCOMMA) then '(vs, rest) ← Json.parse_fields fuel rest; Read ((k, x) :: vs, rest)
        else if decide (c = 125%N) then Read ([(k, x)], rest) else Refused
    | [] => Refused
    end) as Hfield.
  { intros tl Htl. specialize (Hstep tl Htl). cbn [Json.parse_fields]. revert Hstep.
    rewrite <- app_assoc. replace (Json.skip_ws (Json.write_string k ++ _)) with (Json.write_string k ++ (chCOLON :: Json.write x) ++ tl)
      by (symmetry; by apply skip_ws_head).
    rewrite parse_string_write. cbn [mbind option_bind run_bind lift].
    destruct (strip_prefix_char chCOLON _) as [s2|]; [|done]. cbn [mbind option_bind run_bind lift]. by intros ->. }
  destruct l as [|[k' y] l].
  - change (join_with chCOMMA _) with (Json.write_string k ++ chCOLON :: Json.write x).
    rewrite Hfield by auto. by rewrite skip_ws_head by done.
  - rewrite !fmap_cons, join_cons, <- (app_assoc _ (chCOMMA :: _)), <- app_comm_cons.
    cbn [fst snd]. rewrite Hfield by auto.
    rewrite skip_ws_head by done. rewrite decide_True by done.
    rewrite <- (fmap_cons (λ p, Json.write_string p.1 ++ chCOLON :: Json.write p.2) (k', y)).
    rewrite IH; [done|done|by simpl in *|simpl in *; lia].
Qed.

Lemma write_reads_back j : reads_back j.
Proof.
  induction j as [|b|n|s|items Hall|fields Hall] using Json.t_ind'; intros [|fuel] rest Hwf Hf Hr;
    cbn [need] in Hf; try lia; cbn [Json.parse_value]; rewrite skip_ws_write.
  - done.
  - by destruct b.
  - destruct (write_head (Json.Num n)) as (c & r & E & _). cbn [Json.write] in *.
    pose proof (parse_number_write n rest Hwf Hr) as Hp.
    assert (c = chMINUS ∨ is_ascii_digit c = true) as Hc.
    { unfold show_Z in E. case_decide; [left; congruence|right].
      pose proof (show_N_digits (Z.to_N n)) as Hd. rewrite E in Hd. by inversion Hd. }
    rewrite E in *. cbn [app] in *.
    assert (∀ d, is_ascii_digit d = false → d ≠ chMINUS → c ≠ d) as Hne.
    { intros d Hd Hm ->. destruct Hc; [done|congruence]. }
    rewrite !decide_False by by apply Hne.
    replace ((c =? 45)%N || is_ascii_digit c) with true; [by rewrite Hp|].
    destruct Hc as [-> | ->]; [done|]. by rewrite orb_true_r.
  - cbn [Json.write]. unfold Json.write_string at 1. cbn [app]. rewrite decide_True by done.
    change (34%N :: ((s ≫= Json.write_char) ++ [34%N]) ++ rest) with (Json.write_string s ++ rest).
    by rewrite parse_string_write.
  - cbn [Json.write app]. rewrite !decide_False, decide_True by done.
    destruct items as [|x l]; [done|].
    assert (∃ c r, join_with chCOMMA (Json.write <$> x :: l) = c :: r ∧ Json.is_ws c = false ∧ c ≠ 93%N) as (c & r & E & Hc & Hne).
    { destruct (write_head x) as (c & r & E & Hc & Hne & _). exists c.
      rewrite fmap_cons, E. destruct l; csimpl; eauto. }
    pose proof (items_read_back (x :: l) fuel rest) as Hi. rewrite <- app_assoc, E in *. cbn [app] in *.
    rewrite skip_ws_head by done. simpl strip_prefix_char. rewrite decide_False by done.
    rewrite Hi; [done|done|done|done|lia].
  - cbn [Json.write app]. rewrite decide_False, decide_True by done.
    destruct fields as [|[k x] l]; [done|].
    assert (∃ r, join_with chCOMMA ((λ p, Json.write_string p.1 ++ chCOLON :: Json.write p.2) <$> (k, x) :: l) = 34%N :: r) as [r E].
    { rewrite fmap_cons. destruct l; csimpl; eauto. }
    pose proof (fields_read_back ((k, x) :: l) fuel rest) as Hi. rewrite <- app_assoc, E in *. cbn [app] in *.
    rewrite skip_ws_head by done. simpl strip_prefix_char.
    rewrite Hi; [done|done|done|done|lia].
Qed.

Lemma parse_write (j : Json.t) : wf_json j → Json.parse (Json.write j) = Some j.
Proof.
  intros Hwf. unfold Json.parse. pose proof (skip_ws_write j []) as Hs. rewrite app_nil_r in Hs. rewrite Hs.
  pose proof (parse_fuel_enough (S (2 * length (Json.write j)))) as [He _].
  rewrite (He (S (2 * length (Json.write j)) + need j)%nat) by lia.
  pose proof (write_reads_back j (S (2 * length (Json.write j)) + need j)%nat [] Hwf) as Hr.
  rewrite app_nil_r in Hr. rewrite Hr; [done|lia|done].
Qed.

(** C31. Every value the engine can hold is read back from what it writes: escapes, control
    characters, nesting, empty containers and the whole range of [i64] included, at the
    fuel the parser itself starts with. *)
Theorem json_parse_write (j : Json.t) : wf_json j → Json.parse (Json.write j) = Some j.
Proof. apply parse_write. Qed.

Lemma json_parse_write_witness :
  let j := Json.Object [(lit "k", Json.Array [Json.Num (-5); Json.Str [34; 92; 10; 1; 8364]%N; Json.Null]);
                        (lit "e", Json.Object [])] in
  Json.parse (Json.write j) = Some j.
Proof.
  intros j. apply (json_parse_write j). simpl. unfold i64_min, i64_max. lia.
Defined.

(** ** Termination, and what it does not bound *)

Lemma string_fuel_enough fuel fuel' s :
  (length s < fuel)%nat → (length s < fuel')%nat → Json.string_loop fuel s = Json.string_loop fuel' s.
Proof.
  revert fuel' s. induction fuel as [|fuel IH]; intros [|fuel'] s H1 H2; try lia. cbn [Json.string_loop].
  destruct s as [|c s]; [done|]. cbn [length] in *. repeat case_decide; [done| |].
  - apply run_bind_ext. intros [d s1] Hd%lift_Read%parse_escape_length. by rewrite (IH fuel' s1) by lia.
  - by rewrite (IH fuel' s) by lia.
Qed.

(** C32. The parser comes to an end on every text: with two steps of fuel for each character, which is what [parse]
    starts with, it is never left without, neither a value nor a string on its own; it reads something or refuses.
    More fuel changes neither what is read nor that it is refused, and every value read leaves strictly less to
    read. *)
Theorem json_parser_terminates (s : text) :
  Json.parse_value (S (2 * length s)) (Json.skip_ws s) ≠ Starved
  ∧ Json.string_loop (S (length s)) s ≠ Starved
  ∧ (∀ fuel, (2 * length s < fuel)%nat →
       Json.parse_value fuel (Json.skip_ws s) = Json.parse_value (S (2 * length s)) (Json.skip_ws s)
       ∧ Json.parse s = match Json.parse_value fuel (Json.skip_ws s) with
                        | Read (v, rest) => match Json.skip_ws rest with [] => Some v | _ => None end
                        | _ => None
                        end)
  ∧ (∀ fuel, (length s < fuel)%nat → Json.string_loop fuel s = Json.string_loop (S (length s)) s)
  ∧ ∀ fuel v rest, Json.parse_value fuel s = Read (v, rest) → (length rest < length s)%nat.
Proof.
  pose proof (skip_ws_length s) as Hs. split_and!.
  - apply parse_fed. lia.
  - apply string_fed. lia.
  - intros fuel Hf. unfold Json.parse.
    by rewrite (proj1 (parse_fuel_enough fuel) (S (2 * length s)) (Json.skip_ws s)) by lia.
  - intros fuel Hf. apply string_fuel_enough; lia.
  - intros fuel. apply (parse_length fuel).
Qed.

Lemma json_parser_terminates_witness :
  Json.parse_value 9 (lit "[1]") = Read (Json.Array [Json.Num 1], []) ∧ (0 < 3)%nat.
Proof.
  split; [reflexivity|].
  destruct (json_parser_terminates (lit "[1]")) as (_ & _ & _ & _ & H). apply (H 9%nat (Json.Array [Json.Num 1]) []). reflexivity.
Defined.

(** [n] arrays in an array. *)
Fixpoint nested (n : nat) : Json.t := Json.Array (match n with O => [] | S n => [nested n] end).

Lemma nested_wf n : wf_json (nested n).
Proof. induction n as [|n IH]; [done|]. by split. Qed.
Lemma write_nested n : Json.write (nested n) = replicate (S n) 91%N ++ replicate (S n) 93%N.
Proof.
  induction n as [|n IH]; [done|].
  change (91%N :: Json.write (nested n) ++ [93%N] = replicate (S (S n)) 91%N ++ replicate (S (S n)) 93%N). rewrite IH.
  rewrite (replicate_S_end (S n) 93%N), (assoc_L (++)). done.
Qed.

Lemma open_brackets_need n t fuel : (fuel <= n)%nat → Json.parse_value fuel (replicate (S n) 91%N ++ t) = Starved.
Proof.
  revert fuel. induction n as [|n IH]; intros [|fuel] Hf; [done|lia|done|].
  change (Json.parse_value (S fuel) (replicate (S (S n)) 91%N ++ t)) with
    ('(items, rest) ← Json.parse_items fuel (replicate (S n) 91%N ++ t); Read (Json.Array items, rest)).
  destruct fuel as [|fuel]; [done|]. cbn [Json.parse_items]. by rewrite IH by lia.
Qed.

(** Nothing bounds the nesting: for every [n] the text of [n] arrays in an array, two characters for each, is read,
    and it takes more than [n] calls of the parser one inside the other to do so. The recursion goes as deep as the
    server likes. *)
Theorem json_nesting_is_unbounded (n : nat) :
  Json.parse (replicate (S n) 91%N ++ replicate (S n) 93%N) = Some (nested n)
  ∧ ∀ fuel, (fuel <= n)%nat → Json.parse_value fuel (replicate (S n) 91%N ++ replicate (S n) 93%N) = Starved.
Proof.
  split; [rewrite <- write_nested; apply parse_write, nested_wf|]. intros fuel. apply open_brackets_need.
Qed.

Lemma json_nesting_is_unbounded_witness :
  (1 <= 2)%nat ∧ Json.parse_value 1 (lit "[[[]]]") = Starved ∧ Json.parse (lit "[[[]]]") = Some (nested 2).
Proof.
  destruct (json_nesting_is_unbounded 2) as [H1 H2]. split; [lia|]. split; [apply H2; lia|exact H1].
Defined.
