(* ===== verification/Extensions.v ===== *)
(** * The Obby extensions (src/crates/obby-client/src/extensions.rs)

    Link previews, the command list, invitations and the bot registry with its rule on
    privileged command names. *)
From S2P Require Import Prelude Utf8 Base64 Tags Message Json.

Module LinkPreview.
(* obby-client/src/extensions.rs 20-30 LinkPreview *)
Record t := mk { title : text; snippet : option text; image : option text }.

(** The message a client tag replies to, under either spelling. *)
(* obby-client/src/extensions.rs 40-43 LinkPreview::parse *)
Definition reply_tag (line : Message.t) : option text :=
  match Message.tag line "+reply" with
  | Some msgid => Some msgid
  | None => Message.tag line "+draft/reply"
  end.
(* obby-client/src/extensions.rs 33-56 LinkPreview::parse *)
Definition parse (line : Message.t) : option (text * t) :=
  title ← Message.tag line "obsidianirc/link-preview-title";
  msgid ← reply_tag line;
  Some (msgid, mk title (Message.tag line "obsidianirc/link-preview-snippet")
                  (Message.tag line "obsidianirc/link-preview-meta")).
End LinkPreview.

Module Commands.
(* obby-client/src/extensions.rs 63-69 Commands *)
Definition t := gset text.
(* obby-client/src/extensions.rs 71-75 Commands::new *)
Definition new : t := ∅.

(* obby-client/src/extensions.rs 87-91 Commands::apply *)
Definition apply_token (s : t) (token : text) : t :=
  match strip_prefix_char chPLUS token with
  | Some name => {[ascii_upper name]} ∪ s
  | None =>
      match strip_prefix_char chMINUS token with
      | Some name => s ∖ {[ascii_upper name]}
      | None => s
      end
  end.
(* obby-client/src/extensions.rs 77-93 Commands::apply *)
Definition apply (line : Message.t) (s : t) : t :=
  foldl apply_token s (Message.params line ≫= split_whitespace).

(* obby-client/src/extensions.rs 95-98 Commands::contains *)
Definition contains (s : t) (name : text) : bool := bool_decide (ascii_upper name ∈ s).
(* obby-client/src/extensions.rs 100-103 Commands::iter *)
Definition iter (s : t) : list text := sorted_elements s.
End Commands.

Module Invitation.
(* obby-client/src/extensions.rs 116-133 Invitation *)
Record t := mk {
  share_id : text;
  channel : option text;
  url : text;
  created : option text;
  redeemed : Z;
  description : option text;
}.

(* obby-client/src/extensions.rs 174-177 channel_or_network *)
Definition channel_or_network (value : text) : option text :=
  if decide (value = "*") then None else Some value.

(* obby-client/src/extensions.rs 136-152 Invitation::parse_created *)
Definition parse_created (line : Message.t) : option t :=
  share_id ← Message.param line 0;
  if eq_ignore_ascii_case share_id "ENTRY" then None
  else
    channel ← Message.param line 1; url ← Message.param line 2;
    Some (mk share_id (channel_or_network channel) url None 0 None).

(* obby-client/src/extensions.rs 154-171 Invitation::parse_entry *)
Definition parse_entry (line : Message.t) : option t :=
  first ← Message.param line 0;
  if negb (eq_ignore_ascii_case first "ENTRY") then None
  else
    share_id ← Message.param line 1; channel ← Message.param line 2;
    created ← Message.param line 3; url ← Message.param line 5;
    Some (mk share_id (channel_or_network channel) url (Some created)
            (default 0 (n ← Message.param line 4; parse_u32 n)) (Message.param line 6)).
End Invitation.

Module Bots.
(* obby-client/src/extensions.rs 197-206 BotCommand *)
Record BotCommand := mkCommand { name : text; description : option text }.
(* obby-client/src/extensions.rs 179-195 Bot *)
Record Bot := mkBot { nick : text; id : option text; from_config : bool; commands : list BotCommand }.

(* obby-client/src/extensions.rs 208-214 PRIVILEGED_COMMANDS *)
Definition PRIVILEGED_COMMANDS : list text := lit <$> [
  "oper"; "identify"; "nickserv"; "chanserv"; "ns"; "cs"; "register"; "pass"; "auth"; "login"]%string.
(* obby-client/src/extensions.rs 216-223 BOT_INFO_TAG *)
Definition BOT_INFO_TAG : text := "obby.world/bot-info".
Definition BOT_COMMANDS_TAG : text := "+draft/bot-cmds".

(* obby-client/src/extensions.rs 361-366 is_privileged *)
Definition is_privileged (n : text) : bool :=
  existsb (λ reserved, eq_ignore_ascii_case n reserved) PRIVILEGED_COMMANDS.

(* obby-client/src/extensions.rs 225-235 BotInfo *)
Record BotInfo := mkInfo { removed : bool; bot : Bot; info_commands : list BotCommand }.

(* obby-client/src/extensions.rs 263-269 decode_tag_json *)
Definition decode_tag_json `{Base64} (payload : text) : option Json.t :=
  bytes ← decode64 payload; s ← from_utf8 bytes; Json.parse s.

(* obby-client/src/extensions.rs 271-285 bot_commands *)
Definition bot_commands (value : Json.t) : list BotCommand :=
  omap (λ command, n ← Json.field_string command "name";
          Some (mkCommand n (Json.field_string command "description")))
    (default [] (v ← Json.field value "commands"; Json.as_array v)).

(* obby-client/src/extensions.rs 237-253 BotInfo::decode *)
Definition decode `{Base64} (payload : text) : option BotInfo :=
  value ← decode_tag_json payload;
  nick ← Json.field_string value "nick";
  Some (mkInfo (bool_decide (Json.field_string value "event" = Some (lit "remove")))
          (mkBot nick (Json.field_string value "bot_id")
             (match Json.field value "from_config" with Some (Json.Bool true) => true | _ => false end) [])
          (bot_commands value)).

(* obby-client/src/extensions.rs 255-261 decode_bot_commands *)
Definition decode_bot_commands `{Base64} (payload : text) : option (list BotCommand) :=
  bot_commands <$> decode_tag_json payload.

(* obby-client/src/extensions.rs 287-294 Bots *)
Definition t := gmap text Bot.
(* obby-client/src/extensions.rs 296-300 Bots::new *)
Definition new : t := ∅.
(* obby-client/src/extensions.rs 302-305 Bots::insert *)
Definition insert (key : text) (b : Bot) (s : t) : t := <[key := b]> s.
(* obby-client/src/extensions.rs 307-310 Bots::remove *)
Definition remove (key : text) (s : t) : option Bot * t := (s !! key, delete key s).
(* obby-client/src/extensions.rs 312-318 Bots::forget *)
Definition forget (s : t) : t := ∅.
(* obby-client/src/extensions.rs 320-323 Bots::get *)
Definition get (s : t) (key : text) : option Bot := s !! key.

(* obby-client/src/extensions.rs 340-358 Bots::set_commands *)
Definition set_commands (key : text) (cmds : list BotCommand) (s : t) : bool * t :=
  match s !! key with
  | None => (false, s)
  | Some b =>
      let cmds := if from_config b then cmds
                  else filter (λ c, is_privileged (name c) = false) cmds in
      (true, <[key := mkBot (nick b) (id b) (from_config b) cmds]> s)
  end.
End Bots.

(** ** The command list *)

(** What one token says about a command: granted, withdrawn, or nothing. *)
Definition token_says (name token : text) : option bool :=
  match strip_prefix_char chPLUS token with
  | Some n => if decide (ascii_upper n = ascii_upper name) then Some true else None
  | None =>
      match strip_prefix_char chMINUS token with
      | Some n => if decide (ascii_upper n = ascii_upper name) then Some false else None
      | None => None
      end
  end.

(** Over any number of lines, a command is available exactly when the last token that
    named it, in whatever case, granted it; a token for another command never matters. *)
Theorem commands_last_token_wins (lines : list Message.t) (name : text) :
  Commands.contains (foldl (λ s line, Commands.apply line s) Commands.new lines) name =
  default false (last (omap (token_says name) (lines ≫= λ line, Message.params line ≫= split_whitespace))).
Proof.
  assert (∀ tokens s, ascii_upper name ∈ foldl Commands.apply_token s tokens ↔
    match last (omap (token_says name) tokens) with Some b => b = true | None => ascii_upper name ∈ s end) as Htok.
  { intros tokens s. induction tokens as [|t tokens IH] using rev_ind; [done|].
    rewrite foldl_app, omap_app, last_app. cbn [foldl omap list_omap]. revert IH.
    generalize (foldl Commands.apply_token s tokens). intros s' IH.
    unfold token_says at 1, Commands.apply_token.
    destruct (strip_prefix_char chPLUS t) as [n|].
    - case_decide as E; simpl; [rewrite E; set_solver|]. rewrite <- IH.
      rewrite elem_of_union, elem_of_singleton. clear IH. naive_solver.
    - destruct (strip_prefix_char chMINUS t) as [n|]; [|by simpl].
      case_decide as E; simpl; [rewrite E; set_solver|]. rewrite <- IH.
      rewrite elem_of_difference, elem_of_singleton. clear IH. naive_solver. }
  assert (∀ s, foldl (λ s line, Commands.apply line s) s lines =
    foldl Commands.apply_token s (lines ≫= λ line, Message.params line ≫= split_whitespace)) as Hfold.
  { induction lines as [|l lines IH]; intros s; [done|]. cbn [foldl]. rewrite IH.
    change ((l :: lines) ≫= ?f) with (f l ++ (lines ≫= f)). by rewrite foldl_app. }
  unfold Commands.contains. rewrite Hfold. unfold Commands.new.
  specialize (Htok (lines ≫= λ line, Message.params line ≫= split_whitespace) ∅).
  destruct (last _) as [[]|]; simpl; [by apply bool_decide_eq_true, Htok|..];
    apply bool_decide_eq_false; rewrite Htok; [done|set_solver].
Qed.

(** ** Privileged names *)

(** No bot that registered itself holds a privileged command. *)
Definition unprivileged (s : Bots.t) : Prop :=
  map_Forall (λ _ b, Bots.from_config b = false →
    Forall (λ c, Bots.is_privileged (Bots.name c) = false) (Bots.commands b)) s.

Lemma set_commands_unprivileged key cmds s : unprivileged s → unprivileged (Bots.set_commands key cmds s).2.
Proof.
  intros Hs. unfold Bots.set_commands. destruct (s !! key) as [b|]; [|done].
  apply map_Forall_insert_2; [|done]. simpl. intros ->.
  apply Forall_forall. by intros c [Hc _]%list_elem_of_filter.
Qed.

Lemma insert_unprivileged key b s : Bots.commands b = [] → unprivileged s → unprivileged (Bots.insert key b s).
Proof. intros Hb Hs. apply map_Forall_insert_2; [|done]. intros _. by rewrite Hb. Qed.

Lemma decode_no_commands `{Base64} payload info :
  Bots.decode payload = Some info → Bots.commands (Bots.bot info) = [].
Proof. unfold Bots.decode. intros (v & _ & (n & _ & [= <-])%bind_Some)%bind_Some. done. Qed.

(** The events that reach the registry: an announcement, decoded from its tag, a
    command list from some nick, and a dropped link. *)
Inductive bot_event := Announce (key payload : text) | CommandList (key payload : text) | Dropped.
Definition bot_step `{Base64} (s : Bots.t) (e : bot_event) : Bots.t :=
  match e with
  | Announce key payload =>
      match Bots.decode payload with
      | None => s
      | Some info =>
          if Bots.removed info then (Bots.remove key s).2
          else (Bots.set_commands key (Bots.info_commands info) (Bots.insert key (Bots.bot info) s)).2
      end
  | CommandList key payload =>
      match Bots.decode_bot_commands payload with
      | None => s
      | Some cmds => (Bots.set_commands key cmds s).2
      end
  | Dropped => Bots.forget s
  end.

(** Whatever announcements and command lists arrive, whatever JSON they carry, a bot no
    operator configured never offers a name that collects passwords or impersonates a
    service, in any spelling; and a nick that was never announced offers nothing. *)
Theorem bots_never_privileged `{Base64} (events : list bot_event) :
  let s := foldl bot_step Bots.new events in
  unprivileged s
  ∧ ∀ key cmds, Bots.get s key = None → Bots.set_commands key cmds s = (false, s).
Proof.
  cbv zeta. split.
  - induction events as [|e events IH] using rev_ind; [apply map_Forall_empty|].
    rewrite foldl_app. cbn [foldl]. destruct e as [key payload|key payload|]; cbn [bot_step].
    + destruct (Bots.decode payload) as [info|] eqn:E; [|done].
      destruct (Bots.removed info); [by apply map_Forall_delete|].
      apply set_commands_unprivileged, insert_unprivileged; [by eapply decode_no_commands|done].
    + destruct (Bots.decode_bot_commands payload); [|done]. by apply set_commands_unprivileged.
    + apply map_Forall_empty.
  - intros key cmds Hn. unfold Bots.set_commands. unfold Bots.get in Hn. by rewrite Hn.
Qed.
