(* ===== verification/Model.v ===== *)
(** * The client model (src/crates/obby-client/src/model.rs)

    [Log] is the ordered, bounded and deduplicated message log; [Members] the prefixes
    one member holds; [Model] everything the connection knows. A [&mut] the source hands
    out is an update function here: [Log.alter] for [get_mut], [Model.alter_channel] for
    [channel_mut], and so on. *)
From S2P Require Import Prelude Casemap Isupport Extensions.

(* obby-client/src/model.rs 11-22 constants *)
Definition DEFAULT_RETENTION : nat := 5000.
Definition MAX_WHOIS_RECORDS : nat := 64.

(* obby-client/src/model.rs 24-39 MessageKey *)
Definition MessageKey : Type := Z * Z.
Definition time_ms (k : MessageKey) : Z := k.1.
Definition seq_no (k : MessageKey) : Z := k.2.

Module MessageKind.
(* obby-client/src/model.rs 41-79 MessageKind *)
Inductive t :=
  | Privmsg | Notice | Ctcp (command : text) | Tagmsg | Join | Part | Quit
  | Kick (target : text) | Nick (new_nick : text) | Topic | Mode.
#[global] Instance t_eq_dec : EqDecision t.
Proof. solve_decision. Defined.
End MessageKind.

Module Chat.
(* obby-client/src/model.rs 81-116 ChatMessage *)
Record t := mk {
  key : MessageKey;
  msgid : option text;
  sender : text;
  kind : MessageKind.t;
  text_ : text;
  account : option text;
  historical : bool;
  own : bool;
  reply_to : option text;
  reactions : gmap text (list text);
  link_preview : option LinkPreview.t;
  redacted : bool;
}.
(* obby-client/src/model.rs 118-137 ChatMessage::new *)
Definition new (key : MessageKey) (sender : text) (kind : MessageKind.t) : t :=
  mk key None sender kind [] None false false None ∅ None false.

Definition set_reactions (r : gmap text (list text)) (m : t) : t :=
  mk (key m) (msgid m) (sender m) (kind m) (text_ m) (account m) (historical m) (own m)
     (reply_to m) r (link_preview m) (redacted m).
Definition set_link_preview (p : option LinkPreview.t) (m : t) : t :=
  mk (key m) (msgid m) (sender m) (kind m) (text_ m) (account m) (historical m) (own m)
     (reply_to m) (reactions m) p (redacted m).
Definition set_redacted (b : bool) (m : t) : t :=
  mk (key m) (msgid m) (sender m) (kind m) (text_ m) (account m) (historical m) (own m)
     (reply_to m) (reactions m) (link_preview m) b.
End Chat.

Module Log.
(* obby-client/src/model.rs 139-150 MessageLog *)
Record t := mk {
  messages : gmap MessageKey Chat.t;
  by_msgid : gmap text MessageKey;
  retention : nat;
}.

(* obby-client/src/model.rs 187-194 MessageLog::with_retention *)
Definition with_retention (retention : nat) : t := mk ∅ ∅ (Nat.max retention 1).
(* obby-client/src/model.rs 180-184 Default for MessageLog *)
Definition default : t := with_retention DEFAULT_RETENTION.

(** The range is from [(t, 0)] up to, and without, [(t + 1, 0)], where [t + 1]
    saturates. *)
(* obby-client/src/model.rs 217-230 MessageLog::has_twin *)
Definition has_twin (candidate : Chat.t) (log : t) : bool :=
  let t0 := time_ms (Chat.key candidate) in
  bool_decide (Exists (λ p,
      (t0 < time_ms p.1 ∨ (t0 = time_ms p.1 ∧ 0 <= seq_no p.1))
      ∧ time_ms p.1 < saturating_add_u64 t0 1
      ∧ Chat.sender p.2 = Chat.sender candidate ∧ Chat.text_ p.2 = Chat.text_ candidate
      ∧ Chat.kind p.2 = Chat.kind candidate)
    (sorted_items (messages log))).

(** [BTreeMap::pop_first], and the id of what it dropped is forgotten. *)
(* obby-client/src/model.rs 234-239 MessageLog::trim *)
Definition pop_first (log : t) : t :=
  match first_item (messages log) with
  | None => log
  | Some (k, dropped) =>
      mk (delete k (messages log))
         (match Chat.msgid dropped with Some id => delete id (by_msgid log) | None => by_msgid log end)
         (retention log)
  end.
(* obby-client/src/model.rs 232-241 MessageLog::trim *)
Fixpoint trim_loop (fuel : nat) (log : t) : t :=
  match fuel with
  | O => log
  | S fuel =>
      if decide (retention log < size (messages log))%nat
      then trim_loop fuel (pop_first log) else log
  end.
Definition trim (log : t) : t := trim_loop (size (messages log)) log.

(* obby-client/src/model.rs 196-215 MessageLog::insert *)
Definition insert (message : Chat.t) (log : t) : bool * t :=
  let known :=
    match Chat.msgid message with
    | Some msgid => bool_decide (is_Some (by_msgid log !! msgid))
    | None => has_twin message log
    end in
  if known then (false, log)
  else
    (true, trim (mk (<[Chat.key message := message]> (messages log))
             (match Chat.msgid message with
              | Some msgid => <[msgid := Chat.key message]> (by_msgid log)
              | None => by_msgid log
              end) (retention log))).

(* obby-client/src/model.rs 243-246 MessageLog::contains *)
Definition contains (log : t) (msgid : text) : bool := bool_decide (is_Some (by_msgid log !! msgid)).
(* obby-client/src/model.rs 248-251 MessageLog::get *)
Definition get (log : t) (msgid : text) : option Chat.t := k ← by_msgid log !! msgid; messages log !! k.
(* obby-client/src/model.rs 253-257 MessageLog::get_mut *)
Definition alter (msgid : text) (f : Chat.t → Chat.t) (log : t) : t :=
  match by_msgid log !! msgid with
  | Some k => mk (base.alter f k (messages log)) (by_msgid log) (retention log)
  | None => log
  end.
(* obby-client/src/model.rs 259-265 MessageLog::get_by_key *)
Definition get_by_key (log : t) (k : MessageKey) : option Chat.t := messages log !! k.
(* obby-client/src/model.rs 267-270 MessageLog::iter *)
Definition iter (log : t) : list Chat.t := (sorted_items (messages log)).*2.
(* obby-client/src/model.rs 272-275 MessageLog::last *)
Definition last (log : t) : option Chat.t := snd <$> last_item (messages log).
(* obby-client/src/model.rs 277-280 MessageLog::first *)
Definition first (log : t) : option Chat.t := snd <$> first_item (messages log).
(* obby-client/src/model.rs 282-290 MessageLog::len *)
Definition len (log : t) : nat := size (messages log).

(** What serde carries in place of the map, whose keys JSON cannot spell. *)
(* obby-client/src/model.rs 163-168 messages_as_list::serialize *)
Definition serialize (messages : gmap MessageKey Chat.t) : list Chat.t := (sorted_items messages).*2.
(* obby-client/src/model.rs 170-177 messages_as_list::deserialize *)
Definition deserialize (messages : list Chat.t) : gmap MessageKey Chat.t :=
  foldl (λ held message, <[Chat.key message := message]> held) ∅ messages.
End Log.

Module Membership.
(* obby-client/src/model.rs 302-313 Membership *)
Definition t := text.
(* obby-client/src/model.rs 316-319 Membership::top_prefix *)
Definition top_prefix (m : t) : option char := head m.
(** A character the server does not rank goes last, at [usize::MAX]. *)
Definition rank_key (order : Prefix.t) (c : char) : Z :=
  match Prefix.rank order c with Some i => Z.of_nat i | None => u64_max end.
(* obby-client/src/model.rs 321-330 Membership::grant *)
Definition grant (prefix : char) (order : Prefix.t) (m : t) : t :=
  if contains_char prefix m then m else sort_by_key (rank_key order) (m ++ [prefix]).
(* obby-client/src/model.rs 332-335 Membership::revoke *)
Definition revoke (prefix : char) (m : t) : t := filter (λ c, c ≠ prefix) (m : text).
End Membership.

Module Person.
(* obby-client/src/model.rs 338-364 Person *)
Record t := mk {
  nick : text; account : option text; away : option text; bot : bool;
  username : option text; host : option text; realname : option text;
  operator : bool; metadata : gmap text text;
}.
Definition default : t := mk [] None None false None None None false ∅.
Definition named (nick : text) : t := mk nick None None false None None None false ∅.
Definition set_nick (n : text) (p : t) : t :=
  mk n (account p) (away p) (bot p) (username p) (host p) (realname p) (operator p) (metadata p).
Definition set_account (a : option text) (p : t) : t :=
  mk (nick p) a (away p) (bot p) (username p) (host p) (realname p) (operator p) (metadata p).
Definition set_away (a : option text) (p : t) : t :=
  mk (nick p) (account p) a (bot p) (username p) (host p) (realname p) (operator p) (metadata p).
Definition set_metadata (md : gmap text text) (p : t) : t :=
  mk (nick p) (account p) (away p) (bot p) (username p) (host p) (realname p) (operator p) md.
End Person.

Module Whois.
(* obby-client/src/model.rs 366-405 Whois *)
Record t := mk {
  nick : text; username : option text; host : option text; realname : option text;
  server : option text; server_info : option text; operator : option text;
  idle_secs : option Z; signon_ms : option Z; channels : list text;
  account : option text; actual_host : option text; secure : bool; complete : bool;
}.
Definition named (nick : text) : t :=
  mk nick None None None None None None None None [] None None false false.
Definition default : t := named [].
End Whois.

Module Channel.
(* obby-client/src/model.rs 407-443 Channel *)
Record t := mk {
  name : text; topic : option text; topic_by : option text;
  modes : gmap char (option text); members : gmap CaseFolded Membership.t; log : Log.t;
  unread : Z; mentions : Z; metadata : gmap text text; read_marker : option text;
  typing : gset CaseFolded; named_modes : gmap text (option text);
}.
(** [Channel::default()] under a name and with a log of its own. *)
Definition named (name : text) (log : Log.t) : t := mk name None None ∅ ∅ log 0 0 ∅ None ∅ ∅.
Definition set_name (x : text) (c : t) : t :=
  mk x (topic c) (topic_by c) (modes c) (members c) (log c) (unread c) (mentions c) (metadata c)
     (read_marker c) (typing c) (named_modes c).
Definition set_topic (x : option text) (c : t) : t :=
  mk (name c) x (topic_by c) (modes c) (members c) (log c) (unread c) (mentions c) (metadata c)
     (read_marker c) (typing c) (named_modes c).
Definition set_topic_by (x : option text) (c : t) : t :=
  mk (name c) (topic c) x (modes c) (members c) (log c) (unread c) (mentions c) (metadata c)
     (read_marker c) (typing c) (named_modes c).
Definition set_modes (x : gmap char (option text)) (c : t) : t :=
  mk (name c) (topic c) (topic_by c) x (members c) (log c) (unread c) (mentions c) (metadata c)
     (read_marker c) (typing c) (named_modes c).
Definition set_members (x : gmap CaseFolded Membership.t) (c : t) : t :=
  mk (name c) (topic c) (topic_by c) (modes c) x (log c) (unread c) (mentions c) (metadata c)
     (read_marker c) (typing c) (named_modes c).
Definition set_log (x : Log.t) (c : t) : t :=
  mk (name c) (topic c) (topic_by c) (modes c) (members c) x (unread c) (mentions c) (metadata c)
     (read_marker c) (typing c) (named_modes c).
Definition set_counts (u m : Z) (c : t) : t :=
  mk (name c) (topic c) (topic_by c) (modes c) (members c) (log c) u m (metadata c)
     (read_marker c) (typing c) (named_modes c).
Definition set_metadata (x : gmap text text) (c : t) : t :=
  mk (name c) (topic c) (topic_by c) (modes c) (members c) (log c) (unread c) (mentions c) x
     (read_marker c) (typing c) (named_modes c).
Definition set_read_marker (x : option text) (c : t) : t :=
  mk (name c) (topic c) (topic_by c) (modes c) (members c) (log c) (unread c) (mentions c) (metadata c)
     x (typing c) (named_modes c).
Definition set_typing (x : gset CaseFolded) (c : t) : t :=
  mk (name c) (topic c) (topic_by c) (modes c) (members c) (log c) (unread c) (mentions c) (metadata c)
     (read_marker c) x (named_modes c).
Definition set_named_modes (x : gmap text (option text)) (c : t) : t :=
  mk (name c) (topic c) (topic_by c) (modes c) (members c) (log c) (unread c) (mentions c) (metadata c)
     (read_marker c) (typing c) x.
End Channel.

Module Conversation.
(* obby-client/src/model.rs 445-461 Conversation *)
Record t := mk {
  nick : text; log : Log.t; unread : Z; read_marker : option text; typing : gset CaseFolded;
}.
Definition named (nick : text) (log : Log.t) : t := mk nick log 0 None ∅.
Definition set_nick (x : text) (q : t) : t := mk x (log q) (unread q) (read_marker q) (typing q).
Definition set_log (x : Log.t) (q : t) : t := mk (nick q) x (unread q) (read_marker q) (typing q).
Definition set_unread (x : Z) (q : t) : t := mk (nick q) (log q) x (read_marker q) (typing q).
Definition set_read_marker (x : option text) (q : t) : t := mk (nick q) (log q) (unread q) x (typing q).
Definition set_typing (x : gset CaseFolded) (q : t) : t := mk (nick q) (log q) (unread q) (read_marker q) x.
End Conversation.

Module LocalUser.
(* obby-client/src/model.rs 463-482 LocalUser *)
Record t := mk {
  nick : text; account : option text; modes : text; metadata : gmap text text; away : option text;
}.
Definition default : t := mk [] None [] ∅ None.
Definition set_nick (x : text) (u : t) : t := mk x (account u) (modes u) (metadata u) (away u).
Definition set_account (x : option text) (u : t) : t := mk (nick u) x (modes u) (metadata u) (away u).
Definition set_modes (x : text) (u : t) : t := mk (nick u) (account u) x (metadata u) (away u).
Definition set_metadata (x : gmap text text) (u : t) : t := mk (nick u) (account u) (modes u) x (away u).
Definition set_away (x : option text) (u : t) : t := mk (nick u) (account u) (modes u) (metadata u) x.
End LocalUser.

Module Model.
(* obby-client/src/model.rs 484-498 Model *)
Record t := mk {
  me : LocalUser.t;
  channels : gmap CaseFolded Channel.t;
  conversations : gmap CaseFolded Conversation.t;
  people : gmap CaseFolded Person.t;
  whois : gmap CaseFolded Whois.t;
  retention : nat;
  next_seq : Z;
}.
Definition set_me (x : LocalUser.t) (m : t) : t :=
  mk x (channels m) (conversations m) (people m) (whois m) (retention m) (next_seq m).
Definition set_channels (x : gmap CaseFolded Channel.t) (m : t) : t :=
  mk (me m) x (conversations m) (people m) (whois m) (retention m) (next_seq m).
Definition set_conversations (x : gmap CaseFolded Conversation.t) (m : t) : t :=
  mk (me m) (channels m) x (people m) (whois m) (retention m) (next_seq m).
Definition set_people (x : gmap CaseFolded Person.t) (m : t) : t :=
  mk (me m) (channels m) (conversations m) x (whois m) (retention m) (next_seq m).
Definition set_whois (x : gmap CaseFolded Whois.t) (m : t) : t :=
  mk (me m) (channels m) (conversations m) (people m) x (retention m) (next_seq m).

(* obby-client/src/model.rs 507-518 Model::with_retention *)
Definition with_retention (retention : nat) : t := mk LocalUser.default ∅ ∅ ∅ ∅ (Nat.max retention 1) 0.
(* obby-client/src/model.rs 500-504 Default for Model *)
Definition default : t := with_retention DEFAULT_RETENTION.

(* obby-client/src/model.rs 520-525 Model::next_message_key *)
Definition next_message_key (time : Z) (m : t) : MessageKey * t :=
  ((time, next_seq m),
   mk (me m) (channels m) (conversations m) (people m) (whois m) (retention m)
      (wrapping_add_u64 (next_seq m) 1)).

(* obby-client/src/model.rs 527-530 Model::channel *)
Definition channel (m : t) (key : CaseFolded) : option Channel.t := channels m !! key.
(* obby-client/src/model.rs 532-540 Model::channel_or_insert *)
Definition channel_or_insert (key : CaseFolded) (name : text) (m : t) : t :=
  match channels m !! key with
  | Some _ => m
  | None => set_channels (<[key := Channel.named name (Log.with_retention (retention m))]> (channels m)) m
  end.
(* obby-client/src/model.rs 547-550 Model::channel_mut *)
Definition alter_channel (key : CaseFolded) (f : Channel.t → Channel.t) (m : t) : t :=
  set_channels (alter f key (channels m)) m.
(* obby-client/src/model.rs 552-555 Model::remove_channel *)
Definition remove_channel (key : CaseFolded) (m : t) : t := set_channels (delete key (channels m)) m.

(* obby-client/src/model.rs 562-565 Model::conversation *)
Definition conversation (m : t) (key : CaseFolded) : option Conversation.t := conversations m !! key.
(* obby-client/src/model.rs 567-577 Model::conversation_or_insert *)
Definition conversation_or_insert (key : CaseFolded) (nick : text) (m : t) : t :=
  match conversations m !! key with
  | Some _ => m
  | None =>
      set_conversations
        (<[key := Conversation.named nick (Log.with_retention (retention m))]> (conversations m)) m
  end.
(* obby-client/src/model.rs 660-663 Model::conversation_mut *)
Definition alter_conversation (key : CaseFolded) (f : Conversation.t → Conversation.t) (m : t) : t :=
  set_conversations (alter f key (conversations m)) m.

(** [BTreeSet::insert] or [remove], with what it returns. *)
Definition toggle_typing (who : CaseFolded) (typing : bool) (s : gset CaseFolded) : bool * gset CaseFolded :=
  if typing then (bool_decide (who ∉ s), {[who]} ∪ s) else (bool_decide (who ∈ s), s ∖ {[who]}).
(* obby-client/src/model.rs 579-596 Model::set_typing *)
Definition set_typing (target who : CaseFolded) (typing : bool) (m : t) : bool * t :=
  match channels m !! target with
  | Some c =>
      let '(changed, s) := toggle_typing who typing (Channel.typing c) in
      (changed, alter_channel target (Channel.set_typing s) m)
  | None =>
      match conversations m !! target with
      | Some q =>
          let '(changed, s) := toggle_typing who typing (Conversation.typing q) in
          (changed, alter_conversation target (Conversation.set_typing s) m)
      | None => (false, m)
      end
  end.

(* obby-client/src/model.rs 598-601 Model::person *)
Definition person (m : t) (key : CaseFolded) : option Person.t := people m !! key.
(* obby-client/src/model.rs 603-609 Model::person_or_insert *)
Definition person_or_insert (key : CaseFolded) (nick : text) (m : t) : t :=
  match people m !! key with
  | Some _ => m
  | None => set_people (<[key := Person.named nick]> (people m)) m
  end.
(* obby-client/src/model.rs 611-614 Model::person_mut *)
Definition alter_person (key : CaseFolded) (f : Person.t → Person.t) (m : t) : t :=
  set_people (alter f key (people m)) m.

(** The record that makes room: the first complete one in key order, or the first. *)
(* obby-client/src/model.rs 630-635 Model::whois_or_insert *)
Definition stale_whois (w : gmap CaseFolded Whois.t) : option CaseFolded :=
  match list_find (λ p, Whois.complete p.2 = true) (sorted_items w) with
  | Some (_, (k, _)) => Some k
  | None => fst <$> first_item w
  end.
(* obby-client/src/model.rs 621-648 Model::whois_or_insert *)
Definition whois_or_insert (key : CaseFolded) (nick : text) (m : t) : t :=
  let w := whois m in
  let w :=
    if decide ((MAX_WHOIS_RECORDS <= size w)%nat ∧ w !! key = None) then
      match stale_whois w with Some stale => delete stale w | None => w end
    else w in
  let record := option.default Whois.default (w !! key) in
  let record :=
    if Whois.complete record || bool_decide (Whois.nick record = []) then Whois.named nick else record in
  set_whois (<[key := record]> w) m.
(* obby-client/src/model.rs 655-658 Model::whois_mut *)
Definition alter_whois (key : CaseFolded) (f : Whois.t → Whois.t) (m : t) : t :=
  set_whois (alter f key (whois m)) m.

(** Move an entry of a map to another key. *)
(* obby-client/src/model.rs 678-680 Model::rename *)
Definition move {V} (old new : CaseFolded) (f : V → V) (s : gmap CaseFolded V) : gmap CaseFolded V :=
  match s !! old with
  | Some v => <[new := f v]> (delete old s)
  | None => s
  end.
(* obby-client/src/model.rs 670-693 Model::rename *)
Definition rename (casemapping : Casemapping.t) (from to : text) (m : t) : t :=
  let old := Casemapping.fold casemapping from in
  let new := Casemapping.fold casemapping to in
  mk (if Casemapping.eq casemapping (LocalUser.nick (me m)) from
      then LocalUser.set_nick to (me m) else me m)
     ((λ c, Channel.set_members (move old new id (Channel.members c)) c) <$> channels m)
     (move old new (Conversation.set_nick to) (conversations m))
     (move old new (Person.set_nick to) (people m))
     (whois m) (retention m) (next_seq m).

(* obby-client/src/model.rs 695-706 Model::rename_channel *)
Definition rename_channel (casemapping : Casemapping.t) (from to : text) (m : t) : bool * t :=
  match channels m !! Casemapping.fold casemapping from with
  | None => (false, m)
  | Some c =>
      (true, set_channels (<[Casemapping.fold casemapping to := Channel.set_name to c]>
               (delete (Casemapping.fold casemapping from) (channels m))) m)
  end.

(** Everyone we share a channel or a conversation with. *)
(* obby-client/src/model.rs 713-717 Model::forget_strangers *)
Definition known_keys (m : t) : gset CaseFolded :=
  dom (conversations m) ∪ map_fold (λ _ c s, dom (Channel.members c) ∪ s) ∅ (channels m).
(* obby-client/src/model.rs 708-722 Model::forget_strangers *)
Definition forget_strangers (m : t) : t :=
  let keep := known_keys m in
  set_whois (filter (λ p, p.1 ∈ keep) (whois m))
    (set_people (filter (λ p, p.1 ∈ keep ∨ Person.nick p.2 = LocalUser.nick (me m)) (people m)) m).

(* obby-client/src/model.rs 724-730 Model::forget_whois *)
Definition forget_whois (m : t) : t := set_whois ∅ m.

(* obby-client/src/model.rs 732-741 Model::remove_everywhere *)
Definition remove_everywhere (who : CaseFolded) (m : t) : list CaseFolded * t :=
  ((filter (λ p, is_Some (Channel.members p.2 !! who)) (sorted_items (channels m))).*1,
   set_channels ((λ c, Channel.set_members (delete who (Channel.members c)) c) <$> channels m) m).
End Model.

(** ** The message log *)

(** The log within its bound, with the two maps in step: a message sits under its own
    key, and an id is indexed exactly when some message held carries it. *)
Record wf_log (log : Log.t) : Prop := {
  log_retention : (1 <= Log.retention log)%nat;
  log_bounded : (size (Log.messages log) <= Log.retention log)%nat;
  log_keyed : ∀ k m, Log.messages log !! k = Some m → Chat.key m = k;
  log_indexed : ∀ id k, Log.by_msgid log !! id = Some k ↔
    ∃ m, Log.messages log !! k = Some m ∧ Chat.msgid m = Some id;
}.

Lemma wf_log_with_retention n : wf_log (Log.with_retention n).
Proof.
  split; simpl; [lia|rewrite map_size_empty; lia|..].
  - intros k m H. by apply lookup_empty_Some in H.
  - intros id k. split; [intros H; by apply lookup_empty_Some in H|].
    intros (m & H & _). by apply lookup_empty_Some in H.
Qed.

(** The invariant without its bound, which [insert] leaves for [trim] to restore. *)
Record log_in_step (log : Log.t) : Prop := {
  step_keyed : ∀ k m, Log.messages log !! k = Some m → Chat.key m = k;
  step_indexed : ∀ id k, Log.by_msgid log !! id = Some k ↔
    ∃ m, Log.messages log !! k = Some m ∧ Chat.msgid m = Some id;
}.

Lemma pop_first_step log : log_in_step log → log_in_step (Log.pop_first log).
Proof.
  intros [Hk Hi]. unfold Log.pop_first. destruct (first_item (Log.messages log)) as [[k m]|] eqn:E; [|done].
  apply first_item_Some in E as [Hm _]. split; simpl.
  - intros k' m' [_ H]%lookup_delete_Some. by apply Hk.
  - intros id k'. destruct (Chat.msgid m) as [id0|] eqn:Em.
    + rewrite lookup_delete_Some, Hi. split.
      * intros [Hne (m' & Hm' & Hid)]. exists m'. split; [|done]. rewrite lookup_delete_ne; [done|].
        intros <-. simplify_eq.
      * intros (m' & [Hne Hm']%lookup_delete_Some & Hid). split; [|eauto]. intros <-.
        assert (Log.by_msgid log !! id0 = Some k) as H1 by (apply Hi; eauto).
        assert (Log.by_msgid log !! id0 = Some k') as H2 by (apply Hi; eauto). simplify_eq.
    + rewrite Hi. split; intros (m' & Hm' & Hid); exists m'; (split; [|done]).
      * rewrite lookup_delete_ne; [done|]. intros <-. simplify_eq.
      * by apply lookup_delete_Some in Hm' as [_ ?].
Qed.

Lemma pop_first_size log :
  size (Log.messages (Log.pop_first log)) = pred (size (Log.messages log))
  ∧ Log.retention (Log.pop_first log) = Log.retention log.
Proof.
  unfold Log.pop_first. destruct (first_item (Log.messages log)) as [[k m]|] eqn:E; simpl.
  - apply first_item_Some in E as [Hm _]. by rewrite map_size_delete, Hm.
  - apply first_item_None in E. by rewrite E, map_size_empty.
Qed.

Lemma trim_loop_spec fuel log :
  log_in_step log → (1 <= Log.retention log)%nat →
  (size (Log.messages log) <= fuel + Log.retention log)%nat → wf_log (Log.trim_loop fuel log).
Proof.
  revert log. induction fuel as [|fuel IH]; intros log Hs Hr Hf; cbn [Log.trim_loop].
  - destruct Hs. by split.
  - case_decide; [|destruct Hs; split; done || lia].
    destruct (pop_first_size log) as [Hps Hpr].
    apply IH; [by apply pop_first_step|lia|lia].
Qed.

(** What an insertion of a message that is not yet held does to the messages. *)
Lemma trim_one log :
  (size (Log.messages log) <= S (Log.retention log))%nat → (1 <= Log.retention log)%nat →
  Log.trim log = if decide (size (Log.messages log) <= Log.retention log)%nat then log else Log.pop_first log.
Proof.
  intros Hs Hr. unfold Log.trim. destruct (size (Log.messages log)) as [|n] eqn:E; cbn [Log.trim_loop].
  - by rewrite decide_True by lia.
  - rewrite E. case_decide; [|by rewrite decide_True by lia]. rewrite decide_False by lia.
    destruct (pop_first_size log) as [Hps Hpr]. rewrite E in Hps. simpl in Hps.
    destruct n as [|n]; [done|]. cbn [Log.trim_loop]. rewrite Hps, Hpr. by rewrite decide_False by lia.
Qed.

Lemma insert_step msg log :
  wf_log log → Log.messages log !! Chat.key msg = None →
  (∀ id, Chat.msgid msg = Some id → Log.by_msgid log !! id = None) →
  log_in_step (Log.mk (<[Chat.key msg := msg]> (Log.messages log))
    (match Chat.msgid msg with Some id => <[id := Chat.key msg]> (Log.by_msgid log) | None => Log.by_msgid log end)
    (Log.retention log)).
Proof.
  intros [_ _ Hk Hi] Hfresh Hid. split; simpl.
  - intros k m [[<- <-]|[_ H]]%lookup_insert_Some; [done|by apply Hk].
  - intros id k. destruct (Chat.msgid msg) as [id0|] eqn:Em.
    + rewrite lookup_insert_Some, Hi. split.
      * intros [[<- <-]|[Hne (m & Hm & Hid')]].
        -- exists msg. by rewrite lookup_insert_eq.
        -- exists m. rewrite lookup_insert_ne; [done|]. intros <-. simplify_eq.
      * intros (m & [[<- <-]|[Hne Hm]]%lookup_insert_Some & Hid'); [left; split; congruence|right].
        split; [|eauto]. intros <-. specialize (Hid id0 eq_refl).
        assert (Log.by_msgid log !! id0 = Some k) by (apply Hi; eauto). congruence.
    + rewrite Hi. split.
      * intros (m & Hm & Hid'). exists m. rewrite lookup_insert_ne; [done|]. intros <-. simplify_eq.
      * intros (m & [[<- <-]|[Hne Hm]]%lookup_insert_Some & Hid'); [congruence|eauto].
Qed.

Lemma insert_wf msg log :
  wf_log log → Log.messages log !! Chat.key msg = None → wf_log (Log.insert msg log).2.
Proof.
  intros Hwf Hfresh. unfold Log.insert.
  destruct (match Chat.msgid msg with Some _ => _ | None => _ end) eqn:Ek; [done|]. cbn [snd].
  apply trim_loop_spec; simpl; [|apply Hwf|pose proof (log_bounded _ Hwf); lia].
  apply insert_step; [done..|]. intros id E. rewrite E in Ek. apply bool_decide_eq_false in Ek.
  by apply eq_None_not_Some.
Qed.

Lemma retention_insert msg log : wf_log log → Log.messages log !! Chat.key msg = None →
  Log.retention (Log.insert msg log).2 = Log.retention log.
Proof.
  intros Hwf Hfresh. unfold Log.insert. case_match; [done|]. cbn [snd]. rewrite trim_one; simpl.
  - case_decide; [done|]. by destruct (pop_first_size (Log.mk (<[Chat.key msg := msg]> (Log.messages log))
      (match Chat.msgid msg with Some id => <[id := Chat.key msg]> (Log.by_msgid log) | None => Log.by_msgid log end)
      (Log.retention log))) as [_ ->].
  - rewrite map_size_insert_None by done. pose proof (log_bounded _ Hwf). lia.
  - apply Hwf.
Qed.

Lemma map_size_alter {K V} `{EqDecision K, !Countable K} (f : V → V) (k : K) (m : gmap K V) :
  size (alter f k m) = size m.
Proof. rewrite <- !size_dom. by rewrite dom_alter_L. Qed.

Lemma alter_wf id f log :
  (∀ m, Chat.key (f m) = Chat.key m ∧ Chat.msgid (f m) = Chat.msgid m) →
  wf_log log → wf_log (Log.alter id f log) ∧ Log.retention (Log.alter id f log) = Log.retention log.
Proof.
  intros Hf [Hr Hb Hk Hi]. unfold Log.alter. destruct (Log.by_msgid log !! id) as [k0|]; [|by split].
  split; [|done]. split; cbn [Log.messages Log.by_msgid Log.retention]; [done|by rewrite map_size_alter| |].
  - intros k m [(<- & m' & Hm & ->)|[_ Hm]]%lookup_alter_Some; [|by apply Hk].
    destruct (Hf m') as [-> _]. by apply Hk.
  - intros id' k. rewrite Hi. split.
    + intros (m & Hm & Hid). destruct (decide (k0 = k)) as [-> |Hne].
      * exists (f m). rewrite lookup_alter_eq, Hm. split; [done|]. by destruct (Hf m) as [_ ->].
      * exists m. by rewrite lookup_alter_ne.
    + intros (m & [(<- & m' & Hm & ->)|[_ Hm]]%lookup_alter_Some & Hid); [|eauto].
      exists m'. split; [done|]. by destruct (Hf m') as [_ <-].
Qed.

Lemma insert_cases (msg : Chat.t) (log : Log.t) :
  wf_log log → Log.messages log !! Chat.key msg = None →
  let '(accepted, log') := Log.insert msg log in
  let all := <[Chat.key msg := msg]> (Log.messages log) in
  wf_log log'
  ∧ accepted = negb (match Chat.msgid msg with
                     | Some id => Log.contains log id
                     | None => Log.has_twin msg log
                     end)
  ∧ (accepted = false → log' = log)
  ∧ (accepted = true → (size all <= Log.retention log)%nat → Log.messages log' = all)
  ∧ (accepted = true → (Log.retention log < size all)%nat →
       ∃ oldest, is_Some (all !! oldest) ∧ (∀ k, is_Some (all !! k) → key_le oldest k)
         ∧ Log.messages log' = delete oldest all).
Proof.
  intros Hwf Hfresh. pose proof (insert_wf msg log Hwf Hfresh) as Hwf'.
  unfold Log.insert in *. fold (Log.contains log) in *.
  assert (match Chat.msgid msg with Some id => bool_decide (is_Some (Log.by_msgid log !! id)) | None => Log.has_twin msg log end
    = match Chat.msgid msg with Some id => Log.contains log id | None => Log.has_twin msg log end) as E by done.
  rewrite E in *. destruct (match Chat.msgid msg with Some _ => _ | None => _ end); cbn [fst snd negb] in *.
  { split_and!; done. }
  split_and!; [done..| |].
  all: intros _ Hsize; rewrite trim_one; cbn [Log.messages Log.retention];
    [|rewrite map_size_insert_None by done; pose proof (log_bounded _ Hwf); lia|apply Hwf].
  - by rewrite decide_True.
  - rewrite decide_False by lia. unfold Log.pop_first. cbn [Log.messages].
    destruct (first_item _) as [[k m]|] eqn:Ef.
    + apply first_item_Some in Ef as [Hk Hmin]. exists k. split_and!; [by eexists| |done].
      intros k' [m' Hk']. by eapply Hmin.
    + apply first_item_None in Ef. by apply insert_non_empty in Ef.
Qed.

(** The log has the message already: under its id, or, where it has none, the same sender said the same text in the
    same way at the same instant. (A sequence number is unsigned. The instants searched are those before the next one,
    and the last one a clock can show has no next.) *)
Definition held_already (msg : Chat.t) (log : Log.t) : Prop :=
  ∃ k m, Log.messages log !! k = Some m ∧
    match Chat.msgid msg with
    | Some id => Chat.msgid m = Some id
    | None => time_ms k = time_ms (Chat.key msg) ∧ time_ms k < u64_max ∧ 0 <= seq_no k
        ∧ Chat.sender m = Chat.sender msg ∧ Chat.text_ m = Chat.text_ msg ∧ Chat.kind m = Chat.kind msg
    end.
(** What the log holds after: all it held and the message, but for the single oldest of them if that is too many. *)
Definition takes_in (msg : Chat.t) (log log' : Log.t) : Prop :=
  let all := <[Chat.key msg := msg]> (Log.messages log) in
  Log.retention log' = Log.retention log
  ∧ ((size all <= Log.retention log)%nat → Log.messages log' = all)
  ∧ ((Log.retention log < size all)%nat →
       ∃ oldest, is_Some (all !! oldest) ∧ (∀ k, is_Some (all !! k) → key_le oldest k)
         ∧ Log.messages log' = delete oldest all).

Lemma has_twin_spec msg log : Log.has_twin msg log = true ↔
  ∃ k m, Log.messages log !! k = Some m ∧ time_ms k = time_ms (Chat.key msg) ∧ time_ms k < u64_max ∧ 0 <= seq_no k
    ∧ Chat.sender m = Chat.sender msg ∧ Chat.text_ m = Chat.text_ msg ∧ Chat.kind m = Chat.kind msg.
Proof.
  unfold Log.has_twin, saturating_add_u64. rewrite bool_decide_eq_true, Exists_exists. split.
  - intros ([k m] & Hin%elem_of_sorted_items & Hk & Hlt & Hsame). cbn [fst snd] in *. exists k, m. split_and!; [done|lia..| | |]; apply Hsame.
  - intros (k & m & Hm & Ht & Hlt & Hs & Hsame). exists (k, m). split; [by apply elem_of_sorted_items|].
    cbn [fst snd]. split_and!; [lia..| | |]; apply Hsame.
Qed.

Lemma held_already_spec msg log : wf_log log →
  match Chat.msgid msg with Some id => Log.contains log id | None => Log.has_twin msg log end = true ↔ held_already msg log.
Proof.
  intros Hwf. unfold held_already. destruct (Chat.msgid msg) as [id|]; [|apply has_twin_spec].
  unfold Log.contains. rewrite bool_decide_eq_true. split.
  - intros [k Hk]. exists k. by apply (log_indexed _ Hwf).
  - intros (k & m & Hm & Hid). exists k. apply (log_indexed _ Hwf). eauto.
Qed.

Lemma insert_files (msg : Chat.t) (log : Log.t) :
  wf_log log → Log.messages log !! Chat.key msg = None →
  let '(accepted, log') := Log.insert msg log in
  wf_log log' ∧ (accepted = false ↔ held_already msg log) ∧ (accepted = false → log' = log)
  ∧ (accepted = true → takes_in msg log log').
Proof.
  intros Hwf Hfresh. pose proof (insert_cases msg log Hwf Hfresh) as Hc.
  pose proof (retention_insert msg log Hwf Hfresh) as Hr. destruct (Log.insert msg log) as [accepted log'].
  destruct Hc as (Hw & Ha & Hsame & Hfits & Hfull). split_and!; [done| |done|].
  - rewrite <- held_already_spec by done. rewrite Ha. by rewrite negb_false_iff.
  - intros Hacc. split_and!; [exact Hr|by apply Hfits|by apply Hfull].
Qed.

(** C20. A message already held, by its id or, for one without, by sender, text and kind at
    its very instant, is refused and nothing changes. Any other is taken, and what is
    then held is everything that was, with the single oldest dropped if the bound was
    exceeded: history and live traffic are trimmed alike, and the two maps stay in step.
    (The message comes under a key of its own, as every one the model numbers does. At the
    last instant a u64 can show there is no looking for a message without an id.) *)
Theorem log_insert_newest (msg : Chat.t) (log : Log.t) :
  wf_log log → Log.messages log !! Chat.key msg = None →
  let '(accepted, log') := Log.insert msg log in
  wf_log log' ∧ (accepted = false ↔ held_already msg log) ∧ (accepted = false → log' = log)
  ∧ (accepted = true → takes_in msg log log').
Proof. apply insert_files. Qed.

Lemma deserialize_lookup (l : list Chat.t) (held : gmap MessageKey Chat.t) k m :
  NoDup (Chat.key <$> l) →
  foldl (λ held message, <[Chat.key message := message]> held) held l !! k = Some m ↔
    (m ∈ l ∧ Chat.key m = k) ∨ (k ∉ Chat.key <$> l ∧ held !! k = Some m).
Proof.
  revert held. induction l as [|x l IH]; intros held Hn; cbn [foldl].
  - rewrite elem_of_nil. split; [right; split; [apply not_elem_of_nil|done]|intros [[[] _]|[_ ?]]; done].
  - rewrite fmap_cons in Hn |- *. apply NoDup_cons in Hn as [Hx Hn]. rewrite (IH _ Hn), elem_of_cons, not_elem_of_cons.
    destruct (decide (k = Chat.key x)) as [->|Hk].
    + rewrite lookup_insert_eq. split.
      * intros [[Hm Hk]|[_ [= <-]]]; left; split; auto.
      * intros [[[->|Hm] Hk]|[[Hc _] _]]; [by right| |done]. left. by split.
    + rewrite lookup_insert_ne by done. split.
      * intros [[Hm ?]|[? ?]]; [left|right]; auto.
      * intros [[[->|Hm] ?]|[[_ ?] ?]]; [done|left|right]; auto.
Qed.

(** A log survives being carried as a list: since every message is filed under the key it carries, the list a
    binding is given, oldest message first, rebuilds the map exactly. *)
Theorem log_rebuilds (log : Log.t) :
  wf_log log → Log.deserialize (Log.serialize (Log.messages log)) = Log.messages log.
Proof.
  intros Hw. pose proof (log_keyed _ Hw) as Hk. set (held := Log.messages log) in *.
  assert (Chat.key <$> Log.serialize held = (sorted_items held).*1) as Ek.
  { unfold Log.serialize. rewrite <- list_fmap_compose. apply list_fmap_ext. intros i [k m] Hi. cbn.
    apply Hk, elem_of_sorted_items. by eapply list_elem_of_lookup_2. }
  apply map_eq. intros k. apply option_eq. intros m. unfold Log.deserialize.
  rewrite deserialize_lookup by (rewrite Ek; apply sorted_items_NoDup_fst).
  unfold Log.serialize. rewrite list_elem_of_fmap, lookup_empty. split.
  - intros [[([k' m'] & -> & Hin) <-]|[_ ?]]; [|done]. apply elem_of_sorted_items in Hin. cbn. by rewrite (Hk _ _ Hin).
  - intros Hm. left. split; [|by apply Hk]. exists (k, m). split; [done|]. by apply elem_of_sorted_items.
Qed.

Definition sample_chat (t n : Z) : Chat.t := Chat.new (t, n) "nick" MessageKind.Privmsg.

Lemma log_rebuilds_witness :
  let log := (Log.insert (sample_chat 5 0) (Log.insert (sample_chat 9 1) (Log.with_retention 3)).2).2 in
  Chat.key <$> Log.serialize (Log.messages log) = [(5, 0); (9, 1)]
  ∧ Log.deserialize (Log.serialize (Log.messages log)) = Log.messages log.
Proof.
  intros log. split; [by vm_compute|]. apply log_rebuilds.
  repeat (apply insert_wf; [|vm_compute; reflexivity]). apply wf_log_with_retention.
Defined.

Lemma log_insert_newest_witness :
  let log := (Log.insert (sample_chat 5 0) (Log.with_retention 1)).2 in
  let '(accepted, log') := Log.insert (sample_chat 9 1) log in accepted = true ∧ wf_log log'.
Proof.
  intros log.
  assert (wf_log log) as Hwf by (apply insert_wf; [apply wf_log_with_retention|vm_compute; reflexivity]).
  pose proof (log_insert_newest (sample_chat 9 1) log Hwf ltac:(vm_compute; reflexivity)) as H.
  destruct (Log.insert (sample_chat 9 1) log) as [accepted log'] eqn:E. destruct H as (H1 & H2 & _).
  split; [|exact H1]. apply (f_equal fst) in E. vm_compute in E. by symmetry.
Defined.

(** A message older than everything in a full log is reported as new although it is the
    one dropped to make room: the key the host is told about names no message. *)
Theorem log_accepts_what_it_drops :
  ∃ log msg, wf_log log ∧ Log.messages log !! Chat.key msg = None
    ∧ (Log.insert msg log).1 = true ∧ Log.get_by_key (Log.insert msg log).2 (Chat.key msg) = None.
Proof.
  exists (Log.insert (sample_chat 5 0) (Log.with_retention 1)).2, (sample_chat 4 1).
  split_and!; [|vm_compute; reflexivity..].
  apply insert_wf; [apply wf_log_with_retention|vm_compute; reflexivity].
Qed.

(** ** Member prefixes *)

(** Prefixes as the server ranks them, highest first and each once. *)
Definition ranked (order : Prefix.t) (m : Membership.t) : Prop :=
  NoDup m ∧ StronglySorted (λ a b, Membership.rank_key order a <= Membership.rank_key order b) m.

Lemma insert_by_sorted {A} (key : A → Z) x l :
  StronglySorted (λ a b, key a <= key b) l → StronglySorted (λ a b, key a <= key b) (insert_by key x l).
Proof.
  induction 1 as [|y l Hs IH Hy]; simpl; [by repeat constructor|]. case_decide.
  - constructor; [by constructor|]. constructor; [done|]. eapply Forall_impl; [exact Hy|]. simpl. lia.
  - constructor; [done|]. rewrite insert_by_perm. constructor; [lia|done].
Qed.

(** Granting and revoking keep the list ranked, change exactly the one prefix, and
    the first prefix is always the highest one held. *)
Theorem membership_stays_ranked (order : Prefix.t) (m : Membership.t) (p : char) :
  ranked order m →
  ranked order (Membership.grant p order m) ∧ ranked order (Membership.revoke p m)
  ∧ (∀ c, c ∈ Membership.grant p order m ↔ c = p ∨ c ∈ m)
  ∧ (∀ c, c ∈ Membership.revoke p m ↔ c ≠ p ∧ c ∈ m)
  ∧ (∀ c d, Membership.top_prefix (Membership.grant p order m) = Some c → d = p ∨ d ∈ m →
       Membership.rank_key order c <= Membership.rank_key order d).
Proof.
  intros [Hnd Hs].
  assert (ranked order (Membership.grant p order m) ∧ ∀ c, c ∈ Membership.grant p order m ↔ c = p ∨ c ∈ m) as [Hg Hin].
  { unfold Membership.grant, contains_char. case_bool_decide as Hp; [split; [done|]; intros c; naive_solver|].
    assert (sort_by_key (Membership.rank_key order) (m ++ [p]) ≡ₚ p :: m) as Hperm
      by by rewrite sort_by_key_perm, Permutation_app_comm.
    split.
    - split; [rewrite Hperm; by constructor|].
      clear. induction (m ++ [p]) as [|x l IH]; [constructor|]. apply insert_by_sorted, IH.
    - intros c. rewrite Hperm. apply elem_of_cons. }
  split_and!; [done| |done| |].
  - split; [by apply NoDup_filter|]. unfold Membership.revoke. clear -Hs.
    induction Hs as [|x l _ IH Hx]; [constructor|]. rewrite filter_cons. case_decide; [|done].
    constructor; [done|]. apply Forall_forall. intros y [_ Hy]%list_elem_of_filter.
    rewrite Forall_forall in Hx. by apply Hx.
  - intros c. unfold Membership.revoke. by rewrite list_elem_of_filter.
  - intros c d Ht Hd. apply Hin in Hd. destruct Hg as [_ Hgs]. unfold Membership.top_prefix in Ht.
    destruct (Membership.grant p order m) as [|x l]; [done|]. simplify_eq/=.
    inversion Hgs as [|?? _ Hall]; subst. apply elem_of_cons in Hd as [-> |Hd]; [lia|].
    rewrite Forall_forall in Hall. by apply Hall.
Qed.

Lemma membership_stays_ranked_witness :
  Membership.top_prefix (Membership.grant 64%N Prefix.default (lit "+")) = Some 64%N
  ∧ Membership.rank_key Prefix.default 64%N <= Membership.rank_key Prefix.default 43%N.
Proof.
  split; [vm_compute; reflexivity|].
  refine (proj2 (proj2 (proj2 (proj2 (membership_stays_ranked Prefix.default (lit "+") 64%N _)))) 64%N 43%N _ _).
  - split; [apply NoDup_singleton|repeat constructor].
  - vm_compute. reflexivity.
  - right. by left.
Defined.

(** ** The model *)

(** A log of the model: bounded as the model says, and older than the next sequence
    number, so the next message gets a key of its own. *)
Record wf_model_log (retention : nat) (next : Z) (log : Log.t) : Prop := {
  mlog_wf : wf_log log;
  mlog_retention : Log.retention log = retention;
  mlog_seq : ∀ k, is_Some (Log.messages log !! k) → 0 <= seq_no k < next;
}.

Record wf_model (m : Model.t) : Prop := {
  model_retention : (1 <= Model.retention m)%nat;
  model_channels : map_Forall (λ _ c, wf_model_log (Model.retention m) (Model.next_seq m) (Channel.log c)
      ∧ 0 <= Channel.mentions c <= Channel.unread c ∧ Channel.unread c <= u32_max) (Model.channels m);
  model_conversations : map_Forall (λ _ q, wf_model_log (Model.retention m) (Model.next_seq m) (Conversation.log q)
      ∧ 0 <= Conversation.unread q <= u32_max) (Model.conversations m);
  model_whois : (size (Model.whois m) <= MAX_WHOIS_RECORDS)%nat;
  model_seq : 0 <= Model.next_seq m <= u64_max;
}.

Lemma wf_model_log_new r n : (1 <= r)%nat → wf_model_log r n (Log.with_retention r).
Proof.
  intros Hr. split; [apply wf_log_with_retention|simpl; lia|].
  intros k [m Hm]. simpl in Hm. by apply lookup_empty_Some in Hm.
Qed.

Lemma wf_model_log_later r n n' log : wf_model_log r n log → n <= n' → wf_model_log r n' log.
Proof. intros [H1 H2 H3] Hle. split; [done..|]. intros k Hk. specialize (H3 k Hk). lia. Qed.

Lemma wf_model_log_alter r n log id f :
  (∀ m, Chat.key (f m) = Chat.key m ∧ Chat.msgid (f m) = Chat.msgid m) →
  wf_model_log r n log → wf_model_log r n (Log.alter id f log).
Proof.
  intros Hf [H1 H2 H3]. destruct (alter_wf id f log Hf H1) as [Hwf Hret].
  split; [done|by rewrite Hret|]. intros k Hk. apply H3. unfold Log.alter in Hk.
  destruct (Log.by_msgid log !! id) as [k0|]; [|done]. simpl in Hk. by apply lookup_alter_is_Some in Hk.
Qed.

Lemma messages_insert msg log :
  ∀ k, is_Some (Log.messages (Log.insert msg log).2 !! k) → k = Chat.key msg ∨ is_Some (Log.messages log !! k).
Proof.
  intros k. unfold Log.insert. case_match; [by right|]. cbn [snd]. unfold Log.trim.
  match goal with |- context [Log.trim_loop ?f ?l] => generalize f; set (log' := l) end.
  assert (∀ k, is_Some (Log.messages log' !! k) → k = Chat.key msg ∨ is_Some (Log.messages log !! k)) as Hlog'.
  { intros k' [m Hm]. subst log'. cbn [Log.messages] in Hm.
    apply lookup_insert_Some in Hm as [[-> _]|[_ Hm]]; [by left|right; eauto]. }
  intros fuel. revert Hlog'. generalize log'. induction fuel as [|fuel IH]; intros l Hl; cbn [Log.trim_loop]; [auto|].
  case_decide; [|auto]. apply IH. intros k' Hk'. apply Hl. revert Hk'. unfold Log.pop_first.
  destruct (first_item _) as [[k1 m1]|]; [|done]. simpl. intros [m [_ Hm]%lookup_delete_Some]. by eexists.
Qed.

Lemma wf_model_log_insert r n log msg :
  wf_model_log r n log → seq_no (Chat.key msg) = n → 0 <= n →
  wf_model_log r (n + 1) (Log.insert msg log).2.
Proof.
  intros [H1 H2 H3] Hseq Hn.
  assert (Log.messages log !! Chat.key msg = None) as Hfresh.
  { apply eq_None_not_Some. intros Hs. specialize (H3 _ Hs). lia. }
  split; [by apply insert_wf|by rewrite retention_insert|].
  intros k [-> |Hk]%messages_insert; [lia|]. specialize (H3 k Hk). lia.
Qed.

(** *** The operations keep it *)

Lemma map_Forall_alter' {K V} `{EqDecision K, !Countable K} (P : K → V → Prop) f (k : K) (m : gmap K V) :
  map_Forall P m → (∀ v, m !! k = Some v → P k v → P k (f v)) → map_Forall P (alter f k m).
Proof.
  intros Hm Hf k' v' [(<- & v & Hv & ->)|[_ Hv]]%lookup_alter_Some; [|by apply Hm].
  by apply Hf, Hm.
Qed.

Lemma wf_set_me u m : wf_model m → wf_model (Model.set_me u m).
Proof. by intros []. Qed.
Lemma wf_set_people p m : wf_model m → wf_model (Model.set_people p m).
Proof. by intros []. Qed.

Lemma wf_person_or_insert key n m : wf_model m → wf_model (Model.person_or_insert key n m).
Proof. intros H. unfold Model.person_or_insert. case_match; [done|by apply wf_set_people]. Qed.

Lemma wf_channel_or_insert key n m : wf_model m → wf_model (Model.channel_or_insert key n m).
Proof.
  intros [Hr Hc Hq Hw Hs]. unfold Model.channel_or_insert. case_match; [by split|]. split; simpl; [done| |done..].
  apply map_Forall_insert_2; [|done]. split; [by apply wf_model_log_new|]. unfold u32_max. simpl. lia.
Qed.

Lemma wf_conversation_or_insert key n m : wf_model m → wf_model (Model.conversation_or_insert key n m).
Proof.
  intros [Hr Hc Hq Hw Hs]. unfold Model.conversation_or_insert. case_match; [by split|]. split; simpl; [done..| |done|done].
  apply map_Forall_insert_2; [|done]. split; [by apply wf_model_log_new|]. unfold u32_max. simpl. lia.
Qed.

(** A change to a channel that leaves its log and its counts alone. *)
Definition keeps_counts (f : Channel.t → Channel.t) : Prop :=
  ∀ c, Channel.log (f c) = Channel.log c ∧ Channel.unread (f c) = Channel.unread c
       ∧ Channel.mentions (f c) = Channel.mentions c.

Lemma wf_alter_channel key f m : keeps_counts f → wf_model m → wf_model (Model.alter_channel key f m).
Proof.
  intros Hf [Hr Hc Hq Hw Hs]. split; simpl; [done| |done..].
  apply map_Forall_alter'; [done|]. intros c _ H. destruct (Hf c) as (-> & -> & ->). done.
Qed.

Lemma wf_remove_channel key m : wf_model m → wf_model (Model.remove_channel key m).
Proof. intros [Hr Hc Hq Hw Hs]. split; simpl; [done|by apply map_Forall_delete|done..]. Qed.

Lemma map_size_insert_le {K V} `{EqDecision K, !Countable K} (k : K) (v : V) (m : gmap K V) :
  (size (<[k := v]> m) <= S (size m))%nat.
Proof.
  destruct (m !! k) as [w|] eqn:E; [|by rewrite map_size_insert_None].
  rewrite map_size_insert_Some by (rewrite E; eauto). lia.
Qed.

Lemma map_size_filter_le {K V} `{EqDecision K, !Countable K} (P : K * V → Prop) `{∀ x, Decision (P x)} (m : gmap K V) :
  (size (filter P m) <= size m)%nat.
Proof. rewrite <- !size_dom. apply subseteq_size, dom_filter_subseteq. Qed.

Lemma wf_forget_strangers m : wf_model m → wf_model (Model.forget_strangers m).
Proof.
  intros [Hr Hc Hq Hw Hs]. unfold Model.forget_strangers. split; simpl; [done..| |done].
  etransitivity; [apply map_size_filter_le|done].
Qed.

Lemma wf_remove_everywhere who m : wf_model m → wf_model (Model.remove_everywhere who m).2.
Proof.
  intros [Hr Hc Hq Hw Hs]. split; simpl; [done| |done..].
  intros k c (c0 & <- & Hc0)%lookup_fmap_Some. by apply Hc in Hc0.
Qed.

Lemma map_Forall_move {V} (P : CaseFolded → V → Prop) (old new : CaseFolded) (f : V → V) (m : gmap CaseFolded V) :
  map_Forall P m → (∀ k v, P k v → P new (f v)) → map_Forall P (Model.move old new f m).
Proof.
  intros Hm Hf. unfold Model.move. destruct (m !! old) as [v|] eqn:E; [|done].
  apply map_Forall_insert_2; [by eapply Hf, Hm|by apply map_Forall_delete].
Qed.

Lemma wf_rename cm from to m : wf_model m → wf_model (Model.rename cm from to m).
Proof.
  intros [Hr Hc Hq Hw Hs]. split; simpl; [done| | |done..].
  - intros k c (c0 & <- & Hc0)%lookup_fmap_Some. by apply Hc in Hc0.
  - by apply map_Forall_move.
Qed.

Lemma wf_rename_channel cm from to m : wf_model m → wf_model (Model.rename_channel cm from to m).2.
Proof.
  intros [Hr Hc Hq Hw Hs]. unfold Model.rename_channel. destruct (_ !! _) as [c|] eqn:E; [|by split].
  split; simpl; [done| |done..]. apply map_Forall_insert_2; [by apply Hc in E|by apply map_Forall_delete].
Qed.

Lemma stale_whois_held w : (0 < size w)%nat → ∃ k, Model.stale_whois w = Some k ∧ is_Some (w !! k).
Proof.
  intros Hs. unfold Model.stale_whois. destruct (list_find _ _) as [[i [k r]]|] eqn:E.
  - apply list_find_Some in E as (Hi & _). exists k. split; [done|].
    apply list_elem_of_lookup_2, elem_of_sorted_items in Hi. by eexists.
  - destruct (first_item w) as [[k r]|] eqn:Ef.
    + apply first_item_Some in Ef as [Hk _]. exists k. split; [done|by eexists].
    + apply first_item_None in Ef as ->. rewrite map_size_empty in Hs. lia.
Qed.

Lemma wf_whois_or_insert key n m : wf_model m → wf_model (Model.whois_or_insert key n m).
Proof.
  intros [Hr Hc Hq Hw Hs]. unfold Model.whois_or_insert. split; simpl; [done..| |done].
  unfold MAX_WHOIS_RECORDS in *. case_decide as Hfull.
  - destruct Hfull as [Hfull Hnone].
    destruct (stale_whois_held (Model.whois m)) as (k & -> & Hk); [lia|].
    etransitivity; [apply map_size_insert_le|]. rewrite map_size_delete_Some by done. lia.
  - destruct (Model.whois m !! key) as [r|] eqn:E.
    + rewrite map_size_insert_Some by (rewrite E; eauto). done.
    + rewrite map_size_insert_None by done.
      destruct (decide (64 <= size (Model.whois m))%nat); [tauto|lia].
Qed.

Lemma wf_alter_whois key f m : wf_model m → wf_model (Model.alter_whois key f m).
Proof. intros [Hr Hc Hq Hw Hs]. split; simpl; [done..|by rewrite map_size_alter|done]. Qed.

Lemma move_lookup {V} (old new : CaseFolded) (f : V → V) (s : gmap CaseFolded V) (k : CaseFolded) :
  Model.move old new f s !! k =
    match s !! old with
    | Some v => if decide (k = new) then Some (f v) else if decide (k = old) then None else s !! k
    | None => s !! k
    end.
Proof.
  unfold Model.move. destruct (s !! old) as [v|]; [|done].
  destruct (decide (k = new)) as [-> |]; [by rewrite lookup_insert_eq|]. rewrite lookup_insert_ne by done.
  destruct (decide (k = old)) as [-> |]; [by rewrite lookup_delete_eq|]. by rewrite lookup_delete_ne.
Qed.

(** C19. A NICK leaves nobody behind under the old key: in every channel, in the
    conversations and among the people, whatever stood under the old key stands under
    the new one, nothing is left under the old one unless both fold alike, and every
    other entry is untouched. A change of case or between equivalent spellings keeps
    every key. *)
Theorem rename_moves_everyone (cm : Casemapping.t) (from to : text) (m : Model.t) :
  let old := Casemapping.fold cm from in
  let new := Casemapping.fold cm to in
  let m' := Model.rename cm from to m in
  let moved {V} (f : V → V) (s s' : gmap CaseFolded V) :=
    (s !! old = None → s' = s)
    ∧ (∀ v, s !! old = Some v → s' !! new = Some (f v) ∧ (old ≠ new → s' !! old = None))
    ∧ (∀ k, k ≠ old → k ≠ new → s' !! k = s !! k) in
  dom (Model.channels m') = dom (Model.channels m)
  ∧ (∀ k c c', Model.channels m !! k = Some c → Model.channels m' !! k = Some c' →
       moved id (Channel.members c) (Channel.members c') ∧ Channel.log c' = Channel.log c)
  ∧ moved (Conversation.set_nick to) (Model.conversations m) (Model.conversations m')
  ∧ moved (Person.set_nick to) (Model.people m) (Model.people m').
Proof.
  intros old new m' moved.
  assert (∀ V (f : V → V) s, moved V f s (Model.move old new f s)) as Hm.
  { intros V f s. split_and!.
    - intros E. unfold Model.move. by rewrite E.
    - intros v E. rewrite !move_lookup, E. rewrite decide_True by done. split; [done|]. intros Hne.
      rewrite decide_False by done. by rewrite decide_True.
    - intros k H1 H2. rewrite move_lookup. case_match; [|done]. rewrite decide_False by done. by rewrite decide_False. }
  split_and!; [apply dom_fmap_L| |apply Hm..].
  intros k c c' Hc Hc'. unfold m', Model.rename in Hc'. cbn [Model.channels] in Hc'.
  rewrite lookup_fmap, Hc in Hc'. simplify_eq/=. split; [apply Hm|done].
Qed.
