(* ===== verification/Session.v ===== *)
(** * Lines into the model (src/crates/obby-client/src/session.rs)

    One definition per handler. A handler takes the context (the model and the latest
    instant seen) and the line, and gives the changes reported and the context left
    behind. What the server announced in ISUPPORT and whether a history batch is being
    replayed are read only, and are parameters of the section. *)
From S2P Require Import Prelude Utf8 Casemap Isupport Tags Message Mode Format ServerTime Extensions Model.

(** [char::is_alphanumeric] outside ASCII is a table of Unicode, which the development
    leaves open; what holds of it on ASCII is the law. *)
Class Unicode := is_alphanumeric : char → bool.
Class UnicodeLaws (U : Unicode) : Prop :=
  alphanumeric_ascii : ∀ c, (c < 128)%N → is_alphanumeric c = is_ascii_alphanumeric c.

Module Change.
(* obby-client/src/session.rs 13-98 Change *)
Inductive t :=
  | MessageAdded (target : text) (key : MessageKey)
  | ChannelJoined (channel : text)
  | ChannelParted (channel : text)
  | ChannelMembersChanged (channel : text)
  | ChannelTopicChanged (channel : text)
  | NickChanged (from to : text)
  | ChannelModesChanged (channel : text)
  | ReadMarkerMoved (target : text)
  | MessageReacted (target msgid : text)
  | MessageRedacted (target msgid : text)
  | MetadataChanged (target key : text)
  | WhoisReceived (nick : text)
  | ChannelRenamed (from to : text).
End Change.

Module Mention.
(* obby-client/src/session.rs 108-114 is_nick_char *)
Definition is_nick_char `{Unicode} (c : char) : bool :=
  is_alphanumeric c || contains_char c "[]\`_^{|}-".

(** [is_some_and(is_nick_char)] *)
Definition edge `{Unicode} (c : option char) : bool :=
  match c with Some c => is_nick_char c | None => false end.

(** The search from [from] on: [before] is the character in front of it. *)
(* obby-client/src/session.rs 129-140 mentions *)
Fixpoint search `{Unicode} (fuel : nat) (needle : text) (before : option char) (rest : text) : bool :=
  match fuel with
  | O => false
  | S fuel =>
      match find_str needle rest with
      | None => false
      | Some (skipped, found) =>
          let front := match last skipped with Some c => Some c | None => before end in
          let behind := drop (length needle) found in
          if negb (edge front) && negb (edge (head behind)) then true
          else search fuel needle (last needle) behind
      end
  end.
(* obby-client/src/session.rs 116-141 mentions *)
Definition mentions `{Unicode} (casemapping : Casemapping.t) (body nick : text) : bool :=
  if decide (nick = []) then false
  else
    let folded := Casemapping.fold_char casemapping <$> body in
    search (S (length folded)) (Casemapping.fold casemapping nick) None folded.
End Mention.

Module Ctx.
(** The mutable half of [Context]. *)
(* obby-client/src/session.rs 143-151 Context *)
Record t := mk { model : Model.t; latest_ms : Z }.
Definition set_model (m : Model.t) (ctx : t) : t := mk m (latest_ms ctx).
Definition alter (f : Model.t → Model.t) (ctx : t) : t := mk (f (model ctx)) (latest_ms ctx).
End Ctx.

Module Account.
(* obby-client/src/session.rs 875-886 Account *)
Inductive t := Unknown | LoggedOut | As (account : text).
End Account.

Module WhoRow.
(* obby-client/src/session.rs 864-873 WhoRow *)
Record t := mk {
  channel : text; nick : text; user : text; host : text; flags : text;
  account : Account.t; realname : option text;
}.
End WhoRow.

Module Session.
(* obby-client/src/session.rs 100-106 WHOX_TOKEN and WHOX_FIELDS *)
Definition WHOX_TOKEN : text := "332".
Definition WHOX_FIELDS : text := "%tcuhnfar".

Section handlers.
Context `{Unicode} (isupport : Isupport.t) (historical : bool).

(* obby-client/src/session.rs 158-160 Context::fold *)
Definition fold (name : text) : CaseFolded := Isupport.fold isupport name.
(* obby-client/src/session.rs 154-156 Context::casemapping *)
Definition casemapping : Casemapping.t := Isupport.casemapping isupport.

(* obby-client/src/session.rs 162-173 Context::stamp *)
Definition stamp (line : Message.t) (ctx : Ctx.t) : Z * Ctx.t :=
  let stamped := default (Ctx.latest_ms ctx) (Message.tag line "time" ≫= ServerTime.parse) in
  (stamped, Ctx.mk (Ctx.model ctx) (Z.max (Ctx.latest_ms ctx) stamped)).

(* obby-client/src/session.rs 175-177 Context::is_me *)
Definition is_me (ctx : Ctx.t) (nick : text) : bool :=
  Casemapping.eq casemapping (LocalUser.nick (Model.me (Ctx.model ctx))) nick.

(* obby-client/src/session.rs 179-183 Context::sender *)
Definition sender (line : Message.t) : text :=
  match Message.source line with Some source => Source.name source | None => [] end.

Definition result : Type := list Change.t * Ctx.t.

(** *** Messages *)

(** The log of a target: that of the channel under this key, or else that of the
    conversation. *)
(* obby-client/src/session.rs 667-670 redact *)
Definition target_log (folded : CaseFolded) (m : Model.t) : option Log.t :=
  match Model.channel m folded with
  | Some channel => Some (Channel.log channel)
  | None => Conversation.log <$> Model.conversation m folded
  end.
(* obby-client/src/session.rs 667-676 redact *)
Definition alter_target_message (folded : CaseFolded) (msgid : text) (f : Chat.t → Chat.t) (m : Model.t)
    : Model.t :=
  match Model.channel m folded with
  | Some _ => Model.alter_channel folded (λ c, Channel.set_log (Log.alter msgid f (Channel.log c)) c) m
  | None =>
      Model.alter_conversation folded (λ q, Conversation.set_log (Log.alter msgid f (Conversation.log q)) q) m
  end.

(** The reactions of a message after [who] added or took back one. *)
(* obby-client/src/session.rs 606-616 reaction *)
Definition react (adding : bool) (emoji who : text) (message : Chat.t) : Chat.t :=
  let reactors := default [] (Chat.reactions message !! emoji) in
  let reactors :=
    if adding then (if decide (who ∈ reactors) then reactors else reactors ++ [who])
    else filter (λ reactor, reactor ≠ who) reactors in
  Chat.set_reactions
    (if negb adding && bool_decide (reactors = []) then delete emoji (Chat.reactions message)
     else <[emoji := reactors]> (Chat.reactions message)) message.

(** The emoji, and whether it is being added. *)
(* obby-client/src/session.rs 582-586 reaction *)
Definition reaction_tag (line : Message.t) : option (text * bool) :=
  match Message.tag line "+draft/react", Message.tag line "+draft/unreact" with
  | Some emoji, _ => Some (emoji, true)
  | None, Some emoji => Some (emoji, false)
  | None, None => None
  end.

(* obby-client/src/session.rs 578-621 reaction *)
Definition reaction (line : Message.t) (ctx : Ctx.t) : option result :=
  '(emoji, adding) ← reaction_tag line;
  msgid ← LinkPreview.reply_tag line;
  let who := fold (sender line) in
  name ← Message.param line 0;
  let folded := fold name in
  log ← target_log folded (Ctx.model ctx);
  _ ← Log.get log msgid;
  Some ([Change.MessageReacted name msgid],
        Ctx.alter (alter_target_message folded msgid (react adding emoji who)) ctx).

(* obby-client/src/session.rs 623-653 link_preview *)
Definition link_preview (line : Message.t) (ctx : Ctx.t) : option result :=
  '(msgid, preview) ← LinkPreview.parse line;
  Some
    match Message.param line 0 with
    | None => ([], ctx)
    | Some name =>
        let folded := fold name in
        match log ← target_log folded (Ctx.model ctx); Log.get log msgid with
        | None => ([], ctx)
        | Some message =>
            ([Change.MessageAdded name (Chat.key message)],
             Ctx.alter (alter_target_message folded msgid (Chat.set_link_preview (Some preview))) ctx)
        end
    end.

(* obby-client/src/session.rs 655-681 redact *)
Definition redact (line : Message.t) (ctx : Ctx.t) : result :=
  match Message.param line 0, Message.param line 1 with
  | Some name, Some msgid =>
      let folded := fold name in
      match log ← target_log folded (Ctx.model ctx); Log.get log msgid with
      | None => ([], ctx)
      | Some _ =>
          ([Change.MessageRedacted name msgid],
           Ctx.alter (alter_target_message folded msgid (Chat.set_redacted true)) ctx)
      end
  | _, _ => ([], ctx)
  end.

(** What kind of message the line is, and its text. *)
(* obby-client/src/session.rs 240-258 message *)
Definition kind_and_text (command : text) (line : Message.t) : MessageKind.t * text :=
  let body := if decide (command = lit "TAGMSG") then [] else default [] (Message.param line 1) in
  if decide (command = lit "TAGMSG") then (MessageKind.Tagmsg, body)
  else if decide (command = lit "NOTICE") then (MessageKind.Notice, body)
  else
    match Format.parse_ctcp body with
    | Some ctcp => (MessageKind.Ctcp (ascii_upper (Format.command ctcp)), Format.params ctcp)
    | None => (MessageKind.Privmsg, body)
    end.

(* obby-client/src/session.rs 260-271 message *)
Definition build (key : MessageKey) (command : text) (line : Message.t) (own : bool) : Chat.t :=
  let '(kind, body) := kind_and_text command line in
  Chat.mk key (Message.tag line "msgid") (sender line) kind body (Message.tag line "account")
    historical own (LinkPreview.reply_tag line) ∅ None false.

(** Where the message is filed, and whether that is a channel. *)
(* obby-client/src/session.rs 273-284 message *)
Definition filed_under (target who : text) (own : bool) : text * bool :=
  let addressed := trim_start_matches (Isupport.is_statusmsg isupport) target in
  if Isupport.is_channel isupport addressed then (addressed, true)
  else if own then (target, false)
  else (who, false).

(* obby-client/src/session.rs 290-321 message *)
Definition file (name : text) (is_channel : bool) (message : Chat.t) (counts addressed : bool)
    (ctx : Ctx.t) : result :=
  let folded := fold name in
  let added := [Change.MessageAdded name (Chat.key message)] in
  if is_channel then
    match Model.channel (Ctx.model ctx) folded with
    | None => ([], ctx)
    | Some channel =>
        let '(accepted, log) := Log.insert message (Channel.log channel) in
        let bump := accepted && counts in
        (if accepted then added else [],
         Ctx.alter (Model.alter_channel folded (λ c,
           Channel.set_counts
             (if bump then saturating_add_u32 (Channel.unread c) 1 else Channel.unread c)
             (if bump && addressed then saturating_add_u32 (Channel.mentions c) 1 else Channel.mentions c)
             (Channel.set_log log c))) ctx)
    end
  else
    let m := Model.conversation_or_insert folded name (Ctx.model ctx) in
    match Model.conversation m folded with
    | None => ([], ctx)
    | Some query =>
        let '(accepted, log) := Log.insert message (Conversation.log query) in
        (if accepted then added else [],
         Ctx.set_model (Model.alter_conversation folded (λ q,
           Conversation.set_unread
             (if accepted && counts then saturating_add_u32 (Conversation.unread q) 1 else Conversation.unread q)
             (Conversation.set_log log q)) m) ctx)
    end.

(* obby-client/src/session.rs 237-321 message *)
Definition ordinary (target : text) (command : text) (line : Message.t) (ctx : Ctx.t) : result :=
  let who := sender line in
  let '(time, ctx) := stamp line ctx in
  let '(key, m) := Model.next_message_key time (Ctx.model ctx) in
  let ctx := Ctx.set_model m ctx in
  let own := is_me ctx who in
  let message := build key command line own in
  let '(name, is_channel) := filed_under target who own in
  let counts := negb own && negb historical in
  let addressed :=
    counts && Mention.mentions casemapping (Chat.text_ message) (LocalUser.nick (Model.me (Ctx.model ctx))) in
  file name is_channel message counts addressed ctx.

(* obby-client/src/session.rs 221-321 message *)
Definition message (command : text) (line : Message.t) (ctx : Ctx.t) : result :=
  match Message.param line 0 with
  | None => ([], ctx)
  | Some target =>
      let special :=
        if decide (command = lit "TAGMSG") then
          match reaction line ctx with
          | Some r => Some r
          | None => link_preview line ctx
          end
        else None in
      match special with
      | Some r => r
      | None => ordinary target command line ctx
      end
  end.

(** *** Who is where *)

(** [entry(key).or_default()], then a change to the prefixes. *)
Definition alter_member (key : CaseFolded) (f : Membership.t → Membership.t) (c : Channel.t) : Channel.t :=
  Channel.set_members (<[key := f (default [] (Channel.members c !! key))]> (Channel.members c)) c.

(* obby-client/src/session.rs 323-353 join *)
Definition join (line : Message.t) (ctx : Ctx.t) : result :=
  match Message.param line 0 with
  | None => ([], ctx)
  | Some name =>
      let who := sender line in
      let folded := fold name in
      if is_me ctx who then
        ([Change.ChannelJoined name], Ctx.alter (Model.channel_or_insert folded name) ctx)
      else
        let account :=
          match Message.param line 1 with
          | Some a => if decide (a = lit "*") then None else Some a
          | None => None
          end in
        let key := fold who in
        match Model.channel (Ctx.model ctx) folded with
        | None => ([], ctx)
        | Some _ =>
            let m := Model.person_or_insert key who (Ctx.model ctx) in
            let m := Model.alter_person key (Person.set_nick who) m in
            let m := match account with
                     | Some _ => Model.alter_person key (Person.set_account account) m
                     | None => m
                     end in
            let m := Model.alter_channel folded (alter_member key id) m in
            ([Change.ChannelMembersChanged name], Ctx.set_model m ctx)
        end
  end.

(** [channel.members.remove(key)] *)
Definition drop_member (key : CaseFolded) (c : Channel.t) : Channel.t :=
  Channel.set_members (delete key (Channel.members c)) c.

(* obby-client/src/session.rs 355-372 part *)
Definition part (line : Message.t) (ctx : Ctx.t) : result :=
  match Message.param line 0 with
  | None => ([], ctx)
  | Some name =>
      let who := sender line in
      let folded := fold name in
      if is_me ctx who then
        ([Change.ChannelParted name], Ctx.alter (Model.remove_channel folded) ctx)
      else
        ([Change.ChannelMembersChanged name],
         Ctx.alter (λ m, Model.forget_strangers (Model.alter_channel folded (drop_member (fold who)) m)) ctx)
  end.

(* obby-client/src/session.rs 374-388 quit *)
Definition quit (line : Message.t) (ctx : Ctx.t) : result :=
  let '(channels, m) := Model.remove_everywhere (fold (sender line)) (Ctx.model ctx) in
  let m := Model.forget_strangers m in
  (omap (λ key, channel ← Model.channel m key; Some (Change.ChannelMembersChanged (Channel.name channel))) channels,
   Ctx.set_model m ctx).

(* obby-client/src/session.rs 390-407 kick *)
Definition kick (line : Message.t) (ctx : Ctx.t) : result :=
  match Message.param line 0, Message.param line 1 with
  | Some name, Some target =>
      let folded := fold name in
      if is_me ctx target then
        ([Change.ChannelParted name], Ctx.alter (Model.remove_channel folded) ctx)
      else
        ([Change.ChannelMembersChanged name],
         Ctx.alter (λ m, Model.forget_strangers (Model.alter_channel folded (drop_member (fold target)) m)) ctx)
  | _, _ => ([], ctx)
  end.

(* obby-client/src/session.rs 409-419 nick *)
Definition nick (line : Message.t) (ctx : Ctx.t) : result :=
  match Message.param line 0 with
  | None => ([], ctx)
  | Some to =>
      let from := sender line in
      ([Change.NickChanged from to], Ctx.alter (Model.rename casemapping from to) ctx)
  end.

(* obby-client/src/session.rs 421-433 rename_channel *)
Definition rename_channel (line : Message.t) (ctx : Ctx.t) : result :=
  match Message.param line 0, Message.param line 1 with
  | Some from, Some to =>
      let '(held, m) := Model.rename_channel casemapping from to (Ctx.model ctx) in
      if held then ([Change.ChannelRenamed from to], Ctx.set_model m ctx) else ([], ctx)
  | _, _ => ([], ctx)
  end.

(** *** WHOIS *)

(* obby-client/src/session.rs 440-449 accumulates *)
Definition accumulates (command : text) : bool :=
  bool_decide (command ∈ lit <$> ["311"; "312"; "313"; "317"; "319"; "330"; "338"; "378"; "671"]).

(* obby-client/src/session.rs 468-504 whois *)
Definition whois_field (command : text) (line : Message.t) (r : Whois.t) : Whois.t :=
  let 'Whois.mk nick username host realname server server_info operator idle signon channels account
         actual secure complete := r in
  let closing := Message.trailing line in
  let p := Message.param line in
  if decide (command = lit "311") then
    Whois.mk nick (p 2%nat) (p 3%nat) closing server server_info operator idle signon channels account actual secure complete
  else if decide (command = lit "312") then
    Whois.mk nick username host realname (p 2%nat) closing operator idle signon channels account actual secure complete
  else if decide (command = lit "313") then
    Whois.mk nick username host realname server server_info closing idle signon channels account actual secure complete
  else if decide (command = lit "317") then
    Whois.mk nick username host realname server server_info operator
      (p 2%nat ≫= parse_u64) ((λ seconds, saturating_mul_u64 seconds 1000) <$> (p 3%nat ≫= parse_u64))
      channels account actual secure complete
  else if decide (command = lit "319") then
    Whois.mk nick username host realname server server_info operator idle signon
      (split_whitespace (default [] (p 2%nat))) account actual secure complete
  else if decide (command = lit "330") then
    Whois.mk nick username host realname server server_info operator idle signon channels (p 2%nat) actual secure complete
  else if decide (command = lit "338" ∨ command = lit "378") then
    Whois.mk nick username host realname server server_info operator idle signon channels account
      (match p 3%nat with Some _ => p 2%nat | None => closing end) secure complete
  else if decide (command = lit "671") then
    Whois.mk nick username host realname server server_info operator idle signon channels account actual true complete
  else r.

Definition whois_close (r : Whois.t) : Whois.t :=
  let 'Whois.mk nick username host realname server server_info operator idle signon channels account
         actual secure _ := r in
  Whois.mk nick username host realname server server_info operator idle signon channels account actual secure true.

(* obby-client/src/session.rs 451-506 whois *)
Definition whois (command : text) (line : Message.t) (ctx : Ctx.t) : result :=
  match Message.param line 1 with
  | None => ([], ctx)
  | Some nick =>
      let key := fold nick in
      if decide (command = lit "318") then
        match Model.whois (Ctx.model ctx) !! key with
        | None => ([], ctx)
        | Some _ => ([Change.WhoisReceived nick], Ctx.alter (Model.alter_whois key whois_close) ctx)
        end
      else
        ([], Ctx.alter (λ m,
           Model.alter_whois key (whois_field command line) (Model.whois_or_insert key nick m)) ctx)
  end.

(** *** Topics, names and modes *)

(* obby-client/src/session.rs 519-519 topic *)
Definition non_empty (t : text) : option text := match t with [] => None | _ => Some t end.

(* obby-client/src/session.rs 508-522 topic *)
Definition topic (line : Message.t) (ctx : Ctx.t) : result :=
  match Message.param line 0 with
  | None => ([], ctx)
  | Some name =>
      let folded := fold name in
      match Model.channel (Ctx.model ctx) folded with
      | None => ([], ctx)
      | Some _ =>
          ([Change.ChannelTopicChanged name],
           Ctx.alter (Model.alter_channel folded (λ c,
             Channel.set_topic_by (Some (sender line))
               (Channel.set_topic (non_empty (default [] (Message.param line 1))) c))) ctx)
      end
  end.

(* obby-client/src/session.rs 524-536 topic_reply *)
Definition topic_reply (line : Message.t) (ctx : Ctx.t) : result :=
  match Message.param line 1 with
  | None => ([], ctx)
  | Some name =>
      let folded := fold name in
      match Model.channel (Ctx.model ctx) folded with
      | None => ([], ctx)
      | Some _ =>
          ([Change.ChannelTopicChanged name],
           Ctx.alter (Model.alter_channel folded
             (Channel.set_topic (non_empty (default [] (Message.param line 2))))) ctx)
      end
  end.

(** One entry of NAMES: the prefixes and the nick, without the rest of a hostmask. *)
(* obby-client/src/session.rs 553-555 names *)
Definition names_entry (entry : text) : text * text :=
  let '(prefixes, nick) := Prefix.split (Isupport.prefix isupport) entry in
  (prefixes, default nick (head (split_char chBANG nick))).

(** The loop; [None] is the early return for a channel we are not in. *)
(* obby-client/src/session.rs 552-574 names *)
Fixpoint names_loop (folded : CaseFolded) (entries : list text) (m : Model.t) : option Model.t :=
  match entries with
  | [] => Some m
  | entry :: entries =>
      let '(prefixes, nick) := names_entry entry in
      if decide (nick = []) then names_loop folded entries m
      else
        let key := fold nick in
        match Model.channel m folded with
        | None => None
        | Some _ =>
            let m := Model.alter_person key (Person.set_nick nick) (Model.person_or_insert key nick m) in
            names_loop folded entries (Model.alter_channel folded (alter_member key (λ _, prefixes)) m)
        end
  end.
(* obby-client/src/session.rs 538-576 names *)
Definition names (line : Message.t) (ctx : Ctx.t) : result :=
  match Message.param line 2 with
  | None => ([], ctx)
  | Some name =>
      let entries := split_whitespace (default [] (Message.trailing line)) in
      match names_loop (fold name) entries (Ctx.model ctx) with
      | None => ([], ctx)
      | Some m => ([Change.ChannelMembersChanged name], Ctx.set_model m ctx)
      end
  end.

(** One letter of a channel MODE; the flag says a member's prefixes were touched. *)
(* obby-client/src/session.rs 1023-1052 mode *)
Definition mode_change (order : Prefix.t) (folded : CaseFolded) (st : bool * Model.t) (change : Mode.Change)
    : bool * Model.t :=
  let '(touched, m) := st in
  if Mode.membership change then
    match Mode.arg change, Prefix.char_for_mode order (Mode.mode change) with
    | Some nick, Some prefix =>
        let key := fold nick in
        match c ← Model.channel m folded; Channel.members c !! key with
        | None => (touched, m)
        | Some _ =>
            let f := if Mode.set change then Membership.grant prefix order else Membership.revoke prefix in
            (true, Model.alter_channel folded (λ c, Channel.set_members (alter f key (Channel.members c)) c) m)
        end
    | _, _ => (touched, m)
    end
  else
    (touched, Model.alter_channel folded (λ c,
       Channel.set_modes
         (if Mode.set change then <[Mode.mode change := Mode.arg change]> (Channel.modes c)
          else delete (Mode.mode change) (Channel.modes c)) c) m).

(* obby-client/src/session.rs 1004-1012 mode *)
Definition user_mode_change (modes : text) (change : Mode.Change) : text :=
  if Mode.set change then
    (if contains_char (Mode.mode change) modes then modes else modes ++ [Mode.mode change])
  else filter (λ m, m ≠ Mode.mode change) modes.

(* obby-client/src/session.rs 999-1064 mode *)
Definition mode (line : Message.t) (ctx : Ctx.t) : result :=
  match Message.param line 0 with
  | None => ([], ctx)
  | Some name =>
      if Isupport.is_channel isupport name then
        let changes := Mode.parse_channel_modes isupport (drop 1 (Message.params line)) in
        let '(touched, m) :=
          foldl (mode_change (Isupport.prefix isupport) (fold name)) (false, Ctx.model ctx) changes in
        (Change.ChannelModesChanged name :: (if touched then [Change.ChannelMembersChanged name] else []),
         Ctx.set_model m ctx)
      else
        let changes := Mode.parse_user_modes (default [] (Message.param line 1)) in
        ([], Ctx.alter (λ m,
           let me := Model.me m in
           Model.set_me (LocalUser.set_modes (foldl user_mode_change (LocalUser.modes me) changes) me) m) ctx)
  end.

(** One entry of a named mode change. *)
(* obby-client/src/session.rs 984-995 apply_named *)
Definition named_entry (modes : gmap text (option text)) (entry : text) : gmap text (option text) :=
  match strip_prefix_char chPLUS entry with
  | Some rest =>
      let '(name, param) :=
        match split_once chEQ rest with
        | Some (name, param) => (name, Some param)
        | None => (rest, None)
        end in
      <[name := param]> modes
  | None =>
      match strip_prefix_char chMINUS entry with
      | Some name => delete (default name (head (split_char chEQ name))) modes
      | None => modes
      end
  end.
(* obby-client/src/session.rs 972-997 apply_named *)
Definition apply_named (folded : CaseFolded) (entries : list text) (ctx : Ctx.t) : bool * Ctx.t :=
  match Model.channel (Ctx.model ctx) folded with
  | None => (false, ctx)
  | Some _ =>
      (true, Ctx.alter (Model.alter_channel folded (λ c,
         Channel.set_named_modes (foldl named_entry (Channel.named_modes c) entries) c)) ctx)
  end.
(* obby-client/src/session.rs 932-948 prop *)
Definition prop (line : Message.t) (ctx : Ctx.t) : result :=
  match Message.param line 0 with
  | None => ([], ctx)
  | Some name =>
      let '(held, ctx) := apply_named (fold name) (drop 1 (Message.params line)) ctx in
      (if held then [Change.ChannelModesChanged name] else [], ctx)
  end.
(* obby-client/src/session.rs 950-970 prop_list *)
Definition prop_list (line : Message.t) (ctx : Ctx.t) : result :=
  match Message.param line 1 with
  | None => ([], ctx)
  | Some name =>
      let entries := (cons chPLUS) <$> (drop 2 (Message.params line) ≫= split_whitespace) in
      let '(held, ctx) := apply_named (fold name) entries ctx in
      (if held then [Change.ChannelModesChanged name] else [], ctx)
  end.

(** *** People *)

(* obby-client/src/session.rs 707-714 metadata *)
Definition store_metadata (key : text) (value : option text) (store : gmap text text) : gmap text text :=
  match value with
  | Some value => <[key := value]> store
  | None => delete key store
  end.
(* obby-client/src/session.rs 683-729 metadata *)
Definition metadata (offset : nat) (line : Message.t) (ctx : Ctx.t) : result :=
  match Message.param line offset, Message.param line (offset + 1) with
  | Some target, Some key =>
      let target := if decide (target = lit "*") then LocalUser.nick (Model.me (Ctx.model ctx)) else target in
      let value := if Message.is_command line "766" then None else Message.param line (offset + 3) in
      let folded := fold target in
      let store := store_metadata key value in
      if Isupport.is_channel isupport target then
        match Model.channel (Ctx.model ctx) folded with
        | None => ([], ctx)
        | Some _ =>
            ([Change.MetadataChanged target key],
             Ctx.alter (Model.alter_channel folded (λ c, Channel.set_metadata (store (Channel.metadata c)) c)) ctx)
        end
      else
        let m := Model.person_or_insert folded target (Ctx.model ctx) in
        let m := Model.alter_person folded (λ p, Person.set_metadata (store (Person.metadata p)) p) m in
        let m :=
          if is_me ctx target
          then Model.set_me (LocalUser.set_metadata (store (LocalUser.metadata (Model.me m))) (Model.me m)) m
          else m in
        ([Change.MetadataChanged target key], Ctx.set_model m ctx)
  | _, _ => ([], ctx)
  end.

(* obby-client/src/session.rs 743-764 person_changed *)
Definition person_changed (line : Message.t) (change : Person.t → Person.t) (ctx : Ctx.t) : result :=
  let who := sender line in
  let key := fold who in
  let m := Model.alter_person key change (Model.person_or_insert key who (Ctx.model ctx)) in
  let m :=
    if is_me ctx who then
      let person := default Person.default (Model.person m key) in
      Model.set_me (LocalUser.set_account (Person.account person)
                      (LocalUser.set_away (Person.away person) (Model.me m))) m
    else m in
  ((λ p, Change.ChannelMembersChanged (Channel.name p.2)) <$>
     filter (λ p, is_Some (Channel.members p.2 !! key)) (sorted_items (Model.channels m)),
   Ctx.set_model m ctx).

(* obby-client/src/session.rs 731-735 away *)
Definition away (line : Message.t) (ctx : Ctx.t) : result :=
  person_changed line (Person.set_away (Message.param line 0)) ctx.
(* obby-client/src/session.rs 737-741 account *)
Definition account (line : Message.t) (ctx : Ctx.t) : result :=
  let name :=
    match Message.param line 0 with
    | Some a => if decide (a = lit "*") then None else Some a
    | None => None
    end in
  person_changed line (Person.set_account name) ctx.

(* obby-client/src/session.rs 766-793 mark_read *)
Definition mark_read (line : Message.t) (ctx : Ctx.t) : result :=
  match Message.param line 0, Message.param line 1 with
  | Some name, Some timestamp =>
      let marker := default timestamp (strip_prefix "timestamp=" timestamp) in
      let folded := fold name in
      match Model.channel (Ctx.model ctx) folded with
      | Some _ =>
          ([Change.ReadMarkerMoved name],
           Ctx.alter (Model.alter_channel folded (λ c,
             Channel.set_counts 0 0 (Channel.set_read_marker (Some marker) c))) ctx)
      | None =>
          match Model.conversation (Ctx.model ctx) folded with
          | Some _ =>
              ([Change.ReadMarkerMoved name],
               Ctx.alter (Model.alter_conversation folded (λ q,
                 Conversation.set_unread 0 (Conversation.set_read_marker (Some marker) q))) ctx)
          | None => ([], ctx)
          end
      end
  | _, _ => ([], ctx)
  end.

(* obby-client/src/session.rs 898-918 apply_who *)
Definition who_person (row : WhoRow.t) (p : Person.t) : Person.t :=
  let flags := WhoRow.flags row in
  Person.mk (WhoRow.nick row)
    (match WhoRow.account row with
     | Account.Unknown => Person.account p
     | Account.LoggedOut => None
     | Account.As account => Some account
     end)
    (if starts_with_char 71%N flags then Some (default [] (Person.away p)) else None)
    (contains_char 66%N flags)
    (Some (WhoRow.user row)) (Some (WhoRow.host row))
    (match WhoRow.realname row with Some r => Some r | None => Person.realname p end)
    (contains_char chSTAR flags) (Person.metadata p).
(* obby-client/src/session.rs 888-930 apply_who *)
Definition apply_who (row : WhoRow.t) (ctx : Ctx.t) : result :=
  let key := fold (WhoRow.nick row) in
  let prefixes :=
    filter (λ c, is_Some (Prefix.rank (Isupport.prefix isupport) c)) (WhoRow.flags row) in
  let m := Model.person_or_insert key (WhoRow.nick row) (Ctx.model ctx) in
  let m := Model.alter_person key (who_person row) m in
  let name := WhoRow.channel row in
  if Isupport.is_channel isupport name then
    let folded := fold name in
    match Model.channel m folded with
    | None => ([], Ctx.set_model m ctx)
    | Some _ =>
        ([Change.ChannelMembersChanged name],
         Ctx.set_model (Model.alter_channel folded (alter_member key (λ _, prefixes)) m) ctx)
    end
  else ([], Ctx.set_model m ctx).

(* obby-client/src/session.rs 795-826 who_reply *)
Definition who_reply (line : Message.t) (ctx : Ctx.t) : result :=
  let p := Message.param line in
  match p 1%nat, p 2%nat, p 3%nat, p 5%nat, p 6%nat with
  | Some channel, Some user, Some host, Some nick, Some flags =>
      let realname := snd <$> (Message.trailing line ≫= split_once chSPACE) in
      apply_who (WhoRow.mk channel nick user host flags Account.Unknown realname) ctx
  | _, _, _, _, _ => ([], ctx)
  end.
(* obby-client/src/session.rs 828-862 whox_reply *)
Definition whox_reply (line : Message.t) (ctx : Ctx.t) : result :=
  let p := Message.param line in
  if decide (p 1%nat = Some WHOX_TOKEN) then
    match p 2%nat, p 3%nat, p 4%nat, p 5%nat, p 6%nat, p 7%nat with
    | Some channel, Some user, Some host, Some nick, Some flags, Some account =>
        let account :=
          if decide (account = lit "0" ∨ account = lit "*") then Account.LoggedOut else Account.As account in
        apply_who (WhoRow.mk channel nick user host flags account (p 8%nat)) ctx
    | _, _, _, _, _, _ => ([], ctx)
    end
  else ([], ctx).

(** *** The dispatch *)

Definition is_any (command : text) (names : list string) : bool := bool_decide (command ∈ lit <$> names).

(* obby-client/src/session.rs 186-219 apply *)
Definition apply (line : Message.t) (ctx : Ctx.t) : result :=
  let command := ascii_upper (Message.command line) in
  if is_any command ["PRIVMSG"; "NOTICE"; "TAGMSG"]%string then message command line ctx
  else if is_any command ["JOIN"]%string then join line ctx
  else if is_any command ["PART"]%string then part line ctx
  else if is_any command ["QUIT"]%string then quit line ctx
  else if is_any command ["KICK"]%string then kick line ctx
  else if is_any command ["NICK"]%string then nick line ctx
  else if is_any command ["RENAME"]%string then rename_channel line ctx
  else if is_any command ["TOPIC"]%string then topic line ctx
  else if is_any command ["MODE"]%string then mode line ctx
  else if is_any command ["332"]%string then topic_reply line ctx
  else if is_any command ["MARKREAD"]%string then mark_read line ctx
  else if is_any command ["REDACT"]%string then redact line ctx
  else if is_any command ["AWAY"]%string then away line ctx
  else if is_any command ["ACCOUNT"]%string then account line ctx
  else if is_any command ["METADATA"]%string then metadata 0 line ctx
  else if is_any command ["760"; "761"; "766"]%string then metadata 1 line ctx
  else if is_any command ["311"; "312"; "313"; "317"; "318"; "319"; "330"; "338"; "378"; "671"]%string
  then whois command line ctx
  else if is_any command ["353"]%string then names line ctx
  else if is_any command ["352"]%string then who_reply line ctx
  else if is_any command ["354"]%string then whox_reply line ctx
  else if is_any command ["PROP"]%string then prop line ctx
  else if is_any command ["961"]%string then prop_list line ctx
  else ([], ctx).
End handlers.
End Session.

(** ** Mentions *)

Lemma find_str_first needle t a b :
  find_str needle t = Some (a, b) →
  ∀ a' b', t = a' ++ needle ++ b' → (length a <= length a')%nat.
Proof.
  revert a b. induction t as [|c t IH]; intros a b; simpl.
  - case_decide; [|done]. intros ?; simplify_eq. simpl. lia.
  - case_decide as Hp; [intros ?; simplify_eq; simpl; lia|].
    destruct (find_str needle t) as [[a0 b0]|] eqn:E; [|done]. intros ? a' b' Ht; simplify_eq/=.
    destruct a' as [|c' a']; simpl in Ht.
    + exfalso. apply Hp. exists b'. by apply strip_prefix_Some.
    + injection Ht as -> Ht. specialize (IH _ _ eq_refl a' b' Ht). simpl. lia.
Qed.

Lemma find_str_None needle t : find_str needle t = None → ∀ a b, t ≠ a ++ needle ++ b.
Proof.
  induction t as [|c t IH]; simpl; intros H a b Ht.
  - symmetry in Ht. apply app_nil in Ht as [-> [-> ->]%app_nil]. case_decide as Hp; [done|]. apply Hp. by eexists.
  - case_decide as Hp; [done|]. destruct (find_str needle t) as [[??]|] eqn:E; [done|].
    destruct a as [|c' a]; simpl in Ht.
    + apply Hp. exists b. by apply strip_prefix_Some.
    + injection Ht as -> Ht. by eapply IH.
Qed.

(** The needle stands in the text with no nick character on either side, where
    [before] is what precedes the text. *)
Definition stands_alone `{Unicode} (needle : text) (before : option char) (t : text) : Prop :=
  ∃ pre post, t = pre ++ needle ++ post
    ∧ Mention.edge (match last pre with Some c => Some c | None => before end) = false
    ∧ Mention.edge (head post) = false.

Lemma last_app_or {A} (a b : list A) : last (a ++ b) = match last b with Some x => Some x | None => last a end.
Proof. rewrite last_app. by destruct (last b). Qed.

Lemma search_sound `{Unicode} fuel needle before t :
  needle ≠ [] → Mention.search fuel needle before t = true → stands_alone needle before t.
Proof.
  intros Hn. revert before t. induction fuel as [|fuel IH]; intros before t; simpl; [done|].
  destruct (find_str needle t) as [[a b]|] eqn:E; [|done].
  apply find_str_Some in E as [-> [post Hp]]. apply strip_prefix_Some in Hp as ->.
  rewrite drop_app_length. case_match eqn:Hedge.
  - intros _. exists a, post. apply andb_prop in Hedge as [H1%negb_true_iff H2%negb_true_iff]. done.
  - intros (pre & post' & -> & H1 & H2)%IH. exists (a ++ needle ++ pre), post'.
    split; [by rewrite <- !app_assoc|]. split; [|done].
    rewrite !last_app_or. revert H1. destruct (last pre); [done|]. destruct (last needle) eqn:El; [done|].
    by apply last_None in El.
Qed.

Lemma search_complete `{Unicode} fuel needle before t :
  needle ≠ [] → Forall (λ c, Mention.is_nick_char c = true) needle → (length t < fuel)%nat →
  stands_alone needle before t → Mention.search fuel needle before t = true.
Proof.
  intros Hn Hall. revert before t. induction fuel as [|fuel IH]; intros before t Hf (pre & post & -> & H1 & H2); [lia|].
  simpl. destruct (find_str needle _) as [[a b]|] eqn:E; [|by eapply find_str_None in E].
  pose proof (find_str_first _ _ _ _ E _ _ eq_refl) as Hle.
  apply find_str_Some in E as [Heq [rest Hp]]. apply strip_prefix_Some in Hp as ->.
  rewrite drop_app_length.
  destruct (negb (Mention.edge _) && _) eqn:Hedge; [done|].
  assert (length needle ≠ 0%nat) as Hlen by by destruct needle.
  assert (∃ pre', pre = a ++ pre') as [pre' ->].
  { exists (drop (length a) pre). rewrite <- (take_drop (length a) pre) at 1. f_equal.
    apply (f_equal (take (length a))) in Heq.
    rewrite take_app_le, take_app_length in Heq by done. done. }
  rewrite <- app_assoc in Heq. apply app_inv_head in Heq.
  destruct (decide (length needle <= length pre')%nat) as [Hfar|Hnear].
  - assert (∃ pre'', pre' = needle ++ pre'') as [pre'' ->].
    { exists (drop (length needle) pre'). rewrite <- (take_drop (length needle) pre') at 1. f_equal.
      apply (f_equal (take (length needle))) in Heq.
      by rewrite take_app_le, take_app_length in Heq by done. }
    rewrite <- app_assoc in Heq. apply app_inv_head in Heq as <-. apply IH.
    + rewrite !length_app in *. lia.
    + exists pre'', post. split; [done|]. split; [|done].
      rewrite !last_app_or in H1. revert H1. destruct (last pre''); [done|].
      destruct (last needle) eqn:El; [done|]. by apply last_None in El.
  - destruct pre' as [|c0 pre0] eqn:Epre.
    + simpl in Heq. apply app_inv_head in Heq as <-. rewrite app_nil_r in H1. by rewrite H1, H2 in Hedge.
    + exfalso. rewrite <- Epre in *. assert (∃ x, last pre' = Some x) as [x Hx].
      { destruct (last pre') eqn:El; [eauto|]. apply last_None in El. by rewrite El in Epre. }
      rewrite last_app_or, Hx in H1. simpl in H1.
      assert (x ∈ needle) as Hin.
      { apply last_Some_elem_of in Hx. apply (f_equal (take (length pre'))) in Heq.
        rewrite take_app_length, take_app_le in Heq by lia. rewrite Heq in Hx.
        rewrite <- (take_drop (length pre') needle). apply elem_of_app. by left. }
      rewrite Forall_forall in Hall. rewrite Hall in H1; [done|exact Hin].
Qed.

(** A text mentions a nick made of nick characters exactly when, both folded under the
    server's casemapping, the nick occurs in it somewhere with no nick character next
    to it: never inside a longer nick, and never missed behind an occurrence that is
    inside one. *)
Theorem mentions_iff `{Unicode} (cm : Casemapping.t) (body nick : text) :
  nick ≠ [] → Forall (λ c, Mention.is_nick_char c = true) (Casemapping.fold cm nick) →
  Mention.mentions cm body nick = true ↔
  ∃ pre post, Casemapping.fold cm body = pre ++ Casemapping.fold cm nick ++ post
    ∧ Mention.edge (last pre) = false ∧ Mention.edge (head post) = false.
Proof.
  intros Hn Hall. unfold Mention.mentions. rewrite decide_False by done.
  fold (Casemapping.fold cm body).
  assert (Casemapping.fold cm nick ≠ []) as Hn' by (unfold Casemapping.fold; by destruct nick).
  split.
  - intros (pre & post & H1 & H2 & H3)%search_sound; [|done]. exists pre, post. by destruct (last pre).
  - intros (pre & post & H1 & H2 & H3). apply search_complete; [done..|lia|].
    exists pre, post. by destruct (last pre).
Qed.

(** The ASCII part of the table, for evaluating examples. *)
Definition ascii_table : Unicode := is_ascii_alphanumeric.
#[local] Instance ascii_table_laws : UnicodeLaws ascii_table.
Proof. intros c _. done. Qed.

Lemma mentions_iff_witness :
  @Mention.mentions ascii_table Casemapping.Rfc1459 "bobby: ask {BOB}!" "[bob]" = true.
Proof.
  apply (@mentions_iff ascii_table Casemapping.Rfc1459 "bobby: ask {BOB}!" "[bob]"); [done| |].
  - repeat constructor.
  - exists "bobby: ask ", "!". by vm_compute.
Defined.

(** ** What a line may do to the model *)

(** The model stays well formed, no channel appears and no sequence number is spent. *)
Definition steady (m m' : Model.t) : Prop :=
  (wf_model m → wf_model m') ∧ Model.next_seq m' = Model.next_seq m
  ∧ dom (Model.channels m') ⊆ dom (Model.channels m).

#[export] Instance steady_preorder : PreOrder steady.
Proof.
  split; [intros m; unfold steady; by split_and!|]. intros a b c (H1 & H2 & H3) (H4 & H5 & H6).
  unfold steady; split_and!; [tauto|congruence|set_solver].
Qed.

Ltac split_steady := unfold steady; split_and!.

Lemma steady_set_me u m : steady m (Model.set_me u m).
Proof. split_steady; [apply wf_set_me|done..]. Qed.
Lemma steady_person_or_insert key n m : steady m (Model.person_or_insert key n m).
Proof. split_steady; [apply wf_person_or_insert|unfold Model.person_or_insert; by case_match..]. Qed.
Lemma steady_alter_person key f m : steady m (Model.alter_person key f m).
Proof. split_steady; [apply wf_set_people|done..]. Qed.
Lemma steady_alter_channel key f m : keeps_counts f → steady m (Model.alter_channel key f m).
Proof. intros Hf. split_steady; [by apply wf_alter_channel|done|]. simpl. by rewrite dom_alter_L. Qed.
Lemma steady_remove_channel key m : steady m (Model.remove_channel key m).
Proof. split_steady; [apply wf_remove_channel|done|]. simpl. set_solver. Qed.
Lemma steady_forget_strangers m : steady m (Model.forget_strangers m).
Proof. split_steady; [apply wf_forget_strangers|done..]. Qed.
Lemma steady_remove_everywhere who m : steady m (Model.remove_everywhere who m).2.
Proof. split_steady; [apply wf_remove_everywhere|done|]. simpl. by rewrite dom_fmap_L. Qed.
Lemma steady_rename cm from to m : steady m (Model.rename cm from to m).
Proof. split_steady; [apply wf_rename|done|]. simpl. by rewrite dom_fmap_L. Qed.
Lemma steady_whois_or_insert key n m : steady m (Model.whois_or_insert key n m).
Proof. split_steady; [apply wf_whois_or_insert|done..]. Qed.
Lemma steady_alter_whois key f m : steady m (Model.alter_whois key f m).
Proof. split_steady; [apply wf_alter_whois|done..]. Qed.

Lemma steady_alter_target_message folded msgid f m :
  (∀ c, Chat.key (f c) = Chat.key c ∧ Chat.msgid (f c) = Chat.msgid c) →
  steady m (Session.alter_target_message folded msgid f m).
Proof.
  intros Hf. unfold Session.alter_target_message. case_match; split_steady; simpl; try done.
  - intros [Hr Hc Hq Hw Hs]. split; simpl; [done| |done..]. apply map_Forall_alter'; [done|].
    intros c0 _ [H1 H2]. split; [|done]. by apply wf_model_log_alter.
  - by rewrite dom_alter_L.
  - intros [Hr Hc Hq Hw Hs]. split; simpl; [done..| |done|done]. apply map_Forall_alter'; [done|].
    intros q _ [H1 H2]. split; [|done]. by apply wf_model_log_alter.
Qed.

(** Clearing the counts is a change to a channel that keeps the invariant. *)
Lemma steady_clear_channel key f m :
  (∀ c, Channel.log (f c) = Channel.log c ∧ Channel.unread (f c) = 0 ∧ Channel.mentions (f c) = 0) →
  steady m (Model.alter_channel key f m).
Proof.
  intros Hf. split_steady; simpl; [|done|by rewrite dom_alter_L].
  intros [Hr Hc Hq Hw Hs]. split; simpl; [done| |done..]. apply map_Forall_alter'; [done|].
  intros c _ [H1 H2]. destruct (Hf c) as (-> & -> & ->). split; [done|]. unfold u32_max. lia.
Qed.
Lemma steady_clear_conversation key f m :
  (∀ q, Conversation.log (f q) = Conversation.log q ∧ Conversation.unread (f q) = 0) →
  steady m (Model.alter_conversation key f m).
Proof.
  intros Hf. split_steady; simpl; [|done..].
  intros [Hr Hc Hq Hw Hs]. split; simpl; [done..| |done|done]. apply map_Forall_alter'; [done|].
  intros q _ [H1 H2]. destruct (Hf q) as (-> & ->). split; [done|]. unfold u32_max. lia.
Qed.

#[export] Hint Resolve steady_set_me steady_person_or_insert steady_alter_person steady_remove_channel
  steady_forget_strangers steady_remove_everywhere steady_rename steady_whois_or_insert steady_alter_whois : steady.

(** Peel the operations off a model one at a time. *)
Ltac steady :=
  repeat match goal with
  | |- steady ?m ?m => reflexivity
  | |- steady _ (Model.alter_channel _ _ _) =>
      etransitivity; [|apply steady_alter_channel; intros ?; by split_and!]
  | |- steady _ (Session.alter_target_message _ _ _ _) =>
      etransitivity; [|apply steady_alter_target_message; intros ?; by split]
  | |- steady _ (if ?b then _ else _) => destruct b
  | |- steady _ (match ?b with _ => _ end) => destruct b
  | |- steady _ (?f _) => etransitivity; [|by eauto with steady]
  | |- steady _ (?f _ _) => etransitivity; [|by eauto with steady]
  | |- steady _ _ => etransitivity; [|by eauto with steady]
  end.

(** A handler's result: the model is left steady and the clock alone. *)
Definition steady_result (ctx : Ctx.t) (r : Session.result) : Prop :=
  steady (Ctx.model ctx) (Ctx.model r.2) ∧ Ctx.latest_ms r.2 = Ctx.latest_ms ctx.

Section steady.
Context `{Unicode} (isupport : Isupport.t) (historical : bool).

Ltac handler :=
  repeat (case_match; try (by split)); simplify_eq/=; split; cbn [fst snd Ctx.model Ctx.latest_ms Ctx.alter Ctx.set_model];
  try done; try (by steady).

Lemma part_steady line ctx : steady_result ctx (Session.part isupport line ctx).
Proof. unfold Session.part. handler. Qed.
Lemma quit_steady line ctx : steady_result ctx (Session.quit isupport line ctx).
Proof.
  unfold Session.quit. pose proof (steady_remove_everywhere (Session.fold isupport (Session.sender line)) (Ctx.model ctx)).
  destruct (Model.remove_everywhere _ _) as [left m]. split; [|done]. simpl. by steady.
Qed.
Lemma kick_steady line ctx : steady_result ctx (Session.kick isupport line ctx).
Proof. unfold Session.kick. handler. Qed.
Lemma nick_steady line ctx : steady_result ctx (Session.nick isupport line ctx).
Proof. unfold Session.nick. handler. Qed.
Lemma whois_steady command line ctx : steady_result ctx (Session.whois isupport command line ctx).
Proof. unfold Session.whois. handler. Qed.
Lemma topic_steady line ctx : steady_result ctx (Session.topic isupport line ctx).
Proof. unfold Session.topic. handler. Qed.
Lemma topic_reply_steady line ctx : steady_result ctx (Session.topic_reply isupport line ctx).
Proof. unfold Session.topic_reply. handler. Qed.
Lemma redact_steady line ctx : steady_result ctx (Session.redact isupport line ctx).
Proof. unfold Session.redact. handler. Qed.
Lemma metadata_steady offset line ctx : steady_result ctx (Session.metadata isupport offset line ctx).
Proof. unfold Session.metadata. handler. Qed.
Lemma person_changed_steady line f ctx : steady_result ctx (Session.person_changed isupport line f ctx).
Proof. unfold Session.person_changed. handler. Qed.
Lemma away_steady line ctx : steady_result ctx (Session.away isupport line ctx).
Proof. unfold Session.away. apply person_changed_steady. Qed.
Lemma account_steady line ctx : steady_result ctx (Session.account isupport line ctx).
Proof. unfold Session.account. apply person_changed_steady. Qed.
Lemma apply_who_steady row ctx : steady_result ctx (Session.apply_who isupport row ctx).
Proof. unfold Session.apply_who. handler. Qed.
Lemma who_reply_steady line ctx : steady_result ctx (Session.who_reply isupport line ctx).
Proof. unfold Session.who_reply. repeat (case_match; [|by split]). apply apply_who_steady. Qed.
Lemma whox_reply_steady line ctx : steady_result ctx (Session.whox_reply isupport line ctx).
Proof.
  unfold Session.whox_reply. case_decide; [|by split]. repeat (case_match; [|by split]). apply apply_who_steady.
Qed.
Lemma apply_named_steady folded entries ctx :
  steady (Ctx.model ctx) (Ctx.model (Session.apply_named folded entries ctx).2)
  ∧ Ctx.latest_ms (Session.apply_named folded entries ctx).2 = Ctx.latest_ms ctx.
Proof. unfold Session.apply_named. handler. Qed.
Lemma prop_steady line ctx : steady_result ctx (Session.prop isupport line ctx).
Proof.
  unfold Session.prop. case_match; [|by split].
  match goal with |- context [Session.apply_named ?f ?e ctx] => pose proof (apply_named_steady f e ctx) as Hs end.
  by destruct (Session.apply_named _ _ _).
Qed.
Lemma prop_list_steady line ctx : steady_result ctx (Session.prop_list isupport line ctx).
Proof.
  unfold Session.prop_list. case_match; [|by split].
  match goal with |- context [Session.apply_named ?f ?e ctx] => pose proof (apply_named_steady f e ctx) as Hs end.
  by destruct (Session.apply_named _ _ _).
Qed.
Lemma mark_read_steady line ctx : steady_result ctx (Session.mark_read isupport line ctx).
Proof.
  unfold Session.mark_read. repeat (case_match; try (by split)); split; try done; simpl.
  - apply steady_clear_channel. by intros.
  - apply steady_clear_conversation. by intros.
Qed.

Lemma names_loop_steady folded entries m m' :
  Session.names_loop isupport folded entries m = Some m' → steady m m'.
Proof.
  revert m. induction entries as [|e entries IH]; intros m; simpl; [intros ?; by simplify_eq|].
  destruct (Session.names_entry isupport e) as [prefixes nick]. case_decide; [apply IH|].
  case_match; [|done]. intros Hrun%IH. etransitivity; [|exact Hrun]. steady.
Qed.
Lemma names_steady line ctx : steady_result ctx (Session.names isupport line ctx).
Proof.
  unfold Session.names. case_match; [|by split]. case_match eqn:E; [|by split]. split; [|done].
  by eapply names_loop_steady.
Qed.
Lemma mode_change_steady order folded st change :
  steady st.2 (Session.mode_change isupport order folded st change).2.
Proof. destruct st as [b m]. unfold Session.mode_change. repeat case_match; cbn [snd]; steady. Qed.
Lemma mode_steady line ctx : steady_result ctx (Session.mode isupport line ctx).
Proof.
  unfold Session.mode. case_match; [|by split]. case_match; [|split; simpl; [steady|done]].
  match goal with |- context [foldl ?f ?a ?l] => assert (steady a.2 (foldl f a l).2) as Hs end.
  { generalize (Mode.parse_channel_modes isupport (drop 1 (Message.params line))) as cs. intros cs.
    generalize (false, Ctx.model ctx) as a. induction cs as [|c cs IH]; intros a; simpl; [done|].
    etransitivity; [apply mode_change_steady|apply IH]. }
  by destruct (foldl _ _ _).
Qed.
Lemma reaction_steady line ctx r : Session.reaction isupport line ctx = Some r → steady_result ctx r.
Proof.
  unfold Session.reaction. intros E. repeat (apply bind_Some in E as (? & ? & E); try case_match).
  simplify_eq/=. split; [simpl; steady|done].
Qed.
Lemma link_preview_steady line ctx r : Session.link_preview isupport line ctx = Some r → steady_result ctx r.
Proof.
  unfold Session.link_preview. intros E. apply bind_Some in E as ([msgid p] & ? & E). simplify_eq.
  repeat case_match; split; try done; simpl; steady.
Qed.
End steady.

(** *** The three lines that do more *)

(** The model after the key of a message was taken from it. *)
Lemma next_key_spec t m :
  0 <= Model.next_seq m < u64_max →
  Model.next_message_key t m = ((t, Model.next_seq m),
    Model.mk (Model.me m) (Model.channels m) (Model.conversations m) (Model.people m) (Model.whois m)
      (Model.retention m) (Model.next_seq m + 1)).
Proof.
  intros Hs. unfold Model.next_message_key, wrapping_add_u64, u64_max in *. rewrite Z.mod_small by lia. done.
Qed.

Lemma saturating_add_u32_bounds a : 0 <= a <= u32_max → a <= saturating_add_u32 a 1 <= u32_max.
Proof. unfold saturating_add_u32, u32_max. lia. Qed.

Lemma saturating_bump a b : b <= a <= u32_max → saturating_add_u32 b 1 <= saturating_add_u32 a 1.
Proof. unfold saturating_add_u32, u32_max. lia. Qed.

Lemma conversation_or_insert_lookup key n m :
  ∃ q, Model.conversation (Model.conversation_or_insert key n m) key = Some q
    ∧ q = default (Conversation.named n (Log.with_retention (Model.retention m))) (Model.conversation m key).
Proof.
  unfold Model.conversation_or_insert, Model.conversation. destruct (Model.conversations m !! key) as [q|] eqn:E.
  - by exists q.
  - eexists. simpl. by rewrite lookup_insert_eq.
Qed.

Section message.
Context `{Unicode} (isupport : Isupport.t) (historical : bool).

(** The model just after the key was taken: logs hold only older numbers. *)
Record keyed (n : Z) (m : Model.t) : Prop := {
  keyed_wf : wf_model m;
  keyed_next : Model.next_seq m = n + 1;
  keyed_nonneg : 0 <= n;
  keyed_channels : map_Forall (λ _ c, wf_model_log (Model.retention m) n (Channel.log c)) (Model.channels m);
  keyed_conversations :
    map_Forall (λ _ q, wf_model_log (Model.retention m) n (Conversation.log q)) (Model.conversations m);
}.

Lemma next_keyed t m :
  wf_model m → Model.next_seq m < u64_max → keyed (Model.next_seq m) (Model.next_message_key t m).2.
Proof.
  intros [Hr Hc Hq Hw Hs] Hn. rewrite next_key_spec by lia. split; simpl; [|done|lia|..].
  - split; simpl; [done|..|done|lia].
    + intros k c Hk. destruct (Hc k c Hk) as [H1 H2]. split; [|done]. eapply wf_model_log_later; [done|lia].
    + intros k q Hk. destruct (Hq k q Hk) as [H1 H2]. split; [|done]. eapply wf_model_log_later; [done|lia].
  - intros k c Hk. apply (Hc k c Hk).
  - intros k q Hk. apply (Hq k q Hk).
Qed.

Lemma keyed_conversation_or_insert n key nick m :
  keyed n m → keyed n (Model.conversation_or_insert key nick m).
Proof.
  intros [Hwf Hn Hp Hc Hq]. pose proof (wf_conversation_or_insert key nick m Hwf) as Hwf'.
  unfold Model.conversation_or_insert in *. destruct (Model.conversations m !! key); [by split|].
  split; simpl; [done..|]. apply map_Forall_insert_2; [|done]. apply wf_model_log_new, Hwf.
Qed.

Lemma file_wf n name is_channel message counts addressed ctx :
  keyed n (Ctx.model ctx) → seq_no (Chat.key message) = n →
  wf_model (Ctx.model (Session.file isupport name is_channel message counts addressed ctx).2).
Proof.
  intros Hk Hseq. unfold Session.file. destruct is_channel.
  - unfold Model.channel. destruct (Model.channels (Ctx.model ctx) !! _) as [c|] eqn:Ec; [|apply Hk].
    destruct Hk as [[Hr Hc Hq Hw Hs] Hn Hp Hcs Hqs].
    pose proof (wf_model_log_insert _ n (Channel.log c) message (Hcs _ _ Ec) Hseq Hp) as Hlog.
    destruct (Log.insert message (Channel.log c)) as [accepted log] eqn:Ei.
    split; simpl; [done| |done..]. apply map_Forall_alter'; [done|].
    intros v Hv [H1 H2]. simpl in *. rewrite Hn.
    split; [exact Hlog|]. destruct H2 as [Hm Hu].
    pose proof (saturating_add_u32_bounds (Channel.unread v)). pose proof (saturating_add_u32_bounds (Channel.mentions v)).
    pose proof (saturating_bump (Channel.unread v) (Channel.mentions v)).
    destruct accepted, counts, addressed; simpl; lia.
  - apply (keyed_conversation_or_insert _ (Session.fold isupport name) name) in Hk.
    destruct (conversation_or_insert_lookup (Session.fold isupport name) name (Ctx.model ctx)) as (q & Eq & _).
    rewrite Eq. destruct Hk as [[Hr Hc Hq Hw Hs] Hn Hp Hcs Hqs].
    pose proof (wf_model_log_insert _ n (Conversation.log q) message (Hqs _ _ Eq) Hseq Hp) as Hlog.
    destruct (Log.insert message (Conversation.log q)) as [accepted log] eqn:Ei.
    split; simpl; [done..| |done|done]. apply map_Forall_alter'; [done|].
    intros v Hv [H1 H2]. simpl in *. rewrite Hn. split; [exact Hlog|].
    pose proof (saturating_add_u32_bounds (Conversation.unread v)). destruct accepted, counts; simpl; lia.
Qed.

Lemma file_rest name is_channel message counts addressed ctx :
  let ctx' := (Session.file isupport name is_channel message counts addressed ctx).2 in
  Model.next_seq (Ctx.model ctx') = Model.next_seq (Ctx.model ctx)
  ∧ dom (Model.channels (Ctx.model ctx')) = dom (Model.channels (Ctx.model ctx))
  ∧ Ctx.latest_ms ctx' = Ctx.latest_ms ctx.
Proof.
  unfold Session.file. destruct is_channel.
  - case_match; [|done]. destruct (Log.insert _ _). simpl. by rewrite dom_alter_L.
  - assert (∀ k n m, Model.next_seq (Model.conversation_or_insert k n m) = Model.next_seq m
      ∧ Model.channels (Model.conversation_or_insert k n m) = Model.channels m) as Hci.
    { intros k n m. unfold Model.conversation_or_insert. by case_match. }
    case_match; [|done]. destruct (Log.insert _ _). simpl.
    by destruct (Hci (Session.fold isupport name) name (Ctx.model ctx)) as [-> ->].
Qed.

Lemma build_key key command line own : Chat.key (Session.build historical key command line own) = key.
Proof. unfold Session.build. by destruct (Session.kind_and_text _ _). Qed.

Lemma ordinary_wf target command line ctx :
  wf_model (Ctx.model ctx) → Model.next_seq (Ctx.model ctx) < u64_max →
  let ctx' := (Session.ordinary isupport historical target command line ctx).2 in
  wf_model (Ctx.model ctx')
  ∧ Model.next_seq (Ctx.model ctx') = Model.next_seq (Ctx.model ctx) + 1
  ∧ dom (Model.channels (Ctx.model ctx')) = dom (Model.channels (Ctx.model ctx))
  ∧ Ctx.latest_ms ctx <= Ctx.latest_ms ctx'.
Proof.
  intros Hwf Hn. unfold Session.ordinary, Session.stamp. cbv zeta beta iota. cbn [Ctx.model].
  match goal with |- context [Model.next_message_key ?t _] => generalize t; intros time end.
  pose proof (next_keyed time _ Hwf Hn) as Hk. rewrite next_key_spec in * by (destruct Hwf; lia). cbn [snd] in Hk.
  match goal with |- context [Session.filed_under ?i ?a ?b ?c] => destruct (Session.filed_under i a b c) as [name is_channel] end.
  match goal with |- context [Session.file ?i ?n ?b ?m ?c ?d ?x] =>
    pose proof (file_rest n b m c d x) as (H1 & H2 & H3);
    pose proof (file_wf (Model.next_seq (Ctx.model ctx)) n b m c d x Hk) as Hf end.
  split_and!.
  - apply Hf. by rewrite build_key.
  - rewrite H1. done.
  - rewrite H2. done.
  - rewrite H3. simpl. lia.
Qed.

Lemma message_special command line ctx target :
  Message.param line 0 = Some target →
  steady_result ctx (Session.message isupport historical command line ctx)
  ∨ Session.message isupport historical command line ctx
    = Session.ordinary isupport historical target command line ctx.
Proof.
  intros E. unfold Session.message. rewrite E. case_decide; [|by right].
  destruct (Session.reaction _ _ _) as [r|] eqn:Er; [left; by eapply reaction_steady|].
  destruct (Session.link_preview _ _ _) as [r|] eqn:El; [left; by eapply link_preview_steady|by right].
Qed.

Lemma join_wf line ctx :
  let ctx' := (Session.join isupport line ctx).2 in
  (wf_model (Ctx.model ctx) → wf_model (Ctx.model ctx'))
  ∧ Model.next_seq (Ctx.model ctx') = Model.next_seq (Ctx.model ctx)
  ∧ Ctx.latest_ms ctx' = Ctx.latest_ms ctx
  ∧ (∀ k, k ∈ dom (Model.channels (Ctx.model ctx')) → k ∈ dom (Model.channels (Ctx.model ctx))
       ∨ Session.is_me isupport ctx (Session.sender line) = true
         ∧ ∃ name, Message.param line 0 = Some name ∧ k = Session.fold isupport name).
Proof.
  unfold Session.join. destruct (Message.param line 0) as [name|]; [|split_and!; auto].
  destruct (Session.is_me _ _ _) eqn:Eme; cbn [snd Ctx.alter Ctx.model Ctx.latest_ms].
  - split_and!; [apply wf_channel_or_insert|by unfold Model.channel_or_insert; case_match|done|].
    intros k. unfold Model.channel_or_insert. case_match; [by left|]. simpl. rewrite dom_insert_L.
    intros [->%elem_of_singleton|?]%elem_of_union; [right; eauto|by left].
  - match goal with |- context [match ?c with Some _ => _ | None => _ end] =>
      lazymatch c with Model.channel _ _ => destruct c end end; [|split_and!; auto].
    cbn [snd Ctx.set_model Ctx.model Ctx.latest_ms].
    match goal with |- context [wf_model ?a → wf_model ?b] => assert (steady a b) as (H1 & H2 & H3) by steady end.
    split_and!; [done..|]. intros k Hk. left. by apply H3.
Qed.

Lemma rename_channel_wf line ctx :
  let ctx' := (Session.rename_channel isupport line ctx).2 in
  (wf_model (Ctx.model ctx) → wf_model (Ctx.model ctx'))
  ∧ Model.next_seq (Ctx.model ctx') = Model.next_seq (Ctx.model ctx)
  ∧ Ctx.latest_ms ctx' = Ctx.latest_ms ctx
  ∧ (∀ k, k ∈ dom (Model.channels (Ctx.model ctx')) → k ∈ dom (Model.channels (Ctx.model ctx))
       ∨ ∃ from to, Message.param line 0 = Some from ∧ Message.param line 1 = Some to
           ∧ Session.fold isupport from ∈ dom (Model.channels (Ctx.model ctx)) ∧ k = Session.fold isupport to).
Proof.
  unfold Session.rename_channel.
  destruct (Message.param line 0) as [from|]; [|split_and!; auto].
  destruct (Message.param line 1) as [to|]; [|split_and!; auto].
  pose proof (wf_rename_channel (Session.casemapping isupport) from to (Ctx.model ctx)) as Hwf.
  unfold Model.rename_channel in *. destruct (Model.channels (Ctx.model ctx) !! _) as [c|] eqn:E; [|split_and!; auto].
  cbn [snd Ctx.set_model Ctx.model Ctx.latest_ms] in *. split_and!; [done..|].
  intros k. simpl. rewrite dom_insert_L, dom_delete_L.
  intros [->%elem_of_singleton|[? _]%elem_of_difference]%elem_of_union; [right|by left].
  exists from, to. split_and!; [done..|by eapply elem_of_dom_2|done].
Qed.
End message.

(** ** Properties of the dispatch *)

Lemma is_any_In command (names : list string) : Session.is_any command names = true ↔ command ∈ lit <$> names.
Proof. apply bool_decide_eq_true. Qed.

(** What one line may have done. *)
Definition line_effect (isupport : Isupport.t) (line : Message.t) (ctx ctx' : Ctx.t) : Prop :=
  wf_model (Ctx.model ctx')
  ∧ Model.next_seq (Ctx.model ctx) <= Model.next_seq (Ctx.model ctx') <= Model.next_seq (Ctx.model ctx) + 1
  ∧ Ctx.latest_ms ctx <= Ctx.latest_ms ctx'
  ∧ ∀ k, k ∈ dom (Model.channels (Ctx.model ctx')) →
      k ∈ dom (Model.channels (Ctx.model ctx))
      ∨ (ascii_upper (Message.command line) = lit "JOIN"
         ∧ Session.is_me isupport ctx (Session.sender line) = true
         ∧ ∃ name, Message.param line 0 = Some name ∧ k = Session.fold isupport name)
      ∨ (ascii_upper (Message.command line) = lit "RENAME"
         ∧ ∃ from to, Message.param line 0 = Some from ∧ Message.param line 1 = Some to
             ∧ Session.fold isupport from ∈ dom (Model.channels (Ctx.model ctx)) ∧ k = Session.fold isupport to).

Lemma steady_effect isupport line ctx r :
  wf_model (Ctx.model ctx) → steady_result ctx r → line_effect isupport line ctx r.2.
Proof.
  intros Hwf [(H1 & H2 & H3) H4]. split_and!; [auto|lia|lia|lia|]. intros k Hk. left. by apply H3.
Qed.

Lemma message_effect `{Unicode} isupport historical command line ctx :
  wf_model (Ctx.model ctx) → Model.next_seq (Ctx.model ctx) < u64_max →
  line_effect isupport line ctx (Session.message isupport historical command line ctx).2.
Proof.
  intros Hwf Hn. destruct (Message.param line 0) as [target|] eqn:E.
  - destruct (message_special isupport historical command line ctx target E) as [Hs| ->]; [by apply steady_effect|].
    destruct (ordinary_wf isupport historical target command line ctx Hwf Hn) as (H1 & H2 & H3 & H4).
    split_and!; [done|lia|lia|done|]. intros k Hk. left. by rewrite <- H3.
  - unfold Session.message. rewrite E. apply (steady_effect isupport line ctx ([], ctx)); [done|]. by split.
Qed.

(** Split on whether the line is the one the dispatch tests for next. *)
Ltac next_command E := match goal with |- line_effect _ _ _ (if ?b then _ else _).2 => destruct b eqn:E end.

Ltac steady_case lem :=
  match goal with |- line_effect _ _ _ (if ?b then _ else _).2 => destruct b end;
  [apply steady_effect; [done|apply lem]|].

Lemma apply_effect `{Unicode} isupport historical line ctx :
  wf_model (Ctx.model ctx) → Model.next_seq (Ctx.model ctx) < u64_max →
  line_effect isupport line ctx (Session.apply isupport historical line ctx).2.
Proof.
  intros Hwf Hn. unfold Session.apply.
  next_command Em; [by apply message_effect|].
  next_command Ej.
  { apply is_any_In, list_elem_of_singleton in Ej. destruct (join_wf isupport line ctx) as (H1 & H2 & H3 & H4).
    split_and!; [auto|lia|lia|lia|]. intros k [Hk|[Hk1 Hk2]]%H4; [by left|]. right. left. done. }
  steady_case part_steady. steady_case quit_steady. steady_case kick_steady. steady_case nick_steady.
  next_command Er.
  { apply is_any_In, list_elem_of_singleton in Er. destruct (rename_channel_wf isupport line ctx) as (Ha & Hb & Hc & Hd).
    split_and!; [auto|lia|lia|lia|]. intros k [Hk|Hk]%Hd; [by left|]. right. right. done. }
  steady_case topic_steady. steady_case mode_steady. steady_case topic_reply_steady. steady_case mark_read_steady.
  steady_case redact_steady. steady_case away_steady. steady_case account_steady.
  steady_case metadata_steady. steady_case metadata_steady. steady_case whois_steady. steady_case names_steady.
  steady_case who_reply_steady. steady_case whox_reply_steady. steady_case prop_steady. steady_case prop_list_steady.
  apply (steady_effect isupport line ctx ([], ctx)); [done|]. by split.
Qed.

(** Lines as they come, each under what the server had announced by then and whether it
    was part of a history batch. *)
Definition run_lines `{Unicode} (lines : list (Isupport.t * bool * Message.t)) (ctx : Ctx.t) : Ctx.t :=
  foldl (λ ctx '(isupport, historical, line), (Session.apply isupport historical line ctx).2) ctx lines.

Lemma run_lines_wf `{Unicode} (lines : list (Isupport.t * bool * Message.t)) (ctx : Ctx.t) :
  wf_model (Ctx.model ctx) → Model.next_seq (Ctx.model ctx) + Z.of_nat (length lines) <= u64_max →
  wf_model (Ctx.model (run_lines lines ctx)) ∧ Ctx.latest_ms ctx <= Ctx.latest_ms (run_lines lines ctx).
Proof.
  revert ctx. induction lines as [|[[isupport historical] line] lines IH]; intros ctx Hwf Hn; [by split|].
  simpl in Hn. destruct (apply_effect isupport historical line ctx Hwf) as (H1 & H2 & H3 & _); [lia|].
  destruct (IH (Session.apply isupport historical line ctx).2 H1) as [H4 H5]; [lia|].
  split; [exact H4|]. simpl. lia.
Qed.

(** Whatever lines a server sends, in whatever order, the model stays well formed:
    every log within its bound, ordered by keys of its own and indexed by exactly the
    ids it holds, at most as many mentions as unread messages, at most 64 WHOIS
    records; and the instant that stamps unstamped lines never goes back. The bound on
    the number of lines is the 64-bit sequence counter. *)
Theorem session_keeps_model `{Unicode} (lines : list (Isupport.t * bool * Message.t)) (ctx : Ctx.t) :
  wf_model (Ctx.model ctx) → Model.next_seq (Ctx.model ctx) + Z.of_nat (length lines) <= u64_max →
  wf_model (Ctx.model (run_lines lines ctx)) ∧ Ctx.latest_ms ctx <= Ctx.latest_ms (run_lines lines ctx).
Proof. apply run_lines_wf. Qed.

(** A line as the parser gives it, with nothing where it does not parse. *)
Definition parsed (t : text) : Message.t :=
  match Message.parse t with inr m => m | inl _ => Message.new [] [] end.

Definition fresh_ctx (nick : text) : Ctx.t :=
  Ctx.mk (Model.set_me (LocalUser.set_nick nick LocalUser.default) (Model.with_retention 3)) 0.

Lemma wf_fresh nick n : wf_model (Model.set_me (LocalUser.set_nick nick LocalUser.default) (Model.with_retention n)).
Proof.
  apply wf_set_me. split; simpl; [lia|apply map_Forall_empty|apply map_Forall_empty| |unfold u64_max; lia].
  rewrite map_size_empty. lia.
Qed.

Definition live (lines : list text) : list (Isupport.t * bool * Message.t) :=
  (λ t, (Isupport.default, false, parsed t)) <$> lines.

Lemma session_keeps_model_witness :
  let ctx := @run_lines ascii_table
    (live [lit ":me!u@h JOIN #c"; lit ":bob JOIN #c"; lit ":bob PRIVMSG #c :hi ME, look"; lit ":bob PRIVMSG me hi"])
    (fresh_ctx "me") in
  wf_model (Ctx.model ctx)
  ∧ (c ← Model.channel (Ctx.model ctx) "#c"; Some (Log.len (Channel.log c), Channel.mentions c)) = Some (1%nat, 1).
Proof.
  intros ctx. split; [|vm_compute; reflexivity].
  apply (@session_keeps_model ascii_table); [apply wf_fresh|vm_compute; discriminate].
Defined.

(** C18. A server can make us hold a channel in two ways only: by our own JOIN of it, or by
    renaming one we are in. Naming channels in any other line creates none. *)
Theorem channels_only_by_own_join `{Unicode} (isupport : Isupport.t) (historical : bool) (line : Message.t)
    (ctx : Ctx.t) (k : CaseFolded) :
  wf_model (Ctx.model ctx) → Model.next_seq (Ctx.model ctx) < u64_max →
  k ∉ dom (Model.channels (Ctx.model ctx)) →
  k ∈ dom (Model.channels (Ctx.model (Session.apply isupport historical line ctx).2)) →
  (ascii_upper (Message.command line) = lit "JOIN"
   ∧ Session.is_me isupport ctx (Session.sender line) = true
   ∧ ∃ name, Message.param line 0 = Some name ∧ k = Session.fold isupport name)
  ∨ (ascii_upper (Message.command line) = lit "RENAME"
     ∧ ∃ from to, Message.param line 0 = Some from ∧ Message.param line 1 = Some to
         ∧ Session.fold isupport from ∈ dom (Model.channels (Ctx.model ctx)) ∧ k = Session.fold isupport to).
Proof.
  intros Hwf Hn Hnot Hin. destruct (apply_effect isupport historical line ctx Hwf Hn) as (_ & _ & _ & Hk).
  destruct (Hk k Hin) as [?|Hcase]; [done|exact Hcase].
Qed.

Lemma channels_only_by_own_join_witness :
  ascii_upper "join" = lit "JOIN"
  ∧ ∃ name, Message.param (parsed ":Me join #C") 0 = Some name ∧ lit "#c" = Session.fold Isupport.default name.
Proof.
  pose proof (@channels_only_by_own_join ascii_table Isupport.default false (parsed ":Me join #C") (fresh_ctx "me") "#c"
    ltac:(apply wf_fresh) ltac:(vm_compute; reflexivity)) as Hj.
  destruct Hj as [(_ & _ & H)|(H & _)].
  - apply not_elem_of_dom. vm_compute. reflexivity.
  - apply elem_of_dom. eexists. vm_compute. reflexivity.
  - split; [vm_compute; reflexivity|exact H].
  - vm_compute in H. discriminate H.
Defined.

(** *** WHOIS *)

Definition is_whois (c : Change.t) : bool := match c with Change.WhoisReceived _ => true | _ => false end.

(** No record is reported. *)
Definition no_whois (r : Session.result) : Prop := Forall (λ c, is_whois c = false) r.1.

(** Evaluate the dispatch on a command that is known. *)
Ltac dispatch :=
  repeat match goal with
  | |- context [Session.is_any ?c ?l] =>
      let r := eval vm_compute in (Session.is_any c l) in change (Session.is_any c l) with r; cbv beta iota
  end.

Lemma apply_accumulates `{Unicode} isupport historical line ctx :
  Session.accumulates (ascii_upper (Message.command line)) = true →
  Session.apply isupport historical line ctx = Session.whois isupport (ascii_upper (Message.command line)) line ctx
  ∧ ascii_upper (Message.command line) ≠ lit "318".
Proof.
  intros Hin%bool_decide_eq_true. unfold Session.apply.
  generalize dependent (ascii_upper (Message.command line)). intros command Hin.
  repeat (apply elem_of_cons in Hin as [-> |Hin]; [split; [by dispatch|done]|]).
  by apply elem_of_nil in Hin.
Qed.

Lemma apply_318 `{Unicode} isupport historical line ctx :
  ascii_upper (Message.command line) = lit "318" →
  Session.apply isupport historical line ctx = Session.whois isupport "318" line ctx.
Proof. intros E. unfold Session.apply. rewrite E. by dispatch. Qed.

Section no_whois.
Context `{Unicode} (isupport : Isupport.t) (historical : bool).

Ltac quiet := unfold no_whois; repeat case_match; simplify_eq/=; repeat constructor.

Lemma file_quiet name b m counts addressed ctx : no_whois (Session.file isupport name b m counts addressed ctx).
Proof. unfold Session.file. quiet. Qed.
Lemma message_quiet command line ctx : no_whois (Session.message isupport historical command line ctx).
Proof.
  unfold Session.message. case_match; [|constructor].
  destruct (decide (command = lit "TAGMSG")).
  - destruct (Session.reaction _ _ _) as [r|] eqn:E.
    + unfold Session.reaction in E. repeat (apply bind_Some in E as (? & ? & E); try case_match). simplify_eq. repeat constructor.
    + destruct (Session.link_preview _ _ _) as [r|] eqn:El.
      * unfold Session.link_preview in El. apply bind_Some in El as ([msgid p] & ? & El). simplify_eq. quiet.
      * unfold Session.ordinary. do 2 case_match. case_match. apply file_quiet.
  - unfold Session.ordinary. do 2 case_match. case_match. apply file_quiet.
Qed.
Lemma quit_quiet line ctx : no_whois (Session.quit isupport line ctx).
Proof.
  unfold Session.quit. destruct (Model.remove_everywhere _ _) as [ks m]. unfold no_whois. cbn [fst].
  apply Forall_forall. intros c (k & _ & Hk)%list_elem_of_omap. apply bind_Some in Hk as (? & _ & ?). by simplify_eq.
Qed.
Lemma person_changed_quiet line f ctx : no_whois (Session.person_changed isupport line f ctx).
Proof. unfold Session.person_changed, no_whois. cbn [fst]. apply Forall_fmap, Forall_forall. by intros. Qed.
Lemma named_quiet name folded entries ctx :
  no_whois (let '(held, ctx) := Session.apply_named folded entries ctx in
    (if held : bool then [Change.ChannelModesChanged name] else [], ctx)).
Proof. quiet. Qed.
Lemma who_quiet row ctx : no_whois (Session.apply_who isupport row ctx).
Proof. unfold Session.apply_who. quiet. Qed.

Lemma apply_quiet line ctx :
  ascii_upper (Message.command line) ≠ lit "318" → no_whois (Session.apply isupport historical line ctx).
Proof.
  intros H318. unfold Session.apply.
  repeat match goal with |- no_whois (if ?b then _ else _) => destruct b end;
    first [apply message_quiet | apply quit_quiet | apply person_changed_quiet | idtac].
  all: try (unfold Session.join, Session.part, Session.kick, Session.nick, Session.rename_channel, Session.topic,
    Session.mode, Session.topic_reply, Session.mark_read, Session.redact, Session.metadata, Session.whois, Session.names; quiet; done).
  - unfold Session.who_reply. repeat (case_match; [|constructor]). apply who_quiet.
  - unfold Session.whox_reply. case_decide; [|constructor]. repeat (case_match; [|constructor]). apply who_quiet.
  - unfold Session.prop. case_match; [|constructor]. apply named_quiet.
  - unfold Session.prop_list. case_match; [|constructor]. apply named_quiet.
Qed.
End no_whois.

(** The numerics that only fill a WHOIS record report nothing. A record is reported by
    [318] alone, once, under the nick that line names, when such a record is held, and
    it is complete from then on: the next numeric about that nick starts a new one. *)
Theorem whois_reported_once `{Unicode} (isupport : Isupport.t) (historical : bool) (line : Message.t) (ctx : Ctx.t) :
  let command := ascii_upper (Message.command line) in
  let r := Session.apply isupport historical line ctx in
  (Session.accumulates command = true → r.1 = [])
  ∧ (∀ nick, Change.WhoisReceived nick ∈ r.1 ↔
       command = lit "318" ∧ Message.param line 1 = Some nick
       ∧ is_Some (Model.whois (Ctx.model ctx) !! Session.fold isupport nick))
  ∧ (∀ nick, Change.WhoisReceived nick ∈ r.1 →
       r.1 = [Change.WhoisReceived nick]
       ∧ (Whois.complete <$> Model.whois (Ctx.model r.2) !! Session.fold isupport nick) = Some true).
Proof.
  intros command r.
  assert (∀ nick, Change.WhoisReceived nick ∈ r.1 → command = lit "318") as H318.
  { intros nick Hin. destruct (decide (command = lit "318")) as [|Hne]; [done|].
    apply (apply_quiet isupport historical line ctx) in Hne.
    unfold no_whois in Hne. rewrite Forall_forall in Hne. by specialize (Hne _ Hin). }
  split_and!.
  - intros Hacc. destruct (apply_accumulates isupport historical line ctx Hacc) as [E Hne].
    unfold r. rewrite E. unfold Session.whois. case_match; [|done]. by rewrite decide_False.
  - intros nick. split.
    + intros Hin. pose proof (H318 nick Hin) as E. split; [done|]. unfold r in Hin.
      rewrite (apply_318 _ _ _ _ E) in Hin. unfold Session.whois in Hin.
      case_match; [|by apply elem_of_nil in Hin]. rewrite decide_True in Hin by done.
      case_match eqn:Ew; [|by apply elem_of_nil in Hin]. cbn [fst] in Hin.
      apply list_elem_of_singleton in Hin. simplify_eq. split; [done|]. rewrite Ew. by eexists.
    + intros (E & Hp & [rec Hrec]). unfold r. rewrite (apply_318 _ _ _ _ E). unfold Session.whois.
      rewrite Hp, decide_True by done. rewrite Hrec. by left.
  - intros nick Hin. pose proof (H318 nick Hin) as E. unfold r in *.
    rewrite (apply_318 _ _ _ _ E) in *. unfold Session.whois in *.
    case_match; [|by apply elem_of_nil in Hin]. rewrite decide_True in * by done.
    case_match eqn:Ew; [|by apply elem_of_nil in Hin]. cbn [fst snd] in *.
    apply list_elem_of_singleton in Hin. simplify_eq. split; [done|].
    simpl. rewrite lookup_alter_eq, Ew. simpl. by match goal with w : Whois.t |- _ => destruct w end.
Qed.

(** *** Messages *)

(** A PRIVMSG or NOTICE is an ordinary message. *)
Lemma apply_ordinary `{Unicode} isupport historical line ctx target :
  ascii_upper (Message.command line) = lit "PRIVMSG" ∨ ascii_upper (Message.command line) = lit "NOTICE" →
  Message.param line 0 = Some target →
  Session.apply isupport historical line ctx
  = Session.ordinary isupport historical target (ascii_upper (Message.command line)) line ctx.
Proof.
  intros Hc Hp. unfold Session.apply. destruct Hc as [-> | ->]; dispatch; unfold Session.message; rewrite Hp; done.
Qed.

Lemma file_channel `{Unicode} isupport name m counts addressed ctx c :
  Model.channel (Ctx.model ctx) (Session.fold isupport name) = Some c →
  let accepted := (Log.insert m (Channel.log c)).1 in
  let '(changes, ctx') := Session.file isupport name true m counts addressed ctx in
  changes = (if accepted then [Change.MessageAdded name (Chat.key m)] else [])
  ∧ Model.channels (Ctx.model ctx') = <[Session.fold isupport name :=
      Channel.set_counts
        (if accepted && counts then saturating_add_u32 (Channel.unread c) 1 else Channel.unread c)
        (if accepted && counts && addressed then saturating_add_u32 (Channel.mentions c) 1 else Channel.mentions c)
        (Channel.set_log (Log.insert m (Channel.log c)).2 c)]> (Model.channels (Ctx.model ctx))
  ∧ Model.conversations (Ctx.model ctx') = Model.conversations (Ctx.model ctx)
  ∧ Model.people (Ctx.model ctx') = Model.people (Ctx.model ctx).
Proof.
  intros Hc. unfold Session.file. rewrite Hc. destruct (Log.insert _ _) as [accepted log].
  split_and!; [done| |done..]. simpl. unfold Model.channel in Hc.
  apply map_eq. intros k. destruct (decide (k = Session.fold isupport name)) as [-> |Hne].
  - by rewrite lookup_alter_eq, lookup_insert_eq, Hc.
  - by rewrite lookup_alter_ne, lookup_insert_ne.
Qed.

(** The message an ordinary line becomes, under the key it is given. *)
Definition message_of (isupport : Isupport.t) (historical : bool) (line : Message.t) (ctx : Ctx.t) : Chat.t :=
  Session.build historical
    (default (Ctx.latest_ms ctx) (Message.tag line "time" ≫= ServerTime.parse), Model.next_seq (Ctx.model ctx))
    (ascii_upper (Message.command line)) line (Session.is_me isupport ctx (Session.sender line)).

(** An ordinary line to a channel we are in is filed there. *)
Lemma ordinary_files `{Unicode} (isupport : Isupport.t) (historical : bool) (line : Message.t)
    (ctx : Ctx.t) (target : text) (c : Channel.t) :
  let name := trim_start_matches (Isupport.is_statusmsg isupport) target in
  let key := Session.fold isupport name in
  Isupport.is_channel isupport name = true →
  Model.channel (Ctx.model ctx) key = Some c →
  0 <= Model.next_seq (Ctx.model ctx) < u64_max →
  let own := Session.is_me isupport ctx (Session.sender line) in
  let message := message_of isupport historical line ctx in
  let '(changes, ctx') := Session.ordinary isupport historical target (ascii_upper (Message.command line)) line ctx in
  let '(accepted, log) := Log.insert message (Channel.log c) in
  let counts := accepted && negb own && negb historical in
  let mentioned := counts && Mention.mentions (Session.casemapping isupport) (Chat.text_ message)
                       (LocalUser.nick (Model.me (Ctx.model ctx))) in
  changes = (if accepted then [Change.MessageAdded name (Chat.key message)] else [])
  ∧ Model.channels (Ctx.model ctx') = <[key := Channel.set_counts
      (if counts then saturating_add_u32 (Channel.unread c) 1 else Channel.unread c)
      (if mentioned then saturating_add_u32 (Channel.mentions c) 1 else Channel.mentions c)
      (Channel.set_log log c)]> (Model.channels (Ctx.model ctx))
  ∧ (accepted = false → Model.channels (Ctx.model ctx') = Model.channels (Ctx.model ctx))
  ∧ Model.conversations (Ctx.model ctx') = Model.conversations (Ctx.model ctx)
  ∧ Model.people (Ctx.model ctx') = Model.people (Ctx.model ctx).
Proof.
  intros name key Hch Hc Hseq own message.
  unfold Session.ordinary, Session.stamp. cbv zeta beta iota. cbn [Ctx.model]. rewrite next_key_spec by done.
  unfold Session.filed_under. fold name. rewrite Hch. cbv beta iota.
  match goal with |- context [Session.file ?i ?n true ?m ?cs ?ad ?x] =>
    pose proof (file_channel i n m cs ad x c Hc) as Hf; revert Hf;
    destruct (Session.file i n true m cs ad x) as [changes ctx']; change m with message end.
  cbv zeta. intros Hf. destruct Hf as (-> & H2 & -> & ->).
  change (Session.is_me isupport ?x (Session.sender line)) with own in H2.
  cbn [Ctx.model Ctx.set_model] in H2 |- *.
  destruct (Log.insert message (Channel.log c)) as [accepted log] eqn:Ei. cbn [fst snd Model.channels Model.me] in *.
  split_and!; [done| | |done..].
  - rewrite H2. by destruct accepted, own, historical.
  - intros ->. rewrite H2. cbn [andb].
    assert (log = Channel.log c) as ->.
    { unfold Log.insert in Ei. case_match; congruence. }
    rewrite insert_id; [done|]. etransitivity; [exact Hc|]. by destruct c.
Qed.

Lemma channel_message_files `{Unicode} (isupport : Isupport.t) (historical : bool) (line : Message.t)
    (ctx : Ctx.t) (target : text) (c : Channel.t) :
  ascii_upper (Message.command line) = lit "PRIVMSG" ∨ ascii_upper (Message.command line) = lit "NOTICE" →
  Message.param line 0 = Some target →
  let name := trim_start_matches (Isupport.is_statusmsg isupport) target in
  let key := Session.fold isupport name in
  Isupport.is_channel isupport name = true →
  Model.channel (Ctx.model ctx) key = Some c →
  0 <= Model.next_seq (Ctx.model ctx) < u64_max →
  let own := Session.is_me isupport ctx (Session.sender line) in
  let message := message_of isupport historical line ctx in
  let '(changes, ctx') := Session.apply isupport historical line ctx in
  let '(accepted, log) := Log.insert message (Channel.log c) in
  let counts := accepted && negb own && negb historical in
  let mentioned := counts && Mention.mentions (Session.casemapping isupport) (Chat.text_ message)
                       (LocalUser.nick (Model.me (Ctx.model ctx))) in
  changes = (if accepted then [Change.MessageAdded name (Chat.key message)] else [])
  ∧ Model.channels (Ctx.model ctx') = <[key := Channel.set_counts
      (if counts then saturating_add_u32 (Channel.unread c) 1 else Channel.unread c)
      (if mentioned then saturating_add_u32 (Channel.mentions c) 1 else Channel.mentions c)
      (Channel.set_log log c)]> (Model.channels (Ctx.model ctx))
  ∧ (accepted = false → Model.channels (Ctx.model ctx') = Model.channels (Ctx.model ctx))
  ∧ Model.conversations (Ctx.model ctx') = Model.conversations (Ctx.model ctx)
  ∧ Model.people (Ctx.model ctx') = Model.people (Ctx.model ctx).
Proof. intros Hcmd Hp name key Hch Hc Hseq. rewrite (apply_ordinary _ _ _ _ _ Hcmd Hp). by apply ordinary_files. Qed.

(** C17. A PRIVMSG or NOTICE to a channel we are in, [@#channel] included, becomes one
    message of that channel's log. When the log refuses it as one already held, nothing
    is reported and the channel is as it was. Otherwise it is reported once, and the
    unread count goes up by one exactly when it is neither our own nor history, the
    mentions with it exactly when its text mentions us; both saturate at their width.
    No other channel, no conversation and nobody else changes. *)
Theorem channel_message_counts_once `{Unicode} (isupport : Isupport.t) (historical : bool) (line : Message.t)
    (ctx : Ctx.t) (target : text) (c : Channel.t) :
  ascii_upper (Message.command line) = lit "PRIVMSG" ∨ ascii_upper (Message.command line) = lit "NOTICE" →
  Message.param line 0 = Some target →
  let name := trim_start_matches (Isupport.is_statusmsg isupport) target in
  let key := Session.fold isupport name in
  Isupport.is_channel isupport name = true →
  Model.channel (Ctx.model ctx) key = Some c →
  0 <= Model.next_seq (Ctx.model ctx) < u64_max →
  let own := Session.is_me isupport ctx (Session.sender line) in
  let message := message_of isupport historical line ctx in
  let '(changes, ctx') := Session.apply isupport historical line ctx in
  let '(accepted, log) := Log.insert message (Channel.log c) in
  let counts := accepted && negb own && negb historical in
  let mentioned := counts && Mention.mentions (Session.casemapping isupport) (Chat.text_ message)
                       (LocalUser.nick (Model.me (Ctx.model ctx))) in
  changes = (if accepted then [Change.MessageAdded name (Chat.key message)] else [])
  ∧ Model.channels (Ctx.model ctx') = <[key := Channel.set_counts
      (if counts then saturating_add_u32 (Channel.unread c) 1 else Channel.unread c)
      (if mentioned then saturating_add_u32 (Channel.mentions c) 1 else Channel.mentions c)
      (Channel.set_log log c)]> (Model.channels (Ctx.model ctx))
  ∧ (accepted = false → Model.channels (Ctx.model ctx') = Model.channels (Ctx.model ctx))
  ∧ Model.conversations (Ctx.model ctx') = Model.conversations (Ctx.model ctx)
  ∧ Model.people (Ctx.model ctx') = Model.people (Ctx.model ctx).
Proof. apply channel_message_files. Qed.

Lemma channel_message_counts_once_witness :
  let ctx := @run_lines ascii_table (live [lit ":me JOIN #c"]) (fresh_ctx "me") in
  let line := parsed ":bob PRIVMSG #C :Me?" in
  (∃ c, Model.channels (Ctx.model (@Session.apply ascii_table Isupport.default false line ctx).2) !! lit "#c" = Some c
     ∧ Channel.unread c = 1 ∧ Channel.mentions c = 1)
  ∧ (@Session.apply ascii_table Isupport.default false line ctx).1 = [Change.MessageAdded "#C" (0, 0)].
Proof.
  intros ctx line.
  pose proof (@channel_message_counts_once ascii_table Isupport.default false line ctx "#C"
    (Channel.named "#c" (Log.with_retention 3)) ltac:(left; vm_compute; reflexivity) ltac:(vm_compute; reflexivity)
    ltac:(vm_compute; reflexivity) ltac:(vm_compute; reflexivity)
    ltac:(vm_compute; split; [discriminate|reflexivity])) as H.
  cbv zeta in H. destruct (@Session.apply ascii_table Isupport.default false line ctx) as [changes ctx'].
  destruct (Log.insert _ _) as [accepted log] eqn:Ei in H. destruct H as (H1 & H2 & _).
  assert (accepted = true) as -> by (apply (f_equal fst) in Ei; vm_compute in Ei; by symmetry).
  split; [|exact H1]. eexists. cbn [snd]. rewrite H2.
  split; [apply lookup_insert_eq|]. split; vm_compute; reflexivity.
Defined.

(** A private message is filed under the nick of whoever sent it, but a reaction to it,
    a preview of its link and its deletion, which the server addresses to us in the
    same way, are looked up under our own nick. So the reaction is filed as an empty
    message of its own, the deletion does nothing, and the message never changes. *)
Theorem private_reaction_is_lost :
  ∃ ctx : Ctx.t, wf_model (Ctx.model ctx)
    ∧ (q ← Model.conversation (Ctx.model ctx) "bob"; Log.get (Conversation.log q) "m1") ≠ None
    ∧ (let r := @Session.apply ascii_table Isupport.default false
                  (parsed "@+draft/react=ok;+reply=m1 :bob TAGMSG me") ctx in
       r.1 = [Change.MessageAdded "bob" (0, 1)]
       ∧ (q ← Model.conversation (Ctx.model r.2) "bob"; Chat.reactions <$> Log.get (Conversation.log q) "m1") = Some ∅)
    ∧ (let r := @Session.apply ascii_table Isupport.default false (parsed ":bob REDACT me m1") ctx in
       r = ([], ctx)).
Proof.
  exists (@run_lines ascii_table (live [lit "@msgid=m1 :bob PRIVMSG me :hi"]) (fresh_ctx "me")).
  split_and!.
  - refine (proj1 (@run_lines_wf ascii_table _ _ _ _)); [apply wf_fresh|vm_compute; discriminate].
  - vm_compute. discriminate.
  - cbv zeta. split; vm_compute; reflexivity.
  - vm_compute. reflexivity.
Qed.
