(* ===== verification/Roster.v ===== *)
(** * Who is where (theorems about src/crates/obby-client/src/session.rs and model.rs)

    An abstract specification of presence: which channels we are in and whose key is in
    each, moved by the few things a line can say about it. The handlers of [Session], with
    their people, prefixes, logs and counts, refine it. *)
From S2P Require Import Prelude Casemap Tags Message ServerTime Isupport Mode Format Extensions Model Session.

(** ** The specification *)

Module Roster.
(** Our own nick, and the keys of the members of every channel we hold. *)
Record t := mk { self : text; rooms : gmap CaseFolded (gset CaseFolded) }.
#[global] Instance eq_dec : EqDecision t.
Proof. solve_decision. Defined.

(** What a line can say about presence. *)
Inductive news :=
  | Opened (room : CaseFolded) | Closed (room : CaseFolded)
  | Entered (room who : CaseFolded) | Left (room who : CaseFolded) | Gone (who : CaseFolded)
  | Renamed (casemapping : Casemapping.t) (from to : text)
  | Moved (room to : CaseFolded).

Definition swap (old new : CaseFolded) (s : gset CaseFolded) : gset CaseFolded :=
  if decide (old ∈ s) then {[new]} ∪ s ∖ {[old]} else s.

Definition tell (r : t) (n : news) : t :=
  match n with
  | Opened room => mk (self r) (match rooms r !! room with Some _ => rooms r | None => <[room := ∅]> (rooms r) end)
  | Closed room => mk (self r) (delete room (rooms r))
  | Entered room who => mk (self r) (alter (λ s, {[who]} ∪ s) room (rooms r))
  | Left room who => mk (self r) (alter (λ s, s ∖ {[who]}) room (rooms r))
  | Gone who => mk (self r) ((λ s, s ∖ {[who]}) <$> rooms r)
  | Renamed cm from to =>
      mk (if Casemapping.eq cm (self r) from then to else self r)
         (swap (Casemapping.fold cm from) (Casemapping.fold cm to) <$> rooms r)
  | Moved room to =>
      mk (self r) (match rooms r !! room with Some s => <[to := s]> (delete room (rooms r)) | None => rooms r end)
  end.

Section heard.
Context (isupport : Isupport.t) (self : text).
#[local] Abbreviation fold := (Isupport.fold isupport).
#[local] Abbreviation is_me := (Casemapping.eq (Isupport.casemapping isupport) self).

Definition who_row (room who : option text) : list news :=
  match room, who with
  | Some room, Some who => if Isupport.is_channel isupport room then [Entered (fold room) (fold who)] else []
  | _, _ => []
  end.

(** What a line says, read off its words alone. *)
Definition heard (line : Message.t) : list news :=
  let command := ascii_upper (Message.command line) in
  let sender := Session.sender line in
  let p := Message.param line in
  if decide (command = lit "JOIN") then
    match p 0%nat with
    | Some room => if is_me sender then [Opened (fold room)] else [Entered (fold room) (fold sender)]
    | None => []
    end
  else if decide (command = lit "PART") then
    match p 0%nat with
    | Some room => if is_me sender then [Closed (fold room)] else [Left (fold room) (fold sender)]
    | None => []
    end
  else if decide (command = lit "KICK") then
    match p 0%nat, p 1%nat with
    | Some room, Some who => if is_me who then [Closed (fold room)] else [Left (fold room) (fold who)]
    | _, _ => []
    end
  else if decide (command = lit "QUIT") then [Gone (fold sender)]
  else if decide (command = lit "NICK") then
    match p 0%nat with Some to => [Renamed (Isupport.casemapping isupport) sender to] | None => [] end
  else if decide (command = lit "RENAME") then
    match p 0%nat, p 1%nat with Some from, Some to => [Moved (fold from) (fold to)] | _, _ => [] end
  else if decide (command = lit "353") then
    match p 2%nat with
    | Some room =>
        let nicks := snd ∘ Session.names_entry isupport <$> split_whitespace (default [] (Message.trailing line)) in
        (λ nick, Entered (fold room) (fold nick)) <$> filter (.≠ []) nicks
    | None => []
    end
  else if decide (command = lit "352") then
    match p 2%nat, p 3%nat, p 6%nat with Some _, Some _, Some _ => who_row (p 1%nat) (p 5%nat) | _, _, _ => [] end
  else if decide (command = lit "354") then
    match p 3%nat, p 4%nat, p 6%nat, p 7%nat with
    | Some _, Some _, Some _, Some _ =>
        if decide (p 1%nat = Some Session.WHOX_TOKEN) then who_row (p 2%nat) (p 5%nat) else []
    | _, _, _, _ => []
    end
  else [].
End heard.

(** A line under what the server had announced by then. *)
Definition follow (r : t) (l : Isupport.t * bool * Message.t) : t :=
  let '(isupport, _, line) := l in foldl tell r (heard isupport (self r) line).
End Roster.

(** ** The abstraction *)

Definition present (c : Channel.t) : gset CaseFolded := dom (Channel.members c).
Definition roster_of (m : Model.t) : Roster.t :=
  Roster.mk (LocalUser.nick (Model.me m)) (present <$> Model.channels m).

(** Presence after a step of the model. *)
Definition still (m m' : Model.t) : Prop := roster_of m' = roster_of m.
#[export] Instance still_preorder : PreOrder still.
Proof. split; [done|]. unfold still. congruence. Qed.

Lemma roster_alter_channel key f g m :
  (∀ c, present (f c) = g (present c)) →
  roster_of (Model.alter_channel key f m) =
    Roster.mk (LocalUser.nick (Model.me m)) (alter g key (Roster.rooms (roster_of m))).
Proof.
  intros Hf. unfold roster_of. cbn. f_equal. apply map_eq. intros k. rewrite lookup_fmap.
  destruct (decide (k = key)) as [->|Hne].
  - rewrite !lookup_alter_eq, lookup_fmap. destruct (Model.channels m !! key); [|done]. cbn. by rewrite Hf.
  - by rewrite !lookup_alter_ne, lookup_fmap by done.
Qed.

Lemma still_alter_channel key f m : (∀ c, present (f c) = present c) → still m (Model.alter_channel key f m).
Proof.
  intros Hf. unfold still. rewrite (roster_alter_channel key f id) by done. unfold roster_of. f_equal. apply map_eq. intros k.
  destruct (decide (k = key)) as [->|Hne]; [rewrite lookup_alter_eq|by rewrite lookup_alter_ne]. by destruct (_ !! key).
Qed.
Lemma still_set_me u m : LocalUser.nick u = LocalUser.nick (Model.me m) → still m (Model.set_me u m).
Proof. unfold still, roster_of. by intros <-. Qed.
Lemma still_person_or_insert key n m : still m (Model.person_or_insert key n m).
Proof. unfold still, Model.person_or_insert. by case_match. Qed.
Lemma still_alter_person key f m : still m (Model.alter_person key f m).
Proof. done. Qed.
Lemma still_forget_strangers m : still m (Model.forget_strangers m).
Proof. done. Qed.
Lemma still_whois_or_insert key n m : still m (Model.whois_or_insert key n m).
Proof. unfold still, Model.whois_or_insert. repeat case_match; done. Qed.
Lemma still_set_whois w m : still m (Model.set_whois w m).
Proof. done. Qed.
Lemma still_alter_whois key f m : still m (Model.alter_whois key f m).
Proof. done. Qed.
Lemma still_conversation_or_insert key n m : still m (Model.conversation_or_insert key n m).
Proof. unfold still, Model.conversation_or_insert. by case_match. Qed.
Lemma still_alter_conversation key f m : still m (Model.alter_conversation key f m).
Proof. done. Qed.
Lemma still_alter_target_message folded msgid f m : still m (Session.alter_target_message folded msgid f m).
Proof. unfold Session.alter_target_message. case_match; [by apply still_alter_channel|done]. Qed.

Create HintDb still.
#[export] Hint Resolve still_person_or_insert still_alter_person still_forget_strangers still_whois_or_insert still_set_whois
  still_alter_whois still_conversation_or_insert still_alter_conversation still_alter_target_message : still.

(** Peel off the operations that move nobody. *)
Ltac still :=
  repeat match goal with
  | |- still ?m ?m => reflexivity
  | |- still _ (Model.alter_channel _ _ _) => etransitivity; [|apply still_alter_channel; by intros ?]
  | |- still _ (Model.set_me _ _) => etransitivity; [|by apply still_set_me]
  | |- still _ (if ?b then _ else _) => destruct b
  | |- still _ (match ?b with _ => _ end) => destruct b
  | |- still _ (?f _ _) => etransitivity; [|by eauto with still]
  | |- still _ (?f _ _ _) => etransitivity; [|by eauto with still]
  | |- still _ (?f _) => etransitivity; [|by eauto with still]
  end.

(** ** The handlers *)

Section handlers.
Context `{Unicode} (isupport : Isupport.t) (historical : bool).

(** The result says the same of everybody. *)
Definition still_result (ctx : Ctx.t) (r : Session.result) : Prop := still (Ctx.model ctx) (Ctx.model r.2).

Ltac handler :=
  repeat (case_match; try done); simplify_eq/=; unfold still_result; cbn [fst snd Ctx.model Ctx.alter Ctx.set_model];
  try done; try (by still).

Lemma whois_still command line ctx : still_result ctx (Session.whois isupport command line ctx).
Proof. unfold Session.whois. handler. Qed.
Lemma topic_still line ctx : still_result ctx (Session.topic isupport line ctx).
Proof. unfold Session.topic. handler. Qed.
Lemma topic_reply_still line ctx : still_result ctx (Session.topic_reply isupport line ctx).
Proof. unfold Session.topic_reply. handler. Qed.
Lemma redact_still line ctx : still_result ctx (Session.redact isupport line ctx).
Proof. unfold Session.redact. handler. Qed.
Lemma metadata_still offset line ctx : still_result ctx (Session.metadata isupport offset line ctx).
Proof. unfold Session.metadata. handler. Qed.
Lemma person_changed_still line f ctx : still_result ctx (Session.person_changed isupport line f ctx).
Proof. unfold Session.person_changed. handler. Qed.
Lemma away_still line ctx : still_result ctx (Session.away isupport line ctx).
Proof. unfold Session.away. apply person_changed_still. Qed.
Lemma account_still line ctx : still_result ctx (Session.account isupport line ctx).
Proof. unfold Session.account. apply person_changed_still. Qed.
Lemma mark_read_still line ctx : still_result ctx (Session.mark_read isupport line ctx).
Proof. unfold Session.mark_read. handler. Qed.
Lemma apply_named_still folded entries ctx :
  still (Ctx.model ctx) (Ctx.model (Session.apply_named folded entries ctx).2).
Proof. unfold Session.apply_named. handler. Qed.
Lemma prop_still line ctx : still_result ctx (Session.prop isupport line ctx).
Proof.
  unfold Session.prop. case_match; [|done].
  match goal with |- context [Session.apply_named ?f ?e ctx] => pose proof (apply_named_still f e ctx) as Hs end.
  by destruct (Session.apply_named _ _ _).
Qed.
Lemma prop_list_still line ctx : still_result ctx (Session.prop_list isupport line ctx).
Proof.
  unfold Session.prop_list. case_match; [|done].
  match goal with |- context [Session.apply_named ?f ?e ctx] => pose proof (apply_named_still f e ctx) as Hs end.
  by destruct (Session.apply_named _ _ _).
Qed.
Lemma mode_change_still order folded st change :
  still st.2 (Session.mode_change isupport order folded st change).2.
Proof.
  destruct st as [b m]. unfold Session.mode_change. repeat case_match; cbn [snd]; try done; try (by still).
  all: apply still_alter_channel; intros c; apply dom_alter_L.
Qed.
Lemma mode_still line ctx : still_result ctx (Session.mode isupport line ctx).
Proof.
  unfold Session.mode. case_match; [|done]. case_match; [|unfold still_result; by still].
  match goal with |- context [foldl ?f ?a ?l] => assert (still a.2 (foldl f a l).2) as Hs end.
  { generalize (Mode.parse_channel_modes isupport (drop 1 (Message.params line))) as cs. intros cs.
    generalize (false, Ctx.model ctx) as a. induction cs as [|c cs IH]; intros a; simpl; [done|].
    etransitivity; [apply mode_change_still|apply IH]. }
  by destruct (foldl _ _ _).
Qed.
Lemma file_still name is_channel message counts addressed ctx :
  still_result ctx (Session.file isupport name is_channel message counts addressed ctx).
Proof. unfold Session.file. handler. Qed.
Lemma reaction_still line ctx r : Session.reaction isupport line ctx = Some r → still_result ctx r.
Proof.
  unfold Session.reaction. intros E. repeat (apply bind_Some in E as (? & ? & E); try case_match).
  simplify_eq/=. unfold still_result. cbn. by still.
Qed.
Lemma link_preview_still line ctx r : Session.link_preview isupport line ctx = Some r → still_result ctx r.
Proof.
  unfold Session.link_preview. intros E. apply bind_Some in E as ([msgid p] & ? & E). simplify_eq. handler.
Qed.
Lemma ordinary_still target command line ctx :
  still_result ctx (Session.ordinary isupport historical target command line ctx).
Proof.
  unfold Session.ordinary. destruct (Session.stamp line ctx) as [time ctx'] eqn:Et.
  unfold Session.stamp in Et. injection Et as <- <-. cbn [Ctx.model Model.next_message_key]. case_match.
  unfold still_result. etransitivity; [|apply file_still]. done.
Qed.
Lemma message_still command line ctx : still_result ctx (Session.message isupport historical command line ctx).
Proof.
  unfold Session.message. destruct (Message.param line 0) as [target|]; [|done]. cbv zeta.
  case_decide; [|by apply ordinary_still]. destruct (Session.reaction _ _ _) as [r|] eqn:Er; [by eapply reaction_still|].
  destruct (Session.link_preview _ _ _) as [r|] eqn:El; [by eapply link_preview_still|apply ordinary_still].
Qed.

(** *** The lines that move somebody *)

(** What a handler leaves is what the news say. *)
Definition moves (ctx : Ctx.t) (r : Session.result) (news : list Roster.news) : Prop :=
  roster_of (Ctx.model r.2) = foldl Roster.tell (roster_of (Ctx.model ctx)) news.

Lemma alter_member_present key f c : present (Session.alter_member key f c) = {[key]} ∪ present c.
Proof. apply dom_insert_L. Qed.
Lemma drop_member_present key c : present (Session.drop_member key c) = present c ∖ {[key]}.
Proof. apply dom_delete_L. Qed.

Lemma roster_entered room key f m :
  roster_of (Model.alter_channel room (Session.alter_member key f) m) = Roster.tell (roster_of m) (Roster.Entered room key).
Proof. apply (roster_alter_channel _ _ (λ s, {[key]} ∪ s)). apply alter_member_present. Qed.
Lemma roster_left room key m :
  roster_of (Model.alter_channel room (Session.drop_member key) m) = Roster.tell (roster_of m) (Roster.Left room key).
Proof. apply (roster_alter_channel _ _ (λ s, s ∖ {[key]})). apply drop_member_present. Qed.
Lemma roster_closed room m : roster_of (Model.remove_channel room m) = Roster.tell (roster_of m) (Roster.Closed room).
Proof. unfold roster_of. cbn. by rewrite fmap_delete. Qed.
Lemma roster_opened room name m :
  roster_of (Model.channel_or_insert room name m) = Roster.tell (roster_of m) (Roster.Opened room).
Proof.
  unfold roster_of, Model.channel_or_insert. cbn [Roster.tell Roster.rooms Roster.self]. rewrite lookup_fmap.
  destruct (Model.channels m !! room); [done|]. cbn. by rewrite fmap_insert.
Qed.
Lemma roster_gone who m : roster_of (Model.remove_everywhere who m).2 = Roster.tell (roster_of m) (Roster.Gone who).
Proof.
  unfold roster_of. cbn. f_equal. rewrite <- !map_fmap_compose. apply map_fmap_ext. intros k c _. apply dom_delete_L.
Qed.
(** Somebody in no channel we hold has entered none. *)
Lemma roster_absent m room who :
  Model.channel m room = None → Roster.tell (roster_of m) (Roster.Entered room who) = roster_of m.
Proof.
  intros Hm. unfold roster_of. cbn. f_equal. apply map_eq. intros k. destruct (decide (k = room)) as [->|Hne].
  - rewrite lookup_alter_eq, lookup_fmap. unfold Model.channel in Hm. by rewrite Hm.
  - by rewrite lookup_alter_ne.
Qed.

Lemma swap_present cm from to c :
  present (Channel.set_members (Model.move (Casemapping.fold cm from) (Casemapping.fold cm to) id (Channel.members c)) c)
  = Roster.swap (Casemapping.fold cm from) (Casemapping.fold cm to) (present c).
Proof.
  unfold Roster.swap, Model.move, present. cbn. case_match eqn:E.
  - rewrite decide_True by (apply elem_of_dom; by eexists). by rewrite dom_insert_L, dom_delete_L.
  - by rewrite decide_False by (apply not_elem_of_dom; exact E).
Qed.
Lemma roster_renamed cm from to m : roster_of (Model.rename cm from to m) = Roster.tell (roster_of m) (Roster.Renamed cm from to).
Proof.
  unfold roster_of. cbn. f_equal; [by case_match|]. rewrite <- !map_fmap_compose. apply map_fmap_ext. intros k c _.
  apply swap_present.
Qed.
Lemma roster_moved cm from to m :
  roster_of (Model.rename_channel cm from to m).2 =
  Roster.tell (roster_of m) (Roster.Moved (Casemapping.fold cm from) (Casemapping.fold cm to)).
Proof.
  unfold roster_of, Model.rename_channel. cbn [Roster.tell Roster.rooms Roster.self]. rewrite lookup_fmap.
  destruct (Model.channels m !! _) as [c|]; [|done]. cbn. by rewrite fmap_insert, fmap_delete.
Qed.

Lemma join_moves line ctx :
  ascii_upper (Message.command line) = lit "JOIN" →
  moves ctx (Session.join isupport line ctx) (Roster.heard isupport (Roster.self (roster_of (Ctx.model ctx))) line).
Proof.
  intros Hc. unfold moves, Roster.heard, Session.join. rewrite Hc, decide_True by done.
  destruct (Message.param line 0) as [name|]; [|done]. cbv zeta. unfold Session.is_me, Session.casemapping.
  change (Roster.self (roster_of (Ctx.model ctx))) with (LocalUser.nick (Model.me (Ctx.model ctx))).
  destruct (Casemapping.eq _ _ _); [by apply roster_opened|].
  destruct (Model.channel _ _) eqn:Em; [|cbn [foldl]; unfold Session.fold in Em; by rewrite roster_absent].
  cbn [snd fst Ctx.model Ctx.set_model]. rewrite roster_entered. cbn [foldl]. unfold Session.fold. f_equal.
  match goal with |- roster_of ?m = roster_of ?m0 => change (still m0 m) end. repeat case_match; by still.
Qed.
Lemma part_moves line ctx :
  ascii_upper (Message.command line) = lit "PART" →
  moves ctx (Session.part isupport line ctx) (Roster.heard isupport (Roster.self (roster_of (Ctx.model ctx))) line).
Proof.
  intros Hc. unfold moves, Roster.heard, Session.part. rewrite Hc, decide_False, decide_True by done.
  destruct (Message.param line 0) as [name|]; [|done]. cbv zeta. unfold Session.is_me, Session.casemapping.
  change (Roster.self (roster_of (Ctx.model ctx))) with (LocalUser.nick (Model.me (Ctx.model ctx))).
  destruct (Casemapping.eq _ _ _); [by apply roster_closed|].
  cbn [snd fst Ctx.model Ctx.alter]. rewrite still_forget_strangers. apply roster_left.
Qed.
Lemma kick_moves line ctx :
  ascii_upper (Message.command line) = lit "KICK" →
  moves ctx (Session.kick isupport line ctx) (Roster.heard isupport (Roster.self (roster_of (Ctx.model ctx))) line).
Proof.
  intros Hc. unfold moves, Roster.heard, Session.kick. rewrite Hc, !decide_False, decide_True by done.
  destruct (Message.param line 0) as [name|], (Message.param line 1) as [who|]; try done. cbv zeta.
  unfold Session.is_me, Session.casemapping.
  change (Roster.self (roster_of (Ctx.model ctx))) with (LocalUser.nick (Model.me (Ctx.model ctx))).
  destruct (Casemapping.eq _ _ _); [by apply roster_closed|].
  cbn [snd fst Ctx.model Ctx.alter]. rewrite still_forget_strangers. apply roster_left.
Qed.
Lemma quit_moves line ctx :
  ascii_upper (Message.command line) = lit "QUIT" →
  moves ctx (Session.quit isupport line ctx) (Roster.heard isupport (Roster.self (roster_of (Ctx.model ctx))) line).
Proof.
  intros Hc. unfold moves, Roster.heard, Session.quit. rewrite Hc, !decide_False, decide_True by done.
  pose proof (roster_gone (Session.fold isupport (Session.sender line)) (Ctx.model ctx)) as Hg.
  destruct (Model.remove_everywhere _ _) as [left m]. cbn [snd fst Ctx.model Ctx.set_model]. rewrite still_forget_strangers.
  exact Hg.
Qed.
Lemma nick_moves line ctx :
  ascii_upper (Message.command line) = lit "NICK" →
  moves ctx (Session.nick isupport line ctx) (Roster.heard isupport (Roster.self (roster_of (Ctx.model ctx))) line).
Proof.
  intros Hc. unfold moves, Roster.heard, Session.nick. rewrite Hc, !decide_False, decide_True by done.
  destruct (Message.param line 0) as [to|]; [|done]. apply roster_renamed.
Qed.
Lemma rename_channel_moves line ctx :
  ascii_upper (Message.command line) = lit "RENAME" →
  moves ctx (Session.rename_channel isupport line ctx) (Roster.heard isupport (Roster.self (roster_of (Ctx.model ctx))) line).
Proof.
  intros Hc. unfold moves, Roster.heard, Session.rename_channel. rewrite Hc, !decide_False, decide_True by done.
  destruct (Message.param line 0) as [from|], (Message.param line 1) as [to|]; try done.
  pose proof (roster_moved (Session.casemapping isupport) from to (Ctx.model ctx)) as Hm.
  unfold Model.rename_channel in *. destruct (Model.channels (Ctx.model ctx) !! _); exact Hm.
Qed.

(** What NAMES says, one entry after the other. *)
Definition named (room : CaseFolded) (entries : list text) : list Roster.news :=
  (λ nick, Roster.Entered room (Isupport.fold isupport nick)) <$>
    filter (.≠ []) (snd ∘ Session.names_entry isupport <$> entries).

Lemma named_cons room entry entries prefixes nick :
  Session.names_entry isupport entry = (prefixes, nick) →
  named room (entry :: entries) =
    if decide (nick = []) then named room entries
    else Roster.Entered room (Isupport.fold isupport nick) :: named room entries.
Proof.
  intros E. assert ((snd ∘ Session.names_entry isupport) entry = nick) as Hn by (unfold compose; by rewrite E).
  unfold named. rewrite fmap_cons. destruct (decide (nick = [])) as [Hnil|Hne].
  - rewrite filter_cons_False; [done|]. rewrite Hn. tauto.
  - rewrite filter_cons_True by by rewrite Hn. by rewrite fmap_cons, Hn.
Qed.

Lemma names_loop_held room entries m c :
  Model.channel m room = Some c →
  ∃ m', Session.names_loop isupport room entries m = Some m' ∧ roster_of m' = foldl Roster.tell (roster_of m) (named room entries).
Proof.
  revert m c. induction entries as [|entry entries IH]; intros m c Hm; [by exists m|]. cbn [Session.names_loop].
  destruct (Session.names_entry isupport entry) as [prefixes nick] eqn:En. rewrite (named_cons _ _ _ _ _ En).
  case_decide; [by eapply IH|]. rewrite Hm. cbn [foldl].
  match goal with |- context [Session.names_loop _ _ _ ?m1] => destruct (IH m1 (Session.alter_member
    (Session.fold isupport nick) (λ _, prefixes) c)) as (m' & -> & Hm') end.
  - unfold Model.channel, Model.alter_channel in *. cbn [Model.channels Model.set_channels]. rewrite lookup_alter_eq.
    assert (∀ key n, Model.channels (Model.alter_person key (Person.set_nick n) (Model.person_or_insert key n m)) = Model.channels m)
      as -> by (intros; unfold Model.person_or_insert; by case_match). by rewrite Hm.
  - exists m'. split; [done|]. rewrite Hm', roster_entered. unfold Session.fold. do 2 f_equal.
    match goal with |- roster_of ?m1 = roster_of ?m0 => change (still m0 m1) end. by still.
Qed.

Lemma names_loop_absent room entries m :
  Model.channel m room = None →
  (Session.names_loop isupport room entries m = None ∨ Session.names_loop isupport room entries m = Some m)
  ∧ foldl Roster.tell (roster_of m) (named room entries) = roster_of m.
Proof.
  intros Hm. induction entries as [|entry entries [IH1 IH2]]; [by split; [right|]|]. cbn [Session.names_loop].
  destruct (Session.names_entry isupport entry) as [prefixes nick] eqn:En. rewrite (named_cons _ _ _ _ _ En).
  case_decide; [done|]. rewrite Hm. split; [by left|]. cbn [foldl]. by rewrite roster_absent.
Qed.

Lemma names_moves line ctx :
  ascii_upper (Message.command line) = lit "353" →
  moves ctx (Session.names isupport line ctx) (Roster.heard isupport (Roster.self (roster_of (Ctx.model ctx))) line).
Proof.
  intros Hc. unfold moves, Roster.heard, Session.names. rewrite Hc, !decide_False, decide_True by done.
  destruct (Message.param line 2) as [name|]; [|done]. cbv zeta.
  set (entries := split_whitespace _). fold (named (Isupport.fold isupport name) entries). unfold Session.fold.
  destruct (Model.channel (Ctx.model ctx) (Isupport.fold isupport name)) as [c|] eqn:Em.
  - destruct (names_loop_held _ entries _ _ Em) as (m' & -> & Hm'). exact Hm'.
  - destruct (names_loop_absent _ entries _ Em) as [[-> | ->] ->]; done.
Qed.

Lemma apply_who_moves row ctx :
  moves ctx (Session.apply_who isupport row ctx)
    (Roster.who_row isupport (Some (WhoRow.channel row)) (Some (WhoRow.nick row))).
Proof.
  unfold moves, Session.apply_who, Roster.who_row. cbv zeta.
  set (m := Model.alter_person _ _ _). assert (still (Ctx.model ctx) m) as Hm by (unfold m; by still).
  assert (∀ k, Model.channel m k = Model.channel (Ctx.model ctx) k) as Hch.
  { intros k. unfold m, Model.person_or_insert. cbn. by case_match. }
  destruct (Isupport.is_channel isupport _); [|exact Hm]. unfold Session.fold. rewrite Hch.
  destruct (Model.channel _ _) eqn:Em; cbn [snd Ctx.model Ctx.set_model foldl].
  - by rewrite roster_entered, Hm.
  - by rewrite roster_absent.
Qed.

Lemma who_reply_moves line ctx :
  ascii_upper (Message.command line) = lit "352" →
  moves ctx (Session.who_reply isupport line ctx) (Roster.heard isupport (Roster.self (roster_of (Ctx.model ctx))) line).
Proof.
  intros Hc. unfold Roster.heard, Session.who_reply. rewrite Hc, !decide_False, decide_True by done.
  destruct (Message.param line 1) as [channel|], (Message.param line 2) as [user|], (Message.param line 3) as [host|],
    (Message.param line 5) as [nick|], (Message.param line 6) as [flags|]; try done.
  match goal with |- context [Session.apply_who _ ?row _] => apply (apply_who_moves row) end.
Qed.
Lemma whox_reply_moves line ctx :
  ascii_upper (Message.command line) = lit "354" →
  moves ctx (Session.whox_reply isupport line ctx) (Roster.heard isupport (Roster.self (roster_of (Ctx.model ctx))) line).
Proof.
  intros Hc. unfold Roster.heard. rewrite Hc, !decide_False, decide_True by done. unfold Session.whox_reply.
  destruct (decide (Message.param line 1 = Some Session.WHOX_TOKEN)); [|by repeat case_match].
  destruct (Message.param line 2) as [channel|], (Message.param line 3) as [user|], (Message.param line 4) as [host|],
    (Message.param line 5) as [nick|], (Message.param line 6) as [flags|], (Message.param line 7) as [account|]; try done.
  match goal with |- context [Session.apply_who _ ?row _] => apply (apply_who_moves row) end.
Qed.
End handlers.

(** ** The dispatch *)

(** The verbs that say anything of presence. *)
Definition movers : list text := lit <$> ["JOIN"; "PART"; "KICK"; "QUIT"; "NICK"; "RENAME"; "353"; "352"; "354"]%string.

Lemma heard_quiet isupport self line :
  ascii_upper (Message.command line) ∉ movers → Roster.heard isupport self line = [].
Proof.
  intros Hc. unfold Roster.heard. cbv zeta.
  repeat (rewrite decide_False by (intros E; apply Hc; rewrite E; apply (bool_decide_unpack _); by vm_compute)). done.
Qed.

Lemma moves_quiet isupport names line ctx r :
  Session.is_any (ascii_upper (Message.command line)) names = true → forallb (λ n, bool_decide (n ∉ movers)) (lit <$> names) = true →
  still_result ctx r → moves ctx r (Roster.heard isupport (Roster.self (roster_of (Ctx.model ctx))) line).
Proof.
  intros E%is_any_In Hn Hr. rewrite heard_quiet; [exact Hr|]. rewrite forallb_forall in Hn.
  specialize (Hn _ (proj1 (list_elem_of_In _ _) E)). by apply bool_decide_eq_true in Hn.
Qed.

Lemma is_any_one command (name : string) : Session.is_any command [name] = bool_decide (command = lit name).
Proof. apply bool_decide_ext. apply list_elem_of_singleton. Qed.

(** The next verb the dispatch tests for: one that moves nobody, or one that does. *)
Ltac quiet_case lem :=
  match goal with |- moves _ (if ?b then _ else _) _ => destruct b eqn:? end;
  [eapply moves_quiet; [eassumption|by vm_compute|apply lem]|].
Ltac mover_case lem :=
  rewrite is_any_one; match goal with |- moves _ (if bool_decide ?P then _ else _) _ => destruct (bool_decide_reflect P) end;
  [by apply lem|].

Lemma apply_moves `{Unicode} isupport historical line ctx :
  moves ctx (Session.apply isupport historical line ctx)
    (Roster.heard isupport (Roster.self (roster_of (Ctx.model ctx))) line).
Proof.
  unfold Session.apply.
  quiet_case message_still. mover_case join_moves. mover_case part_moves. mover_case quit_moves. mover_case kick_moves.
  mover_case nick_moves. mover_case rename_channel_moves. quiet_case topic_still. quiet_case mode_still.
  quiet_case topic_reply_still. quiet_case mark_read_still. quiet_case redact_still. quiet_case away_still.
  quiet_case account_still. quiet_case metadata_still. quiet_case metadata_still. quiet_case whois_still.
  mover_case names_moves. mover_case who_reply_moves. mover_case whox_reply_moves. quiet_case prop_still.
  quiet_case prop_list_still.
  rewrite heard_quiet; [done|]. unfold movers. cbn [fmap list_fmap]. rewrite !not_elem_of_cons. split_and!; [done..|].
  apply not_elem_of_nil.
Qed.

(** C4. Presence is what the lines say of it: whatever lines a server sends, under whatever it announces between them,
    the channels held, the keys of the members of each and our own nick are those of the specification that reads
    JOIN, PART, KICK, QUIT, NICK, RENAME, NAMES and WHO off the words of the line alone. Nothing else (messages,
    modes, topics, metadata, history, accounts) puts anybody anywhere or takes anybody out. *)
Theorem roster_follows_lines `{Unicode} (lines : list (Isupport.t * bool * Message.t)) (ctx : Ctx.t) :
  roster_of (Ctx.model (run_lines lines ctx)) = foldl Roster.follow (roster_of (Ctx.model ctx)) lines.
Proof.
  revert ctx. induction lines as [|[[isupport historical] line] lines IH]; intros ctx; [done|].
  cbn [run_lines foldl]. etransitivity; [apply IH|]. f_equal. apply (apply_moves isupport historical).
Qed.

Example roster_of_a_session :
  let m := Ctx.model (@run_lines ascii_table (live [lit ":Me JOIN #C"; lit ":irc 353 me = #c :@al bo me"; lit ":bo NICK BOB";
    lit ":irc MODE #c -o al"; lit ":al KICK #c bob :out"; lit ":cy JOIN #C"]) (fresh_ctx "me")) in
  roster_of m = Roster.mk "me" {[ lit "#c" := {[ lit "al"; lit "cy"; lit "me" ]} ]}.
Proof. cbv zeta. apply (bool_decide_unpack _). by vm_compute. Qed.
