(* ===== verification/History.v ===== *)
(** * What a channel shows of what was said in it (theorems about src/crates/obby-client/src/model.rs and session.rs)

    The specification knows nothing of keys, of the id index or of trimming: of the entries told so
    far, each once, the [newest] as many as are kept, in the order of their times. [shown] is what
    the log holds of that. A server tells a client the same entry live, in a playback of history,
    and again after a reconnect; which of these it was, how often and in what order, is what the
    specification does not see. *)
From S2P Require Import Prelude Utf8 Casemap Isupport Tags Message ServerTime Mode Format Extensions Model Session.

(** ** The specification *)

(** What the server says of a message. *)
Record entry := mkEntry { at_ms : Z; id : text; by_ : text; kind : MessageKind.t; said : text }.
#[global] Instance entry_eq_dec : EqDecision entry.
Proof. solve_decision. Defined.

Definition older (a b : entry) : Prop := at_ms a < at_ms b.
Definition no_newer (a b : entry) : Prop := at_ms a <= at_ms b.
#[global] Instance no_newer_dec : RelDecision no_newer.
Proof. intros a b. unfold no_newer. apply _. Defined.
#[global] Instance no_newer_total : Total no_newer.
Proof. intros a b. unfold no_newer. lia. Qed.
#[global] Instance no_newer_trans : Transitive no_newer.
Proof. intros a b c. unfold no_newer. lia. Qed.
#[global] Instance older_trans : Transitive older.
Proof. intros a b c. unfold older. lia. Qed.

Definition in_order (told : list entry) : list entry := merge_sort no_newer (remove_dups told).
Definition newest (n : nat) (told : list entry) : list entry := drop (length (in_order told) - n) (in_order told).

(** An id and a time each name one entry. *)
Definition one_history (told : list entry) : Prop :=
  ∀ a b, a ∈ told → b ∈ told → id a = id b ∨ at_ms a = at_ms b → a = b.

(** [shown] is what is left of [told], said without computing it. *)
Record is_newest (n : nat) (told shown : list entry) : Prop := {
  newest_sorted : StronglySorted older shown;
  newest_told : ∀ e, e ∈ shown → e ∈ told;
  newest_few : (length shown <= n)%nat;
  newest_rest : ∀ e, e ∈ told → e ∈ shown ∨ length shown = n ∧ ∀ y, y ∈ shown → older e y;
}.

Lemma one_history_sub told told' : (∀ e, e ∈ told' → e ∈ told) → one_history told → one_history told'.
Proof. intros Hsub H a b Ha Hb. apply H; auto. Qed.

Lemma sorted_older_NoDup l : StronglySorted older l → NoDup l.
Proof.
  induction 1 as [|x l _ IH Hx]; constructor; [|done]. intros Hin. rewrite Forall_forall in Hx.
  specialize (Hx x Hin). unfold older in Hx. lia.
Qed.
Lemma sorted_older_weaken l : StronglySorted older l → StronglySorted no_newer l.
Proof.
  induction 1 as [|x l _ IH Hx]; constructor; [done|]. eapply Forall_impl; [exact Hx|].
  unfold older, no_newer. lia.
Qed.
Lemma sorted_app l k :
  StronglySorted no_newer l → StronglySorted no_newer k → (∀ x y, x ∈ l → y ∈ k → no_newer x y) →
  StronglySorted no_newer (l ++ k).
Proof.
  intros Hl Hk Hlk. induction Hl as [|x l _ IH Hx]; [done|]. cbn [app]. constructor.
  - apply IH. intros a b Ha. apply Hlk. by right.
  - apply Forall_app. split; [done|]. apply Forall_forall. intros y. apply Hlk. by left.
Qed.
Lemma sorted_filter (P : entry → Prop) `{∀ x, Decision (P x)} l :
  StronglySorted no_newer l → StronglySorted no_newer (filter P l).
Proof.
  induction 1 as [|x l _ IH Hx]; [constructor|]. rewrite filter_cons. case_decide; [|done].
  constructor; [done|]. apply Forall_forall. intros y [_ Hy]%list_elem_of_filter. by eapply Forall_forall in Hx.
Qed.

(** There is only one way to be the newest. *)
Lemma newest_unique n told shown : one_history told → is_newest n told shown → shown = newest n told.
Proof.
  intros Hone [Hs Ht Hn Hr]. set (rest := filter (λ e, e ∉ shown) (in_order told)).
  assert (StronglySorted no_newer (in_order told)) as Hio by apply (StronglySorted_merge_sort no_newer).
  assert (∀ e, e ∈ in_order told ↔ e ∈ told) as Hel.
  { intros e. unfold in_order. by rewrite merge_sort_Permutation, elem_of_remove_dups. }
  assert (NoDup (in_order told)) as Hnd by (unfold in_order; rewrite merge_sort_Permutation; apply NoDup_remove_dups).
  assert (∀ e, e ∈ rest → e ∈ told ∧ e ∉ shown) as Hrest.
  { intros e [Hns Hin]%list_elem_of_filter. by apply Hel in Hin. }
  assert (in_order told = rest ++ shown) as E.
  { eapply (StronglySorted_unique_strong no_newer); [|done| |].
    - intros a b Ha Hb Hab Hba. apply Hone; [by apply Hel|..].
      + apply elem_of_app in Hb as [Hb|Hb]; [by apply Hrest in Hb as []|by apply Ht].
      + right. unfold no_newer in *. lia.
    - apply sorted_app; [by apply sorted_filter|by apply sorted_older_weaken|].
      intros x y Hx Hy. apply Hrest in Hx as [Hx Hns]. destruct (Hr x Hx) as [|[_ Hold]]; [done|].
      specialize (Hold y Hy). unfold older, no_newer in *. lia.
    - apply NoDup_Permutation; [done| |].
      + apply NoDup_app. split_and!; [by apply NoDup_filter| |by apply sorted_older_NoDup].
        intros x Hx. by apply Hrest in Hx as [].
      + intros e. rewrite elem_of_app. split.
        * intros He. destruct (decide (e ∈ shown)); [by right|left]. by apply list_elem_of_filter.
        * intros [[_ He]%list_elem_of_filter|He]; [done|]. by apply Hel, Ht. }
  unfold newest. rewrite E, length_app. destruct (decide (rest = [])) as [-> |Hne].
  - rewrite (proj2 (Nat.sub_0_le _ _)) by (cbn [length app]; lia). done.
  - assert (length shown = n) as <-.
    { destruct rest as [|e rest'] eqn:Er; [done|]. destruct (Hrest e) as [He Hns]; [by left|].
      by destruct (Hr e He) as [|[? _]]. }
    by rewrite Nat.add_sub, drop_app_length.
Qed.

(** Order and repetition are not part of it. *)
Lemma newest_ext n told told' : one_history told → (∀ e, e ∈ told ↔ e ∈ told') → newest n told = newest n told'.
Proof.
  intros Hone He. unfold newest. assert (in_order told = in_order told') as ->; [|done].
  eapply (StronglySorted_unique_strong no_newer); [|apply (StronglySorted_merge_sort no_newer)..|].
  - unfold in_order. intros a b. rewrite !merge_sort_Permutation, !elem_of_remove_dups, <- He. intros Ha Hb Hab Hba.
    apply Hone; [done..|]. right. unfold no_newer in *. lia.
  - unfold in_order. rewrite !merge_sort_Permutation. apply NoDup_Permutation; [apply NoDup_remove_dups..|].
    intros e. by rewrite !elem_of_remove_dups.
Qed.

(** ** The log *)

Definition view (m : Chat.t) : entry :=
  mkEntry (time_ms (Chat.key m)) (default [] (Chat.msgid m)) (Chat.sender m) (Chat.kind m) (Chat.text_ m).
Definition shown (log : Log.t) : list entry := view <$> Log.iter log.

(** Every message of the log has an id. *)
Definition named_log (log : Log.t) : Prop := ∀ k m, Log.messages log !! k = Some m → is_Some (Chat.msgid m).

Lemma elem_of_shown log e : e ∈ shown log ↔ ∃ k m, Log.messages log !! k = Some m ∧ view m = e.
Proof.
  unfold shown, Log.iter. rewrite list_elem_of_fmap. split.
  - intros (m & -> & Hm). apply list_elem_of_fmap in Hm as ([k m'] & -> & Hk). apply elem_of_sorted_items in Hk. eauto.
  - intros (k & m & Hk & <-). exists m. split; [done|]. apply list_elem_of_fmap. exists (k, m).
    split; [done|]. by apply elem_of_sorted_items.
Qed.
Lemma length_shown log : length (shown log) = size (Log.messages log).
Proof. unfold shown, Log.iter. by rewrite !length_fmap, length_sorted_items. Qed.

(** The times of one history tell its messages apart, so that the order of the keys is theirs. *)
Lemma keys_older log k k' m m' : log_in_step log → named_log log → one_history (shown log) →
  Log.messages log !! k = Some m → Log.messages log !! k' = Some m' → k ≠ k' → key_le k k' → older (view m) (view m').
Proof.
  intros [Hk Hi] Hn Hone Hm Hm' Hne Hle. unfold older, view. cbn. rewrite (Hk _ _ Hm), (Hk _ _ Hm').
  destruct (decide (time_ms k = time_ms k')) as [Et|Et].
  - exfalso. apply Hne. destruct (Hn _ _ Hm) as [i Hmi], (Hn _ _ Hm') as [j Hmj].
    assert (view m = view m') as E.
    { apply Hone; [apply elem_of_shown; eauto..|]. right. unfold view. cbn. by rewrite (Hk _ _ Hm), (Hk _ _ Hm'). }
    apply (f_equal id) in E. unfold view in E. cbn in E. rewrite Hmi, Hmj in E. cbn in E. subst j.
    assert (Log.by_msgid log !! i = Some k) as E1 by (apply Hi; eauto).
    assert (Log.by_msgid log !! i = Some k') as E2 by (apply Hi; eauto). congruence.
  - unfold time_ms in *. destruct Hle as [Hlt| ->]; [|done]. destruct Hlt as [Hlt|[Heq _]]; [exact Hlt|done].
Qed.

Lemma shown_sorted log : log_in_step log → named_log log → one_history (shown log) → StronglySorted older (shown log).
Proof.
  intros Hstep Hn Hone. unfold shown, Log.iter. rewrite <- list_fmap_compose.
  assert (∀ p, p ∈ sorted_items (Log.messages log) → Log.messages log !! p.1 = Some p.2) as Hin.
  { intros [k m] Hp. by apply elem_of_sorted_items in Hp. }
  pose proof (sorted_items_sorted (Log.messages log)) as Hs. pose proof (sorted_items_NoDup_fst (Log.messages log)) as Hnd.
  induction Hs as [|p l Hs IH Hp]; [constructor|]. rewrite fmap_cons in *. apply NoDup_cons in Hnd as [Hnp Hnd].
  constructor.
  - apply IH; [|done]. intros q Hq. apply Hin. by right.
  - apply Forall_fmap, Forall_forall. intros q Hq. rewrite Forall_forall in Hp.
    apply (keys_older log p.1 q.1); [done..|apply Hin; by left|apply Hin; by right| |by apply Hp].
    intros E. apply Hnp. rewrite E. by apply list_elem_of_fmap_2.
Qed.

Lemma wf_log_in_step log : wf_log log → log_in_step log.
Proof. intros [_ _ H1 H2]. by split. Qed.

(** What holds of a log after it was told these entries. *)
Record keeps (n : nat) (told : list entry) (log : Log.t) : Prop := {
  keeps_wf : wf_log log;
  keeps_named : named_log log;
  keeps_retention : Log.retention log = n;
  keeps_newest : is_newest n told (shown log);
}.

Lemma keeps_same n told e log : keeps n told log → e ∈ shown log → keeps n (told ++ [e]) log.
Proof.
  intros [Hw Hn Hr [H1 H2 H3 H4]] He. split; [done..|]. split; [done| |done|].
  - intros x Hx. apply elem_of_app. auto.
  - intros x [Hx| ->%list_elem_of_singleton]%elem_of_app; auto.
Qed.

(** A message is known to the log exactly when the log shows it. *)
Lemma known_shown n told msg i log : keeps n told log → one_history (told ++ [view msg]) → Chat.msgid msg = Some i →
  (Log.contains log i = true ↔ view msg ∈ shown log)
  ∧ (Log.contains log i = false → Log.messages log !! Chat.key msg = None).
Proof.
  intros [Hw Hn _ [_ Ht _ _]] Hone Hi.
  assert (∀ k m, Log.messages log !! k = Some m → id (view m) = i ∨ at_ms (view m) = at_ms (view msg) → view m = view msg) as Hsame.
  { intros k m Hm E. apply Hone; [|by apply elem_of_app; right; left|].
    - apply elem_of_app. left. apply Ht, elem_of_shown. eauto.
    - destruct E as [E|E]; [left|by right]. rewrite E. unfold view. cbn. by rewrite Hi. }
  assert (∀ k m, Log.messages log !! k = Some m → view m = view msg → Chat.msgid m = Some i) as Hid.
  { intros k m Hm E. destruct (Hn k m Hm) as [j Hj]. rewrite Hj. apply (f_equal id) in E. unfold view in E. cbn in E.
    rewrite Hj, Hi in E. cbn in E. by subst. }
  assert (∀ k m, Log.messages log !! k = Some m → Chat.msgid m = Some i → Log.contains log i = true) as Hc.
  { intros k m Hm E. apply bool_decide_eq_true. exists k. apply (log_indexed _ Hw). eauto. }
  split; [split|].
  - intros [k Hk]%bool_decide_eq_true. apply (log_indexed _ Hw) in Hk as (m & Hm & Hmi).
    apply elem_of_shown. exists k, m. split; [done|]. apply (Hsame k m Hm). left. unfold view. cbn. by rewrite Hmi.
  - intros (k & m & Hm & E)%elem_of_shown. apply (Hc k m Hm). by apply (Hid k m).
  - intros Hcon. destruct (Log.messages log !! Chat.key msg) as [m|] eqn:Hm; [|done].
    assert (view m = view msg) as E.
    { apply (Hsame _ _ Hm). right. unfold view. cbn. by rewrite (log_keyed _ Hw _ _ Hm). }
    rewrite (Hc _ _ Hm) in Hcon; [done|]. by apply (Hid _ _ Hm).
Qed.

(** What the log holds of a new message before it is trimmed. *)
Lemma elem_of_inserted msg log e : Log.messages log !! Chat.key msg = None →
  (∃ k m, <[Chat.key msg := msg]> (Log.messages log) !! k = Some m ∧ view m = e) ↔ e = view msg ∨ e ∈ shown log.
Proof.
  intros Hfresh. rewrite elem_of_shown. split.
  - intros (k & m & [[_ <-]|[_ Hm]]%lookup_insert_Some & <-); [by left|right; eauto].
  - intros [-> |(k & m & Hm & <-)]; [exists (Chat.key msg), msg; by rewrite lookup_insert_eq|].
    exists k, m. split; [|done]. rewrite lookup_insert_ne; [done|]. intros <-. congruence.
Qed.

(** Dropping the first of a full log leaves out what is older than all the rest. *)
Lemma full_rest n told msg i log o om (shown' : list entry) : keeps n told log → Chat.msgid msg = Some i → Log.contains log i = false →
  Log.messages log !! Chat.key msg = None → one_history (told ++ [view msg]) → size (Log.messages log) = n →
  let all := <[Chat.key msg := msg]> (Log.messages log) in
  all !! o = Some om → (∀ k, is_Some (all !! k) → key_le o k) →
  (∀ e, e ∈ shown' ↔ ∃ k m, delete o all !! k = Some m ∧ view m = e) →
  ∀ e, e ∈ told ++ [view msg] → e ∈ shown' ∨ ∀ y, y ∈ shown' → older e y.
Proof.
  intros [Hw Hn Hr [_ Ht _ Hrest]] Hi Hc Hfresh Hone Hsize all Ho Hmin Hs' e He.
  set (log_all := Log.mk all (<[i := Chat.key msg]> (Log.by_msgid log)) (Log.retention log)).
  assert (log_in_step log_all) as Hstep.
  { pose proof (insert_step msg log Hw Hfresh) as H. rewrite Hi in H. apply H. intros ? [= <-].
    apply bool_decide_eq_false in Hc. by apply eq_None_not_Some. }
  assert (named_log log_all) as Hna.
  { intros k m Hm. change (all !! k = Some m) in Hm. apply lookup_insert_Some in Hm as [[_ <-]|[_ Hm]]; [by rewrite Hi|by eapply Hn]. }
  assert (∀ y, y ∈ shown' → older (view om) y) as Hoy.
  { intros y (k & m & [Hne Hm]%lookup_delete_Some & <-)%Hs'.
    apply (keys_older log_all o k); try done; [|by apply Hmin; eexists]. eapply one_history_sub; [|exact Hone].
    intros x Hx%elem_of_shown. apply (elem_of_inserted _ _ _ Hfresh) in Hx as [-> |Hx]; apply elem_of_app;
      [right; by left|left; auto]. }
  assert ((∃ k m, all !! k = Some m ∧ view m = e) ∨ ∀ y, y ∈ shown log → older e y) as [(k & m & Hm & <-)|Holder].
  { pose proof (elem_of_inserted msg log e Hfresh) as Hel. fold all in Hel. rewrite Hel. apply elem_of_app in He as [He| ->%list_elem_of_singleton]; [|by left; left].
    destruct (Hrest e He) as [|[_ ?]]; [left; by right|by right]. }
  - destruct (decide (k = o)) as [-> |Hne]; [right; by replace m with om by congruence|left].
    apply Hs'. exists k, m. by rewrite lookup_delete_ne.
  - right. intros y Hy. pose proof (Hoy y Hy) as Hy'.
    assert (∀ k m, all !! k = Some m → view m = view msg ∨ view m ∈ shown log) as Hor.
    { intros k m Hm. apply (elem_of_inserted msg log (view m) Hfresh). eauto. }
    apply Hs' in Hy as (k & m & [_ Hm]%lookup_delete_Some & <-).
    destruct (Hor _ _ Hm) as [Em|Em]; [|by apply Holder].
    destruct (Hor _ _ Ho) as [Eo|Eo]; [|etrans; [by apply Holder|done]].
    rewrite Eo, Em in Hy'. unfold older in Hy'. lia.
Qed.

Lemma keeps_insert n told msg log : keeps n told log → is_Some (Chat.msgid msg) → one_history (told ++ [view msg]) →
  keeps n (told ++ [view msg]) (Log.insert msg log).2.
Proof.
  intros Hk [i Hi] Hone. destruct (known_shown n told msg i log Hk Hone Hi) as [Hknown Hfresh].
  destruct (Log.contains log i) eqn:Hc.
  { assert ((Log.insert msg log).2 = log) as ->.
    { unfold Log.insert. rewrite Hi. unfold Log.contains in Hc. by rewrite Hc. }
    apply keeps_same; [done|]. by apply Hknown. }
  specialize (Hfresh eq_refl). pose proof Hk as [Hw Hn Hr [Hs Ht Hf Hrest]].
  pose proof (insert_cases msg log Hw Hfresh) as Hins. pose proof (retention_insert msg log Hw Hfresh) as Hret.
  destruct (Log.insert msg log) as [accepted log']. cbn [snd] in *.
  destruct Hins as (Hw' & Hacc & _ & Hfits & Hfull). rewrite Hi, Hc in Hacc. subst accepted.
  set (all := <[Chat.key msg := msg]> (Log.messages log)) in *.
  pose proof (log_bounded _ Hw) as Hb. pose proof (length_shown log) as Hls.
  assert (size all = S (size (Log.messages log))) as Hsize by by apply map_size_insert_None.
  assert (∀ k m, Log.messages log' !! k = Some m → all !! k = Some m) as Hsub.
  { intros k m Hm. destruct (decide (size all <= Log.retention log)%nat); [by rewrite Hfits in Hm|].
    destruct (Hfull eq_refl) as (o & _ & _ & E); [lia|]. rewrite E in Hm. by apply lookup_delete_Some in Hm as []. }
  assert (named_log log') as Hn'.
  { intros k m Hm%Hsub. apply lookup_insert_Some in Hm as [[_ <-]|[_ Hm]]; [by rewrite Hi|by eapply Hn]. }
  assert (∀ e, e ∈ shown log' → e ∈ told ++ [view msg]) as Ht'.
  { intros e (k & m & Hm%Hsub & <-)%elem_of_shown. apply elem_of_app.
    destruct (proj1 (elem_of_inserted msg log (view m) Hfresh)) as [E|E]; [by eauto|right; rewrite E; by left|left; auto]. }
  split; [done..|congruence|]. split; [|done| |].
  { apply shown_sorted; [by apply wf_log_in_step|done|]. by eapply one_history_sub. }
  { rewrite length_shown. pose proof (log_bounded _ Hw'). lia. }
  intros e He. destruct (decide (size all <= Log.retention log)%nat) as [Hle|Hgt].
  - left. apply elem_of_shown. rewrite (Hfits eq_refl Hle). apply elem_of_inserted; [done|].
    apply elem_of_app in He as [He| ->%list_elem_of_singleton]; [|by left]. destruct (Hrest e He) as [|[? _]]; [by right|lia].
  - destruct (Hfull eq_refl) as (o & [om Ho] & Hmin & E); [lia|].
    assert (length (shown log') = n) as Hlen by (rewrite length_shown, E, map_size_delete, Ho; lia).
    destruct (full_rest n told msg i log o om (shown log') Hk Hi Hc Hfresh Hone ltac:(lia) Ho Hmin) with (e := e); [|done|by left|by right].
    intros x. by rewrite elem_of_shown, E.
Qed.

(** ** Lines that say nothing in the channel *)

(** Whatever a log was told, another one has been told too. *)
Definition hears (log log' : Log.t) : Prop := ∀ n told, keeps n told log → keeps n told log'.
#[export] Instance hears_preorder : PreOrder hears.
Proof. split; [by intros log n told|]. intros a b c Hab Hbc n told Ha. by apply Hbc, Hab. Qed.

Lemma shown_alter i f log : (∀ m, view (f m) = view m) → shown (Log.alter i f log) = shown log.
Proof.
  intros Hf. unfold Log.alter. destruct (Log.by_msgid log !! i); [|done]. unfold shown, Log.iter. cbn [Log.messages].
  rewrite sorted_items_alter, <- !list_fmap_compose. apply list_fmap_ext. intros _ p _. cbn.
  case_decide; [|done]. cbn. apply Hf.
Qed.

Lemma hears_alter i f log : (∀ m, view (f m) = view m ∧ Chat.key (f m) = Chat.key m ∧ Chat.msgid (f m) = Chat.msgid m) →
  hears log (Log.alter i f log).
Proof.
  intros Hf n told [Hw Hn Hr Hnew]. destruct (alter_wf i f log) as [Hw' Hr']; [|done|].
  { intros m. destruct (Hf m) as (_ & H1 & H2). by split. }
  split; [done| |congruence|].
  - intros k m. unfold Log.alter. destruct (Log.by_msgid log !! i); [|apply Hn]. cbn [Log.messages].
    intros [(_ & m' & Hm & ->)|[_ Hm]]%lookup_alter_Some; [|by eapply Hn].
    destruct (Hf m') as (_ & _ & ->). by eapply Hn.
  - by replace (shown (Log.alter i f log)) with (shown log) by (symmetry; apply shown_alter; intros m; apply Hf).
Qed.

(** Nothing but what the channel showed before: the channel that is there now was there, and its log has been told
    the same. (That a channel is gone is not excluded.) *)
Definition unsaid (key : CaseFolded) (m m' : Model.t) : Prop :=
  ∀ c', Model.channels m' !! key = Some c' → ∃ c, Model.channels m !! key = Some c ∧ hears (Channel.log c) (Channel.log c').
#[export] Instance unsaid_preorder key : PreOrder (unsaid key).
Proof.
  split; [intros m c Hc; by exists c|]. intros m1 m2 m3 H12 H23 c3 Hc3. destruct (H23 c3 Hc3) as (c2 & Hc2 & H2).
  destruct (H12 c2 Hc2) as (c1 & Hc1 & H1). exists c1. split; [done|]. by etransitivity.
Qed.

Section unsaid.
Context (key : CaseFolded).
Implicit Types m : Model.t.

Lemma unsaid_channels m m' : Model.channels m' = Model.channels m → unsaid key m m'.
Proof. intros E c'. rewrite E. intros Hc. by exists c'. Qed.
Lemma unsaid_alter_channel k f m : (∀ c, hears (Channel.log c) (Channel.log (f c))) → unsaid key m (Model.alter_channel k f m).
Proof.
  intros Hf c'. cbn. intros [(-> & c & Hc & ->)|[_ Hc]]%lookup_alter_Some; [by exists c|by exists c'].
Qed.
Lemma unsaid_fmap f m : (∀ c, Channel.log (f c) = Channel.log c) → unsaid key m (Model.set_channels (f <$> Model.channels m) m).
Proof. intros Hf c'. cbn. rewrite lookup_fmap. intros (c & Hc & ->)%fmap_Some. exists c. by rewrite Hf. Qed.
Lemma unsaid_remove_channel k m : unsaid key m (Model.remove_channel k m).
Proof. intros c'. cbn. intros [_ Hc]%lookup_delete_Some. by exists c'. Qed.
Lemma unsaid_remove_everywhere who m : unsaid key m (Model.remove_everywhere who m).2.
Proof. by apply unsaid_fmap. Qed.
Lemma unsaid_rename cm from to m : unsaid key m (Model.rename cm from to m).
Proof. intros c'. cbn. rewrite lookup_fmap. intros (c & Hc & ->)%fmap_Some. by exists c. Qed.
Lemma unsaid_person_or_insert k n m : unsaid key m (Model.person_or_insert k n m).
Proof. apply unsaid_channels. unfold Model.person_or_insert. by case_match. Qed.
Lemma unsaid_set_me u m : unsaid key m (Model.set_me u m).
Proof. by apply unsaid_channels. Qed.
Lemma unsaid_alter_person k f m : unsaid key m (Model.alter_person k f m).
Proof. by apply unsaid_channels. Qed.
Lemma unsaid_forget_strangers m : unsaid key m (Model.forget_strangers m).
Proof. by apply unsaid_channels. Qed.
Lemma unsaid_whois_or_insert k n m : unsaid key m (Model.whois_or_insert k n m).
Proof. by apply unsaid_channels. Qed.
Lemma unsaid_alter_whois k f m : unsaid key m (Model.alter_whois k f m).
Proof. by apply unsaid_channels. Qed.
Lemma unsaid_alter_conversation k f m : unsaid key m (Model.alter_conversation k f m).
Proof. by apply unsaid_channels. Qed.
Lemma unsaid_alter_target k i f m :
  (∀ c, view (f c) = view c ∧ Chat.key (f c) = Chat.key c ∧ Chat.msgid (f c) = Chat.msgid c) →
  unsaid key m (Session.alter_target_message k i f m).
Proof.
  intros Hf. unfold Session.alter_target_message. case_match; [|by apply unsaid_channels].
  apply unsaid_alter_channel. intros c. by apply hears_alter.
Qed.
End unsaid.

#[export] Hint Resolve unsaid_remove_channel unsaid_remove_everywhere unsaid_rename unsaid_person_or_insert unsaid_set_me
  unsaid_alter_person unsaid_forget_strangers unsaid_whois_or_insert unsaid_alter_whois unsaid_alter_conversation : unsaid.

(** Peel the operations off a model one at a time. *)
Ltac unsaid :=
  repeat match goal with
  | |- unsaid _ ?m ?m => reflexivity
  | |- unsaid _ _ (Model.alter_channel _ _ _) =>
      etransitivity; [|apply unsaid_alter_channel; intros ?; reflexivity]
  | |- unsaid _ _ (Session.alter_target_message _ _ _ _) =>
      etransitivity; [|apply unsaid_alter_target; intros ?; by split_and!]
  | |- unsaid _ _ (if ?b then _ else _) => destruct b
  | |- unsaid _ _ (match ?b with _ => _ end) => destruct b
  | |- unsaid _ _ (?f _) => etransitivity; [|by eauto with unsaid]
  | |- unsaid _ _ (?f _ _) => etransitivity; [|by eauto with unsaid]
  | |- unsaid _ _ _ => etransitivity; [|by eauto with unsaid]
  end.

Section handlers.
Context `{Unicode} (key : CaseFolded) (isupport : Isupport.t) (historical : bool).

Definition leaves (ctx : Ctx.t) (r : Session.result) : Prop := unsaid key (Ctx.model ctx) (Ctx.model r.2).

Ltac handler := unfold leaves; repeat (case_match; try done); simplify_eq/=; try done; try (by unsaid).

Lemma part_leaves line ctx : leaves ctx (Session.part isupport line ctx).
Proof. unfold Session.part. handler. Qed.
Lemma quit_leaves line ctx : leaves ctx (Session.quit isupport line ctx).
Proof.
  unfold Session.quit. pose proof (unsaid_remove_everywhere key (Session.fold isupport (Session.sender line)) (Ctx.model ctx)).
  destruct (Model.remove_everywhere _ _) as [left m]. unfold leaves. cbn in *. by unsaid.
Qed.
Lemma kick_leaves line ctx : leaves ctx (Session.kick isupport line ctx).
Proof. unfold Session.kick. handler. Qed.
Lemma nick_leaves line ctx : leaves ctx (Session.nick isupport line ctx).
Proof. unfold Session.nick. handler. Qed.
Lemma whois_leaves command line ctx : leaves ctx (Session.whois isupport command line ctx).
Proof. unfold Session.whois. handler. Qed.
Lemma topic_leaves line ctx : leaves ctx (Session.topic isupport line ctx).
Proof. unfold Session.topic. handler. Qed.
Lemma topic_reply_leaves line ctx : leaves ctx (Session.topic_reply isupport line ctx).
Proof. unfold Session.topic_reply. handler. Qed.
Lemma redact_leaves line ctx : leaves ctx (Session.redact isupport line ctx).
Proof. unfold Session.redact. handler. Qed.
Lemma metadata_leaves offset line ctx : leaves ctx (Session.metadata isupport offset line ctx).
Proof. unfold Session.metadata. handler. Qed.
Lemma person_changed_leaves line f ctx : leaves ctx (Session.person_changed isupport line f ctx).
Proof. unfold Session.person_changed. handler. Qed.
Lemma away_leaves line ctx : leaves ctx (Session.away isupport line ctx).
Proof. unfold Session.away. apply person_changed_leaves. Qed.
Lemma account_leaves line ctx : leaves ctx (Session.account isupport line ctx).
Proof. unfold Session.account. apply person_changed_leaves. Qed.
Lemma apply_who_leaves row ctx : leaves ctx (Session.apply_who isupport row ctx).
Proof. unfold Session.apply_who. handler. Qed.
Lemma who_reply_leaves line ctx : leaves ctx (Session.who_reply isupport line ctx).
Proof. unfold Session.who_reply, leaves. repeat (case_match; [|done]). apply apply_who_leaves. Qed.
Lemma whox_reply_leaves line ctx : leaves ctx (Session.whox_reply isupport line ctx).
Proof. unfold Session.whox_reply, leaves. case_decide; [|done]. repeat (case_match; [|done]). apply apply_who_leaves. Qed.
Lemma mark_read_leaves line ctx : leaves ctx (Session.mark_read isupport line ctx).
Proof. unfold Session.mark_read. handler. Qed.
Lemma named_leaves folded entries ctx : unsaid key (Ctx.model ctx) (Ctx.model (Session.apply_named folded entries ctx).2).
Proof. unfold Session.apply_named. case_match; [|done]. cbn. by unsaid. Qed.
Lemma prop_leaves line ctx : leaves ctx (Session.prop isupport line ctx).
Proof.
  unfold Session.prop, leaves. case_match; [|done].
  match goal with |- context [Session.apply_named ?f ?e ctx] => pose proof (named_leaves f e ctx) as Hs end.
  by destruct (Session.apply_named _ _ _).
Qed.
Lemma prop_list_leaves line ctx : leaves ctx (Session.prop_list isupport line ctx).
Proof.
  unfold Session.prop_list, leaves. case_match; [|done].
  match goal with |- context [Session.apply_named ?f ?e ctx] => pose proof (named_leaves f e ctx) as Hs end.
  by destruct (Session.apply_named _ _ _).
Qed.
Lemma names_leaves line ctx : leaves ctx (Session.names isupport line ctx).
Proof.
  unfold Session.names, leaves. case_match; [|done]. case_match eqn:E; [|done]. cbn. revert E.
  match goal with |- Session.names_loop _ _ ?l _ = _ → _ => generalize l end. intros es. generalize (Ctx.model ctx).
  induction es as [|e es IH]; intros m; simpl; [intros ?; by simplify_eq|].
  destruct (Session.names_entry isupport e) as [prefixes nick]. case_decide; [apply IH|].
  case_match; [|done]. intros Hrun%IH. etransitivity; [|exact Hrun]. unsaid.
Qed.
Lemma mode_leaves line ctx : leaves ctx (Session.mode isupport line ctx).
Proof.
  unfold Session.mode, leaves. case_match; [|done]. case_match; [|cbn; by unsaid].
  match goal with |- context [foldl ?f ?a ?l] => assert (unsaid key a.2 (foldl f a l).2) as Hs end.
  { generalize (Mode.parse_channel_modes isupport (drop 1 (Message.params line))) as cs. intros cs.
    generalize (false, Ctx.model ctx) as a. induction cs as [|c cs IH]; intros [b m]; simpl; [done|].
    etransitivity; [|apply IH]. unfold Session.mode_change. repeat case_match; cbn [snd]; unsaid. }
  by destruct (foldl _ _ _).
Qed.
Lemma join_leaves line ctx : is_Some (Model.channels (Ctx.model ctx) !! key) → leaves ctx (Session.join isupport line ctx).
Proof.
  intros [c Hc]. unfold Session.join, leaves. case_match; [|done]. case_match; cbn.
  - intros c'. unfold Model.channel_or_insert. case_match eqn:E; [by exists c'|]. cbn.
    intros [[Ek _]|[_ Hc']]%lookup_insert_Some; [rewrite Ek in E; congruence|by exists c'].
  - handler.
Qed.
Lemma rename_channel_leaves line ctx :
  (∀ to, Message.param line 1 = Some to → Session.fold isupport to = key →
     Session.fold isupport <$> Message.param line 0 = Some key) →
  leaves ctx (Session.rename_channel isupport line ctx).
Proof.
  intros Hto. unfold Session.rename_channel, leaves. destruct (Message.param line 0) as [from|]; [|done].
  destruct (Message.param line 1) as [to|]; [|done]. unfold Model.rename_channel.
  destruct (Model.channels _ !! _) as [c|] eqn:Ec; [|done]. cbn. intros c'. cbn.
  intros [[Ek <-]|[_ [_ Hc']%lookup_delete_Some]]%lookup_insert_Some; [|by exists c'].
  specialize (Hto _ eq_refl Ek). cbn in Hto. injection Hto as Hto. exists c. rewrite <- Hto. by split.
Qed.
Lemma special_leaves line ctx r :
  Session.reaction isupport line ctx = Some r ∨ Session.link_preview isupport line ctx = Some r → leaves ctx r.
Proof.
  unfold leaves. intros [E|E].
  - unfold Session.reaction in E. repeat (apply bind_Some in E as (? & ? & E); try case_match). simplify_eq/=. unsaid.
  - unfold Session.link_preview in E. apply bind_Some in E as ([msgid p] & ? & E). simplify_eq.
    repeat case_match; try done; cbn; unsaid.
Qed.

(** The channel a message to this target is filed in, if it is one. *)
Definition channel_of (target : text) : option CaseFolded :=
  let name := trim_start_matches (Isupport.is_statusmsg isupport) target in
  if Isupport.is_channel isupport name then Some (Session.fold isupport name) else None.

Lemma ordinary_leaves target command line ctx : channel_of target ≠ Some key →
  leaves ctx (Session.ordinary isupport historical target command line ctx).
Proof.
  intros Hne. unfold Session.ordinary, leaves. destruct (Session.stamp line ctx) as [time ctx1] eqn:Es.
  assert (Ctx.model ctx1 = Ctx.model ctx) as E1 by (unfold Session.stamp in Es; by simplify_eq).
  unfold Model.next_message_key. cbv beta iota zeta. rewrite E1.
  unfold Session.filed_under. unfold channel_of in Hne. destruct (Isupport.is_channel isupport _).
  - unfold Session.file. case_match; [|by apply unsaid_channels]. destruct (Log.insert _ _) as [accepted log]. cbn.
    intros c'. cbn. intros [(Ek & _)|[_ Hc]]%lookup_alter_Some; [congruence|by exists c'].
  - assert (∀ a b c d x, unsaid key (Ctx.model x) (Ctx.model (Session.file isupport a false b c d x).2)) as Hf.
    { intros. unfold Session.file. case_match; [|done]. destruct (Log.insert _ _) as [accepted log]. cbn.
      apply unsaid_channels. unfold Model.conversation_or_insert. cbn. by case_match. }
    match goal with |- context [if ?b then (_, false) else _] => destruct b end;
      (etransitivity; [|apply Hf]; by apply unsaid_channels).
Qed.
End handlers.

(** ** Lines as the server sends them *)

(** The line says something of a message already there, nothing new: it is a preview of a link, or a reaction to a
    message that is held where it is sent. *)
Definition annotates `{Unicode} (isupport : Isupport.t) (line : Message.t) (ctx : Ctx.t) : bool :=
  bool_decide (ascii_upper (Message.command line) = lit "TAGMSG")
  && (bool_decide (is_Some (LinkPreview.parse line))
      || bool_decide (is_Some (
           _ ← Session.reaction_tag line; id ← LinkPreview.reply_tag line; name ← Message.param line 0;
           log ← Session.target_log (Session.fold isupport name) (Ctx.model ctx); Log.get log id))).

(** What a line says in a channel: a message with its text, or a TAGMSG, which has none. *)
Definition utterance (isupport : Isupport.t) (line : Message.t) : option (CaseFolded * entry) :=
  let command := ascii_upper (Message.command line) in
  if Session.is_any command ["PRIVMSG"; "NOTICE"; "TAGMSG"]%string then
    key ← Message.param line 0 ≫= channel_of isupport;
    at_ms ← Message.tag line "time" ≫= ServerTime.parse;
    id ← Message.tag line "msgid";
    let '(kind, said) := Session.kind_and_text command line in
    Some (key, mkEntry at_ms id (Session.sender line) kind said)
  else None.

Section heard.
Context `{Unicode} (key : CaseFolded).
Implicit Types (lines : list (Isupport.t * bool * Message.t)) (ctx : Ctx.t).

Definition said_in (isupport : Isupport.t) (line : Message.t) ctx : option entry :=
  if annotates isupport line ctx then None
  else '(k, e) ← utterance isupport line; if decide (k = key) then Some e else None.
(** All that these lines say in the channel. *)
Fixpoint heard lines ctx : list entry :=
  match lines with
  | [] => []
  | (isupport, historical, line) :: lines =>
      let rest := heard lines (Session.apply isupport historical line ctx).2 in
      from_option (λ e, e :: rest) rest (said_in isupport line ctx)
  end.

(** The line says nothing in the channel: if it is a message it goes elsewhere; and no other channel takes its name. *)
Definition silent (isupport : Isupport.t) (line : Message.t) : bool :=
  let command := ascii_upper (Message.command line) in
  let there := Message.param line 0 ≫= channel_of isupport in
  let named n := Session.fold isupport <$> Message.param line n in
  (negb (Session.is_any command ["PRIVMSG"; "NOTICE"; "TAGMSG"]%string) || bool_decide (there ≠ Some key))
  && (bool_decide (command ≠ lit "RENAME") || bool_decide (named 1%nat ≠ Some key) || bool_decide (named 0%nat = Some key)).

(** What a message to the channel says can be told (it has an id and a time), or it is of a message already there, or
    the line says nothing in the channel. *)
Definition clear (isupport : Isupport.t) (line : Message.t) ctx : bool :=
  annotates isupport line ctx || bool_decide (is_Some (said_in isupport line ctx)) || silent isupport line.

(** Every line is such a line, and we are in the channel after each. *)
Fixpoint stays lines ctx : bool :=
  match lines with
  | [] => true
  | (isupport, historical, line) :: lines =>
      let ctx' := (Session.apply isupport historical line ctx).2 in
      clear isupport line ctx && bool_decide (is_Some (Model.channel (Ctx.model ctx') key)) && stays lines ctx'
  end.
End heard.

Ltac leaves_case lem :=
  match goal with |- leaves _ _ (if ?b then _ else _) => destruct b end; [apply lem|].

Section lines.
Context `{Unicode} (key : CaseFolded).

Lemma silent_spec isupport line : silent key isupport line = true →
  (Session.is_any (ascii_upper (Message.command line)) ["PRIVMSG"; "NOTICE"; "TAGMSG"]%string = true →
     (Message.param line 0 ≫= channel_of isupport) ≠ Some key)
  ∧ (ascii_upper (Message.command line) = lit "RENAME" → ∀ to, Message.param line 1 = Some to → Session.fold isupport to = key →
       Session.fold isupport <$> Message.param line 0 = Some key).
Proof.
  unfold silent. cbv zeta. rewrite andb_true_iff, !orb_true_iff, negb_true_iff, !bool_decide_eq_true.
  intros [H1 H2]. split.
  - intros E. rewrite E in H1. by destruct H1.
  - intros E to Ht Hk. rewrite Ht in H2. cbn in H2. rewrite Hk in H2. destruct H2 as [[?|?]|?]; done.
Qed.

(** A message is either of one already there, and then leaves every log showing what it showed, or an ordinary one. *)
Lemma message_annotates isupport historical line ctx :
  Session.is_any (ascii_upper (Message.command line)) ["PRIVMSG"; "NOTICE"; "TAGMSG"]%string = true →
  (annotates isupport line ctx = true → leaves key ctx (Session.apply isupport historical line ctx))
  ∧ (annotates isupport line ctx = false → ∀ target, Message.param line 0 = Some target →
       Session.apply isupport historical line ctx
       = Session.ordinary isupport historical target (ascii_upper (Message.command line)) line ctx).
Proof.
  intros Hcmd. unfold Session.apply. rewrite Hcmd. unfold Session.message, annotates.
  destruct (decide (ascii_upper (Message.command line) = lit "TAGMSG")) as [Ht|Ht].
  2: { rewrite bool_decide_eq_false_2 by done. split; [done|]. intros _ target ->. done. }
  rewrite bool_decide_eq_true_2 by done. cbn [andb]. split.
  - intros Ha%orb_true_iff. destruct (Message.param line 0) as [target|] eqn:E0; [|by unfold leaves].
    destruct (Session.reaction _ _ _) as [r|] eqn:Er; [apply (special_leaves key isupport line); by left|].
    destruct (Session.link_preview _ _ _) as [r|] eqn:El; [apply (special_leaves key isupport line); by right|]. exfalso.
    destruct Ha as [[[i p] Hp]%bool_decide_eq_true|[m Hm]%bool_decide_eq_true].
    + unfold Session.link_preview in El. by rewrite Hp in El.
    + unfold Session.reaction in Er. apply bind_Some in Hm as ([emoji adding] & H1 & Hm).
      apply bind_Some in Hm as (id & H2 & Hm). cbn in Hm. apply bind_Some in Hm as (log & H3 & H4).
      rewrite H1 in Er. cbn in Er. rewrite H2, E0 in Er. cbn in Er. rewrite H3 in Er. cbn in Er. by rewrite H4 in Er.
  - intros [Hp Hr]%orb_false_iff target ->. 
    assert (Session.link_preview isupport line ctx = None) as ->.
    { unfold Session.link_preview. destruct (LinkPreview.parse line); [|done]. by rewrite bool_decide_eq_true_2 in Hp by by eexists. }
    destruct (Session.reaction _ _ _) as [r|] eqn:Er; [|done]. exfalso. apply bool_decide_eq_false in Hr. apply Hr.
    unfold Session.reaction in Er. apply bind_Some in Er as ([emoji adding] & -> & Er).
    apply bind_Some in Er as (id & -> & Er). apply bind_Some in Er as (name & -> & Er).
    apply bind_Some in Er as (log & Hl & Er). apply bind_Some in Er as (m & Hm & _). cbn. rewrite Hl. cbn. rewrite Hm. by eexists.
Qed.

Lemma silent_leaves isupport historical line ctx : silent key isupport line = true → is_Some (Model.channels (Ctx.model ctx) !! key) →
  leaves key ctx (Session.apply isupport historical line ctx).
Proof.
  intros [Hmsg Hren]%silent_spec Hin. destruct (Session.is_any (ascii_upper (Message.command line)) ["PRIVMSG"; "NOTICE"; "TAGMSG"]%string) eqn:Em.
  { specialize (Hmsg eq_refl). destruct (message_annotates isupport historical line ctx Em) as [Ha Ho].
    destruct (annotates isupport line ctx); [by apply Ha|]. destruct (Message.param line 0) as [target|] eqn:E0.
    - rewrite (Ho eq_refl target eq_refl). by apply ordinary_leaves.
    - unfold Session.apply. rewrite Em. unfold Session.message. rewrite E0. by unfold leaves. }
  unfold Session.apply. rewrite Em. leaves_case join_leaves; [done|].
  leaves_case part_leaves. leaves_case quit_leaves. leaves_case kick_leaves. leaves_case nick_leaves.
  destruct (Session.is_any _ ["RENAME"]%string) eqn:Er.
  { apply rename_channel_leaves. apply Hren. by apply is_any_In, list_elem_of_singleton in Er. }
  leaves_case topic_leaves. leaves_case mode_leaves. leaves_case topic_reply_leaves. leaves_case mark_read_leaves.
  leaves_case redact_leaves. leaves_case away_leaves. leaves_case account_leaves.
  leaves_case metadata_leaves. leaves_case metadata_leaves. leaves_case whois_leaves. leaves_case names_leaves.
  leaves_case who_reply_leaves. leaves_case whox_reply_leaves. leaves_case prop_leaves. leaves_case prop_list_leaves.
  by unfold leaves.
Qed.

Lemma annotates_leaves isupport historical line ctx : annotates isupport line ctx = true →
  leaves key ctx (Session.apply isupport historical line ctx).
Proof.
  intros Ha. refine (proj1 (message_annotates isupport historical line ctx _) Ha).
  apply andb_true_iff in Ha as [Ht%bool_decide_eq_true _]. by rewrite Ht.
Qed.

Lemma utterance_heard isupport historical line ctx c n told e :
  said_in key isupport line ctx = Some e → Model.channel (Ctx.model ctx) key = Some c →
  0 <= Model.next_seq (Ctx.model ctx) < u64_max → keeps n told (Channel.log c) → one_history (told ++ [e]) →
  ∃ c', Model.channel (Ctx.model (Session.apply isupport historical line ctx).2) key = Some c'
    ∧ keeps n (told ++ [e]) (Channel.log c').
Proof.
  unfold said_in, utterance. intros Hu Hc Hseq Hk Hone. destruct (annotates isupport line ctx) eqn:Ha; [done|].
  destruct (Session.is_any _ _) eqn:Hcmd; [|done]. apply bind_Some in Hu as ([k' e'] & Hu & Hkey). case_decide; [|done]. simplify_eq.
  apply bind_Some in Hu as (k & Hp & Hu). apply bind_Some in Hu as (t & Hat & Hu). apply bind_Some in Hu as (i & Hid & Hu).
  destruct (Session.kind_and_text _ _) as [kd sd] eqn:Hwhat. injection Hu as -> <-.
  destruct (Message.param line 0) as [target|] eqn:E0; [|done].
  cbn [mbind option_bind] in Hp. unfold channel_of in Hp. case_match eqn:Hch; [|done]. injection Hp as Hp.
  pose proof (ordinary_files isupport historical line ctx target c) as Hf. cbv zeta in Hf.
  rewrite Hp in Hf. specialize (Hf Hch Hc Hseq).
  rewrite (proj2 (message_annotates isupport historical line ctx Hcmd) Ha target E0).
  destruct (Session.ordinary _ _ _ _ _ _) as [changes ctx']. set (msg := message_of _ _ _ _) in *.
  destruct (Log.insert msg (Channel.log c)) as [accepted log] eqn:El. destruct Hf as (_ & Hchs & _).
  eexists. cbn [snd]. unfold Model.channel. rewrite Hchs. split; [apply lookup_insert_eq|].
  assert (view msg = mkEntry t i (Session.sender line) kd sd ∧ Chat.msgid msg = Some i) as [Hv Hm].
  { subst msg. unfold message_of, Session.build. rewrite Hwhat, Hat, Hid. by split. }
  pose proof (keeps_insert n told msg (Channel.log c) Hk) as Hins. rewrite Hv, El in Hins. apply Hins; [by eexists|done].
Qed.

Lemma lines_heard lines ctx c n told :
  wf_model (Ctx.model ctx) → Model.next_seq (Ctx.model ctx) + Z.of_nat (length lines) <= u64_max →
  Model.channel (Ctx.model ctx) key = Some c → keeps n told (Channel.log c) →
  stays key lines ctx = true → one_history (told ++ heard key lines ctx) →
  ∃ c', Model.channel (Ctx.model (run_lines lines ctx)) key = Some c' ∧ keeps n (told ++ heard key lines ctx) (Channel.log c').
Proof.
  revert ctx c told. induction lines as [|[[isupport historical] line] lines IH]; intros ctx c told Hwf Hseq Hc Hk Hst Hone.
  { exists c. cbn [heard]. by rewrite app_nil_r. }
  cbn [length stays heard] in *. cbv zeta in *. apply andb_true_iff in Hst as [[Ht Hin%bool_decide_eq_true]%andb_true_iff Hst].
  pose proof (model_seq _ Hwf) as H0.
  destruct (apply_effect isupport historical line ctx Hwf) as (Hwf' & Hn' & _); [lia|].
  cbn [run_lines foldl]. change (foldl _ _ lines) with (run_lines lines (Session.apply isupport historical line ctx).2).
  destruct (said_in key isupport line ctx) as [e|] eqn:Es; cbn [from_option] in *.
  - rewrite cons_middle, (assoc_L (++)) in Hone |- *.
    destruct (utterance_heard isupport historical line ctx c n told e Es Hc) as (c' & Hc' & Hk'); [lia|done| |].
    { eapply one_history_sub; [|exact Hone]. intros x Hx. apply elem_of_app. by left. }
    apply (IH _ c'); [done|lia|done..].
  - destruct Hin as [c' Hc'].
    assert (leaves key ctx (Session.apply isupport historical line ctx)) as Hl.
    { unfold clear in Ht. rewrite Es in Ht. apply orb_true_iff in Ht as [[Ht|Ht]%orb_true_iff|Ht];
        [by apply annotates_leaves|done|apply silent_leaves; [done|by eexists]]. }
    destruct (Hl c' Hc') as (c0 & Hc0 & Hh).
    apply (IH _ c'); [done|lia|done| |done..]. apply Hh. unfold Model.channel in Hc. by simplify_eq.
Qed.
End lines.

(** ** What a channel shows *)

(** A client that is in a channel and stays in it for these lines. *)
Record attends `{Unicode} (key : CaseFolded) (lines : list (Isupport.t * bool * Message.t)) (ctx : Ctx.t) (c : Channel.t) : Prop := {
  attends_wf : wf_model (Ctx.model ctx);
  attends_seq : Model.next_seq (Ctx.model ctx) + Z.of_nat (length lines) <= u64_max;
  attends_there : Model.channel (Ctx.model ctx) key = Some c;
  attends_named : named_log (Channel.log c);
  attends_stays : stays key lines ctx = true;
}.
(** What it was told: what it shows at the start, and what is said since. *)
Definition told `{Unicode} (key : CaseFolded) (lines : list (Isupport.t * bool * Message.t)) (ctx : Ctx.t) (c : Channel.t)
    : list entry := shown (Channel.log c) ++ heard key lines ctx.

Lemma attends_shows `{Unicode} key lines ctx c : attends key lines ctx c → one_history (told key lines ctx c) →
  ∃ c', Model.channel (Ctx.model (run_lines lines ctx)) key = Some c'
    ∧ shown (Channel.log c') = newest (Model.retention (Ctx.model ctx)) (told key lines ctx c).
Proof.
  intros [Hwf Hseq Hc Hn Hst] Hone.
  destruct (model_channels _ Hwf key c Hc) as [[Hw Hr _] _].
  destruct (lines_heard key lines ctx c (Model.retention (Ctx.model ctx)) (shown (Channel.log c)) Hwf)
    as (c' & Hc' & Hk); try done.
  - split; [done..|]. split; [|done| |by left]; [|rewrite length_shown, <- Hr; by apply log_bounded].
    apply shown_sorted; [by apply wf_log_in_step|done|]. eapply one_history_sub; [|exact Hone].
    intros e He. apply elem_of_app. by left.
  - exists c'. split; [done|]. apply newest_unique; [done|]. by destruct Hk.
Qed.

(** C5. A channel's log is a faithful memory of what was said in it. Take any lines a server sends while we stay in a
    channel: messages and bare TAGMSGs live and played back, in whatever order and however often, among lines of every
    other kind (joins, modes, messages elsewhere, reactions to a message held, previews, deletions, a change in the
    spelling of the channel's name). Then what the log shows at the end is what a specification that knows only entries
    and their times keeps: of what it showed before and all that was said since, each entry once, the newest as many as
    are kept, in the order of their times. The conditions: what is said in the channel carries an id and a time, and so
    do the entries at the start an id; an id and an instant (a millisecond) each name one entry; no other channel is
    renamed onto this one; and the sequence counter does not run out. (The model is well formed, as every run from a
    fresh engine leaves it.) *)
Theorem channel_shows_newest `{Unicode} key lines ctx c :
  attends key lines ctx c → one_history (told key lines ctx c) →
  ∃ c', Model.channel (Ctx.model (run_lines lines ctx)) key = Some c'
    ∧ shown (Channel.log c') = newest (Model.retention (Ctx.model ctx)) (told key lines ctx c).
Proof. apply attends_shows. Qed.

(** C13. Two members who stay in a channel come to see the same conversation, under whatever key each holds it.
    However differently they were told (one live, the other from history after a reconnect, out of order, with
    repetitions, each with other traffic in between), once both have been told the same entries their logs show the
    same messages in the same order, if they keep as many. The conditions are those of one member alone: what is said
    in the channel carries an id and a time, and what is held at the start an id; an id and an instant each name one entry (two messages of one
    millisecond are kept in the order they came in, which may differ between the two); no other channel is renamed
    onto this one, and neither sequence counter runs out. (Both models are well formed, as every run from a fresh
    engine leaves them.) *)
Theorem members_agree `{Unicode} key1 key2 lines1 lines2 ctx1 ctx2 c1 c2 :
  attends key1 lines1 ctx1 c1 → attends key2 lines2 ctx2 c2 →
  Model.retention (Ctx.model ctx1) = Model.retention (Ctx.model ctx2) →
  (∀ e, e ∈ told key1 lines1 ctx1 c1 ↔ e ∈ told key2 lines2 ctx2 c2) → one_history (told key1 lines1 ctx1 c1) →
  ∃ c1' c2', Model.channel (Ctx.model (run_lines lines1 ctx1)) key1 = Some c1'
    ∧ Model.channel (Ctx.model (run_lines lines2 ctx2)) key2 = Some c2'
    ∧ shown (Channel.log c1') = shown (Channel.log c2').
Proof.
  intros H1 H2 Hr He Hone.
  destruct (attends_shows _ _ _ _ H1 Hone) as (c1' & Hc1 & E1).
  destruct (attends_shows _ _ _ _ H2) as (c2' & Hc2 & E2).
  { eapply one_history_sub; [|exact Hone]. intros e. by rewrite He. }
  exists c1', c2'. split_and!; [done..|]. rewrite E1, E2, Hr. by apply newest_ext.
Qed.

(** ** Instances *)

(** One client hears all of it as it happens; the other comes in late, hears the last of it and then has it all, in
    the wrong order, from the history. *)
Definition line (historical : bool) (t : text) : Isupport.t * bool * Message.t := (Isupport.default, historical, parsed t).
Definition hello : text := "@msgid=a;time=2026-09-06T10:00:00.000Z :al!u@h PRIVMSG #c :hello".
Definition there : text := "@msgid=b;time=2026-09-06T10:00:01.000Z :bo!u@h NOTICE #C :there".
Definition waves : text :=
  lit "@msgid=c;time=2026-09-06T10:00:02.000Z :al!u@h PRIVMSG #c :" ++ [1%N] ++ lit "ACTION waves" ++ [1%N].
Definition nods : text := "@msgid=d;time=2026-09-06T10:00:03.000Z;+example/nod :bo!u@h TAGMSG #c".
Definition likes (msgid : text) : text := lit "@msgid=e;time=2026-09-06T10:00:04.000Z;+draft/react=ok;+reply=" ++ msgid ++ lit " :bo TAGMSG #c".
Definition as_it_happens : list (Isupport.t * bool * Message.t) :=
  [line false hello; line false ":bo JOIN #c"; line false there; line false ":bo PRIVMSG #d :elsewhere";
   line false (likes "a"); line false waves; line false nods; line false ":al REDACT #c b"].
Definition from_history : list (Isupport.t * bool * Message.t) :=
  [line false nods; line false waves; line true there; line false ":al RENAME #d #e"; line true waves; line false (likes "b");
   line true hello; line true there].

(** A client that has just joined. *)
Definition in_c (nick : text) : Ctx.t := @run_lines ascii_table (live [lit ":" ++ nick ++ lit " JOIN #c"]) (fresh_ctx nick).
Definition fresh_c : Channel.t := Channel.named "#c" (Log.with_retention 3).

Lemma list_subseteq_check (l k : list entry) : forallb (λ e, bool_decide (e ∈ k)) l = true → l ⊆ k.
Proof. intros H e He. rewrite forallb_forall in H. by apply (bool_decide_eq_true_1 _ (H e (proj1 (list_elem_of_In _ _) He))). Qed.
Lemma one_history_check (l : list entry) :
  Forall (λ a, Forall (λ b, id a = id b ∨ at_ms a = at_ms b → a = b) l) l → one_history l.
Proof. intros Hl a b Ha Hb. rewrite Forall_forall in Hl. specialize (Hl a Ha). rewrite Forall_forall in Hl. by apply Hl. Qed.

Lemma attends_live : @attends ascii_table "#c" as_it_happens (in_c "me") fresh_c.
Proof.
  split; [|by vm_compute|by vm_compute| |by vm_compute].
  - refine (proj1 (@run_lines_wf ascii_table _ _ _ _)); [apply wf_fresh|by vm_compute].
  - intros k m Hm. change ((∅ : gmap MessageKey Chat.t) !! k = Some m) in Hm. by apply lookup_empty_Some in Hm.
Qed.

Lemma attends_late : @attends ascii_table "#c" from_history (in_c "you") fresh_c.
Proof.
  split; [|by vm_compute|by vm_compute| |by vm_compute].
  - refine (proj1 (@run_lines_wf ascii_table _ _ _ _)); [apply wf_fresh|by vm_compute].
  - intros k m Hm. change ((∅ : gmap MessageKey Chat.t) !! k = Some m) in Hm. by apply lookup_empty_Some in Hm.
Qed.

Lemma channel_shows_newest_witness :
  ∃ c', Model.channel (Ctx.model (@run_lines ascii_table from_history (in_c "you"))) "#c" = Some c'
    ∧ said <$> shown (Channel.log c') = [lit "there"; lit "waves"; []].
Proof.
  destruct (@channel_shows_newest ascii_table _ _ _ _ attends_late) as (c' & Hc' & E).
  - apply one_history_check, (bool_decide_unpack _). by vm_compute.
  - exists c'. split; [exact Hc'|]. rewrite E. by vm_compute.
Defined.

Lemma members_agree_witness :
  ∃ c1 c2, Model.channel (Ctx.model (@run_lines ascii_table as_it_happens (in_c "me"))) "#c" = Some c1
    ∧ Model.channel (Ctx.model (@run_lines ascii_table from_history (in_c "you"))) "#c" = Some c2
    ∧ shown (Channel.log c1) = shown (Channel.log c2).
Proof.
  apply (@members_agree ascii_table _ _ _ _ _ _ _ _ attends_live attends_late); [done| |].
  - intros e. assert (@told ascii_table "#c" as_it_happens (in_c "me") fresh_c ⊆ @told ascii_table "#c" from_history (in_c "you") fresh_c
      ∧ @told ascii_table "#c" from_history (in_c "you") fresh_c ⊆ @told ascii_table "#c" as_it_happens (in_c "me") fresh_c) as [H1 H2].
    { split; apply list_subseteq_check; by vm_compute. }
    split; [apply H1|apply H2].
  - apply one_history_check, (bool_decide_unpack _). by vm_compute.
Defined.
