(* ===== verification/Voice.v ===== *)
(** * Voice signalling and room state (src/crates/obby-client/src/voice.rs)

    [Signal] is the frame and its JSON, [Sdp] the splitting of an oversized description
    and its reassembly, [Room] who is in a room and what they are doing. The JSON value
    and its reader and writer are in [Json]. *)
From S2P Require Import Prelude Utf8 Casemap Json.

Module OnOff.
(* obby-client/src/voice.rs 138-148 OnOff *)
Inductive t := On | Off.
#[global] Instance t_eq_dec : EqDecision t.
Proof. solve_decision. Defined.
(* obby-client/src/voice.rs 151-156 OnOff::wire *)
Definition wire (s : t) : text := match s with On => "on" | Off => "off" end.
(* obby-client/src/voice.rs 158-164 OnOff::parse *)
Definition parse (x : text) : option t :=
  if decide (x = lit "on") then Some On else if decide (x = lit "off") then Some Off else None.
End OnOff.

Module Role.
(* obby-client/src/voice.rs 167-178 Role *)
Inductive t := Publisher | Viewer.
#[global] Instance t_eq_dec : EqDecision t.
Proof. solve_decision. Defined.
(* obby-client/src/voice.rs 181-186 Role::wire *)
Definition wire (r : t) : text := match r with Publisher => "streamer" | Viewer => "viewer" end.
(* obby-client/src/voice.rs 188-194 Role::parse *)
Definition parse (x : text) : option t :=
  if decide (x = lit "streamer") then Some Publisher else if decide (x = lit "viewer") then Some Viewer else None.
End Role.

Module RoomKind.
(* obby-client/src/voice.rs 197-208 RoomKind *)
Inductive t := Publish | Stream.
#[global] Instance t_eq_dec : EqDecision t.
Proof. solve_decision. Defined.
(* obby-client/src/voice.rs 211-216 RoomKind::wire *)
Definition wire (k : t) : text := match k with Publish => "voice" | Stream => "stream" end.
(* obby-client/src/voice.rs 218-224 RoomKind::parse *)
Definition parse (x : text) : option t :=
  if decide (x = lit "voice") then Some Publish else if decide (x = lit "stream") then Some Stream else None.
(* obby-client/src/voice.rs 226-233 RoomKind::for_channel *)
Definition for_channel (channel : text) : t := if starts_with_char 36%N channel then Stream else Publish.
End RoomKind.

Module Participant.
(* obby-client/src/voice.rs 1097-1126 Participant *)
Record t := mk {
  nick : text; role : Role.t; mic : OnOff.t; video : OnOff.t; speaking : OnOff.t; deaf : OnOff.t;
  screen : OnOff.t; hand : OnOff.t;
}.
(* obby-client/src/voice.rs 1128-1151 Participant::new *)
Definition new (nick : text) : t :=
  mk nick Role.Viewer OnOff.Off OnOff.Off OnOff.Off OnOff.Off OnOff.Off OnOff.Off.
Definition set_role (r : Role.t) (p : t) : t :=
  mk (nick p) r (mic p) (video p) (speaking p) (deaf p) (screen p) (hand p).
Definition set_mic (s : OnOff.t) (p : t) : t :=
  mk (nick p) (role p) s (video p) (speaking p) (deaf p) (screen p) (hand p).
Definition set_video (s : OnOff.t) (p : t) : t :=
  mk (nick p) (role p) (mic p) s (speaking p) (deaf p) (screen p) (hand p).
Definition set_speaking (s : OnOff.t) (p : t) : t :=
  mk (nick p) (role p) (mic p) (video p) s (deaf p) (screen p) (hand p).
Definition set_deaf (s : OnOff.t) (p : t) : t :=
  mk (nick p) (role p) (mic p) (video p) (speaking p) s (screen p) (hand p).
Definition set_screen (s : OnOff.t) (p : t) : t :=
  mk (nick p) (role p) (mic p) (video p) (speaking p) (deaf p) s (hand p).
Definition set_hand (s : OnOff.t) (p : t) : t :=
  mk (nick p) (role p) (mic p) (video p) (speaking p) (deaf p) (screen p) s.
End Participant.

Module ToggleKind.
(* obby-client/src/voice.rs 236-251 ToggleKind *)
Inductive t := Mic | Video | Screen | Hand.
#[global] Instance t_eq_dec : EqDecision t.
Proof. solve_decision. Defined.
(* obby-client/src/voice.rs 254-261 ToggleKind::wire *)
Definition wire (k : t) : text :=
  match k with Mic => "mic" | Video => "video" | Screen => "screen" | Hand => "hand" end.
(* obby-client/src/voice.rs 263-271 ToggleKind::parse *)
Definition parse (x : text) : option t :=
  if decide (x = lit "mic") then Some Mic
  else if decide (x = lit "video") then Some Video
  else if decide (x = lit "screen") then Some Screen
  else if decide (x = lit "hand") then Some Hand
  else None.
(* obby-client/src/voice.rs 273-280 ToggleKind::apply *)
Definition apply (k : t) (state : OnOff.t) (p : Participant.t) : Participant.t :=
  match k with
  | Mic => Participant.set_mic state p
  | Video => Participant.set_video state p
  | Screen => Participant.set_screen state p
  | Hand => Participant.set_hand state p
  end.
End ToggleKind.

Module PresenceState.
(* obby-client/src/voice.rs 283-310 PresenceState *)
Inductive t := Joined | Left | On | Off | Speaking | Silent | DeafOn | DeafOff.
#[global] Instance t_eq_dec : EqDecision t.
Proof. solve_decision. Defined.
(* obby-client/src/voice.rs 313-324 PresenceState::wire *)
Definition wire (s : t) : text :=
  match s with
  | Joined => "joined" | Left => "left" | On => "on" | Off => "off" | Speaking => "speaking"
  | Silent => "silent" | DeafOn => "deaf-on" | DeafOff => "deaf-off"
  end.
(* obby-client/src/voice.rs 326-338 PresenceState::parse *)
Definition parse (x : text) : option t :=
  if decide (x = lit "joined") then Some Joined
  else if decide (x = lit "left") then Some Left
  else if decide (x = lit "on") then Some On
  else if decide (x = lit "off") then Some Off
  else if decide (x = lit "speaking") then Some Speaking
  else if decide (x = lit "silent") then Some Silent
  else if decide (x = lit "deaf-on") then Some DeafOn
  else if decide (x = lit "deaf-off") then Some DeafOff
  else None.
End PresenceState.

(** ** The shapes that go on the wire *)

Abbreviation Fields := (list (text * Json.t)) (only parsing).

(* obby-client/src/voice.rs 107-111 opt_field *)
Definition opt_field (key : text) (value : option Json.t) : Fields :=
  match value with Some value => [(key, value)] | None => [] end.
(* obby-client/src/voice.rs 113-115 strings_json *)
Definition strings_json (items : list text) : Json.t := Json.Array (Json.Str <$> items).
(* obby-client/src/voice.rs 117-124 strings *)
Definition strings (value : Json.t) : option (list text) := l ← Json.as_array value; mapM Json.as_str l.
(* obby-client/src/voice.rs 126-128 field_string_opt *)
Definition field_string_opt (value : Json.t) (key : text) : option text := v ← Json.field value key; Json.as_str v.
(* obby-client/src/voice.rs 130-132 field_u32 *)
Definition field_u32 (value : Json.t) (key : text) : option Z := v ← Json.field value key; Json.as_u32 v.

Module TrackHint.
(* obby-client/src/voice.rs 345-359 TrackHint *)
Record t := mk { mid : text; member : text }.
(* obby-client/src/voice.rs 361-367 TrackHint::to_json *)
Definition to_json (h : t) : Json.t :=
  Json.Object [(lit "mid", Json.Str (mid h)); (lit "member", Json.Str (member h))].
(* obby-client/src/voice.rs 369-374 TrackHint::from_json *)
Definition from_json (value : Json.t) : option t :=
  mid ← Json.field_string value "mid"; member ← Json.field_string value "member"; Some (mk mid member).
End TrackHint.

Module Turn.
(* obby-client/src/voice.rs 377-394 TurnCredentials *)
Record t := mk { urls : list text; username : text; password : text }.
(* obby-client/src/voice.rs 396-403 TurnCredentials::to_json *)
Definition to_json (c : t) : Json.t :=
  Json.Object [(lit "urls", strings_json (urls c)); (lit "username", Json.Str (username c));
               (lit "password", Json.Str (password c))].
(* obby-client/src/voice.rs 405-416 TurnCredentials::from_json *)
Definition from_json (value : Json.t) : option t :=
  v ← Json.field value "urls";
  urls ← match v with
         | Json.Str one => Some [one]
         | Json.Array _ => strings v
         | _ => None
         end;
  username ← Json.field_string value "username";
  password ← Json.field_string value "password";
  Some (mk urls username password).
End Turn.

Module ChunkMeta.
(* obby-client/src/voice.rs 419-430 ChunkMeta *)
Record t := mk { id : text; seq : Z; total : Z }.
(* obby-client/src/voice.rs 432-438 decode_chunk *)
Definition decode (value : Json.t) : option t :=
  id ← field_string_opt value "id"; seq ← field_u32 value "seq"; total ← field_u32 value "total";
  Some (mk id seq total).
(* obby-client/src/voice.rs 440-446 chunk_meta_fields *)
Definition fields (c : t) : Fields :=
  [(lit "id", Json.Str (id c)); (lit "seq", Json.Num (seq c)); (lit "total", Json.Num (total c))].
End ChunkMeta.

Module Signal.
(* obby-client/src/voice.rs 452-599 Signal *)
Inductive t :=
  | Join (channel : text)
  | Leave (channel : text)
  | Joined (members : list text) (mode : option RoomKind.t) (role : option Role.t)
      (streamers : option (list text)) (turn : option Turn.t) (tracks : option (list TrackHint.t))
  | Offer (sdp : text) (tracks : option (list TrackHint.t)) (chunk : option ChunkMeta.t)
  | Answer (sdp : text) (chunk : option ChunkMeta.t)
  | Ice (cand : text) (mid : option text) (mlineidx : option Z)
  | Presence (member : text) (state : PresenceState.t) (kind : option ToggleKind.t) (role : option Role.t)
  | Mic (state : OnOff.t)
  | Video (state : OnOff.t)
  | Screen (state : OnOff.t)
  | Hand (state : OnOff.t)
  | Deaf (state : OnOff.t)
  | Speaking
  | Silent
  | React (member : option text) (emoji : text)
  | Promote (target : text)
  | Demote (target : text)
  | SetRole (member : text) (role : Role.t)
  | Error (error : option text).

Definition str (key value : text) : text * Json.t := (key, Json.Str value).
Definition tracks_json (tracks : option (list TrackHint.t)) : option Json.t :=
  (λ l, Json.Array (TrackHint.to_json <$> l)) <$> tracks.
Definition chunk_fields (chunk : option ChunkMeta.t) : Fields :=
  match chunk with Some c => ChunkMeta.fields c | None => [] end.

(* obby-client/src/voice.rs 755-764 ice_fields *)
Definition ice_fields (cand : text) (mid : option text) (mlineidx : option Z) : Fields :=
  str "cand" cand :: opt_field "mid" (Json.Str <$> mid) ++ opt_field "mlineidx" (Json.Num <$> mlineidx).
(* obby-client/src/voice.rs 766-787 presence_fields *)
Definition presence_fields (member : text) (state : PresenceState.t) (kind : option ToggleKind.t)
    (role : option Role.t) : Fields :=
  [str "member" member; str "state" (PresenceState.wire state)]
  ++ opt_field "kind" ((λ k, Json.Str (ToggleKind.wire k)) <$> kind)
  ++ opt_field "role" ((λ r, Json.Str (Role.wire r)) <$> role).
(* obby-client/src/voice.rs 789-804 offer_fields *)
Definition offer_fields (sdp : text) (tracks : option (list TrackHint.t)) (chunk : option ChunkMeta.t) : Fields :=
  str "sdp" sdp :: opt_field "tracks" (tracks_json tracks) ++ chunk_fields chunk.
(* obby-client/src/voice.rs 806-812 answer_fields *)
Definition answer_fields (sdp : text) (chunk : option ChunkMeta.t) : Fields :=
  str "sdp" sdp :: chunk_fields chunk.
(* obby-client/src/voice.rs 814-841 joined_fields *)
Definition joined_fields (members : list text) (mode : option RoomKind.t) (role : option Role.t)
    (streamers : option (list text)) (turn : option Turn.t) (tracks : option (list TrackHint.t)) : Fields :=
  (lit "members", strings_json members)
  :: opt_field "mode" ((λ m, Json.Str (RoomKind.wire m)) <$> mode)
  ++ opt_field "role" ((λ r, Json.Str (Role.wire r)) <$> role)
  ++ opt_field "streamers" (strings_json <$> streamers)
  ++ opt_field "turn" (Turn.to_json <$> turn)
  ++ opt_field "tracks" (tracks_json tracks).
(* obby-client/src/voice.rs 746-753 react_fields *)
Definition react_fields (member : option text) (emoji : text) : Fields :=
  opt_field "member" (Json.Str <$> member) ++ [str "emoji" emoji].

(* obby-client/src/voice.rs 623-674 Signal::wire_fields *)
Definition wire_fields (s : t) : text * Fields :=
  match s with
  | Join channel => (lit "join", [str "channel" channel])
  | Leave channel => (lit "leave", [str "channel" channel])
  | Joined members mode role streamers turn tracks =>
      (lit "joined", joined_fields members mode role streamers turn tracks)
  | Offer sdp tracks chunk => (lit "offer", offer_fields sdp tracks chunk)
  | Answer sdp chunk => (lit "answer", answer_fields sdp chunk)
  | Ice cand mid mlineidx => (lit "ice", ice_fields cand mid mlineidx)
  | Presence member state kind role => (lit "presence", presence_fields member state kind role)
  | Mic state => (lit "mic", [str "state" (OnOff.wire state)])
  | Video state => (lit "video", [str "state" (OnOff.wire state)])
  | Screen state => (lit "screen", [str "state" (OnOff.wire state)])
  | Hand state => (lit "hand", [str "state" (OnOff.wire state)])
  | Deaf state => (lit "deaf", [str "state" (OnOff.wire state)])
  | Speaking => (lit "speaking", [str "state" "speaking"])
  | Silent => (lit "silent", [str "state" "silent"])
  | React member emoji => (lit "react", react_fields member emoji)
  | Promote target => (lit "promote", [str "target" target])
  | Demote target => (lit "demote", [str "target" target])
  | SetRole member role => (lit "role", [str "member" member; str "role" (Role.wire role)])
  | Error error => (lit "error", opt_field "error" (Json.Str <$> error))
  end.
(* obby-client/src/voice.rs 617-621 Signal::to_json_value *)
Definition to_json_value (s : t) : Json.t :=
  let '(kind, fields) := wire_fields s in Json.Object (str "type" kind :: fields).
(* obby-client/src/voice.rs 602-607 Signal::to_json *)
Definition to_json (s : t) : text := Json.write (to_json_value s).

(* obby-client/src/voice.rs 853-855 decode_on_off *)
Definition decode_on_off (value : Json.t) : option OnOff.t := s ← Json.field_string value "state"; OnOff.parse s.
(* obby-client/src/voice.rs 874-876 decode_tracks *)
Definition decode_tracks (value : Json.t) : option (list TrackHint.t) :=
  l ← Json.as_array value; mapM TrackHint.from_json l.
(* obby-client/src/voice.rs 857-872 decode_joined *)
Definition decode_joined (value : Json.t) : option t :=
  m ← Json.field value "members";
  members ← strings m;
  Some (Joined members (field_string_opt value "mode" ≫= RoomKind.parse)
    (field_string_opt value "role" ≫= Role.parse) (Json.field value "streamers" ≫= strings)
    (Json.field value "turn" ≫= Turn.from_json) (Json.field value "tracks" ≫= decode_tracks)).
(* obby-client/src/voice.rs 878-884 decode_offer *)
Definition decode_offer (value : Json.t) : option t :=
  sdp ← Json.field_string value "sdp";
  Some (Offer sdp (Json.field value "tracks" ≫= decode_tracks) (ChunkMeta.decode value)).
(* obby-client/src/voice.rs 886-891 decode_answer *)
Definition decode_answer (value : Json.t) : option t :=
  sdp ← Json.field_string value "sdp"; Some (Answer sdp (ChunkMeta.decode value)).
(* obby-client/src/voice.rs 893-899 decode_ice *)
Definition decode_ice (value : Json.t) : option t :=
  cand ← Json.field_string value "cand";
  Some (Ice cand (field_string_opt value "mid") (Json.field value "mlineidx" ≫= Json.as_u32)).
(* obby-client/src/voice.rs 901-908 decode_presence *)
Definition decode_presence (value : Json.t) : option t :=
  member ← Json.field_string value "member";
  s ← Json.field_string value "state";
  state ← PresenceState.parse s;
  Some (Presence member state (field_string_opt value "kind" ≫= ToggleKind.parse)
    (field_string_opt value "role" ≫= Role.parse)).
(* obby-client/src/voice.rs 910-915 decode_react *)
Definition decode_react (value : Json.t) : option t :=
  let member := field_string_opt value "member" in
  emoji ← Json.field_string value "emoji"; Some (React member emoji).
(* obby-client/src/voice.rs 917-922 decode_role *)
Definition decode_role (value : Json.t) : option t :=
  member ← Json.field_string value "member";
  r ← Json.field_string value "role"; role ← Role.parse r; Some (SetRole member role).

(* obby-client/src/voice.rs 676-720 Signal::from_value *)
Definition from_value (value : Json.t) : option t :=
  ty ← Json.field value "type";
  kind ← Json.as_str ty;
  if decide (kind = lit "join") then c ← Json.field_string value "channel"; Some (Join c)
  else if decide (kind = lit "leave") then c ← Json.field_string value "channel"; Some (Leave c)
  else if decide (kind = lit "joined") then decode_joined value
  else if decide (kind = lit "offer") then decode_offer value
  else if decide (kind = lit "answer") then decode_answer value
  else if decide (kind = lit "ice") then decode_ice value
  else if decide (kind = lit "presence") then decode_presence value
  else if decide (kind = lit "mic") then s ← decode_on_off value; Some (Mic s)
  else if decide (kind = lit "video") then s ← decode_on_off value; Some (Video s)
  else if decide (kind = lit "screen") then s ← decode_on_off value; Some (Screen s)
  else if decide (kind = lit "hand") then s ← decode_on_off value; Some (Hand s)
  else if decide (kind = lit "deaf") then s ← decode_on_off value; Some (Deaf s)
  else if decide (kind = lit "speaking") then Some Speaking
  else if decide (kind = lit "silent") then Some Silent
  else if decide (kind = lit "react") then decode_react value
  else if decide (kind = lit "promote") then x ← Json.field_string value "target"; Some (Promote x)
  else if decide (kind = lit "demote") then x ← Json.field_string value "target"; Some (Demote x)
  else if decide (kind = lit "role") then decode_role value
  else if decide (kind = lit "error") then Some (Error (field_string_opt value "error"))
  else None.
(* obby-client/src/voice.rs 609-615 Signal::from_json *)
Definition from_json (x : text) : option t := j ← Json.parse x; from_value j.
End Signal.

(** ** Splitting a session description *)

Module Sdp.
(* obby-client/src/voice.rs 928-935 constants *)
Definition DEFAULT_CHUNK_BUDGET : nat := Z.to_nat 8191.
(* obby-client/src/voice.rs 937-945 SdpChunk *)
Record Chunk := mkChunk { chunk : ChunkMeta.t; sdp : text }.

(** The most characters that fit in [budget] bytes, and the rest: rounding a byte
    offset down to a character boundary. *)
(* obby-client/src/voice.rs 982-985 char_chunks *)
Fixpoint fit (budget : nat) (s : text) : text * text :=
  match s with
  | [] => ([], [])
  | c :: rest =>
      if decide (len_utf8 c <= budget)%nat then
        let '(a, b) := fit (budget - len_utf8 c) rest in (c :: a, b)
      else ([], s)
  end.
(** Each turn cuts at least one character. *)
(* obby-client/src/voice.rs 973-996 char_chunks *)
Fixpoint char_chunks_loop (fuel budget : nat) (s : text) : list text :=
  match fuel, s with
  | S fuel, c :: rest =>
      match fit budget s with
      | ([], _) => [c] :: char_chunks_loop fuel budget rest
      | (a, b) => a :: char_chunks_loop fuel budget b
      end
  | _, _ => []
  end.
Definition char_chunks (s : text) (budget : nat) : list text := char_chunks_loop (length s) budget s.

(** [u32::try_from(n).unwrap_or(u32::MAX)] *)
Definition to_u32 (n : nat) : Z := if decide (Z.of_nat n <= u32_max) then Z.of_nat n else u32_max.
(* obby-client/src/voice.rs 947-971 split_sdp *)
Definition split_sdp (s id : text) (budget : nat) : option (list Chunk) :=
  if decide (budget = 0%nat ∨ (utf8_len s <= budget)%nat) then None
  else
    let slices := char_chunks s budget in
    Some (imap (λ seq slice, mkChunk (ChunkMeta.mk id (to_u32 seq) (to_u32 (length slices))) slice) slices).

(* obby-client/src/voice.rs 998-1008 constants *)
Definition DEFAULT_MAX_CHUNKS_PER_REASSEMBLY : nat := 64.
Definition DEFAULT_MAX_CONCURRENT_REASSEMBLIES : nat := 16.

(* obby-client/src/voice.rs 1010-1015 PartialSdp *)
Record Partial := mkPartial { total : Z; parts : gmap Z text }.
(* obby-client/src/voice.rs 1017-1024 SdpReassembler *)
Record t := mk { partials : gmap text Partial; max_chunks : nat; max_concurrent : nat }.
(* obby-client/src/voice.rs 1035-1042 SdpReassembler::with_bounds *)
Definition with_bounds (max_chunks max_concurrent : nat) : t := mk ∅ max_chunks max_concurrent.
(* obby-client/src/voice.rs 1027-1033 SdpReassembler::new *)
Definition new : t := with_bounds DEFAULT_MAX_CHUNKS_PER_REASSEMBLY DEFAULT_MAX_CONCURRENT_REASSEMBLIES.

(* obby-client/src/voice.rs 1069-1073 SdpReassembler::push *)
Definition joined (complete : Partial) : option text :=
  l ← mapM (λ seq, parts complete !! seq) (seqZ 0 (total complete)); Some (concat l).
(* obby-client/src/voice.rs 1044-1074 SdpReassembler::push *)
Definition push (c : ChunkMeta.t) (s : text) (r : t) : option text * t :=
  let 'ChunkMeta.mk id seq n := c in
  if decide (n = 0 ∨ Z.of_nat (max_chunks r) < n ∨ n <= seq) then (None, r)
  else if decide (partials r !! id = None ∧ (max_concurrent r <= size (partials r))%nat) then (None, r)
  else
    let partial := default (mkPartial n ∅) (partials r !! id) in
    if decide (total partial ≠ n) then
      (None, mk (<[id := partial]> (partials r)) (max_chunks r) (max_concurrent r))
    else
      let partial := mkPartial n (<[seq := s]> (parts partial)) in
      if decide (Z.of_nat (size (parts partial)) ≠ n) then
        (None, mk (<[id := partial]> (partials r)) (max_chunks r) (max_concurrent r))
      else (joined partial, mk (delete id (partials r)) (max_chunks r) (max_concurrent r)).
(* obby-client/src/voice.rs 1076-1079 SdpReassembler::pending_len *)
Definition pending_len (r : t) : nat := size (partials r).
(* obby-client/src/voice.rs 1081-1084 SdpReassembler::drop_all *)
Definition drop_all (r : t) : t := mk ∅ (max_chunks r) (max_concurrent r).
End Sdp.

(** ** Rooms *)

Module Room.
(* obby-client/src/voice.rs 1153-1168 Room *)
Record t := mk {
  channel : text; kind : RoomKind.t; participants : gmap CaseFolded Participant.t; turn : option Turn.t;
}.
(* obby-client/src/voice.rs 1170-1181 Room::new *)
Definition new (channel : text) : t := mk channel (RoomKind.for_channel channel) ∅ None.
Definition set_participants (ps : gmap CaseFolded Participant.t) (r : t) : t :=
  mk (channel r) (kind r) ps (turn r).

(* obby-client/src/voice.rs 1288-1301 Room::role_for *)
Definition role_for (r : t) (member : text) (streamers : option (list text)) (casemap : Casemapping.t) : Role.t :=
  match kind r with
  | RoomKind.Publish => Role.Publisher
  | RoomKind.Stream =>
      if existsb (λ name, Casemapping.eq casemap name member) (default [] streamers)
      then Role.Publisher else Role.Viewer
  end.
(** [participant_mut], then a change to the record. *)
(* obby-client/src/voice.rs 1238-1243 Room::participant_mut *)
Definition alter_participant (member : text) (casemap : Casemapping.t) (f : Participant.t → Participant.t) (r : t) : t :=
  let key := Casemapping.fold casemap member in
  set_participants (<[key := f (default (Participant.new member) (participants r !! key))]> (participants r)) r.
(* obby-client/src/voice.rs 1282-1286 Room::set_flag *)
Definition set_flag (member : text) (casemap : Casemapping.t) (f : Participant.t → Participant.t) (r : t) : t :=
  set_participants (alter f (Casemapping.fold casemap member) (participants r)) r.

(* obby-client/src/voice.rs 1229-1235 Room::apply_joined *)
Definition admit_member (me : text) (role : option Role.t) (streamers : option (list text)) (casemap : Casemapping.t)
    (r : t) (member : text) : t :=
  let assigned :=
    match Casemapping.eq casemap member me, role with
    | true, Some role => role
    | _, _ => role_for r member streamers casemap
    end in
  alter_participant member casemap (Participant.set_role assigned) r.
(* obby-client/src/voice.rs 1219-1236 Room::apply_joined *)
Definition apply_joined (me : text) (members : list text) (role : option Role.t) (streamers : option (list text))
    (turn : option Turn.t) (casemap : Casemapping.t) (r : t) : t :=
  foldl (admit_member me role streamers casemap) (mk (channel r) (kind r) (participants r) turn) members.
(* obby-client/src/voice.rs 1245-1280 Room::apply_presence *)
Definition apply_presence (member : text) (state : PresenceState.t) (kind : option ToggleKind.t)
    (role : option Role.t) (casemap : Casemapping.t) (r : t) : t :=
  match state with
  | PresenceState.Joined =>
      alter_participant member casemap
        (Participant.set_role (default (role_for r member None casemap) role)) r
  | PresenceState.Left => set_participants (delete (Casemapping.fold casemap member) (participants r)) r
  | PresenceState.On | PresenceState.Off =>
      match kind with
      | Some kind =>
          set_flag member casemap
            (ToggleKind.apply kind (if decide (state = PresenceState.On) then OnOff.On else OnOff.Off)) r
      | None => r
      end
  | PresenceState.Speaking => set_flag member casemap (Participant.set_speaking OnOff.On) r
  | PresenceState.Silent => set_flag member casemap (Participant.set_speaking OnOff.Off) r
  | PresenceState.DeafOn => set_flag member casemap (Participant.set_deaf OnOff.On) r
  | PresenceState.DeafOff => set_flag member casemap (Participant.set_deaf OnOff.Off) r
  end.
(* obby-client/src/voice.rs 1183-1217 Room::apply *)
Definition apply (me : text) (signal : Signal.t) (casemap : Casemapping.t) (r : t) : t :=
  match signal with
  | Signal.Joined members _ role streamers turn _ => apply_joined me members role streamers turn casemap r
  | Signal.Presence member state kind role => apply_presence member state kind role casemap r
  | Signal.SetRole member role => alter_participant member casemap (Participant.set_role role) r
  | _ => r
  end.
End Room.

(** ** The JSON of a frame *)

Lemma field_cons k v fs key :
  Json.field (Json.Object ((k, v) :: fs)) key
  = if decide (k = key) then Some v else Json.field (Json.Object fs) key.
Proof. unfold Json.field. simpl. case_decide; [done|]. by destruct (list_find _ fs) as [[??]|]. Qed.

Lemma field_nil key : Json.field (Json.Object []) key = None.
Proof. done. Qed.

Lemma field_opt_ne k o fs key : k ≠ key → Json.field (Json.Object (opt_field k o ++ fs)) key = Json.field (Json.Object fs) key.
Proof. intros Hne. destruct o; [|done]. cbn [opt_field app]. by rewrite field_cons, decide_False. Qed.

Lemma field_opt_eq k o fs : Json.field (Json.Object fs) k = None → Json.field (Json.Object (opt_field k o ++ fs)) k = o.
Proof. intros Hn. destruct o; [|done]. cbn [opt_field app]. by rewrite field_cons, decide_True. Qed.

Lemma option_back {A B C} (f : A → B) (g : B → option C) (h : C → option A) (o : option A) :
  (∀ x, (c ← g (f x); h c) = Some x) → (c ← ((f <$> o) ≫= g); h c) = o.
Proof. intros H. destruct o; simpl; [apply H|done]. Qed.

Lemma strings_strings_json l : strings (strings_json l) = Some l.
Proof. unfold strings. simpl. by apply mapM_fmap_Some. Qed.

Lemma turn_roundtrip c : Turn.from_json (Turn.to_json c) = Some c.
Proof.
  destruct c as [urls username password]. unfold Turn.from_json, Turn.to_json, Json.field_string. simpl Turn.urls.
  rewrite !field_cons. simpl. by rewrite strings_strings_json.
Qed.

Lemma tracks_roundtrip l : Signal.decode_tracks (Json.Array (TrackHint.to_json <$> l)) = Some l.
Proof.
  unfold Signal.decode_tracks. simpl. apply mapM_fmap_Some. by intros [].
Qed.

Lemma onoff_roundtrip s : OnOff.parse (OnOff.wire s) = Some s.
Proof. by destruct s. Qed.
Lemma role_roundtrip r : Role.parse (Role.wire r) = Some r.
Proof. by destruct r. Qed.
Lemma roomkind_roundtrip k : RoomKind.parse (RoomKind.wire k) = Some k.
Proof. by destruct k. Qed.
Lemma toggle_roundtrip k : ToggleKind.parse (ToggleKind.wire k) = Some k.
Proof. by destruct k. Qed.
Lemma presence_roundtrip s : PresenceState.parse (PresenceState.wire s) = Some s.
Proof. by destruct s. Qed.

Create HintDb voice.
#[export] Hint Rewrite strings_strings_json turn_roundtrip tracks_roundtrip onoff_roundtrip role_roundtrip
  roomkind_roundtrip toggle_roundtrip presence_roundtrip : voice.

(** The frames whose numbers are of their type. *)
Definition wf_chunk (c : ChunkMeta.t) : Prop := in_u32 (ChunkMeta.seq c) ∧ in_u32 (ChunkMeta.total c).
Definition wf_signal (s : Signal.t) : Prop :=
  match s with
  | Signal.Offer _ _ (Some c) | Signal.Answer _ (Some c) => wf_chunk c
  | Signal.Ice _ _ (Some n) => in_u32 n
  | _ => True
  end.

Lemma as_u32_num n : in_u32 n → Json.as_u32 (Json.Num n) = Some n.
Proof. intros H. simpl. by rewrite decide_True. Qed.

(** Decide the comparisons of known keys. *)
Ltac known_keys :=
  repeat match goal with
  | |- context [decide (lit ?a = lit ?b)] =>
      first [ rewrite (decide_True (P := lit a = lit b)) by reflexivity
            | rewrite (decide_False (P := lit a = lit b)) by (intros E; discriminate E) ]
  end.
(** Look up the fields of an object written out. *)
Ltac one_field :=
  match goal with
  | |- context [Json.field (Json.Object []) ?k] => rewrite (field_nil k)
  | |- context [Json.field (Json.Object ((lit ?a, ?v) :: ?fs)) (lit ?b)] =>
      rewrite (field_cons (lit a) v fs (lit b)); known_keys
  | |- context [Json.field (Json.Object (opt_field (lit ?a) ?o ++ ?fs)) (lit ?b)] =>
      first [ rewrite (field_opt_ne (lit a) o fs (lit b)) by (intros E; discriminate E)
            | rewrite (field_opt_eq (lit a) o fs) by (repeat one_field; reflexivity) ]
  end.
Ltac fields :=
  unfold Signal.str, Json.field_string, field_string_opt, field_u32; cbn [app];
  repeat (one_field; cbn [mbind option_bind Json.as_str]).

Lemma chunk_roundtrip c fs :
  wf_chunk c → (∀ l key, key ∈ lit <$> ["id"; "seq"; "total"]%string →
    Json.field (Json.Object (fs ++ l)) key = Json.field (Json.Object l) key) →
  ChunkMeta.decode (Json.Object (fs ++ ChunkMeta.fields c)) = Some c.
Proof.
  intros [Hs Ht] Hfs. destruct c as [id seq total]. simpl in Hs, Ht.
  unfold ChunkMeta.decode, field_string_opt, field_u32, ChunkMeta.fields.
  rewrite !Hfs by (cbn; set_solver). fields. cbn -[Json.as_u32]. by rewrite !as_u32_num.
Qed.

Lemma joined_roundtrip members mode role streamers turn tracks :
  Signal.decode_joined (Json.Object (Signal.str "type" "joined"
    :: Signal.joined_fields members mode role streamers turn tracks))
  = Some (Signal.Joined members mode role streamers turn tracks).
Proof.
  unfold Signal.decode_joined, Signal.joined_fields, Signal.tracks_json.
  rewrite <- (app_nil_r (opt_field "tracks" _)). fields. rewrite strings_strings_json. cbn [mbind option_bind].
  f_equal. f_equal.
  - apply option_back. intros k. apply roomkind_roundtrip.
  - apply option_back. intros r. apply role_roundtrip.
  - destruct streamers; [apply strings_strings_json|done].
  - destruct turn; [apply turn_roundtrip|done].
  - destruct tracks; [apply tracks_roundtrip|done].
Qed.

Lemma presence_frame_roundtrip member state kind role :
  Signal.decode_presence (Json.Object (Signal.str "type" "presence" :: Signal.presence_fields member state kind role))
  = Some (Signal.Presence member state kind role).
Proof.
  unfold Signal.decode_presence, Signal.presence_fields. rewrite <- (app_nil_r (opt_field "role" _)).
  fields. cbn [Json.as_str mbind option_bind]. rewrite presence_roundtrip. cbn [mbind option_bind].
  f_equal. f_equal; apply option_back; intros; [apply toggle_roundtrip|apply role_roundtrip].
Qed.

Lemma sdp_lookup kind sdp tracks l key : key ∈ lit <$> ["id"; "seq"; "total"]%string →
  Json.field (Json.Object ((Signal.str "type" kind :: Signal.str "sdp" sdp :: opt_field "tracks" tracks) ++ l)) key
  = Json.field (Json.Object l) key.
Proof.
  intros Hkey. repeat (apply elem_of_cons in Hkey as [-> |Hkey]; [fields; reflexivity|]). by apply elem_of_nil in Hkey.
Qed.

Lemma chunk_back kind sdp tracks chunk :
  match chunk with Some c => wf_chunk c | None => True end →
  ChunkMeta.decode (Json.Object (Signal.str "type" kind :: Signal.str "sdp" sdp
    :: opt_field "tracks" tracks ++ Signal.chunk_fields chunk)) = chunk.
Proof.
  intros Hwf. destruct chunk as [c|].
  - apply (chunk_roundtrip c (Signal.str "type" kind :: Signal.str "sdp" sdp :: opt_field "tracks" tracks)); [done|].
    intros l key. apply sdp_lookup.
  - unfold ChunkMeta.decode, field_string_opt. simpl Signal.chunk_fields. fields. done.
Qed.

Lemma chunk_no_tracks chunk : Json.field (Json.Object (Signal.chunk_fields chunk)) "tracks" = None.
Proof. destruct chunk; [|done]. unfold Signal.chunk_fields, ChunkMeta.fields. fields. done. Qed.

Lemma offer_roundtrip sdp tracks chunk :
  match chunk with Some c => wf_chunk c | None => True end →
  Signal.decode_offer (Json.Object (Signal.str "type" "offer" :: Signal.offer_fields sdp tracks chunk))
  = Some (Signal.Offer sdp tracks chunk).
Proof.
  intros Hwf. unfold Signal.decode_offer, Signal.offer_fields. rewrite chunk_back by done.
  unfold Signal.str, Json.field_string. do 2 one_field. cbn [mbind option_bind Json.as_str]. do 2 one_field.
  rewrite field_opt_eq by apply chunk_no_tracks. cbn [mbind option_bind Json.as_str]. f_equal. f_equal.
  destruct tracks; [apply tracks_roundtrip|done].
Qed.

Lemma answer_roundtrip sdp chunk :
  match chunk with Some c => wf_chunk c | None => True end →
  Signal.decode_answer (Json.Object (Signal.str "type" "answer" :: Signal.answer_fields sdp chunk))
  = Some (Signal.Answer sdp chunk).
Proof.
  intros Hwf. unfold Signal.decode_answer, Signal.answer_fields.
  pose proof (chunk_back "answer" sdp None chunk Hwf) as Hb. cbn [opt_field app] in Hb. rewrite Hb.
  unfold Signal.str, Json.field_string. do 2 one_field. done.
Qed.

Lemma ice_roundtrip cand mid mlineidx :
  match mlineidx with Some n => in_u32 n | None => True end →
  Signal.decode_ice (Json.Object (Signal.str "type" "ice" :: Signal.ice_fields cand mid mlineidx))
  = Some (Signal.Ice cand mid mlineidx).
Proof.
  intros Hwf. unfold Signal.decode_ice, Signal.ice_fields. rewrite <- (app_nil_r (opt_field "mlineidx" _)).
  fields. cbn [Json.as_str mbind option_bind]. f_equal. f_equal; [by destruct mid|].
  destruct mlineidx as [n|]; [by apply as_u32_num|done].
Qed.

Lemma state_back kind state (f : OnOff.t → Signal.t) :
  (s ← Signal.decode_on_off (Json.Object [(lit "type", Json.Str kind); (lit "state", Json.Str (OnOff.wire state))]);
   Some (f s)) = Some (f state).
Proof. unfold Signal.decode_on_off. fields. cbn [Json.as_str mbind option_bind]. by rewrite onoff_roundtrip. Qed.

Lemma from_value_roundtrip s : wf_signal s → Signal.from_value (Signal.to_json_value s) = Some s.
Proof.
  intros Hwf. unfold Signal.from_value.
  destruct s; cbn [Signal.to_json_value Signal.wire_fields]; unfold Signal.str.
  all: rewrite field_cons, decide_True by done; cbn [Json.as_str mbind option_bind]; known_keys; try reflexivity.
  - apply joined_roundtrip.
  - apply offer_roundtrip. by destruct chunk.
  - apply answer_roundtrip. by destruct chunk.
  - apply ice_roundtrip. by destruct mlineidx.
  - apply presence_frame_roundtrip.
  - by apply state_back.
  - by apply state_back.
  - by apply state_back.
  - by apply state_back.
  - by apply state_back.
  - unfold Signal.decode_react, Signal.react_fields. fields. by destruct member.
  - unfold Signal.decode_role. fields. cbn [mbind option_bind Json.as_str]. by rewrite role_roundtrip.
  - f_equal. f_equal. rewrite <- (app_nil_r (opt_field "error" _)). fields. by destruct error.
Qed.

Definition wf_fields (fs : Fields) : Prop := foldr (λ p P, wf_json p.2 ∧ P) True fs.

Lemma wf_fields_app a b : wf_fields (a ++ b) ↔ wf_fields a ∧ wf_fields b.
Proof. unfold wf_fields. induction a as [|x a IH]; simpl; [tauto|]. rewrite IH. tauto. Qed.
Lemma wf_fields_cons k v fs : wf_fields ((k, v) :: fs) ↔ wf_json v ∧ wf_fields fs.
Proof. done. Qed.
Lemma wf_opt k o : wf_fields (opt_field k o) ↔ match o with Some v => wf_json v | None => True end.
Proof. destruct o; simpl; tauto. Qed.
Lemma wf_items l : Forall wf_json l → wf_json (Json.Array l).
Proof. simpl. induction 1; simpl; auto. Qed.
Lemma wf_strings l : wf_json (strings_json l).
Proof. apply wf_items. by induction l as [|x l IH]; constructor. Qed.
Lemma wf_tracks o : match Signal.tracks_json o with Some v => wf_json v | None => True end.
Proof. destruct o; [|done]. apply wf_items, Forall_fmap, Forall_forall. intros [??] _. simpl. tauto. Qed.
Lemma wf_turn c : wf_json (Turn.to_json c).
Proof. cbn [Turn.to_json wf_json foldr]. split; [apply wf_strings|simpl; tauto]. Qed.
Lemma wf_u32 n : in_u32 n → wf_json (Json.Num n).
Proof. unfold in_u32, u32_max. simpl. unfold i64_min, i64_max. lia. Qed.
Lemma wf_chunk_fields o : match o with Some c => wf_chunk c | None => True end → wf_fields (Signal.chunk_fields o).
Proof. destruct o as [c|]; [|done]. intros [H1 H2]. split; [done|]. split; [by apply wf_u32|]. split; [by apply wf_u32|done]. Qed.
#[export] Hint Resolve wf_strings wf_tracks wf_turn wf_chunk_fields : voice.

Lemma wf_to_json s : wf_signal s → wf_json (Signal.to_json_value s).
Proof.
  intros Hwf. assert (wf_fields (Signal.wire_fields s).2) as Hf.
  { destruct s; cbn [Signal.wire_fields snd]; try done;
      unfold Signal.joined_fields, Signal.offer_fields, Signal.answer_fields, Signal.ice_fields, Signal.presence_fields,
        Signal.react_fields, Signal.str;
      repeat (rewrite wf_fields_cons || rewrite wf_fields_app || rewrite wf_opt).
    - split; [apply wf_strings|]. split; [by destruct mode|]. split; [by destruct role|].
      split; [destruct streamers; [apply wf_strings|done]|].
      split; [destruct turn; [apply wf_turn|done]|apply wf_tracks].
    - split; [done|]. split; [apply wf_tracks|]. apply wf_chunk_fields; by destruct chunk.
    - split; [done|apply wf_chunk_fields; by destruct chunk].
    - split; [done|]. split; [by destruct mid|]. destruct mlineidx; [by apply wf_u32|done].
    - split; [by repeat split|]. split; [by destruct kind|by destruct role].
    - split; [by destruct member|done].
    - by destruct error. }
  unfold Signal.to_json_value. destruct (Signal.wire_fields s) as [kind fs]. cbn [snd] in Hf. by split.
Qed.

Lemma json_signal (s : Signal.t) : wf_signal s → Signal.from_json (Signal.to_json s) = Some s.
Proof.
  intros Hwf. unfold Signal.from_json, Signal.to_json. rewrite parse_write by by apply wf_to_json.
  by apply from_value_roundtrip.
Qed.

(** C26. Every frame the engine can build is read back from its JSON as the same frame:
    all nineteen types, each with any of its optional parts, whatever the strings hold
    and over the whole range of the 32-bit numbers. *)
Theorem signal_roundtrip (s : Signal.t) : wf_signal s → Signal.from_json (Signal.to_json s) = Some s.
Proof. apply json_signal. Qed.

Lemma signal_roundtrip_witness :
  let s := Signal.Offer [34; 92; 10; 8364]%N (Some [TrackHint.mk "0" "bob"]) (Some (ChunkMeta.mk "x" 0 u32_max)) in
  Signal.from_json (Signal.to_json s) = Some s.
Proof. intros s. apply (signal_roundtrip s). unfold wf_signal, s, wf_chunk, in_u32, u32_max. simpl. lia. Defined.

(** ** Splitting and reassembly *)

Lemma fit_spec budget s a b :
  Sdp.fit budget s = (a, b) → s = a ++ b ∧ (utf8_len a <= budget)%nat.
Proof.
  revert budget a b. induction s as [|c s IH]; intros budget a b; simpl; [intros ?; simplify_eq; split; [done|simpl; lia]|].
  case_decide as Hc; [|intros ?; simplify_eq; split; [done|simpl; lia]].
  destruct (Sdp.fit (budget - len_utf8 c) s) as [a0 b0] eqn:E. intros ?; simplify_eq.
  apply IH in E as [-> Hl]. simpl. split; [done|lia].
Qed.

(** A piece within the budget, or one character that is wider than it. *)
Definition piece_ok (budget : nat) (p : text) : Prop :=
  p ≠ [] ∧ ((utf8_len p <= budget)%nat ∨ length p = 1%nat).

Lemma char_chunks_loop_spec fuel budget s :
  (length s <= fuel)%nat →
  concat (Sdp.char_chunks_loop fuel budget s) = s ∧ Forall (piece_ok budget) (Sdp.char_chunks_loop fuel budget s).
Proof.
  revert s. induction fuel as [|fuel IH]; intros s Hf; [destruct s; simpl in *; [done|lia]|].
  destruct s as [|c s]; [done|]. cbn [Sdp.char_chunks_loop].
  destruct (Sdp.fit budget (c :: s)) as [a b] eqn:E. apply fit_spec in E as [Hab Hl].
  destruct a as [|d a].
  - simpl in Hf. destruct (IH s) as [H1 H2]; [lia|]. simpl. rewrite H1. split; [done|].
    constructor; [|done]. split; [done|by right].
  - assert (length b <= fuel)%nat as Hb.
    { apply (f_equal length) in Hab. rewrite length_app in Hab. simpl in *. lia. }
    destruct (IH b Hb) as [H1 H2]. cbn [concat]. rewrite H1. split; [done|].
    constructor; [|done]. split; [done|by left].
Qed.

(** Splitting loses nothing, cuts no character and keeps every piece within the budget,
    except a single character that is wider than it; it always ends, and it splits
    exactly the descriptions that do not fit. *)
Theorem split_sdp_pieces (s id : text) (budget : nat) :
  match Sdp.split_sdp s id budget with
  | None => budget = 0%nat ∨ (utf8_len s <= budget)%nat
  | Some chunks =>
      (0 < budget < utf8_len s)%nat
      ∧ concat (Sdp.sdp <$> chunks) = s
      ∧ Forall (piece_ok budget) (Sdp.sdp <$> chunks)
      ∧ (∀ i c, chunks !! i = Some c → ChunkMeta.id (Sdp.chunk c) = id
           ∧ ChunkMeta.seq (Sdp.chunk c) = Sdp.to_u32 i ∧ ChunkMeta.total (Sdp.chunk c) = Sdp.to_u32 (length chunks))
  end.
Proof.
  unfold Sdp.split_sdp. case_decide as H; [done|].
  destruct (char_chunks_loop_spec (length s) budget s) as [H1 H2]; [done|].
  fold (Sdp.char_chunks s budget) in *. set (slices := Sdp.char_chunks s budget) in *.
  assert (Sdp.sdp <$> imap (λ seq slice, Sdp.mkChunk (ChunkMeta.mk id (Sdp.to_u32 seq) (Sdp.to_u32 (length slices))) slice) slices
    = slices) as Hs by (rewrite fmap_imap; apply imap_const || (rewrite <- (list_fmap_id slices) at 2; apply list_eq; intros i;
      rewrite list_lookup_imap, list_lookup_fmap; by destruct (slices !! i))).
  rewrite Hs. split_and!; [lia|lia|done|done|].
  intros i c Hc. rewrite list_lookup_imap in Hc. apply fmap_Some in Hc as (slice & _ & ->).
  rewrite length_imap. done.
Qed.

Lemma split_sdp_seqs s id budget chunks :
  Sdp.split_sdp s id budget = Some chunks →
  concat (Sdp.sdp <$> chunks) = s ∧ chunks ≠ []
  ∧ ∀ i c, chunks !! i = Some c → Sdp.chunk c = ChunkMeta.mk id (Sdp.to_u32 i) (Sdp.to_u32 (length chunks)).
Proof.
  unfold Sdp.split_sdp. case_decide as H; [done|]. intros ?; simplify_eq.
  destruct (char_chunks_loop_spec (length s) budget s) as [H1 _]; [done|].
  fold (Sdp.char_chunks s budget) in *. set (slices := Sdp.char_chunks s budget) in *.
  assert (Sdp.sdp <$> imap (λ seq slice, Sdp.mkChunk (ChunkMeta.mk id (Sdp.to_u32 seq) (Sdp.to_u32 (length slices))) slice) slices
    = slices) as Hs.
  { apply list_eq. intros i. rewrite list_lookup_fmap, list_lookup_imap. by destruct (slices !! i). }
  rewrite Hs. split_and!; [done| |].
  - intros E. apply (f_equal (fmap Sdp.sdp)) in E. rewrite Hs in E. simpl in E. rewrite E in H1. subst s. simpl in H. lia.
  - intros i c Hc. rewrite list_lookup_imap in Hc. apply fmap_Some in Hc as (slice & _ & ->). by rewrite length_imap.
Qed.

(** Feeding chunks one after another: what each push gave, and the buffer left. *)
Fixpoint push_all (l : list Sdp.Chunk) (r : Sdp.t) : list (option text) * Sdp.t :=
  match l with
  | [] => ([], r)
  | c :: l =>
      let '(o, r) := Sdp.push (Sdp.chunk c) (Sdp.sdp c) r in
      let '(os, r) := push_all l r in (o :: os, r)
  end.

(** The buffer with part of one description collected. *)
Definition collecting (id : text) (n : Z) (parts : gmap Z text) (r : Sdp.t) : Sdp.t :=
  Sdp.mk (<[id := Sdp.mkPartial n parts]> (Sdp.partials r)) (Sdp.max_chunks r) (Sdp.max_concurrent r).

Lemma push_collecting id n parts r seq s :
  0 <= seq < n → n <= Z.of_nat (Sdp.max_chunks r) → parts !! seq = None → (Z.of_nat (S (size parts)) <= n) →
  Sdp.push (ChunkMeta.mk id seq n) s (collecting id n parts r)
  = if decide (Z.of_nat (S (size parts)) = n)
    then (Sdp.joined (Sdp.mkPartial n (<[seq := s]> parts)),
          Sdp.mk (delete id (Sdp.partials r)) (Sdp.max_chunks r) (Sdp.max_concurrent r))
    else (None, collecting id n (<[seq := s]> parts) r).
Proof.
  intros Hseq Hn Hfresh Hsize. unfold Sdp.push, collecting. cbn [Sdp.max_chunks Sdp.max_concurrent Sdp.partials].
  rewrite decide_False by lia. rewrite lookup_insert_eq. rewrite decide_False by (intros [? _]; done).
  cbn [from_option Datatypes.id Sdp.total Sdp.parts]. rewrite decide_False by tauto.
  rewrite map_size_insert_None by done.
  destruct (decide (Z.of_nat (S (size parts)) = n)).
  - rewrite decide_False by tauto. by rewrite delete_insert_eq.
  - rewrite decide_True by done. by rewrite insert_insert_eq.
Qed.

(** A complete set of parts joins in order, whatever order it was inserted in. *)
Lemma joined_complete (slices : list text) (parts : gmap Z text) :
  (∀ i, parts !! Z.of_nat i = slices !! i) →
  Sdp.joined (Sdp.mkPartial (Z.of_nat (length slices)) parts) = Some (concat slices).
Proof.
  intros Hp. unfold Sdp.joined. cbn [Sdp.total Sdp.parts].
  assert (mapM (λ seq, parts !! seq) (seqZ 0 (Z.of_nat (length slices))) = Some slices) as ->; [|done].
  apply mapM_Some, Forall2_same_length_lookup. split; [by rewrite length_seqZ, Nat2Z.id|].
  intros i x y Hx Hy. apply lookup_seqZ in Hx as [-> _]. by rewrite Z.add_0_l, Hp.
Qed.

Definition seq_of (c : Sdp.Chunk) : Z := ChunkMeta.seq (Sdp.chunk c).
Definition parts_of (l : list Sdp.Chunk) : gmap Z text := list_to_map ((λ c, (seq_of c, Sdp.sdp c)) <$> l).

Lemma parts_of_perm l l' : NoDup (seq_of <$> l) → l ≡ₚ l' → parts_of l = parts_of l'.
Proof.
  intros Hnd Hp. unfold parts_of. apply list_to_map_proper; [|by rewrite Hp].
  rewrite <- list_fmap_compose. exact Hnd.
Qed.

Lemma parts_of_lookup l c : NoDup (seq_of <$> l) → c ∈ l → parts_of l !! seq_of c = Some (Sdp.sdp c).
Proof.
  intros Hnd Hc. unfold parts_of. apply elem_of_list_to_map; [by rewrite <- list_fmap_compose|].
  apply list_elem_of_fmap. by exists c.
Qed.

Lemma parts_of_fresh l z : z ∉ seq_of <$> l → parts_of l !! z = None.
Proof. intros H. unfold parts_of. apply not_elem_of_list_to_map_1. by rewrite <- list_fmap_compose. Qed.

Lemma size_parts_of l : NoDup (seq_of <$> l) → size (parts_of l) = length l.
Proof.
  intros Hnd. unfold parts_of. rewrite map_size_list_to_map by by rewrite <- list_fmap_compose. by rewrite length_fmap.
Qed.

Section reassembly.
Context (id : text) (n : Z) (r : Sdp.t) (total : list Sdp.Chunk).
Context (Htotal : ∀ c, c ∈ total → Sdp.chunk c = ChunkMeta.mk id (seq_of c) n ∧ 0 <= seq_of c < n).
Context (Hnd : NoDup (seq_of <$> total)) (Hlen : Z.of_nat (length total) = n).
Context (Hmax : n <= Z.of_nat (Sdp.max_chunks r)).

Lemma push_rest (done_ l : list Sdp.Chunk) :
  done_ ≠ [] → l ≠ [] → l ++ done_ ≡ₚ total →
  push_all l (collecting id n (parts_of done_) r)
  = (replicate (length l - 1) None ++ [Sdp.joined (Sdp.mkPartial n (parts_of total))],
     Sdp.mk (delete id (Sdp.partials r)) (Sdp.max_chunks r) (Sdp.max_concurrent r)).
Proof.
  revert done_. induction l as [|c l IH]; intros done_ Hd Hl Hp; [done|].
  assert (NoDup (seq_of <$> (c :: l) ++ done_)) as Hnd' by by rewrite Hp.
  assert (c ∈ total) as Hc by (rewrite <- Hp; by left).
  destruct (Htotal c Hc) as [Ec Hs]. rewrite fmap_app, fmap_cons in Hnd'.
  apply NoDup_app in Hnd' as (Hnd1 & Hdis & Hnd2).
  assert (seq_of c ∉ seq_of <$> done_) as Hfresh by (apply Hdis; by left).
  assert (length (c :: l ++ done_) = length total) as Hsz by by rewrite <- Hp.
  simpl in Hsz. rewrite length_app in Hsz.
  cbn [push_all]. rewrite Ec, push_collecting; [|done|done|by apply parts_of_fresh|rewrite size_parts_of by done; lia].
  rewrite size_parts_of by done.
  change (<[seq_of c := Sdp.sdp c]> (parts_of done_)) with (parts_of (c :: done_)).
  destruct l as [|c' l].
  - rewrite decide_True by (simpl in Hsz; lia). simpl. rewrite (parts_of_perm (c :: done_) total); [done| |done].
    apply NoDup_cons. by split.
  - rewrite decide_False by (simpl in *; lia). rewrite IH; [|done|done|].
    + simpl. by rewrite Nat.sub_0_r.
    + rewrite <- Hp. symmetry. apply (Permutation_middle (c' :: l) done_ c).
Qed.
End reassembly.

Lemma to_u32_small n : Z.of_nat n <= u32_max → Sdp.to_u32 n = Z.of_nat n.
Proof. intros H. unfold Sdp.to_u32. by rewrite decide_True. Qed.

(** C27. A split description arrives whole in whatever order its chunks come, where the buffer takes it in: it has no
    more chunks than the buffer's bound (nor than a u32 counts), the buffer is not collecting its id already, and it is
    collecting fewer others than it may at once. Nothing is then reported before the last of the chunks, the last one
    reports exactly the text that was split, and the buffer is left as it was, the others it is collecting included. *)
Theorem sdp_reassembles (s id : text) (budget : nat) (chunks arrived : list Sdp.Chunk) (r : Sdp.t) :
  Sdp.split_sdp s id budget = Some chunks → arrived ≡ₚ chunks →
  (length chunks <= Sdp.max_chunks r)%nat → Z.of_nat (length chunks) <= u32_max →
  Sdp.partials r !! id = None → (Sdp.pending_len r < Sdp.max_concurrent r)%nat →
  push_all arrived r = (replicate (length chunks - 1) None ++ [Some s], r).
Proof.
  intros Hsplit Hp Hmax Hu32 Hid Hroom. unfold Sdp.pending_len in Hroom.
  apply split_sdp_seqs in Hsplit as (Hs & Hne & Hchunks).
  set (n := Z.of_nat (length chunks)) in *.
  assert (∀ i c, chunks !! i = Some c → Sdp.chunk c = ChunkMeta.mk id (Z.of_nat i) n) as Hc.
  { intros i c Hi. rewrite (Hchunks i c Hi). pose proof (lookup_lt_Some _ _ _ Hi).
    by rewrite !to_u32_small by lia. }
  assert (seq_of <$> chunks = seqZ 0 n) as Hseqs.
  { apply list_eq. intros i. rewrite list_lookup_fmap. destruct (chunks !! i) as [c|] eqn:Ei; simpl.
    - unfold seq_of. rewrite (Hc i c Ei). simpl. symmetry. apply lookup_seqZ. apply lookup_lt_Some in Ei. lia.
    - symmetry. apply lookup_ge_None in Ei. apply lookup_ge_None. rewrite length_seqZ. lia. }
  assert (NoDup (seq_of <$> chunks)) as Hnd by (rewrite Hseqs; apply NoDup_seqZ).
  assert (∀ c, c ∈ chunks → Sdp.chunk c = ChunkMeta.mk id (seq_of c) n ∧ 0 <= seq_of c < n) as Hall.
  { intros c [i Hi]%list_elem_of_lookup. unfold seq_of. rewrite (Hc i c Hi). simpl. split; [done|].
    apply lookup_lt_Some in Hi. lia. }
  assert (Sdp.joined (Sdp.mkPartial n (parts_of chunks)) = Some s) as Hj.
  { rewrite <- Hs. unfold n. rewrite <- (length_fmap Sdp.sdp chunks). apply joined_complete. intros i.
    rewrite list_lookup_fmap. destruct (chunks !! i) as [c|] eqn:Ei; simpl.
    - replace (Z.of_nat i) with (seq_of c) by (unfold seq_of; by rewrite (Hc i c Ei)).
      apply parts_of_lookup; [done|]. by eapply list_elem_of_lookup_2.
    - apply parts_of_fresh. rewrite Hseqs. intros Hin%elem_of_seqZ. apply lookup_ge_None in Ei. lia. }
  destruct arrived as [|c l]; [by apply Permutation_nil_l in Hp|].
  assert (c ∈ chunks) as Hcin by (rewrite <- Hp; by left). destruct (Hall c Hcin) as [Ec Hcs].
  assert (length (c :: l) = length chunks) as Hlen by by rewrite Hp.
  rewrite <- Hlen. cbn [push_all]. rewrite Ec. unfold Sdp.push at 1.
  rewrite decide_False by lia. rewrite decide_False by (rewrite Hid; intros [_ ?]; lia).
  rewrite Hid. cbn [from_option Datatypes.id Sdp.total Sdp.parts]. rewrite decide_False by tauto.
  rewrite map_size_insert_None by done. rewrite map_size_empty.
  assert (Sdp.mk (delete id (Sdp.partials r)) (Sdp.max_chunks r) (Sdp.max_concurrent r) = r) as Hr.
  { rewrite delete_id by done. by destruct r. }
  destruct l as [|c' l].
  - simpl in Hlen. rewrite decide_False by lia.
    change (<[seq_of c := Sdp.sdp c]> ∅) with (parts_of [c]).
    rewrite (parts_of_perm [c] chunks), Hj, Hr; [done|by apply NoDup_singleton|done].
  - rewrite decide_True by (simpl in Hlen; lia).
    change (<[seq_of c := Sdp.sdp c]> ∅) with (parts_of [c]).
    pose proof (push_rest id n r chunks Hall Hnd eq_refl ltac:(lia) [c] (c' :: l)) as Hrest.
    unfold collecting in Hrest. rewrite Hrest, Hj, Hr; [|done|done|].
    + simpl. by rewrite Nat.sub_0_r.
    + rewrite <- Hp. symmetry. apply (Permutation_cons_append (c' :: l) c).
Qed.

Lemma sdp_reassembles_witness :
  let chunks := default [] (Sdp.split_sdp "v=0 session" "x" 4) in
  length chunks = 3%nat ∧ push_all (reverse chunks) Sdp.new = ([None; None; Some (lit "v=0 session")], Sdp.new).
Proof.
  intros chunks. split; [vm_compute; reflexivity|].
  apply (sdp_reassembles "v=0 session" "x" 4 chunks (reverse chunks) Sdp.new).
  - vm_compute. reflexivity.
  - apply reverse_Permutation.
  - apply Nat.leb_le. vm_compute. reflexivity.
  - vm_compute. discriminate.
  - vm_compute. reflexivity.
  - apply Nat.ltb_lt. vm_compute. reflexivity.
Defined.

(** ** Rooms *)

(** The role a [joined] frame gives a member. *)
Definition joined_role (me : text) (role : option Role.t) (streamers : option (list text)) (cm : Casemapping.t)
    (r : Room.t) (member : text) : Role.t :=
  match Casemapping.eq cm member me, role with
  | true, Some role => role
  | _, _ => Room.role_for r member streamers cm
  end.

Lemma eq_same_fold cm a b c :
  Casemapping.fold cm a = Casemapping.fold cm b → Casemapping.eq cm a c = Casemapping.eq cm b c.
Proof. intros H. apply eq_true_iff_eq. rewrite !eq_fold_iff, H. done. Qed.
Lemma eq_same_fold' cm a b c :
  Casemapping.fold cm a = Casemapping.fold cm b → Casemapping.eq cm c a = Casemapping.eq cm c b.
Proof. intros H. apply eq_true_iff_eq. rewrite !eq_fold_iff, H. done. Qed.

Lemma joined_role_fold me role streamers cm r a b :
  Casemapping.fold cm a = Casemapping.fold cm b →
  joined_role me role streamers cm r a = joined_role me role streamers cm r b.
Proof.
  intros H. unfold joined_role, Room.role_for. rewrite (eq_same_fold cm a b me H).
  destruct (Room.kind r); [done|].
  assert (existsb (λ name, Casemapping.eq cm name a) (default [] streamers)
        = existsb (λ name, Casemapping.eq cm name b) (default [] streamers)) as ->; [|done].
  induction (default [] streamers) as [|x l IH]; [done|]. simpl. by rewrite IH, (eq_same_fold' cm a b x H).
Qed.

Lemma admit_member_spec me role streamers cm r member :
  Room.kind (Room.admit_member me role streamers cm r member) = Room.kind r
  ∧ Room.turn (Room.admit_member me role streamers cm r member) = Room.turn r
  ∧ ∀ k, Participant.role <$> Room.participants (Room.admit_member me role streamers cm r member) !! k
       = if decide (k = Casemapping.fold cm member) then Some (joined_role me role streamers cm r member)
         else Participant.role <$> Room.participants r !! k.
Proof.
  unfold Room.admit_member, joined_role. split_and!; [done|done|]. intros k. simpl. case_decide as H.
  - subst. by rewrite lookup_insert_eq.
  - by rewrite lookup_insert_ne.
Qed.

Lemma joined_role_kind me role streamers cm r r' member :
  Room.kind r = Room.kind r' → joined_role me role streamers cm r member = joined_role me role streamers cm r' member.
Proof. intros H. unfold joined_role, Room.role_for. by rewrite H. Qed.

(** After a [joined] frame every member it lists is in the room, under the key both
    spellings of a nick share, in the role that frame gives: ours as it says, everyone
    else by the kind of room, a publisher in a [^] channel and in a [$] channel exactly
    the streamers it names. Nobody else's role moves, and the relay credentials are the
    frame's. *)
Theorem room_joined_roles (me : text) (members : list text) (mode : option RoomKind.t) (role : option Role.t)
    (streamers : option (list text)) (turn : option Turn.t) (tracks : option (list TrackHint.t))
    (cm : Casemapping.t) (r : Room.t) :
  let r' := Room.apply me (Signal.Joined members mode role streamers turn tracks) cm r in
  Room.turn r' = turn ∧ Room.kind r' = Room.kind r
  ∧ ∀ k, Participant.role <$> Room.participants r' !! k
       = match list_find (λ m, Casemapping.fold cm m = k) members with
         | Some (_, member) => Some (joined_role me role streamers cm r member)
         | None => Participant.role <$> Room.participants r !! k
         end.
Proof.
  cbn [Room.apply]. unfold Room.apply_joined.
  set (r0 := Room.mk (Room.channel r) (Room.kind r) (Room.participants r) turn).
  assert (∀ l r1, Room.kind r1 = Room.kind r →
    let r2 := foldl (Room.admit_member me role streamers cm) r1 l in
    Room.turn r2 = Room.turn r1 ∧ Room.kind r2 = Room.kind r1
    ∧ ∀ k, Participant.role <$> Room.participants r2 !! k
       = match list_find (λ m, Casemapping.fold cm m = k) l with
         | Some (_, member) => Some (joined_role me role streamers cm r member)
         | None => Participant.role <$> Room.participants r1 !! k
         end) as H.
  { induction l as [|m l IH]; intros r1 Hk; [by split_and!|]. cbn [foldl].
    destruct (admit_member_spec me role streamers cm r1 m) as (H1 & H2 & H3).
    destruct (IH (Room.admit_member me role streamers cm r1 m)) as (H4 & H5 & H6); [congruence|].
    split_and!; [congruence|congruence|]. intros k. rewrite H6, H3. simpl.
    rewrite (joined_role_kind me role streamers cm r1 r m Hk).
    destruct (decide (Casemapping.fold cm m = k)) as [Hm|Hm].
    - destruct (list_find _ l) as [[i m']|] eqn:E; simpl.
      + apply list_find_Some in E as (_ & E & _). f_equal. apply joined_role_fold. congruence.
      + by rewrite decide_True.
    - destruct (list_find _ l) as [[i m']|] eqn:E; simpl; [done|]. by rewrite decide_False by congruence. }
  destruct (H members r0 eq_refl) as (H1 & H2 & H3). done.
Qed.

(** But a member the frame no longer lists stays in the room: after a reconnect, whoever
    left meanwhile is still shown, microphone and all. *)
Lemma room_keeps_the_departed :
  let joined names := Signal.Joined names None None None None None in
  let r := Room.apply "me" (joined [lit "me"; lit "bob"]) Casemapping.Ascii (Room.new "^v") in
  is_Some (Room.participants (Room.apply "me" (joined [lit "me"]) Casemapping.Ascii r) !! lit "bob").
Proof. vm_compute. by eexists. Qed.
