(* ===== verification/VoiceRooms.v ===== *)
(** * Two ends of a voice channel

    Each end keeps its own [Room] from the frames it is sent: one [joined] frame of its own when it comes
    in, then what is broadcast. The theorem: whoever came when, the ends agree on who is there and on
    everything announced since the later of them came. *)
From S2P Require Import Prelude Casemap Json Voice.

(** What a room shows of a participant. *)
Inductive field := FRole | FMic | FVideo | FScreen | FHand | FSpeaking | FDeaf.
Definition field_of_kind (k : ToggleKind.t) : field :=
  match k with ToggleKind.Mic => FMic | ToggleKind.Video => FVideo | ToggleKind.Screen => FScreen | ToggleKind.Hand => FHand end.
Definition read_field (f : field) (p : Participant.t) : Role.t + OnOff.t :=
  match f with
  | FRole => inl (Participant.role p)
  | FMic => inr (Participant.mic p) | FVideo => inr (Participant.video p) | FScreen => inr (Participant.screen p)
  | FHand => inr (Participant.hand p) | FSpeaking => inr (Participant.speaking p) | FDeaf => inr (Participant.deaf p)
  end.
Definition shows (f : field) (r : Room.t) (k : CaseFolded) : option (Role.t + OnOff.t) := read_field f <$> Room.participants r !! k.

(** A frame everyone in the room is sent. *)
Definition broadcast (s : Signal.t) : Prop := match s with Signal.Joined _ _ _ _ _ _ => False | _ => True end.
(** Whom a frame is about, and what it says of them. *)
Definition announces (s : Signal.t) : option (text * field) :=
  match s with
  | Signal.SetRole member _ => Some (member, FRole)
  | Signal.Presence member state kind _ =>
      match state with
      | PresenceState.Joined => Some (member, FRole)
      | PresenceState.Left => None
      | PresenceState.On | PresenceState.Off => kind ← kind; Some (member, field_of_kind kind)
      | PresenceState.Speaking | PresenceState.Silent => Some (member, FSpeaking)
      | PresenceState.DeafOn | PresenceState.DeafOff => Some (member, FDeaf)
      end
  | _ => None
  end.

(** What a broadcast frame does to the record of the one it is about. *)
Definition react (s : Signal.t) (kind : RoomKind.t) (o : option Participant.t) : option Participant.t :=
  match s with
  | Signal.SetRole member role => Some (Participant.set_role role (default (Participant.new member) o))
  | Signal.Presence member state toggle role =>
      match state with
      | PresenceState.Joined =>
          let usual := match kind with RoomKind.Publish => Role.Publisher | RoomKind.Stream => Role.Viewer end in
          Some (Participant.set_role (default usual role) (default (Participant.new member) o))
      | PresenceState.Left => None
      | PresenceState.On => match toggle with Some k => ToggleKind.apply k OnOff.On <$> o | None => o end
      | PresenceState.Off => match toggle with Some k => ToggleKind.apply k OnOff.Off <$> o | None => o end
      | PresenceState.Speaking => Participant.set_speaking OnOff.On <$> o
      | PresenceState.Silent => Participant.set_speaking OnOff.Off <$> o
      | PresenceState.DeafOn => Participant.set_deaf OnOff.On <$> o
      | PresenceState.DeafOff => Participant.set_deaf OnOff.Off <$> o
      end
  | _ => o
  end.
Definition about (s : Signal.t) : option text :=
  match s with Signal.SetRole member _ | Signal.Presence member _ _ _ => Some member | _ => None end.

Section rooms.
Context (cm : Casemapping.t).
Implicit Types (r : Room.t) (s : Signal.t) (k : CaseFolded).

Lemma apply_at me s r k :
  broadcast s →
  Room.participants (Room.apply me s cm r) !! k =
    if decide (Casemapping.fold cm <$> about s = Some k) then react s (Room.kind r) (Room.participants r !! k)
    else Room.participants r !! k.
Proof.
  intros Hb. destruct s; try done; cbn [Room.apply about fmap option_fmap option_map react].
  - unfold Room.apply_presence, Room.alter_participant, Room.set_flag, Room.role_for.
    destruct state; repeat match goal with |- context [match kind with _ => _ end] => destruct kind end;
      cbn [Room.set_participants Room.participants existsb default option_rect];
      (destruct (decide (Some (Casemapping.fold cm member) = Some k)) as [Hk|Hk]; [injection Hk as <-|assert (Casemapping.fold cm member ≠ k) by congruence]);
      rewrite ?lookup_insert_eq, ?lookup_delete_eq, ?lookup_alter_eq, ?lookup_insert_ne, ?lookup_delete_ne, ?lookup_alter_ne by done;
      try done; by destruct (Room.kind r).
  - unfold Room.alter_participant. cbn [Room.set_participants Room.participants].
    destruct (decide (Some (Casemapping.fold cm member) = Some k)) as [Hk|Hk]; [injection Hk as <-|assert (Casemapping.fold cm member ≠ k) by congruence];
      by rewrite ?lookup_insert_eq, ?lookup_insert_ne by done.
Qed.

Lemma apply_kind me s r : Room.kind (Room.apply me s cm r) = Room.kind r.
Proof.
  destruct s; try done; cbn [Room.apply].
  - unfold Room.apply_joined. assert (∀ r0, Room.kind (foldl (Room.admit_member me role streamers cm) r0 members) = Room.kind r0) as H.
    { induction members as [|m ms IH]; intros r0; [done|]. cbn [foldl]. by rewrite IH. }
    by rewrite H.
  - unfold Room.apply_presence. destruct state, kind; done.
Qed.

Definition together (o1 o2 : option Participant.t) : Prop := is_Some o1 ↔ is_Some o2.

(** A record and another of the same person, or neither. *)
Ltac pairs Ho o1 o2 :=
  destruct o1 as [?p|], o2 as [?q|];
  [|exfalso; destruct (proj1 Ho (ltac:(eauto))); discriminate|exfalso; destruct (proj2 Ho (ltac:(eauto))); discriminate|].

Lemma react_together s kind o1 o2 : together o1 o2 → together (react s kind o1) (react s kind o2).
Proof.
  intros Ho. pairs Ho o1 o2; [|done]. unfold together. destruct s; cbn [react]; try (by split; eauto).
  destruct state, kind0; cbn; split; eauto; by intros [].
Qed.

Lemma read_toggle f (k : ToggleKind.t) st p q :
  (read_field f p = read_field f q ∨ f = field_of_kind k) →
  read_field f (ToggleKind.apply k st p) = read_field f (ToggleKind.apply k st q).
Proof. intros [Hf| ->]; [|by destruct k]. by destruct k, f. Qed.

(** What two records agree on they go on agreeing on, and what a frame announces they agree on. *)
Lemma react_field s kind o1 o2 f :
  together o1 o2 → (read_field f <$> o1 = read_field f <$> o2 ∨ snd <$> announces s = Some f) →
  read_field f <$> react s kind o1 = read_field f <$> react s kind o2.
Proof.
  intros Ho Hf. pairs Ho o1 o2; [|by destruct s as [| | | | | |? state toggle ?| | | | | | | | | | | |]; try destruct state, toggle].
  assert (snd <$> announces s = Some f ∨ read_field f p = read_field f q) as Hf'.
  { destruct Hf as [[= Hf]|Hf]; auto. }
  clear Hf Ho. destruct s; try (destruct Hf' as [[=]|Hf]; cbn; by rewrite Hf).
  - destruct state; try (destruct kind0 as [k|]); cbn in Hf' |- *; try done;
      try (destruct Hf' as [[=]|Hf]; by rewrite Hf);
      try (f_equal; apply read_toggle; destruct Hf' as [[= <-]|Hf]; auto; done);
      (destruct Hf' as [[= <-]|Hf]; [done|f_equal; by destruct f]).
  - cbn. destruct Hf' as [[= <-]|Hf]; [done|f_equal; by destruct f].
Qed.

(** Two rooms of one kind with the same people in them. *)
Definition same_people r1 r2 : Prop :=
  Room.kind r1 = Room.kind r2 ∧ ∀ k, together (Room.participants r1 !! k) (Room.participants r2 !! k).

Lemma same_people_apply me1 me2 s r1 r2 :
  broadcast s → same_people r1 r2 → same_people (Room.apply me1 s cm r1) (Room.apply me2 s cm r2).
Proof.
  intros Hs [Hk Hp]. split; [by rewrite !apply_kind|]. intros k. rewrite !apply_at, Hk by done.
  case_decide; [by apply react_together|done].
Qed.

Lemma shows_apply me1 me2 s r1 r2 f k :
  broadcast s → same_people r1 r2 → shows f r1 k = shows f r2 k →
  shows f (Room.apply me1 s cm r1) k = shows f (Room.apply me2 s cm r2) k.
Proof.
  intros Hs [Hk Hp] Hf. unfold shows. rewrite !apply_at, Hk by done. case_decide; [|done].
  apply react_field; [done|by left].
Qed.
Lemma announced_apply me1 me2 s r1 r2 f m :
  broadcast s → same_people r1 r2 → announces s = Some (m, f) →
  shows f (Room.apply me1 s cm r1) (Casemapping.fold cm m) = shows f (Room.apply me2 s cm r2) (Casemapping.fold cm m).
Proof.
  intros Hs [Hk Hp] Ha. unfold shows. rewrite !apply_at, Hk by done.
  assert (about s = Some m) as ->.
  { destruct s; try done; cbn in Ha |- *; [|by injection Ha as -> _]. destruct state; try destruct kind; by simplify_eq/=. }
  rewrite !decide_True by done. apply react_field; [done|right; by rewrite Ha].
Qed.

(** What an end has after its own [joined] frame and those broadcast since. *)
Definition hears me signals r : Room.t := foldl (λ r s, Room.apply me s cm r) r signals.

Lemma hears_together me1 me2 signals r1 r2 :
  Forall broadcast signals → same_people r1 r2 →
  same_people (hears me1 signals r1) (hears me2 signals r2)
  ∧ (∀ f k, shows f r1 k = shows f r2 k → shows f (hears me1 signals r1) k = shows f (hears me2 signals r2) k)
  ∧ ∀ s m f, s ∈ signals → announces s = Some (m, f) →
      shows f (hears me1 signals r1) (Casemapping.fold cm m) = shows f (hears me2 signals r2) (Casemapping.fold cm m).
Proof.
  intros Hs. revert r1 r2. induction Hs as [|s ss Hs _ IH]; intros r1 r2 Hr.
  - split_and!; [done|done|]. intros s m f Hin. by apply elem_of_nil in Hin.
  - destruct (IH _ _ (same_people_apply me1 me2 s r1 r2 Hs Hr)) as (H1 & H2 & H3). split_and!; [exact H1| |].
    + intros f k Hf. by apply H2, shows_apply.
    + intros s' m f [->|Hin]%elem_of_cons Ha; [|by eapply H3]. by apply H2, announced_apply.
Qed.

Lemma admit_members me role streamers members r k :
  is_Some (Room.participants (foldl (Room.admit_member me role streamers cm) r members) !! k) ↔
    k ∈ Casemapping.fold cm <$> members ∨ is_Some (Room.participants r !! k).
Proof.
  revert r. induction members as [|m ms IH]; intros r; cbn [foldl].
  - rewrite elem_of_nil. tauto.
  - rewrite IH, fmap_cons, elem_of_cons. unfold Room.admit_member, Room.alter_participant. cbn [Room.set_participants Room.participants].
    destruct (decide (Casemapping.fold cm m = k)) as [<-|Hk].
    + rewrite lookup_insert_eq. split; intros _; [by left; left|right; eauto].
    + rewrite lookup_insert_ne by done. split; [tauto|]. intros [[->|?]|?]; [done|tauto|tauto].
Qed.

(** C28. Two ends of a voice channel agree however far apart they came. One has been there for any time and holds
    any room; the other comes in with a [joined] frame that lists who the first one sees; both are then sent the
    same frames. From there on they show the same people, and the same role, microphone, camera, screen, hand,
    speech and deafness of anyone for whom one of these was announced since, even of those who left and came
    back; and where they agreed on one before, they go on agreeing. *)
Theorem voice_ends_agree me1 me2 (r1 : Room.t) channel members mode role streamers turn tracks signals :
  let r2 := Room.apply me2 (Signal.Joined members mode role streamers turn tracks) cm (Room.new channel) in
  Room.kind r1 = RoomKind.for_channel channel →
  (∀ k, is_Some (Room.participants r1 !! k) ↔ k ∈ Casemapping.fold cm <$> members) →
  Forall broadcast signals →
  (∀ k, is_Some (Room.participants (hears me1 signals r1) !! k) ↔ is_Some (Room.participants (hears me2 signals r2) !! k))
  ∧ (∀ s m f, s ∈ signals → announces s = Some (m, f) →
       shows f (hears me1 signals r1) (Casemapping.fold cm m) = shows f (hears me2 signals r2) (Casemapping.fold cm m))
  ∧ (∀ f k, shows f r1 k = shows f r2 k → shows f (hears me1 signals r1) k = shows f (hears me2 signals r2) k).
Proof.
  intros r2 Hk Hp Hs.
  assert (same_people r1 r2) as Hr.
  { subst r2. split; [by rewrite apply_kind|]. intros k. unfold together. rewrite Hp. cbn [Room.apply]. unfold Room.apply_joined.
    rewrite admit_members. cbn [Room.participants Room.new]. rewrite lookup_empty. split; [auto|]. intros [?|[]]; done. }
  destruct (hears_together me1 me2 signals r1 r2 Hs Hr) as ([_ H1] & H2 & H3). done.
Qed.
End rooms.

Lemma voice_ends_agree_witness :
  let joined members := Signal.Joined members None None None None None in
  let toggle m := Signal.Presence m PresenceState.On (Some ToggleKind.Mic) None in
  let r1 := hears Casemapping.Ascii "al" [joined [lit "al"]; toggle "al"; Signal.Presence "Bo" PresenceState.Joined None None] (Room.new "^v") in
  let r2 := Room.apply "bo" (joined [lit "Al"; lit "bo"]) Casemapping.Ascii (Room.new "^v") in
  let since := [toggle "bo"; Signal.SetRole "AL" Role.Viewer] in
  shows FMic r1 "al" ≠ shows FMic r2 "al"
  ∧ shows FMic (hears Casemapping.Ascii "al" since r1) "bo" = shows FMic (hears Casemapping.Ascii "bo" since r2) "bo"
  ∧ shows FRole (hears Casemapping.Ascii "al" since r1) "al" = shows FRole (hears Casemapping.Ascii "bo" since r2) "al".
Proof.
  intros joined toggle r1 r2 since. split; [by vm_compute|].
  destruct (voice_ends_agree Casemapping.Ascii "al" "bo" r1 "^v" [lit "Al"; lit "bo"] None None None None None since) as (_ & Ha & _).
  - done.
  - intros k. rewrite <- elem_of_dom.
    assert (dom (Room.participants r1) = list_to_set (Casemapping.fold Casemapping.Ascii <$> [lit "Al"; lit "bo"])) as -> by by vm_compute.
    by rewrite elem_of_list_to_set.
  - repeat constructor.
  - split; [apply (Ha (toggle "bo") "bo" FMic)|apply (Ha (Signal.SetRole "AL" Role.Viewer) "AL" FRole)]; try done.
    + by left.
    + by right; left.
Defined.
