(* ===== verification/Scram.v ===== *)
(** * SCRAM-SHA-256 (src/crates/obby-client/src/scram.rs)

    The hash and the keyed hash come from crates that are not part of the repository:
    [Crypto] names them and [CryptoLaws] is what their documentation says of their
    results. [Server] is the other side of the exchange, after RFC 5802, which the
    theorems run against the client. *)
From S2P Require Import Prelude Utf8 Base64.

Class Crypto := {
  sha256 : list octet → list octet;
  (** [new_from_slice], [update] and [finalize]; [None] for a key length it rejects. *)
  hmac_sha256 : list octet → list octet → option (list octet);
}.
Class CryptoLaws (C : Crypto) : Prop := {
  hmac_any_key key message : is_Some (hmac_sha256 key message);
  hmac_bytes key message mac : hmac_sha256 key message = Some mac → length mac = 32%nat ∧ octets mac;
}.

Module Scram.
(* obby-client/src/scram.rs 17-24 constants *)
Definition NONCE_LEN : nat := 24.
Definition MAX_ITERATIONS : Z := 1000000.

(* obby-client/src/scram.rs 26-41 ScramError *)
Inductive Error := Malformed | NonceMismatch | TooManyIterations | BadSalt | ServerProofInvalid.
#[global] Instance error_eq_dec : EqDecision Error.
Proof. solve_decision. Defined.

(* obby-client/src/scram.rs 43-55 Scram *)
Record t := mk {
  client_first_bare : text; client_nonce : text; password : text;
  server_key : option (list octet); auth_message : option text;
}.

(* obby-client/src/scram.rs 186-200 sanitise_nonce *)
Definition sanitise_nonce (nonce : text) : text :=
  let cleaned := take NONCE_LEN (filter (λ c, is_ascii_alphanumeric c = true) nonce) in
  match cleaned with [] => "0" | _ => cleaned end.

(** [str::replace] of one character. *)
Definition replace (c : char) (by_ : text) (t : text) : text := t ≫= λ d, if decide (d = c) then by_ else [d].
(* obby-client/src/scram.rs 202-208 saslprep *)
Definition saslprep (username : text) : text := replace chCOMMA "=2C" (replace chEQ "=3D" username).

(* obby-client/src/scram.rs 68-83 Scram::new *)
Definition new (username password nonce : text) : t :=
  let client_nonce := sanitise_nonce nonce in
  mk (lit "n=" ++ saslprep username ++ lit ",r=" ++ client_nonce) client_nonce password None None.

(* obby-client/src/scram.rs 85-88 Scram::client_first *)
Definition client_first (s : t) : list octet := encode (lit "n,," ++ client_first_bare s).

(* obby-client/src/scram.rs 179-184 field *)
Definition field (message : text) (key : char) : option text :=
  head (omap (λ part, rest ← strip_prefix_char key part; strip_prefix_char chEQ rest) (split_char chCOMMA message)).

Definition xor (a b : list octet) : list octet := zip_with N.lxor a b.

(* obby-client/src/scram.rs 210-219 constant_time_eq *)
Definition constant_time_eq (a b : list octet) : bool :=
  if decide (length a ≠ length b) then false
  else bool_decide (foldl (λ difference p, N.lor difference (N.lxor p.1 p.2)) 0%N (zip a b) = 0%N).

Section crypto.
Context `{Crypto, Base64}.

(* obby-client/src/scram.rs 156-164 hmac *)
Definition hmac (key message : list octet) : option (list octet) := hmac_sha256 key message.

(** One more round of the stretching. *)
(* obby-client/src/scram.rs 170-175 hi *)
Definition hi_round (password : list octet) (st : option (list octet * list octet))
    : option (list octet * list octet) :=
  '(previous, result) ← st;
  previous ← hmac password previous;
  Some (previous, xor result previous).
(* obby-client/src/scram.rs 166-177 hi *)
Definition hi (password salt : list octet) (iterations : Z) : option (list octet) :=
  first ← hmac password (salt ++ [0; 0; 0; 1]%N);
  snd <$> N.iter (Z.to_N (iterations - 1)) (hi_round password) (Some (first, first)).

Definition or_error {A} (e : Error) (o : option A) : Error + A := match o with Some x => inr x | None => inl e end.

(** What the proof is computed from. *)
(* obby-client/src/scram.rs 92-108 Scram::client_final *)
Definition read_challenge (s : t) (server_first : list octet) : Error + (text * text * list octet * Z) :=
  match or_error Malformed (from_utf8 server_first) with
  | inl e => inl e
  | inr server_first =>
      match or_error Malformed (field server_first 114%N), or_error Malformed (field server_first 115%N),
            or_error Malformed (i ← field server_first 105%N; parse_u32 i) with
      | inr nonce, inr salt, inr iterations =>
          if negb (starts_with (client_nonce s) nonce) || bool_decide (nonce = client_nonce s) then inl NonceMismatch
          else if decide (iterations = 0 ∨ MAX_ITERATIONS < iterations) then inl TooManyIterations
          else match decode64 salt with
               | Some salt => inr (server_first, nonce, salt, iterations)
               | None => inl BadSalt
               end
      | _, _, _ => inl Malformed
      end
  end.

(* obby-client/src/scram.rs 118-122 Scram::client_final *)
Definition the_auth_message (s : t) (server_first nonce : text) : text :=
  client_first_bare s ++ chCOMMA :: server_first ++ chCOMMA :: lit "c=biws,r=" ++ nonce.

(** The key is kept as soon as it is known, so a later failure leaves it set. *)
(* obby-client/src/scram.rs 90-134 Scram::client_final *)
Definition client_final (s : t) (server_first : list octet) : (Error + list octet) * t :=
  match read_challenge s server_first with
  | inl e => (inl e, s)
  | inr (server_first, nonce, salt, iterations) =>
      match salted ← hi (encode (password s)) salt iterations;
            client_key ← hmac salted (encode "Client Key");
            server_key ← hmac salted (encode "Server Key");
            Some (client_key, server_key) with
      | None => (inl Malformed, s)
      | Some (client_key, server_key) =>
          let stored_key := sha256 client_key in
          let message := the_auth_message s server_first nonce in
          let s := mk (client_first_bare s) (client_nonce s) (password s) (Some server_key) (auth_message s) in
          match hmac stored_key (encode message) with
          | None => (inl Malformed, s)
          | Some client_signature =>
              let proof := xor client_key client_signature in
              (inr (encode (lit "c=biws,r=" ++ nonce ++ lit ",p=" ++ encode64 proof)),
               mk (client_first_bare s) (client_nonce s) (password s) (Some server_key) (Some message))
          end
      end
  end.

(* obby-client/src/scram.rs 136-153 Scram::verify *)
Definition verify (s : t) (server_final : list octet) : Error + unit :=
  match final ← from_utf8 server_final; field final 118%N, server_key s, auth_message s with
  | Some signature, Some server_key, Some auth_message =>
      match hmac server_key (encode auth_message), decode64 signature with
      | Some expected, Some given =>
          if constant_time_eq expected given then inr () else inl ServerProofInvalid
      | _, _ => inl Malformed
      end
  | _, _, _ => inl Malformed
  end.
End crypto.
End Scram.

(** ** The building blocks *)

Lemma ct_fold_zero (l : list (N * N)) acc :
  foldl (λ d p, N.lor d (N.lxor p.1 p.2)) acc l = 0%N ↔ acc = 0%N ∧ Forall (λ p, p.1 = p.2) l.
Proof.
  revert acc. induction l as [|[x y] l IH]; intros acc; simpl.
  - split; [by intros ->|by intros [-> _]].
  - rewrite IH, N.lor_eq_0_iff, N.lxor_eq_0_iff, Forall_cons. simpl. tauto.
Qed.

(** Constant time or not, the comparison is equality. *)
Lemma constant_time_eq_iff a b : Scram.constant_time_eq a b = true ↔ a = b.
Proof.
  unfold Scram.constant_time_eq. case_decide as Hl; [split; [done|by intros ->]|].
  rewrite bool_decide_eq_true, ct_fold_zero. split.
  - intros [_ Hall]. revert b Hl Hall. induction a as [|x a IH]; intros [|y b] Hl Hall; simplify_eq/=; [done|].
    apply Forall_cons in Hall as [Hxy Hall]. simpl in Hxy. subst. f_equal. by apply IH.
  - intros ->. split; [done|]. clear Hl. induction b as [|y b IH]; [constructor|]. by constructor.
Qed.

Lemma xor_cancel a b : length a = length b → Scram.xor (Scram.xor a b) b = a.
Proof.
  revert b. induction a as [|x a IH]; intros [|y b] Hl; simplify_eq/=; [done|].
  unfold Scram.xor in *. simpl. rewrite N.lxor_assoc, N.lxor_nilpotent, N.lxor_0_r. f_equal. by apply IH.
Qed.

Lemma lxor_bytes a b : (a < 256)%N → (b < 256)%N → (N.lxor a b < 256)%N.
Proof.
  intros Ha Hb. destruct (decide (N.lxor a b = 0%N)) as [-> |Hne]; [lia|].
  change 256%N with (2 ^ 8)%N. apply N.log2_lt_pow2; [lia|].
  eapply N.le_lt_trans; [apply N.log2_lxor|].
  assert (∀ x, (x < 256)%N → (N.log2 x < 8)%N) as Hl.
  { intros x Hx. destruct (decide (x = 0%N)) as [-> |]; [done|]. apply N.log2_lt_pow2; [lia|done]. }
  apply N.max_lub_lt; by apply Hl.
Qed.

Lemma xor_bytes a b : octets a → octets b → octets (Scram.xor a b).
Proof.
  intros Ha. revert b. unfold Scram.xor. induction Ha as [|x a Hx _ IH]; intros b Hb; [constructor|].
  destruct Hb as [|y b Hy Hb]; [constructor|]. simpl. constructor; [by apply lxor_bytes|by apply IH].
Qed.

(** *** Fields *)

Lemma field_here k v rest :
  chCOMMA ∉ v → k ≠ chCOMMA → Scram.field (k :: chEQ :: v ++ chCOMMA :: rest) k = Some v.
Proof.
  intros Hv Hk. unfold Scram.field.
  change (k :: chEQ :: v ++ chCOMMA :: rest) with ((k :: chEQ :: v) ++ chCOMMA :: rest).
  rewrite split_char_app by (rewrite !not_elem_of_cons; done || (split_and!; done)). simpl. by rewrite !decide_True.
Qed.

Lemma field_last k v : chCOMMA ∉ v → k ≠ chCOMMA → Scram.field (k :: chEQ :: v) k = Some v.
Proof.
  intros Hv Hk. unfold Scram.field.
  rewrite split_char_nosep by (rewrite !not_elem_of_cons; split_and!; done). simpl. by rewrite !decide_True.
Qed.

Lemma field_skip k d v rest :
  chCOMMA ∉ v → d ≠ chCOMMA → k ≠ d → Scram.field (d :: v ++ chCOMMA :: rest) k = Scram.field rest k.
Proof.
  intros Hv Hd Hk. unfold Scram.field.
  change (d :: v ++ chCOMMA :: rest) with ((d :: v) ++ chCOMMA :: rest).
  rewrite split_char_app by (rewrite not_elem_of_cons; done). simpl. by rewrite decide_False.
Qed.

Lemma sanitise_nonce_alnum nonce :
  Forall (λ c, is_ascii_alphanumeric c = true) (Scram.sanitise_nonce nonce)
  ∧ Scram.sanitise_nonce nonce ≠ [] ∧ (length (Scram.sanitise_nonce nonce) <= Scram.NONCE_LEN)%nat.
Proof.
  unfold Scram.sanitise_nonce.
  set (l := take Scram.NONCE_LEN (filter (λ c, is_ascii_alphanumeric c = true) nonce)).
  assert (Forall (λ c, is_ascii_alphanumeric c = true) l) as Hl.
  { apply Forall_take, Forall_forall. by intros c [Hc _]%list_elem_of_filter. }
  assert (length l <= Scram.NONCE_LEN)%nat as Hlen by (unfold l; rewrite length_take; lia).
  destruct l; [|done]. split_and!; [by repeat constructor|done|]. simpl. unfold Scram.NONCE_LEN. lia.
Qed.

Lemma alnum_no_comma t : Forall (λ c, is_ascii_alphanumeric c = true) t → chCOMMA ∉ t.
Proof. rewrite Forall_forall. intros H Hin. by specialize (H _ Hin). Qed.

Lemma replace_notin c by_ t : c ∉ by_ → c ∉ Scram.replace c by_ t.
Proof.
  intros H. unfold Scram.replace. intros (d & Hd & _)%list_elem_of_bind. case_decide; [done|].
  apply list_elem_of_singleton in Hd. congruence.
Qed.

Lemma saslprep_no_comma u : chCOMMA ∉ Scram.saslprep u.
Proof. apply replace_notin. set_solver. Qed.

(** What RFC 5802 has the server undo. *)
Fixpoint unprep (t : text) : text :=
  match t with
  | c :: rest =>
      match strip_prefix "=2C" t, strip_prefix "=3D" t with
      | Some _, _ => chCOMMA :: match rest with _ :: _ :: r => unprep r | _ => [] end
      | None, Some _ => chEQ :: match rest with _ :: _ :: r => unprep r | _ => [] end
      | None, None => c :: unprep rest
      end
  | [] => []
  end.

Lemma saslprep_cons c u : Scram.saslprep (c :: u)
  = (if decide (c = chEQ) then lit "=3D" else if decide (c = chCOMMA) then lit "=2C" else [c]) ++ Scram.saslprep u.
Proof.
  unfold Scram.saslprep, Scram.replace. rewrite bind_cons, bind_app. f_equal.
  case_decide; [done|]. simpl. by case_decide.
Qed.

Lemma unprep_saslprep u : unprep (Scram.saslprep u) = u.
Proof.
  induction u as [|c u IH]; [done|]. rewrite saslprep_cons.
  case_decide as H1; [subst; simpl; by rewrite IH|]. case_decide as H2; [subst; simpl; by rewrite IH|].
  cbn [app unprep]. cbn [strip_prefix lit list_ascii_of_string fmap list_fmap]. 
  rewrite !decide_False by (intros E; apply H1; by rewrite <- E). by rewrite IH.
Qed.

(** ** The first message *)

(** A username or nonce can not rewrite the message around it, whatever it holds: the
    server reads back exactly the username, and a nonce that is not empty, of letters
    and digits only and at most 24 long. *)
Theorem scram_first_message_unforgeable (username password nonce : text) :
  let s := Scram.new username password nonce in
  (name ← Scram.field (Scram.client_first_bare s) 110%N; Some (unprep name)) = Some username
  ∧ Scram.field (Scram.client_first_bare s) 114%N = Some (Scram.client_nonce s)
  ∧ Forall (λ c, is_ascii_alphanumeric c = true) (Scram.client_nonce s)
  ∧ (0 < length (Scram.client_nonce s) <= Scram.NONCE_LEN)%nat.
Proof.
  cbn [Scram.new Scram.client_first_bare Scram.client_nonce].
  destruct (sanitise_nonce_alnum nonce) as (H1 & H2 & H3).
  assert (lit "n=" ++ Scram.saslprep username ++ lit ",r=" ++ Scram.sanitise_nonce nonce
    = 110%N :: chEQ :: Scram.saslprep username ++ chCOMMA :: 114%N :: chEQ :: Scram.sanitise_nonce nonce) as -> by done.
  split_and!; [| |done|destruct (Scram.sanitise_nonce nonce); simpl; [done|lia]|done].
  - rewrite field_here by (try apply saslprep_no_comma; done). simpl. by rewrite unprep_saslprep.
  - change (110%N :: chEQ :: Scram.saslprep username ++ chCOMMA :: 114%N :: chEQ :: Scram.sanitise_nonce nonce)
      with (110%N :: (chEQ :: Scram.saslprep username) ++ chCOMMA :: 114%N :: chEQ :: Scram.sanitise_nonce nonce).
    rewrite field_skip; [|rewrite not_elem_of_cons; split; [done|apply saslprep_no_comma]|done|done].
    apply field_last; [by apply alnum_no_comma|done].
Qed.

Section exchange.
Context `{C : Crypto, HC : !CryptoLaws C} {B : Base64} {HB : Base64Laws B}.

Lemma hmac_some key message :
  ∃ mac, Scram.hmac key message = Some mac ∧ length mac = 32%nat ∧ octets mac.
Proof.
  destruct (hmac_any_key key message) as [mac Hm]. exists mac. split; [exact Hm|]. by eapply hmac_bytes.
Qed.

Lemma hi_some password salt iterations : ∃ salted, Scram.hi password salt iterations = Some salted.
Proof.
  unfold Scram.hi. destruct (hmac_some password (salt ++ [0; 0; 0; 1]%N)) as (u & -> & _). simpl.
  assert (∀ n, ∃ st, N.iter n (Scram.hi_round password) (Some (u, u)) = Some st) as Hn.
  { intros n. apply N.peano_ind with (n := n); [by eexists|]. intros m [[p q] IH]. rewrite N.iter_succ, IH. simpl.
    destruct (hmac_some password p) as (v & -> & _). simpl. by eexists. }
  destruct (Hn (Z.to_N (iterations - 1))) as [st ->]. simpl. by eexists.
Qed.

(** [Hi] as RFC 5802 writes it: the blocks, each the keyed hash of the one before, and the exclusive or of the first of
    them up to this one. *)
Fixpoint block (password salt : list octet) (i : nat) : option (list octet) :=
  match i with
  | O => Scram.hmac password (salt ++ [0; 0; 0; 1]%N)
  | S i => u ← block password salt i; Scram.hmac password u
  end.
Fixpoint stretched (password salt : list octet) (i : nat) : option (list octet) :=
  match i with
  | O => block password salt 0
  | S i => x ← stretched password salt i; u ← block password salt (S i); Some (Scram.xor x u)
  end.

Lemma hi_stretched password salt iterations :
  Scram.hi password salt iterations = stretched password salt (Z.to_nat (iterations - 1)).
Proof.
  unfold Scram.hi. replace (Z.to_nat (iterations - 1)) with (N.to_nat (Z.to_N (iterations - 1))) by lia.
  change (Scram.hmac password (salt ++ [0; 0; 0; 1]%N)) with (block password salt 0).
  destruct (block password salt 0) as [first|] eqn:E; cbn [mbind option_bind].
  - assert (∀ n, N.iter n (Scram.hi_round password) (Some (first, first)) =
      (u ← block password salt (N.to_nat n); x ← stretched password salt (N.to_nat n); Some (u, x))) as ->.
    { intros n. induction n as [|n IH] using N.peano_ind; [change (N.to_nat 0) with 0%nat; cbn [stretched]; by rewrite E|].
      rewrite N.iter_succ, IH, N2Nat.inj_succ. cbn [block stretched]. unfold Scram.hi_round.
      destruct (block password salt (N.to_nat n)) as [u|]; cbn; [|by destruct (stretched _ _ _)].
      destruct (stretched _ _ _) as [x|]; cbn; by destruct (Scram.hmac password u). }
    assert (∀ n, is_Some (stretched password salt n) → is_Some (block password salt n)) as Hb.
    { intros [|n]; [done|]. cbn [stretched]. destruct (stretched _ _ n); [|by intros []]. cbn.
      by destruct (u ← block password salt n; _). }
    specialize (Hb (N.to_nat (Z.to_N (iterations - 1)))). revert Hb. destruct (stretched _ _ _) as [x|]; intros Hb.
    + by destruct (Hb (mk_is_Some _ _ eq_refl)) as [u ->].
    + clear E. by destruct (block _ _ _).
  - assert (∀ n, stretched password salt n = None) as ->; [|done].
    induction n as [|n IH]; [done|]. cbn [stretched]. by rewrite IH.
Qed.

(** A server that knows the password, after RFC 5802. What it signs with its own key
    it signs only for a client whose proof recovers the stored key. *)
Definition server_final (password : text) (salt : list octet) (iterations : Z) (full_nonce first_bare server_first : text)
    (client_final : list octet) : option text :=
  final ← from_utf8 client_final;
  nonce ← Scram.field final 114%N;
  p ← Scram.field final 112%N;
  proof ← decode64 p;
  salted ← stretched (encode password) salt (Z.to_nat (iterations - 1));
  client_key ← Scram.hmac salted (encode "Client Key");
  server_key ← Scram.hmac salted (encode "Server Key");
  let auth := first_bare ++ chCOMMA :: server_first ++ chCOMMA :: lit "c=biws,r=" ++ nonce in
  client_signature ← Scram.hmac (sha256 client_key) (encode auth);
  signature ← Scram.hmac server_key (encode auth);
  if decide (nonce = full_nonce ∧ sha256 (Scram.xor proof client_signature) = sha256 client_key)
  then Some (lit "v=" ++ encode64 signature) else None.

Definition server_first (full_nonce : text) (salt : list octet) (iterations : Z) : text :=
  lit "r=" ++ full_nonce ++ lit ",s=" ++ encode64 salt ++ lit ",i=" ++ show_Z iterations.

Lemma base64_no_comma bs : chCOMMA ∉ encode64 bs.
Proof.
  pose proof (encode64_alphabet bs) as H. rewrite Forall_forall in H. intros Hin. by specialize (H _ Hin).
Qed.
Lemma digits_no_comma n : 0 <= n → chCOMMA ∉ show_Z n.
Proof. intros Hn. rewrite show_Z_nonneg by done. eapply digits_notin; [done|apply show_N_digits]. Qed.

Lemma server_first_fields full_nonce salt iterations :
  chCOMMA ∉ full_nonce → 0 <= iterations →
  Scram.field (server_first full_nonce salt iterations) 114%N = Some full_nonce
  ∧ Scram.field (server_first full_nonce salt iterations) 115%N = Some (encode64 salt)
  ∧ Scram.field (server_first full_nonce salt iterations) 105%N = Some (show_Z iterations).
Proof.
  intros Hn Hi. unfold server_first.
  assert (lit "r=" ++ full_nonce ++ lit ",s=" ++ encode64 salt ++ lit ",i=" ++ show_Z iterations
    = 114%N :: (chEQ :: full_nonce) ++ chCOMMA :: 115%N :: (chEQ :: encode64 salt) ++ chCOMMA :: 105%N :: chEQ :: show_Z iterations)
    as -> by done.
  assert (∀ v, chCOMMA ∉ v → chCOMMA ∉ chEQ :: v) as Heq by (intros v Hv; rewrite not_elem_of_cons; done).
  pose proof (base64_no_comma salt). pose proof (digits_no_comma _ Hi).
  split_and!.
  - by apply field_here.
  - rewrite field_skip by (auto; done). by apply field_here.
  - rewrite !field_skip by (auto; done). by apply field_last.
Qed.

Lemma valid_alphabet (P : char → bool) t :
  (∀ c, P c = true → (c < 128)%N) → Forall (λ c, P c = true) t → valid_text t.
Proof.
  intros HP H. eapply Forall_impl; [exact H|]. intros c Hc%HP. unfold is_scalar.
  apply orb_true_iff. left. apply N.ltb_lt. lia.
Qed.

Lemma valid_lit (t : text) : forallb is_scalar t = true → valid_text t.
Proof. rewrite forallb_forall, Forall_forall. intros H c Hc. apply H. by apply list_elem_of_In. Qed.

Lemma valid_base64 bs : valid_text (encode64 bs).
Proof.
  eapply valid_alphabet; [|apply encode64_alphabet]. intros c. unfold is_base64_char, is_ascii_alphanumeric,
    is_ascii_digit, is_ascii_upper, is_ascii_lower. rewrite !orb_true_iff, !andb_true_iff, !N.leb_le, bool_decide_eq_true.
  set_unfold. lia.
Qed.
Lemma valid_show n : 0 <= n → valid_text (show_Z n).
Proof.
  intros Hn. rewrite show_Z_nonneg by done. eapply valid_alphabet; [|apply show_N_digits].
  intros c. unfold is_ascii_digit. rewrite andb_true_iff, !N.leb_le. lia.
Qed.

(** The client's answer to a challenge of the server above. *)
Lemma client_final_ok s password salt iterations snonce :
  Scram.password s = password → octets salt → 0 < iterations <= Scram.MAX_ITERATIONS →
  snonce ≠ [] → valid_text (Scram.client_nonce s ++ snonce) → chCOMMA ∉ Scram.client_nonce s ++ snonce →
  let full := Scram.client_nonce s ++ snonce in
  let first := server_first full salt iterations in
  let auth := Scram.the_auth_message s first full in
  ∃ salted ck sk sig,
    Scram.hi (encode password) salt iterations = Some salted
    ∧ Scram.hmac salted (encode "Client Key") = Some ck ∧ Scram.hmac salted (encode "Server Key") = Some sk
    ∧ Scram.hmac (sha256 ck) (encode auth) = Some sig
    ∧ length ck = length sig ∧ octets ck ∧ octets sig
    ∧ Scram.client_final s (encode first)
      = (inr (encode (lit "c=biws,r=" ++ full ++ lit ",p=" ++ encode64 (Scram.xor ck sig))),
         Scram.mk (Scram.client_first_bare s) (Scram.client_nonce s) password (Some sk) (Some auth)).
Proof.
  intros <- Hsalt Hit Hne Hvalid Hcomma full first auth.
  destruct (hi_some (encode (Scram.password s)) salt iterations) as [salted Hhi].
  destruct (hmac_some salted (encode "Client Key")) as (ck & Hck & Lck & Ock).
  destruct (hmac_some salted (encode "Server Key")) as (sk & Hsk & _).
  destruct (hmac_some (sha256 ck) (encode auth)) as (sig & Hsig & Lsig & Osig).
  exists salted, ck, sk, sig. split_and!; [done..|congruence|done|done|].
  unfold Scram.client_final, Scram.read_challenge.
  assert (valid_text first) as Hvf.
  { unfold first, server_first. 
    apply Forall_app; split; [by apply valid_lit|]. apply Forall_app; split; [done|].
    apply Forall_app; split; [by apply valid_lit|]. apply Forall_app; split; [apply valid_base64|].
    apply Forall_app; split; [by apply valid_lit|]. apply valid_show. lia. }
  rewrite from_utf8_encode by done. cbn [Scram.or_error].
  destruct (server_first_fields full salt iterations Hcomma) as (F1 & F2 & F3); [lia|].
  fold first in F1, F2, F3. rewrite F1, F2, F3. cbn [mbind option_bind].
  rewrite (parse_show_Z u32_max) by (unfold Scram.MAX_ITERATIONS, u32_max in *; lia). cbn [Scram.or_error].
  assert (starts_with (Scram.client_nonce s) full = true) as ->.
  { unfold starts_with. apply bool_decide_eq_true. exists snonce. by apply strip_prefix_Some. }
  rewrite bool_decide_eq_false_2 by (unfold full; intros E; by apply app_inv_self_l in E || (apply (f_equal length) in E; rewrite length_app in E; destruct snonce; simpl in *; [done|lia])).
  cbn [negb orb]. rewrite decide_False by lia. rewrite decode_encode64 by done.
  cbv beta iota. rewrite Hhi. cbn [mbind option_bind]. rewrite Hck. cbn [mbind option_bind]. rewrite Hsk.
  cbn [mbind option_bind]. fold auth. rewrite Hsig. done.
Qed.

Lemma read_challenge_spec s challenge first nonce salt iterations :
  Scram.read_challenge s challenge = inr (first, nonce, salt, iterations) →
  from_utf8 challenge = Some first ∧ Scram.field first 114%N = Some nonce
  ∧ (t ← Scram.field first 115%N; decode64 t) = Some salt ∧ (t ← Scram.field first 105%N; parse_u32 t) = Some iterations
  ∧ (∃ more, nonce = Scram.client_nonce s ++ more ∧ more ≠ []) ∧ 1 <= iterations <= Scram.MAX_ITERATIONS.
Proof.
  unfold Scram.read_challenge. destruct (from_utf8 challenge) as [t|]; [|done]. cbn [Scram.or_error].
  destruct (Scram.field t 114%N) as [n|] eqn:En; [|done]. destruct (Scram.field t 115%N) as [sl|] eqn:Es; [|done].
  destruct (i ← Scram.field t 105%N; parse_u32 i) as [i|] eqn:Ei; [|done]. cbn [Scram.or_error].
  destruct (negb (starts_with _ n) || _) eqn:Eb; [done|]. destruct (decide (i = 0 ∨ Scram.MAX_ITERATIONS < i)) as [Hi|Hi]; [discriminate|].
  destruct (decode64 sl) as [salt'|] eqn:Ed; [|done]. intros ?; simplify_eq.
  apply orb_false_iff in Eb as [E1%negb_false_iff E2%bool_decide_eq_false].
  unfold starts_with in E1. apply bool_decide_eq_true in E1 as [more Hm]. apply strip_prefix_Some in Hm as ->.
  split_and!; [done|done|by rewrite Es|done| | |lia].
  - exists more. split; [done|]. intros ->. by rewrite app_nil_r in E2.
  - apply bind_Some in Ei as (x & _ & Ei). apply parse_u10_bound in Ei. lia.
Qed.

Lemma verify_spec s server_key auth_message mac bytes :
  Scram.server_key s = Some server_key → Scram.auth_message s = Some auth_message →
  Scram.hmac server_key (encode auth_message) = Some mac →
  Scram.verify s bytes = inr () ↔
  ∃ final signature, from_utf8 bytes = Some final ∧ Scram.field final 118%N = Some signature
    ∧ decode64 signature = Some mac.
Proof.
  intros Hk Ha Hm. unfold Scram.verify. rewrite Hk, Ha.
  destruct (from_utf8 bytes) as [final|]; [|split; [done|intros (? & ? & ? & _); done]]. cbn [mbind option_bind].
  destruct (Scram.field final 118%N) as [signature|] eqn:Ef;
    [|split; [done|intros (? & ? & ? & E & _); simplify_eq; congruence]].
  rewrite Hm. destruct (decode64 signature) as [given|] eqn:Eg;
    [|split; [done|intros (? & ? & ? & E & E'); simplify_eq; congruence]].
  pose proof (constant_time_eq_iff mac given) as Hct. destruct (Scram.constant_time_eq mac given).
  - split; [|done]. intros _. exists final, signature. split_and!; [done..|]. rewrite Eg. f_equal. symmetry. by apply Hct.
  - split; [done|]. intros (? & ? & ? & E & E'). simplify_eq. by specialize (proj2 Hct eq_refl).
Qed.
End exchange.

(** C21. The exchange completes with any server that knows the password, whatever salt,
    iteration count within the bound and nonce it chooses: it accepts the client's
    proof, and the client accepts what it signs in return. (A nonce is any text that is
    not empty and has no comma in it, which RFC 5802 forbids one.) *)
Theorem scram_exchange_completes `{C : Crypto, HC : !CryptoLaws C} {B : Base64} {HB : Base64Laws B}
    (username password nonce snonce : text) (salt : list octet) (iterations : Z) :
  octets salt → 0 < iterations <= Scram.MAX_ITERATIONS →
  snonce ≠ [] → valid_text snonce → chCOMMA ∉ snonce →
  let s := Scram.new username password nonce in
  let full := Scram.client_nonce s ++ snonce in
  let first := server_first full salt iterations in
  ∃ answer s' final,
    Scram.client_final s (encode first) = (inr answer, s')
    ∧ server_final password salt iterations full (Scram.client_first_bare s) first answer = Some final
    ∧ Scram.verify s' (encode final) = inr ().
Proof.
  intros Hsalt Hit Hne Hsv Hsc s full first.
  destruct (sanitise_nonce_alnum nonce) as (Hn & _ & _).
  assert (valid_text full) as Hvalid.
  { apply Forall_app. split; [|done]. eapply valid_alphabet; [|exact Hn]. intros c. unfold is_ascii_alphanumeric,
      is_ascii_digit, is_ascii_upper, is_ascii_lower. rewrite !orb_true_iff, !andb_true_iff, !N.leb_le. lia. }
  assert (chCOMMA ∉ full) as Hcomma by (apply not_elem_of_app; split; [by apply alnum_no_comma|done]).
  destruct (client_final_ok s password salt iterations snonce eq_refl Hsalt Hit Hne Hvalid Hcomma)
    as (salted & ck & sk & sig & Hhi & Hck & Hsk & Hsig & Hlen & Ock & Osig & Hfinal).
  fold full first in Hfinal, Hsig.
  destruct (hmac_some sk (encode (Scram.the_auth_message s first full))) as (mac & Hmac & _ & Omac).
  eexists _, _, (lit "v=" ++ encode64 mac). split; [exact Hfinal|]. split.
  - unfold server_final. rewrite from_utf8_encode.
    2: { apply Forall_app; split; [by apply valid_lit|]. apply Forall_app; split; [done|].
         apply Forall_app; split; [by apply valid_lit|]. apply valid_base64. }
    cbn [mbind option_bind].
    assert (∀ p, lit "c=biws,r=" ++ full ++ lit ",p=" ++ p
      = 99%N :: (chEQ :: lit "biws") ++ chCOMMA :: 114%N :: (chEQ :: full) ++ chCOMMA :: 112%N :: chEQ :: p) as Es by done.
    assert (chCOMMA ∉ chEQ :: lit "biws") as H1 by (apply (bool_decide_unpack _); vm_compute; exact I).
    assert (chCOMMA ∉ chEQ :: full) as H2 by (rewrite not_elem_of_cons; done).
    set (p64 := encode64 (Scram.xor ck sig)).
    assert (Scram.field (lit "c=biws,r=" ++ full ++ lit ",p=" ++ p64) 114%N = Some full) as F1.
    { rewrite Es, field_skip by done. by apply field_here. }
    assert (Scram.field (lit "c=biws,r=" ++ full ++ lit ",p=" ++ p64) 112%N = Some p64) as F2.
    { rewrite Es, field_skip by done. rewrite field_skip by done. apply field_last; [apply base64_no_comma|done]. }
    rewrite F1, F2. cbn [mbind option_bind]. unfold p64.
    rewrite decode_encode64 by by apply xor_bytes. cbn [mbind option_bind].
    rewrite <- hi_stretched, Hhi. cbn [mbind option_bind]. rewrite Hck. cbn [mbind option_bind]. rewrite Hsk. cbn [mbind option_bind].
    change (Scram.client_first_bare s ++ chCOMMA :: first ++ chCOMMA :: lit "c=biws,r=" ++ full)
      with (Scram.the_auth_message s first full).
    rewrite Hsig. cbn [mbind option_bind]. rewrite Hmac. cbn [mbind option_bind].
    rewrite xor_cancel by done. by rewrite decide_True.
  - eapply verify_spec; [done|done|exact Hmac|]. exists (lit "v=" ++ encode64 mac), (encode64 mac). split_and!.
    + apply from_utf8_encode. apply Forall_app; split; [by apply valid_lit|apply valid_base64].
    + change (lit "v=" ++ encode64 mac) with (118%N :: chEQ :: encode64 mac). apply field_last; [apply base64_no_comma|done].
    + by apply decode_encode64.
Qed.

(** A stand-in for the hash, to show the laws can hold. *)
Definition toy_mac (key message : list octet) : list octet :=
  replicate 32 (foldl (λ a b, (3 * a + b + 1) mod 256)%N 7%N (key ++ message)).
Definition toy_crypto : Crypto := {| sha256 := toy_mac []; hmac_sha256 := λ k m, Some (toy_mac k m) |}.
#[local] Instance toy_laws : CryptoLaws toy_crypto.
Proof.
  split; [by eexists|]. intros key message mac ?; simplify_eq/=. split; [done|].
  apply Forall_replicate. generalize (key ++ message). intros l. induction l as [|x l _] using rev_ind; [done|].
  rewrite foldl_app. simpl. by apply N.mod_lt.
Qed.

Lemma scram_exchange_completes_witness :
  let s := Scram.new "a,b=c" "pw" "n0nce" in
  let first := @server_first standard (Scram.client_nonce s ++ lit "%X/+=)$") [1; 2; 3]%N 5 in
  ∃ answer s' final,
    @Scram.client_final toy_crypto standard s (encode first) = (inr answer, s')
    ∧ @server_final toy_crypto standard "pw" [1; 2; 3]%N 5 (Scram.client_nonce s ++ lit "%X/+=)$")
        (Scram.client_first_bare s) first answer = Some final
    ∧ @Scram.verify toy_crypto standard s' (encode final) = inr ().
Proof.
  apply (@scram_exchange_completes toy_crypto toy_laws standard standard_laws "a,b=c" "pw" "n0nce" "%X/+=)$" [1; 2; 3]%N 5).
  - repeat constructor.
  - unfold Scram.MAX_ITERATIONS. lia.
  - discriminate.
  - by apply valid_lit.
  - apply (bool_decide_unpack _). by vm_compute.
Defined.

(** C22. A server that does not know the key is not believed. A challenge is only answered
    when it extends our own nonce and asks for one to a million rounds. After the answer
    the closing message is accepted exactly when it carries the keyed hash, under the
    server key that our password, its salt and its count give, of the whole exchange:
    our first message, the challenge as it came and the nonce agreed on. Before the
    answer nothing is accepted. *)
Theorem scram_proof_required `{C : Crypto, HC : !CryptoLaws C} {B : Base64} {HB : Base64Laws B}
    (s s' : Scram.t) (challenge answer : list octet) :
  Scram.client_final s challenge = (inr answer, s') →
  (∃ first nonce salt iterations salted key mac,
     from_utf8 challenge = Some first ∧ Scram.field first 114%N = Some nonce
     ∧ (t ← Scram.field first 115%N; decode64 t) = Some salt ∧ (t ← Scram.field first 105%N; parse_u32 t) = Some iterations
     ∧ (∃ more, nonce = Scram.client_nonce s ++ more ∧ more ≠ [])
     ∧ 1 <= iterations <= Scram.MAX_ITERATIONS
     ∧ stretched (encode (Scram.password s)) salt (Z.to_nat (iterations - 1)) = Some salted
     ∧ hmac_sha256 salted (encode "Server Key") = Some key
     ∧ hmac_sha256 key (encode (Scram.client_first_bare s ++ lit "," ++ first ++ lit ",c=biws,r=" ++ nonce)) = Some mac
     ∧ ∀ bytes, Scram.verify s' bytes = inr () ↔
         ∃ final signature, from_utf8 bytes = Some final ∧ Scram.field final 118%N = Some signature
           ∧ decode64 signature = Some mac)
  ∧ (Scram.server_key s = None → ∀ early, Scram.verify s early ≠ inr ()).
Proof.
  intros Hf. split; [|intros Hk early; unfold Scram.verify; rewrite Hk; by destruct (_ ≫= _)].
  unfold Scram.client_final in Hf. destruct (Scram.read_challenge s challenge) as [e|[[[first nonce] salt] it]] eqn:E; [done|].
  apply read_challenge_spec in E as (H1 & H2 & H3 & H4 & H5 & H6).
  destruct (salted ← Scram.hi _ _ _; _) as [[ck sk]|] eqn:Ek; [|done]. destruct (Scram.hmac (sha256 ck) _) as [sig|]; [|done].
  apply bind_Some in Ek as (salted & Hhi & Ek). apply bind_Some in Ek as (ck' & _ & Ek). apply bind_Some in Ek as (sk' & Hsk & [= <- <-]).
  simplify_eq. rewrite hi_stretched in Hhi. destruct (hmac_some sk' (encode (Scram.the_auth_message s first nonce))) as (mac & Hmac & _).
  exists first, nonce, salt, it, salted, sk', mac. split_and!; try done; [lia..|].
  intros bytes. by apply verify_spec with sk' (Scram.the_auth_message s first nonce).
Qed.

Lemma scram_proof_required_witness :
  let s := Scram.new "bob" "pw" "n0nce" in
  let r := @Scram.client_final toy_crypto standard s (encode "r=n0nceXYZ,s=AQID,i=5") in
  (∃ key mac, hmac_sha256 (Crypto := toy_crypto) key
       (encode "n=bob,r=n0nce,r=n0nceXYZ,s=AQID,i=5,c=biws,r=n0nceXYZ") = Some mac
     ∧ @Scram.verify toy_crypto standard r.2 (encode (lit "v=" ++ Standard64.encode mac)) = inr ())
  ∧ @Scram.verify toy_crypto standard s (encode "v=AAAA") ≠ inr ().
Proof.
  intros s. match goal with |- let r := ?e in _ => destruct e as [[e'|answer] s'] eqn:E end;
    [vm_compute in E; discriminate E|].
  pose proof (@scram_proof_required toy_crypto toy_laws standard standard_laws s s' _ answer E) as (H2 & H3).
  split; [|apply H3; reflexivity].
  destruct H2 as (first & nonce & salt & it & salted & key & mac & F1 & F2 & _ & _ & _ & _ & _ & _ & Hmac & Hv).
  assert (first = lit "r=n0nceXYZ,s=AQID,i=5") as -> by (vm_compute in F1; by injection F1 as <-).
  assert (nonce = lit "n0nceXYZ") as -> by (vm_compute in F2; by injection F2 as <-).
  exists key, mac. split; [exact Hmac|]. cbn [snd]. apply Hv.
  assert (octets mac) as Ho by by apply (@hmac_bytes toy_crypto toy_laws) in Hmac as [].
  exists (lit "v=" ++ Standard64.encode mac), (Standard64.encode mac).
  split_and!.
  - apply from_utf8_encode. apply Forall_app; split; [by apply valid_lit|apply (valid_base64 (HC := toy_laws) (HB := standard_laws))].
  - change (lit "v=" ++ Standard64.encode mac) with (118%N :: chEQ :: Standard64.encode mac).
    apply field_last; [apply (base64_no_comma (HB := standard_laws))|done].
  - by apply (@decode_encode64 standard standard_laws).
Defined.
