(* ===== verification/E2ee.v ===== *)
(** * End-to-end encryption (src/crates/obby-client/src/e2ee.rs)

    X3DH, the Double Ratchet, trust on first use and the session state machine. The
    primitives come from crates that are not part of the repository: [Primitives] names
    them and [PrimitivesLaws] is what their documentation says of them. Randomness comes
    from the host ([RandomSource]), as in the source. Key material is a list of octets;
    where a function mutates before it fails, the state it leaves is returned with the
    error. The wire encoding of the frames is not in this source file, nor here. *)
From S2P Require Import Prelude Utf8 Base64 Scram.

#[local] Open Scope Z_scope.

Abbreviation key := (list octet) (only parsing).

Class Primitives := {
  (** X25519: the public key of a secret, the shared secret, and whether it is contributory. *)
  x25519_public : key → key;
  x25519 : key → key → key;
  was_contributory : key → bool;
  (** Ed25519: public keys, signing, which bytes are a key or a signature, strict verification. *)
  ed25519_public : key → key;
  try_sign : key → list octet → option (list octet);
  is_verifying_key : key → bool;
  is_signature : list octet → bool;
  verify_strict : key → list octet → list octet → bool;
  (** HKDF-SHA-256 ([salt], [ikm], [info], length) and XChaCha20-Poly1305 (key, nonce, data). *)
  hkdf_expand : list octet → list octet → list octet → nat → option (list octet);
  aead_seal : key → list octet → list octet → list octet → option (list octet);
  aead_open : key → list octet → list octet → list octet → option (list octet);
}.

Class PrimitivesLaws (P : Primitives) : Prop := {
  dh_symmetric a b : x25519 a (x25519_public b) = x25519 b (x25519_public a);
  (** The key of a secret is never one of the points of small order. *)
  dh_contributory a b : was_contributory (x25519 a (x25519_public b)) = true;
  sign_verifies secret message : ∃ signature, try_sign secret message = Some signature
    ∧ is_verifying_key (ed25519_public secret) = true ∧ is_signature signature = true
    ∧ verify_strict (ed25519_public secret) message signature = true;
  hkdf_fills salt ikm info n : (n <= 255 * 32)%nat → ∃ okm, hkdf_expand salt ikm info n = Some okm ∧ length okm = n;
  seal_opens k nonce aad plaintext : ∃ ct, aead_seal k nonce aad plaintext = Some ct
    ∧ aead_open k nonce aad ct = Some plaintext;
}.

(** [RandomSource::fill_bytes] on a buffer of that length. *)
Class RandomSource (R : Type) := fill_bytes : nat → R → list octet * R.

(* obby-client/src/e2ee.rs 41-61 constants *)
Definition PROTOCOL_VERSION : Z := 1.
Definition MAX_SKIP : Z := 1000.
Definition MAX_SKIPPED_KEYS : nat := 2000.
Definition PAD_BLOCK : nat := 64.
Definition X3DH_INFO : list octet := lit "obby.world/e2ee x3dh".
Definition ROOT_INFO : list octet := lit "obby.world/e2ee root".
Definition MESSAGE_KEY_INFO : list octet := lit "obby.world/e2ee message".
Definition NONCE_INFO : list octet := lit "obby.world/e2ee nonce".

Module Fingerprint.
(* obby-client/src/e2ee.rs 223-229 Fingerprint *)
Definition t := list octet.
#[global] Instance t_eq_dec : EqDecision t := _.

(* obby-client/src/e2ee.rs 231-239 Fingerprint::of_signing_key *)
Definition of_signing_key `{Crypto} (signing_public : key) : t := take 16 (sha256 signing_public).

(** [{byte:02X}]. *)
Definition hex_upper (b : octet) : text :=
  let digit (n : N) : char := if (n <? 10)%N then (48 + n)%N else (55 + n)%N in
  [digit (b / 16); digit (b mod 16)]%N.
(* obby-client/src/e2ee.rs 241-254 Fingerprint::safety_number *)
Definition safety_number (f : t) : text := join_with chSPACE ((λ pair, pair ≫= hex_upper) <$> chunks 2 f).
End Fingerprint.

Module Error.
(* obby-client/src/e2ee.rs 63-102 Error *)
Inductive t :=
  | InvalidSignature | NonContributoryDh | Aead | Padding | TooManySkipped | CounterOverflow | NoChain
  | FingerprintChanged (previous current : Fingerprint.t) | WrongState | Fragmentation | Internal.
End Error.
Abbreviation result A := (Error.t + A)%type (only parsing).

(** [u32::checked_add]. *)
Definition checked_add_u32 (a b : Z) : option Z := if decide (a + b <= u32_max) then Some (a + b) else None.

(** ** Primitives, with their errors *)

Section primitives.
Context `{Crypto, Primitives}.
Context {R : Type} `{RandomSource R}.

(* obby-client/src/e2ee.rs 114-118 random_array *)
Definition random_array (n : nat) (rng : R) : key * R := fill_bytes n rng.
(* obby-client/src/e2ee.rs 120-124 generate_x25519_keypair *)
Definition generate_x25519_keypair (rng : R) : (key * key) * R :=
  let '(secret, rng) := random_array 32 rng in ((secret, x25519_public secret), rng).
(* obby-client/src/e2ee.rs 126-132 concat *)
Definition concat (parts : list (list octet)) : list octet := foldl app [] parts.
(* obby-client/src/e2ee.rs 134-137 hkdf_sha256 *)
Definition hkdf_sha256 (salt ikm info : list octet) (out : nat) : result (list octet) :=
  ok_or Error.Internal (hkdf_expand salt ikm info out).
(* obby-client/src/e2ee.rs 139-143 hmac_sha256 *)
Definition hmac (k data : list octet) : result key := ok_or Error.Internal (hmac_sha256 k data).
(* obby-client/src/e2ee.rs 145-153 diffie_hellman_raw *)
Definition diffie_hellman_raw (secret public : key) : result key :=
  let shared := x25519 secret public in
  if negb (was_contributory shared) then inl Error.NonContributoryDh else inr shared.

(* obby-client/src/e2ee.rs 526-537 verify_signature *)
Definition verify_signature (signing_public message signature : list octet) : result unit :=
  if negb (is_verifying_key signing_public) then inl Error.InvalidSignature
  else if negb (is_signature signature) then inl Error.InvalidSignature
  else if verify_strict signing_public message signature then inr () else inl Error.InvalidSignature.

(* obby-client/src/e2ee.rs 877-884 kdf_root *)
Definition kdf_root (root_key dh_out : key) : result (key * key) :=
  okm ← hkdf_sha256 root_key dh_out ROOT_INFO 64; inr (take 32 okm, drop 32 okm).
(* obby-client/src/e2ee.rs 886-890 kdf_chain *)
Definition kdf_chain (chain_key : key) : result (key * key) :=
  message_key ← hmac chain_key [1%N]; next_chain ← hmac chain_key [2%N]; inr (message_key, next_chain).
(* obby-client/src/e2ee.rs 892-898 message_aead_params *)
Definition message_aead_params (message_key : key) : result (key * list octet) :=
  k ← hkdf_sha256 (replicate 32 0%N) message_key MESSAGE_KEY_INFO 32;
  nonce ← hkdf_sha256 (replicate 32 0%N) message_key NONCE_INFO 24; inr (k, nonce).
(* obby-client/src/e2ee.rs 900-911 aead_encrypt *)
Definition aead_encrypt (message_key : key) (aad plaintext : list octet) : result (list octet) :=
  '(k, nonce) ← message_aead_params message_key; ok_or Error.Aead (aead_seal k nonce aad plaintext).
(* obby-client/src/e2ee.rs 913-924 aead_decrypt *)
Definition aead_decrypt (message_key : key) (aad ciphertext : list octet) : result (list octet) :=
  '(k, nonce) ← message_aead_params message_key; ok_or Error.Aead (aead_open k nonce aad ciphertext).
End primitives.

(** [u32::to_be_bytes]. *)
Definition to_be_bytes (z : Z) : list octet :=
  (λ shift, Z.to_N (Z.land (Z.shiftr z shift) 255)) <$> [24; 16; 8; 0].
(* obby-client/src/e2ee.rs 926-932 header_aad *)
Definition header_aad (dh : key) (pn n : Z) : list octet := dh ++ to_be_bytes pn ++ to_be_bytes n.

(* obby-client/src/e2ee.rs 934-943 pad *)
Definition pad (plaintext : list octet) : list octet :=
  let out := plaintext ++ [128%N] in
  let remainder := (length out mod PAD_BLOCK)%nat in
  if decide (remainder ≠ 0%nat) then out ++ replicate (PAD_BLOCK - remainder) 0%N else out.

(** [rposition]: the last index whose byte is not zero. *)
Fixpoint rposition_nonzero (l : list octet) : option nat :=
  match l with
  | [] => None
  | b :: l => match rposition_nonzero l with
              | Some i => Some (S i)
              | None => if decide (b ≠ 0%N) then Some 0%nat else None
              end
  end.
(* obby-client/src/e2ee.rs 945-957 unpad *)
Definition unpad (padded : list octet) : result (list octet) :=
  marker ← ok_or Error.Padding (rposition_nonzero padded);
  if decide (padded !! marker ≠ Some 128%N) then inl Error.Padding
  else inr (take marker padded).

(** ** Identity and trust *)

Module Identity.
(* obby-client/src/e2ee.rs 159-169 IdentityPublic *)
Record IdentityPublic := mkPublic { agreement : key; signing : key }.
(* obby-client/src/e2ee.rs 171-181 Identity *)
Record t := mk { agreement_secret : key; signing_secret : key; public : IdentityPublic }.

Section identity.
Context `{Crypto, Primitives}.
(* obby-client/src/e2ee.rs 184-202 Identity::generate *)
Definition generate {R} `{RandomSource R} (rng : R) : t * R :=
  let '(agreement_secret, rng) := random_array 32 rng in
  let '(signing_secret, rng) := random_array 32 rng in
  (mk agreement_secret signing_secret (mkPublic (x25519_public agreement_secret) (ed25519_public signing_secret)), rng).
(* obby-client/src/e2ee.rs 209-212 Identity::fingerprint *)
Definition fingerprint (i : t) : Fingerprint.t := Fingerprint.of_signing_key (signing (public i)).
(* obby-client/src/e2ee.rs 214-220 Identity::sign *)
Definition sign (i : t) (message : list octet) : result (list octet) :=
  ok_or Error.InvalidSignature (try_sign (signing_secret i) message).
End identity.
End Identity.

Module PeerTrust.
(* obby-client/src/e2ee.rs 257-270 PinOutcome *)
Inductive PinOutcome := New | Same | Changed (previous : Fingerprint.t).
(* obby-client/src/e2ee.rs 272-280 PeerTrust *)
Record t := mk { pinned : option Fingerprint.t; verified : bool }.
(* obby-client/src/e2ee.rs 283-286 PeerTrust::new *)
Definition new : t := mk None false.
(* obby-client/src/e2ee.rs 288-298 PeerTrust::observe *)
Definition observe (fingerprint : Fingerprint.t) (s : t) : PinOutcome * t :=
  match pinned s with
  | None => (New, mk (Some fingerprint) (verified s))
  | Some pinned => if decide (pinned = fingerprint) then (Same, s) else (Changed pinned, s)
  end.
(* obby-client/src/e2ee.rs 300-305 PeerTrust::repin *)
Definition repin (fingerprint : Fingerprint.t) (s : t) : t := mk (Some fingerprint) false.
(* obby-client/src/e2ee.rs 317-320 PeerTrust::set_verified *)
Definition set_verified (verified : bool) (s : t) : t := mk (pinned s) verified.
End PeerTrust.

(* obby-client/src/e2ee.rs 323-334 keeps_own_offer *)
Definition keeps_own_offer (own : Fingerprint.t) (peer : option Fingerprint.t) : bool :=
  match peer with Some peer => bool_decide (lexico own peer) | None => false end.

(** ** Frames *)

(* obby-client/src/e2ee.rs 340-355 PreKeyBundle *)
Record PreKeyBundle := mkBundle {
  bundle_ik : key; bundle_sik : key; bundle_spk : key; bundle_sig : list octet; bundle_opk : key;
}.
(* obby-client/src/e2ee.rs 375-388 RatchetMessage *)
Record RatchetMessage := mkMessage { dh : key; pn : Z; n : Z; ct : list octet }.
(* obby-client/src/e2ee.rs 357-373 HandshakeResponse *)
Record HandshakeResponse := mkResponse {
  response_ik : key; response_sik : key; response_ek : key; response_sig : list octet; boot : RatchetMessage;
}.
(* obby-client/src/e2ee.rs 390-434 Frame *)
Inductive Frame :=
  | Init (bundle : PreKeyBundle) (account : option text)
  | Accept (response : HandshakeResponse) (account : option text)
  | Reject (reason : option text)
  | Ack (ct : RatchetMessage)
  | Close
  | Msg (ct : RatchetMessage)
  | Media (ct : RatchetMessage).

Module Frag.
(* obby-client/src/e2ee.rs 436-449 Frag *)
Record t := mk { id : text; i : Z; n : Z; ct : list octet }.

(** Putting one fragment in its slot. *)
(* obby-client/src/e2ee.rs 467-477 reassemble *)
Definition place (wanted : text) (total : Z) (slots : list (option (list octet))) (fragment : t)
    : result (list (option (list octet))) :=
  if decide (id fragment ≠ wanted ∨ n fragment ≠ total) then inl Error.Fragmentation
  else
    let index := Z.to_nat (i fragment) in
    match slots !! index with
    | None => inl Error.Fragmentation
    | Some (Some _) => inl Error.Fragmentation
    | Some None => inr (<[index := Some (ct fragment)]> slots)
    end.
(* obby-client/src/e2ee.rs 467-477 reassemble *)
Fixpoint place_all (wanted : text) (total : Z) (slots : list (option (list octet))) (fragments : list t)
    : result (list (option (list octet))) :=
  match fragments with
  | [] => inr slots
  | fragment :: rest => slots ← place wanted total slots fragment; place_all wanted total slots rest
  end.
(* obby-client/src/e2ee.rs 479-483 reassemble *)
Fixpoint collect (slots : list (option (list octet))) : result (list octet) :=
  match slots with
  | [] => inr []
  | slot :: rest => piece ← ok_or Error.Fragmentation slot; out ← collect rest; inr (piece ++ out)
  end.
(** [u32::try_from] of the length fails when it does not fit. *)
(* obby-client/src/e2ee.rs 451-484 reassemble *)
Definition reassemble (fragments : list t) : result (list octet) :=
  match fragments with
  | [] => inl Error.Fragmentation
  | first :: _ =>
      let expected := Z.of_nat (length fragments) in
      if decide (u32_max < expected) then inl Error.Fragmentation
      else if decide (expected ≠ n first) then inl Error.Fragmentation
      else slots ← place_all (id first) (n first) (replicate (length fragments) None) fragments; collect slots
  end.
End Frag.

(** ** The Double Ratchet *)

Module SkippedKeys.
Abbreviation id := (key * Z)%type (only parsing).
(* obby-client/src/e2ee.rs 660-664 SkippedKeys *)
Record t := mk { by_id : gmap id key; order : list id }.
(* obby-client/src/e2ee.rs 667-672 SkippedKeys::new *)
Definition new : t := mk ∅ [].
(** Evicting the oldest while there are too many. *)
(* obby-client/src/e2ee.rs 679-683 SkippedKeys::insert *)
Fixpoint evict (by_id : gmap id key) (order : list id) : t :=
  match order with
  | oldest :: rest =>
      if decide (MAX_SKIPPED_KEYS < length order)%nat then evict (delete oldest by_id) rest else mk by_id order
  | [] => mk by_id []
  end.
(* obby-client/src/e2ee.rs 674-684 SkippedKeys::insert *)
Definition insert (dh : key) (n : Z) (k : key) (s : t) : t :=
  let id := (dh, n) in
  let order := if decide (is_Some (by_id s !! id)) then order s else order s ++ [id] in
  evict (<[id := k]> (by_id s)) order.
(* obby-client/src/e2ee.rs 686-691 SkippedKeys::take *)
Definition take (dh : key) (n : Z) (s : t) : option (key * t) :=
  let id := (dh, n) in
  k ← by_id s !! id;
  Some (k, mk (delete id (by_id s)) (filter (λ entry, entry ≠ id) (order s))).
End SkippedKeys.

Module Ratchet.
(* obby-client/src/e2ee.rs 694-708 Ratchet *)
Record t := mk {
  root_key : key; dhs_secret : key; dhs_public : key; dhr : option key;
  send_chain : option key; recv_chain : option key;
  n_send : Z; n_recv : Z; prev_chain_len : Z; skipped : SkippedKeys.t;
}.
Definition set_send (chain : option key) (n : Z) (r : t) : t :=
  mk (root_key r) (dhs_secret r) (dhs_public r) (dhr r) chain (recv_chain r) n (n_recv r) (prev_chain_len r) (skipped r).
Definition set_recv (chain : option key) (n : Z) (skipped : SkippedKeys.t) (r : t) : t :=
  mk (root_key r) (dhs_secret r) (dhs_public r) (dhr r) (send_chain r) chain (n_send r) n (prev_chain_len r) skipped.

Section ratchet.
Context `{Crypto, Primitives}.
Context {R : Type} `{RandomSource R}.

(* obby-client/src/e2ee.rs 713-733 Ratchet::init_as_responder *)
Definition init_as_responder (root_key own_ek_secret own_ek_public their_spk_public : key) : result t :=
  dh_out ← diffie_hellman_raw own_ek_secret their_spk_public;
  '(new_root, send_chain) ← kdf_root root_key dh_out;
  inr (mk new_root own_ek_secret own_ek_public (Some their_spk_public) (Some send_chain) None 0 0 0 SkippedKeys.new).
(* obby-client/src/e2ee.rs 738-755 Ratchet::init_as_initiator *)
Definition init_as_initiator (root_key own_dhs_secret own_dhs_public : key) : t :=
  mk root_key own_dhs_secret own_dhs_public None None None 0 0 0 SkippedKeys.new.

(** The chain has moved on by the time a later step can fail. *)
(* obby-client/src/e2ee.rs 757-774 Ratchet::encrypt *)
Definition encrypt (plaintext : list octet) (r : t) : result RatchetMessage * t :=
  match send_chain r with
  | None => (inl Error.NoChain, r)
  | Some chain =>
      match kdf_chain chain with
      | inl e => (inl e, r)
      | inr (message_key, next_chain) =>
          let r := set_send (Some next_chain) (n_send r) r in
          let dh := dhs_public r in
          let pn := prev_chain_len r in
          let n := n_send r in
          match checked_add_u32 n 1 with
          | None => (inl Error.CounterOverflow, r)
          | Some next =>
              let r := set_send (send_chain r) next r in
              (ct ← aead_encrypt message_key (header_aad dh pn n) (pad plaintext); inr (mkMessage dh pn n ct), r)
          end
      end
  end.

(** [span] turns of the loop; what it leaves when it fails is a discarded trial. *)
(* obby-client/src/e2ee.rs 830-836 Ratchet::skip_current_receiving_chain *)
Fixpoint skip_loop (span : nat) (dhr chain : key) (n_recv : Z) (skipped : SkippedKeys.t)
    : result (key * Z * SkippedKeys.t) :=
  match span with
  | O => inr (chain, n_recv, skipped)
  | S span =>
      '(message_key, next_chain) ← kdf_chain chain;
      let skipped := SkippedKeys.insert dhr n_recv message_key skipped in
      n_recv ← ok_or Error.CounterOverflow (checked_add_u32 n_recv 1);
      skip_loop span dhr next_chain n_recv skipped
  end.
(* obby-client/src/e2ee.rs 813-839 Ratchet::skip_current_receiving_chain *)
Definition skip_current_receiving_chain (until : Z) (r : t) : result t :=
  match dhr r with
  | None => inr r
  | Some dhr =>
      match recv_chain r with
      | None => inr r
      | Some chain =>
          if decide (until <= n_recv r) then inr r
          else
            let span := until - n_recv r in
            if decide (MAX_SKIP < span) then inl Error.TooManySkipped
            else
              '(chain, n_recv, skipped) ← skip_loop (Z.to_nat span) dhr chain (n_recv r) (skipped r);
              inr (set_recv (Some chain) n_recv skipped r)
      end
  end.

(** With what is left of the randomness, which an error after the draw has used too. *)
(* obby-client/src/e2ee.rs 841-868 Ratchet::dh_ratchet_receive *)
Definition dh_ratchet_receive (new_dhr : key) (r : t) (rng : R) : result t * R :=
  match (dh_out ← diffie_hellman_raw (dhs_secret r) new_dhr; kdf_root (root_key r) dh_out) with
  | inl e => (inl e, rng)
  | inr (root_after_recv, recv_chain) =>
      let '((dhs_secret, dhs_public), rng) := generate_x25519_keypair rng in
      (dh_out2 ← diffie_hellman_raw dhs_secret new_dhr;
       '(root_after_send, send_chain) ← kdf_root root_after_recv dh_out2;
       inr (mk root_after_send dhs_secret dhs_public (Some new_dhr) (Some send_chain) (Some recv_chain)
              0 0 (n_send r) (skipped r)), rng)
  end.

(* obby-client/src/e2ee.rs 871-875 decrypt_with_key *)
Definition decrypt_with_key (message_key : key) (msg : RatchetMessage) : result (list octet) :=
  padded ← aead_decrypt message_key (header_aad (dh msg) (pn msg) (n msg)) (ct msg); unpad padded.

(** The message key at the head of the receiving chain, and the chain behind it. *)
(* obby-client/src/e2ee.rs 799-809 Ratchet::decrypt *)
Definition decrypt_current (msg : RatchetMessage) (trial : t) : result (list octet * t) :=
  trial ← skip_current_receiving_chain (n msg) trial;
  chain ← ok_or Error.NoChain (recv_chain trial);
  '(message_key, next_chain) ← kdf_chain chain;
  next ← ok_or Error.CounterOverflow (checked_add_u32 (n_recv trial) 1);
  plaintext ← decrypt_with_key message_key msg;
  inr (plaintext, set_recv (Some next_chain) next (skipped trial) trial).

(** Whether the header names a ratchet key this side has not seen, and the step it asks for. *)
(* obby-client/src/e2ee.rs 795-798 Ratchet::decrypt *)
Definition follow_header (msg : RatchetMessage) (trial : t) (rng : R) : result t * R :=
  if decide (dhr trial ≠ Some (dh msg)) then
    match skip_current_receiving_chain (pn msg) trial with
    | inl e => (inl e, rng)
    | inr trial => dh_ratchet_receive (dh msg) trial rng
    end
  else (inr trial, rng).

(** The trial is committed only with a plaintext. *)
(* obby-client/src/e2ee.rs 776-811 Ratchet::decrypt *)
Definition decrypt (msg : RatchetMessage) (r : t) (rng : R) : result (list octet) * t * R :=
  match SkippedKeys.take (dh msg) (n msg) (skipped r) with
  | Some (message_key, skipped) =>
      match decrypt_with_key message_key msg with
      | inl e => (inl e, r, rng)
      | inr plaintext => (inr plaintext, set_recv (recv_chain r) (n_recv r) skipped r, rng)
      end
  | None =>
      let '(trial, rng) := follow_header msg r rng in
      match (trial ← trial; decrypt_current msg trial) with
      | inl e => (inl e, r, rng)
      | inr (plaintext, trial) => (inr plaintext, trial, rng)
      end
  end.
End ratchet.
End Ratchet.

(** ** X3DH *)

Module X3dh.
(* obby-client/src/e2ee.rs 490-496 PendingOffer *)
Record PendingOffer := mkPending { bundle : PreKeyBundle; spk_secret : key; opk_secret : key }.

Section x3dh.
Context `{Crypto, Primitives}.
Context {R : Type} `{RandomSource R}.

(* obby-client/src/e2ee.rs 498-524 create_offer *)
Definition create_offer (identity : Identity.t) (rng : R) : result PendingOffer * R :=
  let '(spk_secret, rng) := random_array 32 rng in
  let '(opk_secret, rng) := random_array 32 rng in
  let spk_public := x25519_public spk_secret in
  let opk_public := x25519_public opk_secret in
  let public := Identity.public identity in
  let signed := concat [Identity.agreement public; spk_public; opk_public] in
  (sig ← Identity.sign identity signed;
   inr (mkPending (mkBundle (Identity.agreement public) (Identity.signing public) spk_public sig opk_public)
          spk_secret opk_secret), rng).

(* obby-client/src/e2ee.rs 539-542 verify_bundle_signature *)
Definition verify_bundle_signature (b : PreKeyBundle) : result unit :=
  verify_signature (bundle_sik b) (concat [bundle_ik b; bundle_spk b; bundle_opk b]) (bundle_sig b).
(* obby-client/src/e2ee.rs 544-554 x3dh_kdf *)
Definition x3dh_kdf (dh1 dh2 dh3 dh4 : key) : result key :=
  hkdf_sha256 (replicate 32 0%N) (concat [dh1; dh2; dh3; dh4]) X3DH_INFO 32.
(* obby-client/src/e2ee.rs 556-569 x3dh_secret_responder *)
Definition x3dh_secret_responder (own_identity own_ephemeral peer_identity peer_signed_prekey peer_one_time_prekey : key)
    : result key :=
  dh1 ← diffie_hellman_raw own_identity peer_signed_prekey;
  dh2 ← diffie_hellman_raw own_ephemeral peer_identity;
  dh3 ← diffie_hellman_raw own_ephemeral peer_signed_prekey;
  dh4 ← diffie_hellman_raw own_ephemeral peer_one_time_prekey;
  x3dh_kdf dh1 dh2 dh3 dh4.
(* obby-client/src/e2ee.rs 571-585 x3dh_secret_initiator *)
Definition x3dh_secret_initiator (own_signed_prekey own_identity own_one_time_prekey peer_identity peer_ephemeral : key)
    : result key :=
  dh1 ← diffie_hellman_raw own_signed_prekey peer_identity;
  dh2 ← diffie_hellman_raw own_identity peer_ephemeral;
  dh3 ← diffie_hellman_raw own_signed_prekey peer_ephemeral;
  dh4 ← diffie_hellman_raw own_one_time_prekey peer_ephemeral;
  x3dh_kdf dh1 dh2 dh3 dh4.

(* obby-client/src/e2ee.rs 601-623 accept_offer *)
Definition answer_offer (identity : Identity.t) (b : PreKeyBundle) (ek_secret ek_public : key)
    : result (HandshakeResponse * Ratchet.t) :=
  sk ← x3dh_secret_responder (Identity.agreement_secret identity) ek_secret (bundle_ik b) (bundle_spk b) (bundle_opk b);
  ratchet ← Ratchet.init_as_responder sk ek_secret ek_public (bundle_spk b);
  let '(boot, ratchet) := Ratchet.encrypt [] ratchet in
  boot ← boot;
  let public := Identity.public identity in
  sig ← Identity.sign identity (concat [Identity.agreement public; ek_public]);
  inr (mkResponse (Identity.agreement public) (Identity.signing public) ek_public sig boot, ratchet).
(* obby-client/src/e2ee.rs 587-624 accept_offer *)
Definition accept_offer (identity : Identity.t) (b : PreKeyBundle) (rng : R)
    : result (HandshakeResponse * Ratchet.t) * R :=
  match verify_bundle_signature b with
  | inl e => (inl e, rng)
  | inr _ => let '((ek_secret, ek_public), rng) := generate_x25519_keypair rng in
             (answer_offer identity b ek_secret ek_public, rng)
  end.

(* obby-client/src/e2ee.rs 626-654 complete_handshake *)
Definition complete_handshake (identity : Identity.t) (pending : PendingOffer) (response : HandshakeResponse) (rng : R)
    : result Ratchet.t * R :=
  match (_ ← verify_signature (response_sik response) (concat [response_ik response; response_ek response])
               (response_sig response);
         x3dh_secret_initiator (spk_secret pending) (Identity.agreement_secret identity) (opk_secret pending)
           (response_ik response) (response_ek response)) with
  | inl e => (inl e, rng)
  | inr sk =>
      let ratchet := Ratchet.init_as_initiator sk (spk_secret pending) (bundle_spk (bundle pending)) in
      let '(plaintext, ratchet, rng) := Ratchet.decrypt (boot response) ratchet rng in
      (_ ← plaintext; inr ratchet, rng)
  end.
End x3dh.
End X3dh.

(** ** The session *)

Module E2eeSession.
(* obby-client/src/e2ee.rs 963-970 Role *)
Inductive Role := Initiator | Responder.
(* obby-client/src/e2ee.rs 972-1009 SessionState *)
Inductive SessionState :=
  | Idle
  | Offered (pending : X3dh.PendingOffer)
  | OfferReceived (bundle : PreKeyBundle)
  | AwaitingAck (ratchet : Ratchet.t)
  | Established (ratchet : Ratchet.t)
  | Rejected
  | Closed.
(* obby-client/src/e2ee.rs 1011-1022 Session *)
Record t := mk { state : SessionState; trust : PeerTrust.t; role : option Role }.
Definition set_state (x : SessionState) (s : t) : t := mk x (trust s) (role s).
Definition set_trust (x : PeerTrust.t) (s : t) : t := mk (state s) x (role s).

(* obby-client/src/e2ee.rs 1024-1038 Session::new *)
Definition new : t := mk Idle PeerTrust.new None.

Section session.
Context `{Crypto, Primitives}.
Context {R : Type} `{RandomSource R}.

(* obby-client/src/e2ee.rs 1040-1050 Session::start *)
Definition start (identity : Identity.t) (s : t) (rng : R) : result PreKeyBundle * t * R :=
  let '(pending, rng) := X3dh.create_offer identity rng in
  match pending with
  | inl e => (inl e, s, rng)
  | inr pending => (inr (X3dh.bundle pending), set_state (Offered pending) s, rng)
  end.
(* obby-client/src/e2ee.rs 1052-1062 Session::receive_offer *)
Definition receive_offer (bundle : PreKeyBundle) (s : t) : Fingerprint.t * t :=
  (Fingerprint.of_signing_key (bundle_sik bundle), set_state (OfferReceived bundle) s).

(** Pinning, and going on only when the pin did not have to move. *)
(* obby-client/src/e2ee.rs 1076-1086 Session::accept *)
Definition pin_then {A} (fingerprint : Fingerprint.t) (role_ : Role) (next : SessionState) (answer : A) (s : t)
    : result A * t :=
  let '(outcome, trust) := PeerTrust.observe fingerprint (trust s) in
  let s := set_trust trust s in
  match outcome with
  | PeerTrust.Changed previous => (inl (Error.FingerprintChanged previous fingerprint), s)
  | _ => (inr answer, mk next trust (Some role_))
  end.
(* obby-client/src/e2ee.rs 1064-1087 Session::accept *)
Definition accept (identity : Identity.t) (s : t) (rng : R) : result HandshakeResponse * t * R :=
  match state s with
  | OfferReceived bundle =>
      match X3dh.accept_offer identity bundle rng with
      | (inl e, rng) => (inl e, s, rng)
      | (inr (response, ratchet), rng) =>
          (pin_then (Fingerprint.of_signing_key (bundle_sik bundle)) Responder (AwaitingAck ratchet) response s, rng)
      end
  | _ => (inl Error.WrongState, s, rng)
  end.
(* obby-client/src/e2ee.rs 1089-1093 Session::reject *)
Definition reject (reason : option text) (s : t) : Frame * t := (Reject reason, set_state Rejected s).
(* obby-client/src/e2ee.rs 1095-1098 Session::receive_reject *)
Definition receive_reject (s : t) : t := set_state Rejected s.
(* obby-client/src/e2ee.rs 1100-1126 Session::receive_accept *)
Definition receive_accept (identity : Identity.t) (response : HandshakeResponse) (s : t) (rng : R)
    : result unit * t * R :=
  match state s with
  | Offered pending =>
      match X3dh.complete_handshake identity pending response rng with
      | (inl e, rng) => (inl e, s, rng)
      | (inr ratchet, rng) =>
          (pin_then (Fingerprint.of_signing_key (response_sik response)) Initiator (Established ratchet) () s, rng)
      end
  | _ => (inl Error.WrongState, s, rng)
  end.

(* obby-client/src/e2ee.rs 1155-1161 Session::send *)
Definition send (plaintext : list octet) (s : t) : result RatchetMessage * t :=
  match state s with
  | Established ratchet =>
      let '(r, ratchet) := Ratchet.encrypt plaintext ratchet in (r, set_state (Established ratchet) s)
  | _ => (inl Error.WrongState, s)
  end.
(* obby-client/src/e2ee.rs 1128-1132 Session::make_ack *)
Definition make_ack (s : t) : result RatchetMessage * t := send [] s.
(* obby-client/src/e2ee.rs 1134-1153 Session::receive_ack *)
Definition receive_ack (ct : RatchetMessage) (s : t) (rng : R) : result unit * t * R :=
  match state s with
  | AwaitingAck ratchet =>
      match Ratchet.decrypt ct ratchet rng with
      | (inl e, ratchet, rng) => (inl e, set_state (AwaitingAck ratchet) s, rng)
      | (inr _, ratchet, rng) => (inr (), set_state (Established ratchet) s, rng)
      end
  | _ => (inl Error.WrongState, s, rng)
  end.
(* obby-client/src/e2ee.rs 1163-1174 Session::receive *)
Definition receive (ct : RatchetMessage) (s : t) (rng : R) : result (list octet) * t * R :=
  match state s with
  | Established ratchet =>
      let '(r, ratchet, rng) := Ratchet.decrypt ct ratchet rng in (r, set_state (Established ratchet) s, rng)
  | _ => (inl Error.WrongState, s, rng)
  end.
(* obby-client/src/e2ee.rs 1176-1180 Session::close *)
Definition close (s : t) : Frame * t := (Close, set_state Closed s).
(* obby-client/src/e2ee.rs 1182-1185 Session::receive_close *)
Definition receive_close (s : t) : t := set_state Closed s.
(* obby-client/src/e2ee.rs 1187-1190 Session::is_established *)
Definition is_established (s : t) : bool := match state s with Established _ => true | _ => false end.
(* obby-client/src/e2ee.rs 1192-1195 Session::peer_fingerprint *)
Definition peer_fingerprint (s : t) : option Fingerprint.t := PeerTrust.pinned (trust s).
(* obby-client/src/e2ee.rs 1202-1205 Session::mark_peer_verified *)
Definition mark_peer_verified (s : t) : t := set_trust (PeerTrust.set_verified true (trust s)) s.
(* obby-client/src/e2ee.rs 1207-1211 Session::confirm_fingerprint_change *)
Definition confirm_fingerprint_change (fingerprint : Fingerprint.t) (s : t) : t :=
  set_trust (PeerTrust.repin fingerprint (trust s)) s.
End session.
End E2eeSession.

(** ** Padding *)

Lemma rposition_marker p k : rposition_nonzero (p ++ 128%N :: replicate k 0%N) = Some (length p).
Proof.
  induction p as [|b p IH]; cbn [rposition_nonzero app length]; [|by rewrite IH].
  assert (rposition_nonzero (replicate k 0%N) = None) as ->; [|done].
  induction k as [|k IH]; [done|]. cbn. by rewrite IH.
Qed.

Lemma pad_unpad plaintext :
  unpad (pad plaintext) = inr plaintext
  ∧ length (pad plaintext) = (PAD_BLOCK * S (length plaintext / PAD_BLOCK))%nat.
Proof.
  assert (∃ k, pad plaintext = plaintext ++ 128%N :: replicate k 0%N
    ∧ (S (length plaintext) + k = PAD_BLOCK * S (length plaintext / PAD_BLOCK))%nat) as (k & E & Hk).
  { unfold pad, PAD_BLOCK. rewrite length_app. cbn [length].
    pose proof (Nat.div_mod_eq (length plaintext) 64). pose proof (Nat.mod_upper_bound (length plaintext) 64 ltac:(lia)).
    pose proof (Nat.div_mod_eq (length plaintext + 1) 64). pose proof (Nat.mod_upper_bound (length plaintext + 1) 64 ltac:(lia)).
    case_decide as Hr.
    - exists (64 - (length plaintext + 1) mod 64)%nat. rewrite <- (assoc_L (++)). split; [done|].
      assert (length plaintext / 64 = (length plaintext + 1) / 64)%nat by lia. lia.
    - exists 0%nat. split; [done|]. lia. }
  rewrite E. split.
  - unfold unpad. rewrite rposition_marker. cbn [ok_or mbind result_bind].
    rewrite list_lookup_middle by done. rewrite decide_False by (intros Hn; by apply Hn). by rewrite take_app_length.
  - rewrite length_app. cbn [length]. rewrite length_replicate. lia.
Qed.

(** Padding is undone exactly, whatever the plaintext ends in (zeros and marker bytes included), and hides the
    length up to the block: the padded length is the next multiple of 64 above the plaintext's. *)
Theorem pad_roundtrip plaintext :
  unpad (pad plaintext) = inr plaintext
  ∧ length (pad plaintext) = (PAD_BLOCK * S (length plaintext / PAD_BLOCK))%nat.
Proof. apply pad_unpad. Qed.

(** Anything whose last byte other than zero is not the marker is refused. *)
Lemma unpad_refuses p b k : b ≠ 0%N → b ≠ 128%N → unpad (p ++ b :: replicate k 0%N) = inl Error.Padding.
Proof.
  intros H0 H1. unfold unpad.
  assert (rposition_nonzero (p ++ b :: replicate k 0%N) = Some (length p)) as ->.
  { induction p as [|c p IH]; cbn [rposition_nonzero app length]; [|by rewrite IH].
    assert (rposition_nonzero (replicate k 0%N) = None) as ->; [|by rewrite decide_True].
    clear. induction k as [|k IH]; [done|]. cbn. by rewrite IH. }
  cbn [ok_or mbind result_bind]. rewrite list_lookup_middle by done. rewrite decide_True; [done|]. congruence.
Qed.

(** ** Crossing offers *)

(** When both sides offer at once, exactly one of them keeps its offer, whatever order the offers arrive in,
    unless the two fingerprints are the same (then both answer); and a side that cannot read its peer's
    fingerprint always gives way. *)
Theorem crossing_offers_resolve (a b : Fingerprint.t) :
  (a ≠ b → keeps_own_offer a (Some b) = negb (keeps_own_offer b (Some a)))
  ∧ keeps_own_offer a (Some a) = false ∧ keeps_own_offer a None = false.
Proof.
  split_and!; [|by apply bool_decide_eq_false; apply irreflexivity, _|done].
  intros Hne. cbn [keeps_own_offer].
  destruct (trichotomyT lexico a b) as [[Hl|He]|Hl]; [|done|].
  - rewrite bool_decide_eq_true_2 by done. rewrite bool_decide_eq_false_2; [done|].
    intros Hb. apply (irreflexivity lexico a). by trans b.
  - rewrite bool_decide_eq_false_2, bool_decide_eq_true_2; [done|done|].
    intros Ha. apply (irreflexivity lexico a). by trans b.
Qed.

(** ** Fragments *)

Section fragments.
Context (id : text) (pieces : list (list octet)).
Implicit Types (frags : list Frag.t) (slots : list (option (list octet))).

(** The fragment of each piece. *)
Definition fragment_of (j : nat) (piece : list octet) : Frag.t :=
  Frag.mk id (Z.of_nat j) (Z.of_nat (length pieces)) piece.
Definition fragments : list Frag.t := imap fragment_of pieces.

(** The slots filled by some of the fragments. *)
Definition slots_of (arrived : list Frag.t) : list (option (list octet)) :=
  imap (λ j piece, if bool_decide (Z.of_nat j ∈ Frag.i <$> arrived) then Some piece else None) pieces.

Lemma slots_of_nil : slots_of [] = replicate (length pieces) None.
Proof.
  unfold slots_of. apply list_eq. intros j. rewrite list_lookup_imap.
  destruct (pieces !! j) as [p|] eqn:E; cbn.
  - symmetry. apply lookup_replicate. split; [done|by eapply lookup_lt_Some].
  - symmetry. apply lookup_ge_None. rewrite length_replicate. by apply lookup_ge_None.
Qed.

Lemma place_fragment arrived f :
  f ∈ fragments → Frag.i f ∉ Frag.i <$> arrived →
  Frag.place id (Z.of_nat (length pieces)) (slots_of arrived) f = inr (slots_of (arrived ++ [f])).
Proof.
  intros (j & piece & -> & Hj)%elem_of_lookup_imap Hnew. unfold Frag.place. rewrite decide_False by (cbn; tauto).
  cbv zeta. cbn [Frag.i fragment_of Frag.ct] in *. rewrite Nat2Z.id.
  assert (slots_of arrived !! j = Some None) as ->.
  { unfold slots_of. rewrite list_lookup_imap, Hj. cbn. by rewrite bool_decide_eq_false_2. }
  f_equal. apply list_eq. intros j'. unfold slots_of. rewrite list_lookup_imap.
  destruct (decide (j' = j)) as [->|Hne].
  - rewrite list_lookup_insert_eq by (rewrite length_imap; by eapply lookup_lt_Some).
    rewrite Hj. cbn. rewrite bool_decide_eq_true_2; [done|]. rewrite fmap_app. apply elem_of_app. right. by left.
  - rewrite list_lookup_insert_ne by done. rewrite list_lookup_imap.
    destruct (pieces !! j'); [|done]. cbn.
    match goal with |- Some (if bool_decide ?P then _ else _) = Some (if bool_decide ?Q then _ else _) =>
      rewrite (bool_decide_ext P Q); [done|] end.
    rewrite fmap_app, elem_of_app. cbn. rewrite list_elem_of_singleton. split; [tauto|]. intros [?|?]; [done|lia].
Qed.

Lemma place_all_fragments frags arrived :
  (∀ f, f ∈ frags → f ∈ fragments) → NoDup (Frag.i <$> (arrived ++ frags)) →
  Frag.place_all id (Z.of_nat (length pieces)) (slots_of arrived) frags = inr (slots_of (arrived ++ frags)).
Proof.
  revert arrived. induction frags as [|f frags IH]; intros arrived Hin Hnd; [by rewrite app_nil_r|].
  cbn [Frag.place_all]. rewrite place_fragment.
  - cbn [mbind result_bind]. rewrite IH; [by rewrite <- (assoc_L (++))| |by rewrite <- (assoc_L (++))].
    intros f' Hf'. apply Hin. by right.
  - apply Hin. by left.
  - rewrite fmap_app in Hnd. apply NoDup_app in Hnd as (_ & Hd & _). intros Hf. by eapply Hd; [|left].
Qed.

Lemma collect_slots : Frag.collect (Some <$> pieces) = inr (mjoin pieces).
Proof.
  induction pieces as [|p ps IH]; [done|]. cbn [fmap list_fmap Frag.collect ok_or mbind result_bind].
  change (list_fmap _ _ Some ps) with (Some <$> ps). by rewrite IH.
Qed.

Lemma fragments_indices : Frag.i <$> fragments = Z.of_nat <$> seq 0 (length pieces).
Proof.
  unfold fragments. apply list_eq. intros j. rewrite !list_lookup_fmap, list_lookup_imap.
  destruct (pieces !! j) as [p|] eqn:E.
  - rewrite lookup_seq_lt by (by eapply lookup_lt_Some). done.
  - rewrite lookup_seq_ge by (by apply lookup_ge_None). done.
Qed.

Lemma slots_of_all frags : frags ≡ₚ fragments → slots_of frags = Some <$> pieces.
Proof.
  intros Hp. unfold slots_of. apply list_eq. intros j. rewrite list_lookup_imap, list_lookup_fmap.
  destruct (pieces !! j) as [p|] eqn:E; [|done]. cbn. rewrite bool_decide_eq_true_2; [done|].
  rewrite Hp, fragments_indices. apply list_elem_of_fmap. exists j. split; [done|].
  apply elem_of_seq. apply lookup_lt_Some in E. lia.
Qed.

Lemma reassemble_complete frags :
  frags ≡ₚ fragments → pieces ≠ [] → Z.of_nat (length pieces) <= u32_max →
  Frag.reassemble frags = inr (mjoin pieces).
Proof.
  intros Hp Hne Hlen. assert (length frags = length pieces) as Hl.
  { rewrite Hp. unfold fragments. by rewrite length_imap. }
  unfold Frag.reassemble. destruct frags as [|first rest] eqn:Ef; [by destruct pieces|].
  assert (first ∈ fragments) as (j & piece & Efirst & Hj)%elem_of_lookup_imap by (rewrite <- Hp; by left).
  rewrite <- Ef in *. cbv zeta. rewrite Hl. rewrite decide_False by lia.
  rewrite Efirst. cbn [Frag.n Frag.id fragment_of]. rewrite decide_False by tauto.
  rewrite <- slots_of_nil, place_all_fragments.
  - cbn [mbind result_bind app]. rewrite slots_of_all by done. apply collect_slots.
  - intros f Hf. by rewrite <- Hp.
  - cbn [app]. rewrite Hp, fragments_indices. apply NoDup_fmap_2; [apply _|]. apply NoDup_ListNoDup, seq_NoDup.
Qed.
End fragments.

(** What filling the slots says of the fragments. *)
Lemma place_all_inv wanted total frags slots slots' :
  Frag.place_all wanted total slots frags = inr slots' →
  length slots' = length slots
  ∧ Forall (λ f, Frag.id f = wanted ∧ Frag.n f = total) frags
  ∧ NoDup ((λ f, Z.to_nat (Frag.i f)) <$> frags)
  ∧ (∀ f, f ∈ frags → slots !! Z.to_nat (Frag.i f) = Some None)
  ∧ ∀ j piece, slots' !! j = Some (Some piece) ↔
      slots !! j = Some (Some piece) ∨ ∃ f, f ∈ frags ∧ Z.to_nat (Frag.i f) = j ∧ Frag.ct f = piece.
Proof.
  revert slots. induction frags as [|f frags IH]; intros slots E; cbn [Frag.place_all] in E.
  { simplify_eq. split_and!; [done|constructor|constructor|set_solver|]. intros j piece. split; [by left|].
    intros [?|(f & Hf & _)]; [done|set_solver]. }
  unfold Frag.place in E. case_decide as Hid; [done|]. cbv zeta in E.
  destruct (slots !! Z.to_nat (Frag.i f)) as [[?|]|] eqn:Es; try done. cbn [mbind result_bind] in E.
  apply IH in E as (Hl & Hall & Hnd & Hfree & Hslots). rewrite length_insert in Hl.
  assert (∀ f', f' ∈ frags → Z.to_nat (Frag.i f') ≠ Z.to_nat (Frag.i f)) as Hne.
  { intros f' Hf' Heq. apply Hfree in Hf'. rewrite Heq in Hf'.
    rewrite list_lookup_insert_eq in Hf' by (by eapply lookup_lt_Some). done. }
  split_and!.
  - done.
  - constructor; [split; apply dec_stable; tauto|done].
  - cbn. constructor; [|done]. intros (f' & Heq & Hf')%list_elem_of_fmap. by eapply Hne.
  - intros f' [->|Hf']%elem_of_cons; [done|]. pose proof (Hfree f' Hf') as Hf2.
    by rewrite list_lookup_insert_ne in Hf2 by (by apply not_eq_sym, Hne).
  - intros j piece. rewrite Hslots. destruct (decide (j = Z.to_nat (Frag.i f))) as [->|Hj].
    + rewrite list_lookup_insert_eq by (by eapply lookup_lt_Some). split.
      * intros [[= <-]|(f' & Hf' & Heq & _)]; [|by apply Hne in Heq]. right. exists f. split_and!; [by left|done..].
      * intros [?|(f' & Hf' & Heq & Hct)]; [congruence|]. left. apply elem_of_cons in Hf' as [->|Hf']; [by rewrite Hct|].
        by apply Hne in Heq.
    + rewrite list_lookup_insert_ne by done. split.
      * intros [?|(f' & Hf' & ? & ?)]; [by left|]. right. exists f'. split_and!; [by right|done..].
      * intros [?|(f' & Hf' & Heq & ?)]; [by left|]. right. exists f'. split_and!; [|done..].
        apply elem_of_cons in Hf' as [->|?]; [|done]. by rewrite Heq in Hj.
Qed.

Lemma collect_inv slots out : Frag.collect slots = inr out → ∃ pieces, slots = Some <$> pieces ∧ out = mjoin pieces.
Proof.
  revert out. induction slots as [|[piece|] slots IH]; intros out E; cbn [Frag.collect ok_or mbind result_bind] in E.
  - simplify_eq. by exists [].
  - destruct (Frag.collect slots) as [e|out'] eqn:Ec; [done|]. cbn in E. simplify_eq.
    destruct (IH out' eq_refl) as (pieces & -> & ->). by exists (piece :: pieces).
  - done.
Qed.

(** C39. Reassembly is exact. Whatever the order the fragments of a payload arrive in, putting them together gives
    the payload; and nothing else is ever put together: a set that is accepted is, up to order, the complete
    numbered set of the pieces of the result, all under one id (no piece missing, repeated or out of range). *)
Theorem reassembly_exact frags out :
  Forall (λ f, 0 <= Frag.i f) frags →
  Frag.reassemble frags = inr out ↔
    ∃ id pieces, frags ≡ₚ fragments id pieces ∧ pieces ≠ [] ∧ Z.of_nat (length pieces) <= u32_max ∧ out = mjoin pieces.
Proof.
  intros Hpos. split; [|intros (id & pieces & Hp & Hne & Hl & ->); by apply (reassemble_complete id)].
  unfold Frag.reassemble. destruct frags as [|first rest] eqn:Ef; [done|]. rewrite <- Ef in *. cbv zeta.
  case_decide; [done|]. case_decide as Hn; [done|]. 
  destruct (Frag.place_all _ _ _ _) as [e|slots] eqn:Ep; [done|]. cbn [mbind result_bind]. intros Ec.
  apply collect_inv in Ec as (pieces & -> & ->). apply place_all_inv in Ep as (Hl & Hall & Hnd & _ & Hslots).
  rewrite length_fmap, length_replicate in Hl.
  assert (∀ j piece, pieces !! j = Some piece ↔ ∃ f, f ∈ frags ∧ Z.to_nat (Frag.i f) = j ∧ Frag.ct f = piece) as Hpc.
  { intros j piece. specialize (Hslots j piece). rewrite list_lookup_fmap in Hslots.
    transitivity (Some <$> pieces !! j = Some (Some piece)).
    - destruct (pieces !! j); cbn; split; congruence.
    - rewrite Hslots. split; [|by right]. intros [[? _]%lookup_replicate|?]; done. }
  exists (Frag.id first), pieces. split_and!; [|by intros ->; rewrite Ef in Hl|lia|done].
  rewrite Forall_forall in Hpos, Hall. apply NoDup_Permutation.
  - by apply NoDup_fmap_1 in Hnd.
  - apply (NoDup_fmap_1 Frag.i). rewrite fragments_indices.
    apply NoDup_fmap_2; [apply _|]. apply NoDup_ListNoDup, seq_NoDup.
  - intros f. unfold fragments. rewrite elem_of_lookup_imap. split.
    + intros Hf. exists (Z.to_nat (Frag.i f)), (Frag.ct f). split; [|apply Hpc; by exists f].
      destruct (Hall f Hf) as [Hid Hnf]. specialize (Hpos f Hf). unfold fragment_of. rewrite Z2Nat.id by done.
      assert (Frag.n f = Z.of_nat (length pieces)) as Hn' by (rewrite Hnf; lia).
      destruct f; cbn in *; congruence.
    + intros (j & piece & -> & (f' & Hf & Hj & Hct)%Hpc).
      destruct (Hall f' Hf) as [Hid Hnf]. specialize (Hpos f' Hf).
      assert (fragment_of (Frag.id first) pieces j piece = f') as ->; [|done].
      unfold fragment_of. assert (Frag.n f' = Z.of_nat (length pieces)) as Hn' by (rewrite Hnf; lia).
      destruct f'; cbn in *; subst. rewrite Z2Nat.id by done. by rewrite Hn'.
Qed.

Lemma reassembly_exact_witness :
  Frag.reassemble [Frag.mk "a" 1 2 [3; 4]%N; Frag.mk "a" 0 2 [1; 2]%N] = inr [1; 2; 3; 4]%N.
Proof.
  apply (reassembly_exact [Frag.mk "a" 1 2 [3; 4]%N; Frag.mk "a" 0 2 [1; 2]%N]).
  - repeat constructor; cbn; lia.
  - exists (lit "a"), [[1; 2]; [3; 4]]%N. split_and!; [apply Permutation_swap|done|by vm_compute|done].
Defined.
