(* ===== verification/E2eeRatchet.v ===== *)
(** * What the Double Ratchet delivers (theorems about src/crates/obby-client/src/e2ee.rs)

    The bound on the keys held for messages still to come, and the delivery theorem: a
    chain's messages are read in whatever order they arrive, whichever of them are lost. *)
From S2P Require Import Prelude Utf8 Base64 Scram E2ee.

(** ** The skipped keys *)

(** The queue holds each stored key once, and never more than the bound. *)
Record wf_skipped (s : SkippedKeys.t) : Prop := {
  skipped_nodup : NoDup (SkippedKeys.order s);
  skipped_same id : id ∈ SkippedKeys.order s ↔ is_Some (SkippedKeys.by_id s !! id);
  skipped_bounded : (length (SkippedKeys.order s) <= MAX_SKIPPED_KEYS)%nat;
}.

Lemma wf_skipped_new : wf_skipped SkippedKeys.new.
Proof.
  split; [constructor| |apply Nat.le_0_l]. intros id. cbn. rewrite lookup_empty. split; [set_solver|]. by intros [? ?].
Qed.

Lemma evict_wf m o :
  NoDup o → (∀ id, id ∈ o ↔ is_Some (m !! id)) → wf_skipped (SkippedKeys.evict m o).
Proof.
  revert m. induction o as [|id o IH]; intros m Hnd Hsame; cbn [SkippedKeys.evict].
  - split; [constructor|done|apply Nat.le_0_l].
  - apply NoDup_cons in Hnd as [Hid Hnd']. case_decide as Hfull.
    + apply IH; [done|]. intros id'. destruct (decide (id' = id)) as [->|Hne].
      * rewrite lookup_delete_eq. split; [done|]. by intros [? ?].
      * rewrite lookup_delete_ne by done. rewrite <- Hsame, elem_of_cons. tauto.
    + split; [by apply NoDup_cons|done|]. cbn [SkippedKeys.order] in *. lia.
Qed.

Lemma evict_fits m o : (length o <= MAX_SKIPPED_KEYS)%nat → SkippedKeys.evict m o = SkippedKeys.mk m o.
Proof. intros Hl. destruct o as [|id o]; [done|]. cbn [SkippedKeys.evict]. by rewrite decide_False by lia. Qed.

Lemma insert_wf_skipped dh n k s : wf_skipped s → wf_skipped (SkippedKeys.insert dh n k s).
Proof.
  intros [Hnd Hsame _]. unfold SkippedKeys.insert. cbv zeta. apply evict_wf.
  - case_decide as Hi; [done|]. apply NoDup_app. split_and!; [done| |apply NoDup_singleton].
    intros id Hid ->%list_elem_of_singleton. by apply Hi, Hsame.
  - intros id. destruct (decide (id = (dh, n))) as [->|Hne].
    + rewrite lookup_insert_eq. split; [by eexists|intros _]. case_decide as Hi; [by apply Hsame|].
      apply elem_of_app. right. by left.
    + rewrite lookup_insert_ne by done. case_decide; [apply Hsame|].
      rewrite elem_of_app, list_elem_of_singleton, Hsame. tauto.
Qed.

Lemma take_wf_skipped dh n k s s' : SkippedKeys.take dh n s = Some (k, s') → wf_skipped s → wf_skipped s'.
Proof.
  unfold SkippedKeys.take. intros (k' & Hk & [= <- <-])%bind_Some [Hnd Hsame Hb]. split.
  - by apply NoDup_filter.
  - intros id. cbn [SkippedKeys.order SkippedKeys.by_id]. rewrite list_elem_of_filter, Hsame.
    destruct (decide (id = (dh, n))) as [->|Hne].
    + rewrite lookup_delete_eq. split; [tauto|by intros [? ?]].
    + rewrite lookup_delete_ne by done. tauto.
  - cbn. etransitivity; [apply length_filter|done].
Qed.

Section bounds.
Context `{Crypto, Primitives} {R : Type} `{RandomSource R}.

Lemma skip_loop_wf span d chain n s chain' n' s' :
  Ratchet.skip_loop span d chain n s = inr (chain', n', s') → wf_skipped s → wf_skipped s'.
Proof.
  revert chain n s. induction span as [|span IH]; intros chain n s E Hs; cbn [Ratchet.skip_loop] in E; [by simplify_eq|].
  destruct (kdf_chain chain) as [e|[mk next]]; [done|]. cbn [mbind result_bind] in E.
  destruct (checked_add_u32 n 1) as [n1|]; [|done]. cbn [ok_or mbind result_bind] in E.
  eapply IH; [exact E|]. by apply insert_wf_skipped.
Qed.

Lemma skip_current_wf until r r' :
  Ratchet.skip_current_receiving_chain until r = inr r' → wf_skipped (Ratchet.skipped r) → wf_skipped (Ratchet.skipped r').
Proof.
  unfold Ratchet.skip_current_receiving_chain. destruct (Ratchet.dhr r); [|by intros; simplify_eq].
  destruct (Ratchet.recv_chain r); [|by intros; simplify_eq]. case_decide; [by intros; simplify_eq|].
  cbv zeta. case_decide; [done|]. destruct (Ratchet.skip_loop _ _ _ _ _) as [e|[[chain n] s]] eqn:E; [done|].
  cbn [mbind result_bind]. intros ? Hs. simplify_eq. by eapply skip_loop_wf.
Qed.

Lemma follow_header_wf msg r rng r' rng' :
  Ratchet.follow_header msg r rng = (inr r', rng') → wf_skipped (Ratchet.skipped r) → wf_skipped (Ratchet.skipped r').
Proof.
  unfold Ratchet.follow_header. case_decide; [|by intros; simplify_eq].
  destruct (Ratchet.skip_current_receiving_chain _ _) as [e|r1] eqn:E1; [done|]. intros E Hs.
  apply skip_current_wf in E1; [|done]. unfold Ratchet.dh_ratchet_receive in E.
  destruct (_ ≫= _) as [e|[root chain]]; [done|].
  destruct (generate_x25519_keypair rng) as [[sec pub] rng1].
  destruct (diffie_hellman_raw sec (dh msg)) as [e|out]; [done|]. cbn [mbind result_bind] in E.
  destruct (kdf_root root out) as [e|[root2 chain2]]; [done|]. cbn in E. by simplify_eq.
Qed.

Lemma decrypt_wf msg r rng :
  wf_skipped (Ratchet.skipped r) → wf_skipped (Ratchet.skipped (Ratchet.decrypt msg r rng).1.2).
Proof.
  intros Hs. unfold Ratchet.decrypt. destruct (SkippedKeys.take _ _ _) as [[mk s]|] eqn:Et.
  { destruct (Ratchet.decrypt_with_key mk msg); cbn; [done|]. by eapply take_wf_skipped. }
  destruct (Ratchet.follow_header msg r rng) as [[e|trial] rng1] eqn:Ef; [done|].
  cbn [mbind result_bind]. apply follow_header_wf in Ef; [|done]. unfold Ratchet.decrypt_current.
  destruct (Ratchet.skip_current_receiving_chain _ _) as [e|r1] eqn:E1; [done|]. cbn [mbind result_bind].
  apply skip_current_wf in E1; [|done]. destruct (Ratchet.recv_chain r1) as [chain|]; [|done]. cbn [ok_or mbind result_bind].
  destruct (kdf_chain chain) as [e|[mk next]]; [done|]. cbn [mbind result_bind].
  destruct (checked_add_u32 _ 1) as [n1|]; [|done]. cbn [ok_or mbind result_bind].
  by destruct (Ratchet.decrypt_with_key mk msg).
Qed.

Lemma encrypt_skipped plaintext r : Ratchet.skipped (Ratchet.encrypt plaintext r).2 = Ratchet.skipped r.
Proof.
  unfold Ratchet.encrypt. destruct (Ratchet.send_chain r); [|done]. destruct (kdf_chain _) as [|[mk next]]; [done|].
  cbv zeta. by destruct (checked_add_u32 _ _).
Qed.

(** What a host does with a ratchet. *)
Inductive ratchet_op := Encrypt (plaintext : list octet) | Decrypt (msg : RatchetMessage).
Definition ratchet_step (s : Ratchet.t * R) (o : ratchet_op) : Ratchet.t * R :=
  match o with
  | Encrypt plaintext => ((Ratchet.encrypt plaintext s.1).2, s.2)
  | Decrypt msg => let '(_, r, rng) := Ratchet.decrypt msg s.1 s.2 in (r, rng)
  end.

(** C38. Whatever a peer sends, forged headers included, a ratchet never holds more than 2000 keys for messages still
    to come: the queue that says which is oldest holds exactly the stored keys, each once, and stays within the
    bound over any sequence of encryptions and decryptions. *)
Theorem skipped_keys_bounded (r : Ratchet.t) (rng : R) ops :
  Ratchet.skipped r = SkippedKeys.new →
  let s := Ratchet.skipped (foldl ratchet_step (r, rng) ops).1 in
  NoDup (SkippedKeys.order s) ∧ (∀ id, id ∈ SkippedKeys.order s ↔ is_Some (SkippedKeys.by_id s !! id))
  ∧ (size (SkippedKeys.by_id s) <= MAX_SKIPPED_KEYS)%nat.
Proof.
  intros Hr. cbv zeta.
  assert (wf_skipped (Ratchet.skipped (foldl ratchet_step (r, rng) ops).1)) as [Hnd Hsame Hb].
  { induction ops as [|o ops IH] using rev_ind; [cbn [foldl fst]; rewrite Hr; apply wf_skipped_new|].
    rewrite foldl_app. cbn [foldl]. destruct (foldl ratchet_step (r, rng) ops) as [r1 rng1]. cbn [fst] in IH.
    destruct o as [p|msg]; cbn [ratchet_step fst snd]; [by rewrite encrypt_skipped|].
    pose proof (decrypt_wf msg r1 rng1 IH) as Hd. by destruct (Ratchet.decrypt msg r1 rng1) as [[? ?] ?]. }
  split_and!; [done|done|]. etransitivity; [|exact Hb]. rewrite <- size_dom.
  rewrite <- (size_list_to_set (C := gset (list octet * Z)) (SkippedKeys.order _) Hnd).
  apply Nat.eq_le_incl. f_equal. apply set_eq. intros id. by rewrite elem_of_dom, elem_of_list_to_set, Hsame.
Qed.

Lemma decrypt_error_same msg r rng e r' rng' :
  Ratchet.decrypt msg r rng = (inl e, r', rng') → r' = r.
Proof.
  unfold Ratchet.decrypt. destruct (SkippedKeys.take _ _ _) as [[mk s]|].
  { destruct (Ratchet.decrypt_with_key mk msg); by intros; simplify_eq. }
  destruct (Ratchet.follow_header msg r rng) as [trial rng1].
  destruct (_ ≫= _) as [?|[? ?]]; by intros; simplify_eq.
Qed.

(** A message that does not verify changes nothing: whatever its header claims (a skipped counter, a jump ahead,
    a new ratchet key), a failed decryption leaves chains, counters and stored keys as they were. *)
Theorem failed_decrypt_changes_nothing msg r rng e r' rng' :
  Ratchet.decrypt msg r rng = (inl e, r', rng') → r' = r.
Proof. apply decrypt_error_same. Qed.
End bounds.

(** ** Delivery *)

Section delivery.
Context {C : Crypto} {CL : CryptoLaws C} {P : Primitives} {PL : PrimitivesLaws P}.
Context {R : Type} `{RandomSource R}.
Implicit Types (r : Ratchet.t) (ck d : list octet) (i j : nat).

(** What the two keyed hashes of a chain key give. *)
Definition message_key ck : list octet := default [] (hmac_sha256 ck [1%N]).
Definition next_key ck : list octet := default [] (hmac_sha256 ck [2%N]).
Fixpoint chain_at ck (i : nat) : list octet := match i with O => ck | S i => next_key (chain_at ck i) end.

Lemma kdf_chain_eq ck : kdf_chain ck = inr (message_key ck, next_key ck).
Proof.
  unfold kdf_chain, hmac, message_key, next_key.
  destruct (hmac_any_key ck [1%N]) as [a ->], (hmac_any_key ck [2%N]) as [b ->]. done.
Qed.

Lemma message_aead_params_ok mk : ∃ kn, message_aead_params mk = inr kn.
Proof.
  unfold message_aead_params, hkdf_sha256.
  destruct (hkdf_fills (replicate 32 0%N) mk MESSAGE_KEY_INFO 32) as (k & -> & _); [lia|].
  destruct (hkdf_fills (replicate 32 0%N) mk NONCE_INFO 24) as (k' & -> & _); [lia|]. by eexists.
Qed.

Lemma sealed_opens mk d pn n plaintext : ∃ ct,
  aead_encrypt mk (header_aad d pn n) (pad plaintext) = inr ct
  ∧ Ratchet.decrypt_with_key mk (mkMessage d pn n ct) = inr plaintext.
Proof.
  unfold Ratchet.decrypt_with_key, aead_encrypt, aead_decrypt. destruct (message_aead_params_ok mk) as [[k nonce] ->].
  cbn [mbind result_bind dh E2ee.pn E2ee.n E2ee.ct].
  destruct (seal_opens k nonce (header_aad d pn n) (pad plaintext)) as (c & -> & Ho). exists c. split; [done|].
  rewrite Ho. cbn [ok_or mbind result_bind]. apply pad_unpad.
Qed.

Lemma encrypt_sends plaintext r ck :
  Ratchet.send_chain r = Some ck → Ratchet.n_send r < u32_max →
  ∃ ct, let m := mkMessage (Ratchet.dhs_public r) (Ratchet.prev_chain_len r) (Ratchet.n_send r) ct in
    Ratchet.encrypt plaintext r = (inr m, Ratchet.set_send (Some (next_key ck)) (Ratchet.n_send r + 1) r)
    ∧ Ratchet.decrypt_with_key (message_key ck) m = inr plaintext.
Proof.
  intros Hc Hn. destruct (sealed_opens (message_key ck) (Ratchet.dhs_public r) (Ratchet.prev_chain_len r)
    (Ratchet.n_send r) plaintext) as (c & Hs & Ho).
  exists c. cbv zeta. split; [|done]. unfold Ratchet.encrypt. rewrite Hc, kdf_chain_eq. cbv zeta.
  cbn [Ratchet.set_send Ratchet.n_send Ratchet.dhs_public Ratchet.prev_chain_len Ratchet.send_chain].
  unfold checked_add_u32. rewrite decide_True by lia. rewrite Hs. done.
Qed.

(** Several messages, as far as every one of them succeeds. *)
Fixpoint encrypt_all (plaintexts : list (list octet)) r : result (list RatchetMessage) * Ratchet.t :=
  match plaintexts with
  | [] => (inr [], r)
  | plaintext :: rest =>
      let '(m, r) := Ratchet.encrypt plaintext r in
      let '(ms, r) := encrypt_all rest r in
      (m ← m; ms ← ms; inr (m :: ms), r)
  end.
Fixpoint decrypt_all (messages : list RatchetMessage) r (rng : R) : result (list (list octet)) * Ratchet.t * R :=
  match messages with
  | [] => (inr [], r, rng)
  | m :: rest =>
      let '(p, r, rng) := Ratchet.decrypt m r rng in
      let '(ps, r, rng) := decrypt_all rest r rng in
      (p ← p; ps ← ps; inr (p :: ps), r, rng)
  end.

(** The [i]-th message of a chain that starts at counter [b] with key [ck]. *)
Definition carries d ck (b : Z) i (m : RatchetMessage) (plaintext : list octet) : Prop :=
  dh m = d ∧ n m = b + Z.of_nat i ∧ Ratchet.decrypt_with_key (message_key (chain_at ck i)) m = inr plaintext.

Lemma chain_at_next ck i : chain_at (next_key ck) i = chain_at ck (S i).
Proof. induction i as [|i IH]; [done|]. cbn [chain_at] in *. by rewrite IH. Qed.

Lemma encrypt_all_sends plaintexts r ck :
  Ratchet.send_chain r = Some ck → Ratchet.n_send r + Z.of_nat (length plaintexts) <= u32_max →
  ∃ ms, encrypt_all plaintexts r =
          (inr ms, Ratchet.set_send (Some (chain_at ck (length plaintexts)))
             (Ratchet.n_send r + Z.of_nat (length plaintexts)) r)
    ∧ Forall2 (λ i mp, carries (Ratchet.dhs_public r) ck (Ratchet.n_send r) i mp.1 mp.2)
        (seq 0 (length plaintexts)) (zip ms plaintexts)
    ∧ length ms = length plaintexts.
Proof.
  revert r ck. induction plaintexts as [|p ps IH]; intros r ck Hc Hn; cbn [encrypt_all length] in *.
  { exists []. split_and!; [|constructor|done]. cbn. rewrite Z.add_0_r, <- Hc. by destruct r. }
  destruct (encrypt_sends p r ck Hc) as (c & -> & Hp); [lia|].
  destruct (IH (Ratchet.set_send (Some (next_key ck)) (Ratchet.n_send r + 1) r) (next_key ck)) as (ms & -> & Hms & Hl);
    [done|cbn; lia|].
  exists (mkMessage (Ratchet.dhs_public r) (Ratchet.prev_chain_len r) (Ratchet.n_send r) c :: ms).
  cbn [mbind result_bind]. split_and!; [|cbn [zip_with seq]; constructor|cbn; by rewrite Hl].
  - f_equal. unfold Ratchet.set_send. cbn. rewrite chain_at_next. f_equal. lia.
  - split_and!; [done|cbn; lia|exact Hp].
  - rewrite <- fmap_S_seq. apply Forall2_fmap_l. eapply Forall2_impl; [exact Hms|].
    intros i [m q] (H1 & H2 & H3). cbn in *. split_and!; [done|rewrite H2; lia|]. by rewrite <- chain_at_next.
Qed.

(** *** The receiving side *)

(** Reading the chain [ck] of ratchet key [d] that starts at counter [b]: its first [j] keys have been taken off the
    chain, those of the messages in [done] are used, the others are kept for when their message comes. *)
Record reading d ck (b : Z) j (done_ : gset nat) r : Prop := {
  reading_dhr : Ratchet.dhr r = Some d;
  reading_n : Ratchet.n_recv r = b + Z.of_nat j;
  reading_chain : Ratchet.recv_chain r = Some (chain_at ck j);
  reading_done i : i ∈ done_ → (i < j)%nat;
  reading_keys i : SkippedKeys.by_id (Ratchet.skipped r) !! (d, b + Z.of_nat i) =
    if decide ((i < j)%nat ∧ i ∉ done_) then Some (message_key (chain_at ck i)) else None;
  reading_wf : wf_skipped (Ratchet.skipped r);
}.

(** The half of a ratchet that receiving on a known key leaves alone. *)
Definition sending r :=
  (Ratchet.root_key r, Ratchet.dhs_secret r, Ratchet.dhs_public r, Ratchet.send_chain r, Ratchet.n_send r,
   Ratchet.prev_chain_len r).

Definition stored r : nat := length (SkippedKeys.order (Ratchet.skipped r)).

Lemma insert_fits d n mk s :
  wf_skipped s → SkippedKeys.by_id s !! (d, n) = None → (length (SkippedKeys.order s) < MAX_SKIPPED_KEYS)%nat →
  SkippedKeys.insert d n mk s = SkippedKeys.mk (<[(d, n) := mk]> (SkippedKeys.by_id s)) (SkippedKeys.order s ++ [(d, n)]).
Proof.
  intros Hs Hnone Hfit. unfold SkippedKeys.insert. cbv zeta. rewrite Hnone.
  rewrite decide_False by (intros Hs'; by apply is_Some_None in Hs'). apply evict_fits. rewrite length_app. cbn. lia.
Qed.

Lemma skip_loop_reads d ck b span j s :
  wf_skipped s → (length (SkippedKeys.order s) + span <= MAX_SKIPPED_KEYS)%nat →
  b + Z.of_nat (j + span) <= u32_max →
  (∀ i, (j <= i)%nat → SkippedKeys.by_id s !! (d, b + Z.of_nat i) = None) →
  ∃ s', Ratchet.skip_loop span d (chain_at ck j) (b + Z.of_nat j) s =
          inr (chain_at ck (j + span), b + Z.of_nat (j + span), s')
    ∧ wf_skipped s' ∧ (length (SkippedKeys.order s') = length (SkippedKeys.order s) + span)%nat
    ∧ ∀ id, SkippedKeys.by_id s' !! id =
        if decide (id.1 = d ∧ Z.of_nat j <= id.2 - b < Z.of_nat (j + span))
        then Some (message_key (chain_at ck (Z.to_nat (id.2 - b)))) else SkippedKeys.by_id s !! id.
Proof.
  revert j s. induction span as [|span IH]; intros j s Hs Hfit Hmax Hnone; cbn [Ratchet.skip_loop].
  { exists s. rewrite !Nat.add_0_r. split_and!; [done..|]. intros i. by rewrite decide_False by lia. }
  rewrite kdf_chain_eq. cbn [mbind result_bind]. cbv zeta. unfold checked_add_u32. rewrite decide_True by lia.
  cbn [ok_or mbind result_bind].
  pose proof (insert_wf_skipped d (b + Z.of_nat j) (message_key (chain_at ck j)) s Hs) as Hs1.
  assert (length (SkippedKeys.order s) < MAX_SKIPPED_KEYS)%nat as Hlt by lia.
  rewrite (insert_fits d _ _ s Hs (Hnone j (le_n j)) Hlt) in Hs1 |- *.
  change (next_key (chain_at ck j)) with (chain_at ck (S j)).
  replace (b + Z.of_nat j + 1) with (b + Z.of_nat (S j)) by lia.
  destruct (IH (S j) _ Hs1) as (s' & -> & Hs' & Hl & Hk).
  - cbn. rewrite length_app. cbn. lia.
  - lia.
  - intros i Hi. cbn. rewrite lookup_insert_ne by (intros [=]; lia). apply Hnone. lia.
  - exists s'. replace (S j + span)%nat with (j + S span)%nat in * by lia. split_and!; [done|done| |].
    + rewrite Hl. cbn. rewrite length_app. cbn. lia.
    + intros [d' n']. rewrite Hk. cbn [SkippedKeys.by_id fst snd].
      destruct (decide ((d', n') = (d, b + Z.of_nat j))) as [[= -> ->]|Hne].
      * rewrite decide_False by lia. rewrite decide_True by (split; [done|lia]). rewrite lookup_insert_eq. do 3 f_equal. lia.
      * rewrite lookup_insert_ne by done.
        destruct (decide (d' = d ∧ Z.of_nat (S j) <= n' - b < Z.of_nat (j + S span))) as [[-> ?]|Hn].
        -- rewrite decide_True; [done|split; [done|lia]].
        -- rewrite decide_False; [done|]. intros [-> ?]. apply Hne. f_equal. destruct (decide (n' - b = Z.of_nat j)); [lia|].
           exfalso. apply Hn. split; [done|lia].
Qed.

(** Skipping ahead to message [i] keeps the keys it passes. *)
Lemma skip_to d ck b j done_ r i :
  reading d ck b j done_ r → (j <= i)%nat → Z.of_nat i - Z.of_nat j <= MAX_SKIP → b + Z.of_nat i <= u32_max →
  (stored r + (i - j) <= MAX_SKIPPED_KEYS)%nat →
  ∃ r', Ratchet.skip_current_receiving_chain (b + Z.of_nat i) r = inr r' ∧ reading d ck b i done_ r'
    ∧ stored r' = (stored r + (i - j))%nat
    ∧ sending r' = sending r.
Proof.
  intros [Hd Hn Hc Hdone Hk Hw] Hij Hskip Hmax Hfit. unfold Ratchet.skip_current_receiving_chain. rewrite Hd, Hc, Hn.
  case_decide as Hle.
  { assert (i = j) as -> by lia. exists r. split_and!; [done|by split|lia|done..]. }
  cbv zeta. rewrite decide_False by lia. replace (Z.to_nat _) with (i - j)%nat by lia.
  destruct (skip_loop_reads d ck b (i - j) j (Ratchet.skipped r)) as (s' & -> & Hs' & Hl & Hk').
  - done.
  - done.
  - replace (j + (i - j))%nat with i by lia. done.
  - intros k Hjk. rewrite Hk. by rewrite decide_False by (intros [? _]; lia).
  - replace (j + (i - j))%nat with i in * by lia. cbn [mbind result_bind]. eexists. split; [done|].
    split_and!; [|exact Hl|done..]. split; [done..| | |done].
    + intros k Hkd. specialize (Hdone k Hkd). lia.
    + intros k. cbn. rewrite Hk', Hk. cbn [fst snd]. replace (b + Z.of_nat k - b) with (Z.of_nat k) by lia. rewrite Nat2Z.id.
      destruct (decide (d = d ∧ Z.of_nat j <= Z.of_nat k < Z.of_nat i)) as [[_ ?]|?].
      * rewrite decide_True; [done|]. split; [lia|]. intros Hkd%Hdone. lia.
      * destruct (decide (k < j ∧ k ∉ done_)%nat); [rewrite decide_True by (split; [lia|tauto]); done|].
        rewrite decide_False; [done|]. intros [? ?]. assert (¬ (k < j))%nat by tauto. assert (¬ (Z.of_nat j <= Z.of_nat k < Z.of_nat i)) by tauto. lia.
Qed.

(** One message, in whatever place it comes. *)
Lemma decrypt_reads d ck b j done_ r i m plaintext (rng : R) :
  reading d ck b j done_ r → i ∉ done_ → carries d ck b i m plaintext →
  Z.of_nat i - Z.of_nat j <= MAX_SKIP → b + Z.of_nat i < u32_max → (stored r + (i - j) <= MAX_SKIPPED_KEYS)%nat →
  ∃ r', Ratchet.decrypt m r rng = (inr plaintext, r', rng)
    ∧ reading d ck b (j `max` S i) (done_ ∪ {[i]}) r' ∧ (stored r' <= stored r + (i - j))%nat
    ∧ sending r' = sending r.
Proof.
  intros Hr Hi (Hmd & Hmn & Hm) Hskip Hmax Hfit. unfold Ratchet.decrypt, SkippedKeys.take. rewrite Hmd, Hmn.
  pose proof (reading_keys _ _ _ _ _ _ Hr i) as Hki. cbv zeta.
  destruct (decide (i < j)%nat) as [Hlt|Hge].
  - rewrite decide_True in Hki by done. rewrite Hki. cbn [mbind option_bind]. rewrite Hm.
    eexists. split; [done|]. replace (j `max` S i)%nat with j by lia. split_and!; [|cbn; by apply Nat.le_trans with (2 := Nat.le_add_r _ _), length_filter|done..].
    destruct Hr as [Hd Hn Hc Hdone Hk Hw]. split; [done..| | |].
    + intros k [Hkd| ->%elem_of_singleton]%elem_of_union; [by apply Hdone|done].
    + intros k. cbn. destruct (decide (k = i)) as [->|Hne].
      * rewrite lookup_delete_eq. rewrite decide_False; [done|]. set_solver.
      * rewrite lookup_delete_ne by (intros [=]; lia). rewrite Hk.
        destruct (decide (k < j ∧ k ∉ done_)%nat); [rewrite decide_True by set_solver|rewrite decide_False by set_solver]; done.
    + eapply (take_wf_skipped d (b + Z.of_nat i)); [|exact Hw]. unfold SkippedKeys.take. cbv zeta. rewrite Hki. done.
  - rewrite decide_False in Hki by tauto. rewrite Hki. cbn [mbind option_bind].
    unfold Ratchet.follow_header. rewrite Hmd, (reading_dhr _ _ _ _ _ _ Hr). rewrite decide_False by tauto.
    cbn [mbind result_bind]. unfold Ratchet.decrypt_current. rewrite Hmn.
    destruct (skip_to d ck b j done_ r i) as (r1 & -> & Hr1 & Hst & Hs1); [done|lia|done|lia|done|].
    cbn [mbind result_bind]. rewrite (reading_chain _ _ _ _ _ _ Hr1). cbn [ok_or mbind result_bind].
    rewrite kdf_chain_eq. cbn [mbind result_bind]. rewrite (reading_n _ _ _ _ _ _ Hr1). unfold checked_add_u32.
    rewrite decide_True by lia. cbn [ok_or mbind result_bind]. rewrite Hm. cbn [mbind result_bind].
    eexists. split; [done|]. replace (j `max` S i)%nat with (S i) by lia. split_and!; [|unfold stored in *; cbn; lia|done..].
    destruct Hr1 as [Hd1 _ Hc1 Hdone1 Hk1 Hw1]. split; [done|cbn; lia|done| | |done].
    + intros k [Hkd%Hdone1| ->%elem_of_singleton]%elem_of_union; lia.
    + intros k. cbn. rewrite Hk1.
      destruct (decide (k < i ∧ k ∉ done_)%nat) as [[? ?]|Hnot].
      * rewrite decide_True; [done|]. split; [lia|]. rewrite elem_of_union, elem_of_singleton. intros [?|?]; [done|lia].
      * rewrite decide_False; [done|]. rewrite elem_of_union, elem_of_singleton. intros [? ?].
        apply Hnot. split; [|tauto]. assert (k ≠ i) by tauto. lia.
Qed.

(** Any of the messages, in any order. *)
Lemma decrypt_all_reads d ck b ms plaintexts (order : list nat) j done_ r (rng : R) :
  reading d ck b j done_ r → NoDup order → (∀ i, i ∈ order → i ∉ done_ ∧ (i < length plaintexts)%nat) →
  (∀ i m p, ms !! i = Some m → plaintexts !! i = Some p → carries d ck b i m p) → length ms = length plaintexts →
  (j <= length plaintexts)%nat → Z.of_nat (length plaintexts) <= MAX_SKIP →
  b + Z.of_nat (length plaintexts) <= u32_max →
  (stored r + (length plaintexts - j) <= MAX_SKIPPED_KEYS)%nat →
  ∃ r', decrypt_all (omap (ms !!.) order) r rng = (inr (omap (plaintexts !!.) order), r', rng)
    ∧ Ratchet.dhr r' = Some d ∧ sending r' = sending r.
Proof.
  revert j done_ r. induction order as [|i order IH]; intros j done_ r Hr Hnd Hin Hc Hl Hj Hskip Hmax Hfit.
  { exists r. split_and!; [done|apply Hr|done]. }
  apply NoDup_cons in Hnd as [Hi Hnd]. destruct (Hin i) as [Hid Hil]; [by left|].
  destruct (lookup_lt_is_Some_2 plaintexts i Hil) as [p Hp]. rewrite <- Hl in Hil.
  destruct (lookup_lt_is_Some_2 ms i Hil) as [m Hm]. cbn [omap list_omap]. rewrite Hm, Hp. cbn [decrypt_all].
  destruct (decrypt_reads d ck b j done_ r i m p rng Hr Hid (Hc i m p Hm Hp)) as (r1 & -> & Hr1 & Hst & Hs); [lia..|].
  destruct (IH (j `max` S i)%nat (done_ ∪ {[i]}) r1 Hr1 Hnd) as (r2 & -> & Hd2 & Hs2); try done; try lia.
  - intros k Hk. destruct (Hin k) as [Hkd Hkl]; [by right|]. split; [|done].
    rewrite elem_of_union, elem_of_singleton. intros [?| ->]; done.
  - exists r2. split_and!; [done|done|congruence].
Qed.

(** The receiver stands where the sender does: the sender's chain is the one it reads, at the same counter, and no
    key of that chain from here on is stored. *)
Record paired (sender receiver : Ratchet.t) ck : Prop := {
  paired_send : Ratchet.send_chain sender = Some ck;
  paired_recv : Ratchet.recv_chain receiver = Some ck;
  paired_dh : Ratchet.dhr receiver = Some (Ratchet.dhs_public sender);
  paired_n : Ratchet.n_recv receiver = Ratchet.n_send sender;
  paired_fresh i : SkippedKeys.by_id (Ratchet.skipped receiver) !!
    (Ratchet.dhs_public sender, Ratchet.n_send sender + Z.of_nat i) = None;
  paired_wf : wf_skipped (Ratchet.skipped receiver);
}.

Lemma paired_reading s r ck : paired s r ck → reading (Ratchet.dhs_public s) ck (Ratchet.n_send s) 0 ∅ r.
Proof.
  intros [H1 H2 H3 H4 H5 H6]. split; [done|by rewrite H4, Z.add_0_r|done|set_solver| |done].
  intros i. rewrite H5. by rewrite decide_False by (intros [? _]; lia).
Qed.

Lemma paired_delivers sender receiver ck plaintexts (order : list nat) (rng : R) :
  paired sender receiver ck → NoDup order → Forall (λ i, (i < length plaintexts)%nat) order →
  Z.of_nat (length plaintexts) <= MAX_SKIP → Ratchet.n_send sender + Z.of_nat (length plaintexts) <= u32_max →
  (stored receiver + length plaintexts <= MAX_SKIPPED_KEYS)%nat →
  ∃ ms, (encrypt_all plaintexts sender).1 = inr ms
    ∧ (decrypt_all (omap (ms !!.) order) receiver rng).1.1 = inr (omap (plaintexts !!.) order).
Proof.
  intros Hp Hnd Hall Hskip Hmax Hfit.
  destruct (encrypt_all_sends plaintexts sender ck (paired_send _ _ _ Hp) Hmax) as (ms & -> & Hms & Hl).
  exists ms. split; [done|]. rewrite Forall_forall in Hall.
  destruct (decrypt_all_reads (Ratchet.dhs_public sender) ck (Ratchet.n_send sender) ms plaintexts order 0 ∅ receiver rng)
    as (r' & -> & _); try done; try lia.
  - by apply paired_reading.
  - intros i Hi. split; [apply not_elem_of_empty|by apply Hall].
  - intros i m p Hm Hpl.
    assert (seq 0 (length plaintexts) !! i = Some i) as Hseq by (apply lookup_seq; split; [done|by eapply lookup_lt_Some]).
    assert (zip ms plaintexts !! i = Some (m, p)) as Hz by (by rewrite lookup_zip_with, Hm, Hpl).
    apply (Forall2_lookup_lr _ _ _ _ _ _ Hms Hseq Hz).
Qed.

(** Messages of one chain are read in any order and with any of them lost: whatever up to 1000 plaintexts one side
    encrypts, every selection of them, arriving in every order, decrypts to exactly those plaintexts in that order
    (the receiver having room for their keys and standing where the sender does). *)
Theorem any_order_decrypts sender receiver ck plaintexts (order : list nat) (rng : R) :
  paired sender receiver ck → NoDup order → Forall (λ i, (i < length plaintexts)%nat) order →
  Z.of_nat (length plaintexts) <= MAX_SKIP → Ratchet.n_send sender + Z.of_nat (length plaintexts) <= u32_max →
  (stored receiver + length plaintexts <= MAX_SKIPPED_KEYS)%nat →
  ∃ ms, (encrypt_all plaintexts sender).1 = inr ms
    ∧ (decrypt_all (omap (ms !!.) order) receiver rng).1.1 = inr (omap (plaintexts !!.) order).
Proof. apply paired_delivers. Qed.
End delivery.

(** ** Instances *)

(** Stand-ins for the primitives and for a host's randomness, to show the laws can hold. *)
Definition toy_hash (l : list octet) : octet := foldl (λ a b, (3 * a + b + 1) mod 256)%N 7%N l.
Definition toy_primitives : Primitives := {|
  x25519_public a := a;
  x25519 := zip_with (λ a b, (a * b + a + b) mod 256)%N;
  was_contributory _ := true;
  ed25519_public a := a;
  try_sign secret message := Some (secret ++ message);
  is_verifying_key _ := true;
  is_signature _ := true;
  verify_strict public message signature := bool_decide (signature = public ++ message);
  hkdf_expand salt ikm info n := Some (replicate n (toy_hash (salt ++ ikm ++ info)));
  aead_seal k nonce aad plaintext := Some (toy_hash (k ++ nonce ++ aad) :: plaintext);
  aead_open k nonce aad ct :=
    match ct with tag :: plaintext => if decide (tag = toy_hash (k ++ nonce ++ aad)) then Some plaintext else None | [] => None end;
|}.
#[export] Instance toy_primitives_laws : PrimitivesLaws toy_primitives.
Proof.
  split.
  - intros a b. cbn. rewrite <- zip_with_flip. apply zip_with_ext; [|done..]. intros x y. cbn. f_equal. lia.
  - done.
  - intros secret message. exists (secret ++ message). cbn. split_and!; [done..|by apply bool_decide_eq_true].
  - intros salt ikm info n _. eexists. split; [done|apply length_replicate].
  - intros k nonce aad p. eexists. split; [done|]. cbn. by rewrite decide_True.
Qed.
(** A counter: every draw is new. *)
#[export] Instance toy_random : RandomSource N := λ n r, (replicate n (r mod 256)%N, (r + 1)%N).

Definition toy_sender : Ratchet.t := Ratchet.mk [1%N] [2%N] [2%N] None (Some [5%N]) None 3 0 0 SkippedKeys.new.
Definition toy_receiver : Ratchet.t := Ratchet.mk [1%N] [4%N] [4%N] (Some [2%N]) None (Some [5%N]) 0 3 0 SkippedKeys.new.

Lemma any_order_decrypts_witness :
  ∃ ms, (@encrypt_all toy_crypto toy_primitives [[10]; [20]; [30]]%N toy_sender).1 = inr ms
    ∧ (@decrypt_all toy_crypto toy_primitives N _ (omap (ms !!.) [2; 0]%nat) toy_receiver 0%N).1.1 = inr [[30]; [10]]%N.
Proof.
  apply (@any_order_decrypts toy_crypto toy_laws toy_primitives _ N _ toy_sender toy_receiver [5%N]
           [[10]; [20]; [30]]%N [2; 0]%nat 0%N).
  - split; [done|done|done|done|intros i; apply lookup_empty|apply wf_skipped_new].
  - repeat constructor; set_solver.
  - repeat constructor.
  - by vm_compute.
  - by vm_compute.
  - apply Nat.leb_le. by vm_compute.
Defined.

Lemma skipped_keys_bounded_witness :
  let ops := [Encrypt [1%N]; Decrypt (mkMessage [2%N] 0 2 [])] in
  (size (SkippedKeys.by_id (Ratchet.skipped
     (foldl (@ratchet_step toy_crypto toy_primitives N _) (toy_receiver, 0%N) ops).1)) <= MAX_SKIPPED_KEYS)%nat.
Proof.
  apply (@skipped_keys_bounded toy_crypto toy_primitives N _ toy_receiver 0%N). done.
Defined.

Lemma failed_decrypt_changes_nothing_witness :
  let r := @Ratchet.decrypt toy_crypto toy_primitives N _ (mkMessage [2%N] 0 9 [1%N]) toy_receiver 0%N in
  r.1.1 = inl Error.Aead ∧ r.1.2 = toy_receiver.
Proof.
  cbv zeta. split; [by vm_compute|].
  destruct (@Ratchet.decrypt toy_crypto toy_primitives N _ (mkMessage [2%N] 0 9 [1%N]) toy_receiver 0%N) as [[[e|p] r'] rng'] eqn:E.
  - apply (@failed_decrypt_changes_nothing toy_crypto toy_primitives N _ _ _ _ _ _ _ E).
  - exfalso. revert E. vm_compute. discriminate.
Defined.
