(* ===== verification/E2eeHandshake.v ===== *)
(** * What the handshake establishes (theorems about src/crates/obby-client/src/e2ee.rs)

    Both sides run the real handshake against each other: the secrets agree, both ends
    come up established with the other's key pinned, and messages flow both ways. Then
    the session as a state machine: pins never move by themselves, and only a verified
    answer or a decrypted proof establishes. *)
From S2P Require Import Prelude Utf8 Base64 Scram E2ee E2eeRatchet.

Section agreement.
Context {C : Crypto} {CL : CryptoLaws C} {P : Primitives} {PL : PrimitivesLaws P}.
Context {R : Type} `{RandomSource R}.

Lemma dh_ok a b : diffie_hellman_raw a (x25519_public b) = inr (x25519 a (x25519_public b)).
Proof. unfold diffie_hellman_raw. by rewrite dh_contributory. Qed.

Lemma kdf_root_ok root d : ∃ root' chain, kdf_root root d = inr (root', chain).
Proof.
  unfold kdf_root, hkdf_sha256. destruct (hkdf_fills root d ROOT_INFO 64) as (okm & -> & _); [lia|]. by eexists _, _.
Qed.

Lemma sign_ok secret message :
  ∃ signature, try_sign secret message = Some signature
    ∧ verify_signature (ed25519_public secret) message signature = inr ().
Proof.
  destruct (sign_verifies secret message) as (s & Hs & Hk & Hsig & Hv). exists s. split; [done|].
  unfold verify_signature. by rewrite Hk, Hsig, Hv.
Qed.

(** An identity as [generate] makes it. *)
Definition wf_identity (i : Identity.t) : Prop :=
  Identity.agreement (Identity.public i) = x25519_public (Identity.agreement_secret i)
  ∧ Identity.signing (Identity.public i) = ed25519_public (Identity.signing_secret i).

(** [x] has turned the ratchet against [y]'s current key and [y] has not heard of it yet. *)
Record turned (x y : Ratchet.t) (ck : list octet) : Prop := {
  turned_x : Ratchet.dhs_public x = x25519_public (Ratchet.dhs_secret x);
  turned_y : Ratchet.dhs_public y = x25519_public (Ratchet.dhs_secret y);
  turned_root : kdf_root (Ratchet.root_key y) (x25519 (Ratchet.dhs_secret y) (Ratchet.dhs_public x)) =
    inr (Ratchet.root_key x, ck);
  turned_new : Ratchet.dhr y ≠ Some (Ratchet.dhs_public x);
  turned_fresh i : SkippedKeys.by_id (Ratchet.skipped y) !! (Ratchet.dhs_public x, i) = None;
  turned_wf : wf_skipped (Ratchet.skipped y);
}.

(** A header that names the other side's new key makes the ratchet follow, once the rest of the old chain is passed,
    and turn in its own turn. *)
Lemma turned_follows x y y0 ck m (rng : R) :
  turned x y ck → dh m = Ratchet.dhs_public x →
  Ratchet.skip_current_receiving_chain (pn m) y = inr y0 → sending y0 = sending y →
  let '(secret, rng') := random_array 32 rng in
  ∃ root ck', kdf_root (Ratchet.root_key x) (x25519 secret (Ratchet.dhs_public x)) = inr (root, ck')
    ∧ Ratchet.follow_header m y rng =
        (inr (Ratchet.mk root secret (x25519_public secret) (Some (Ratchet.dhs_public x)) (Some ck') (Some ck)
           0 0 (Ratchet.n_send y) (Ratchet.skipped y0)), rng').
Proof.
  intros [Hx Hy Hroot Hnew Hfresh Hwf] Hmd Hskip [= F1 F2 F3 F4 F5 F6]. destruct (random_array 32 rng) as [secret rng'] eqn:Erng.
  destruct (kdf_root_ok (Ratchet.root_key x) (x25519 secret (Ratchet.dhs_public x))) as (root & ck' & Hroot2).
  exists root, ck'. split; [done|]. unfold Ratchet.follow_header. rewrite Hmd, decide_True by done. rewrite Hskip.
  unfold Ratchet.dh_ratchet_receive. rewrite F1, F2, F5, Hx, dh_ok. cbn [mbind result_bind]. rewrite <- Hx, Hroot.
  unfold generate_x25519_keypair. rewrite Erng, Hx, dh_ok. cbn [mbind result_bind]. rewrite <- Hx, Hroot2. done.
Qed.

(** The first message of the new chain to arrive, when nothing of the old one is missing. *)
Lemma turned_receive x y ck i m plaintext (rng : R) :
  turned x y ck → carries (Ratchet.dhs_public x) ck 0 i m plaintext → Z.of_nat i <= MAX_SKIP →
  Ratchet.recv_chain y = None ∨ pn m <= Ratchet.n_recv y → (stored y + i <= MAX_SKIPPED_KEYS)%nat →
  ∃ y', let '(secret, rng') := random_array 32 rng in
    Ratchet.decrypt m y rng = (inr plaintext, y', rng')
    ∧ reading (Ratchet.dhs_public x) ck 0 (S i) {[i]} y'
    ∧ Ratchet.dhs_secret y' = secret ∧ Ratchet.dhs_public y' = x25519_public secret
    ∧ Ratchet.n_send y' = 0 ∧ Ratchet.prev_chain_len y' = Ratchet.n_send y ∧ (stored y' <= stored y + i)%nat
    ∧ ∃ ck', Ratchet.send_chain y' = Some ck'
        ∧ kdf_root (Ratchet.root_key x) (x25519 secret (Ratchet.dhs_public x)) = inr (Ratchet.root_key y', ck').
Proof.
  intros Hturned (Hmd & Hmn & Hm) Hi Hold Hfit. rewrite Z.add_0_l in Hmn.
  assert (Ratchet.skip_current_receiving_chain (pn m) y = inr y) as Hskip.
  { unfold Ratchet.skip_current_receiving_chain. destruct (Ratchet.dhr y); [|done].
    destruct (Ratchet.recv_chain y); [|done]. rewrite decide_True; [done|]. by destruct Hold. }
  pose proof (turned_follows x y y ck m rng Hturned Hmd Hskip eq_refl) as Hfollow.
  destruct (random_array 32 rng) as [secret rng'], Hfollow as (root2 & ck' & Hroot2 & Hfollow).
  set (y1 := Ratchet.mk _ _ _ _ _ _ _ _ _ _) in Hfollow. pose proof (turned_fresh _ _ _ Hturned) as Hfresh.
  assert (reading (Ratchet.dhs_public x) ck 0 0 ∅ y1) as Hreading.
  { split; [done..|set_solver| |apply Hturned]. intros k. cbn. rewrite Hfresh. by rewrite decide_False by (intros [? _]; lia). }
  assert (SkippedKeys.take (dh m) (n m) (Ratchet.skipped y) = None) as Htake.
  { unfold SkippedKeys.take. cbv zeta. by rewrite Hmd, Hfresh. }
  assert (carries (Ratchet.dhs_public x) ck 0 i m plaintext) as Hc by (by split_and!; [|rewrite Hmn|]).
  destruct (decrypt_reads _ _ _ _ _ _ i m plaintext rng' Hreading) as (y' & Hd & Hr' & Hst & Hsend);
    [set_solver|done|lia|unfold u32_max, MAX_SKIP in *; lia|unfold stored in *; cbn; lia|].
  rewrite Nat.max_0_l, union_empty_l_L in Hr'. injection Hsend as F1 F2 F3 F4 F5 F6.
  exists y'. split_and!; [|done|done|done|done|done|unfold stored in *; cbn in *; lia|by exists ck'; rewrite F1].
  unfold Ratchet.decrypt in Hd |- *. change (Ratchet.skipped y1) with (Ratchet.skipped y) in Hd. rewrite Htake in Hd |- *.
  rewrite Hfollow. unfold Ratchet.follow_header in Hd. rewrite Hmd, decide_False in Hd by tauto.
  cbn [mbind result_bind] in Hd |- *. destruct (Ratchet.decrypt_current m y1) as [e|[p t]]; [done|]. by simplify_eq.
Qed.

(** The sender that has used its first [i] keys, and the receiver that has read the message of the last of them. *)
Lemma reading_paired x y ck i :
  reading (Ratchet.dhs_public x) ck 0 (S i) {[i]} y → i = 0%nat →
  Ratchet.send_chain x = Some (chain_at ck (S i)) → Ratchet.n_send x = Z.of_nat (S i) → paired x y (chain_at ck (S i)).
Proof.
  intros [Hd Hn Hc _ Hk Hw] -> Hs Hns. split; [done|done|done|by rewrite Hn, Hns| |done].
  intros k. specialize (Hk (1 + k)%nat). rewrite decide_False in Hk by (intros [? _]; lia).
  rewrite Hns. replace (Z.of_nat 1 + Z.of_nat k) with (0 + Z.of_nat (1 + k)) by lia. done.
Qed.

(** Both pairings of X3DH give one secret. *)
Lemma x3dh_agrees a s o b e :
  ∃ sk, X3dh.x3dh_secret_responder b e (x25519_public a) (x25519_public s) (x25519_public o) = inr sk
    ∧ X3dh.x3dh_secret_initiator s a o (x25519_public b) (x25519_public e) = inr sk.
Proof.
  unfold X3dh.x3dh_secret_responder, X3dh.x3dh_secret_initiator. rewrite !dh_ok. cbn [mbind result_bind].
  rewrite (dh_symmetric s b), (dh_symmetric a e), (dh_symmetric s e), (dh_symmetric o e).
  unfold X3dh.x3dh_kdf, hkdf_sha256.
  match goal with |- context [hkdf_expand ?a ?b ?c 32] => destruct (hkdf_fills a b c 32) as (sk & -> & _); [lia|] end.
  by exists sk.
Qed.

(** *** The offer and its answer *)

Section roles.
Context (ia ib : Identity.t) (Ha : wf_identity ia) (Hb : wf_identity ib).
Context (spk opk ek : list octet).

(** The public half of the offer, under its signature. *)
Definition offered (sig : list octet) : PreKeyBundle :=
  mkBundle (Identity.agreement (Identity.public ia)) (Identity.signing (Identity.public ia))
    (x25519_public spk) sig (x25519_public opk).

Lemma offer_made : ∃ sig,
  X3dh.verify_bundle_signature (offered sig) = inr ()
  ∧ ∀ ra ra1 ra2, random_array 32 ra = (spk, ra1) → random_array 32 ra1 = (opk, ra2) →
      X3dh.create_offer ia ra = (inr (X3dh.mkPending (offered sig) spk opk), ra2).
Proof.
  destruct Ha as [Hk Hs].
  destruct (sign_ok (Identity.signing_secret ia)
    (concat [Identity.agreement (Identity.public ia); x25519_public spk; x25519_public opk])) as (sig & Hsig & Hv).
  exists sig. split.
  - unfold X3dh.verify_bundle_signature, offered. cbn. by rewrite Hs.
  - intros ra ra1 ra2 E1 E2. unfold X3dh.create_offer. rewrite E1, E2. cbv zeta. unfold Identity.sign. by rewrite Hsig.
Qed.

(** The answer carries the first message of the answering side's chain, and the offering side can read it. *)
Lemma offer_answered sig :
  X3dh.verify_bundle_signature (offered sig) = inr () →
  ∃ sk root ckb response b,
    (∀ rb rb1, random_array 32 rb = (ek, rb1) → X3dh.accept_offer ib (offered sig) rb = (inr (response, b), rb1))
    ∧ response_sik response = Identity.signing (Identity.public ib)
    ∧ verify_signature (response_sik response) (concat [response_ik response; response_ek response])
        (response_sig response) = inr ()
    ∧ X3dh.x3dh_secret_initiator spk (Identity.agreement_secret ia) opk (response_ik response) (response_ek response) = inr sk
    ∧ b = Ratchet.mk root ek (x25519_public ek) (Some (x25519_public spk)) (Some (next_key ckb)) None 1 0 0 SkippedKeys.new
    ∧ turned b (Ratchet.init_as_initiator sk spk (x25519_public spk)) ckb
    ∧ carries (x25519_public ek) ckb 0 0 (boot response) [].
Proof.
  intros Hv. destruct Ha as [Hka _], Hb as [Hkb Hsb].
  destruct (x3dh_agrees (Identity.agreement_secret ia) spk opk (Identity.agreement_secret ib) ek) as (sk & Hskb & Hska).
  destruct (kdf_root_ok sk (x25519 ek (x25519_public spk))) as (root & ckb & Hroot).
  set (b0 := Ratchet.mk root ek (x25519_public ek) (Some (x25519_public spk)) (Some ckb) None 0 0 0 SkippedKeys.new).
  destruct (encrypt_sends [] b0 ckb eq_refl) as (ct & Hboot & Hopen); [done|]. cbv zeta in Hboot, Hopen.
  destruct (sign_ok (Identity.signing_secret ib)
    (concat [Identity.agreement (Identity.public ib); x25519_public ek])) as (sig' & Hsig & Hvb).
  exists sk, root, ckb, (mkResponse (Identity.agreement (Identity.public ib)) (Identity.signing (Identity.public ib))
    (x25519_public ek) sig' (mkMessage (x25519_public ek) 0 0 ct)), (Ratchet.set_send (Some (next_key ckb)) 1 b0).
  split_and!; [|done|cbn; by rewrite Hsb|cbn; by rewrite Hkb|done| |done].
  - intros rb rb1 E. unfold X3dh.accept_offer. rewrite Hv. unfold generate_x25519_keypair. rewrite E. f_equal.
    unfold X3dh.answer_offer, offered. cbn [bundle_ik bundle_spk bundle_opk]. rewrite Hka, Hskb. cbn [mbind result_bind].
    unfold Ratchet.init_as_responder. rewrite dh_ok. cbn [mbind result_bind]. rewrite Hroot. cbn [mbind result_bind].
    fold b0. rewrite Hboot. cbn [mbind result_bind]. cbv zeta. unfold Identity.sign. by rewrite Hsig.
  - split; [done|done| |done|done|apply wf_skipped_new]. cbn. by rewrite dh_symmetric.
Qed.
End roles.

(** With nothing stored there is no key under any header. *)
Lemma nothing_stored r id : wf_skipped (Ratchet.skipped r) → (stored r <= 0)%nat → SkippedKeys.by_id (Ratchet.skipped r) !! id = None.
Proof.
  intros [_ Hsame _] Hs. apply eq_None_not_Some. rewrite <- Hsame. unfold stored in Hs.
  destruct (SkippedKeys.order (Ratchet.skipped r)); [apply not_elem_of_nil|cbn in Hs; lia].
Qed.

(** What the two sides hold once the offer is answered and the answer is read. *)
Lemma ratchets_agree (ia ib : Identity.t) (ra ra1 ra2 ra3 rb rb1 : R) (spk opk fresh ek : list octet) :
  wf_identity ia → wf_identity ib →
  random_array 32 ra = (spk, ra1) → random_array 32 ra1 = (opk, ra2) → random_array 32 ra2 = (fresh, ra3) →
  random_array 32 rb = (ek, rb1) → x25519_public fresh ≠ x25519_public spk →
  ∃ pending response a b cka ckb,
    X3dh.create_offer ia ra = (inr pending, ra2)
    ∧ bundle_sik (X3dh.bundle pending) = Identity.signing (Identity.public ia)
    ∧ X3dh.accept_offer ib (X3dh.bundle pending) rb = (inr (response, b), rb1)
    ∧ response_sik response = Identity.signing (Identity.public ib)
    ∧ X3dh.complete_handshake ia pending response ra2 = (inr a, ra3)
    ∧ paired b a (next_key ckb) ∧ turned a b cka
    ∧ Ratchet.send_chain a = Some cka ∧ Ratchet.n_send a = 0 ∧ Ratchet.prev_chain_len a = 0
    ∧ Ratchet.recv_chain b = None ∧ Ratchet.n_send b = 1 ∧ stored b = 0%nat ∧ (stored a <= 0)%nat
    ∧ Ratchet.dhs_public b = x25519_public ek.
Proof.
  intros Ha Hb E1 E2 E3 E4 Hfresh.
  destruct (offer_made ia Ha spk opk) as (sig & Hv & Hoffer).
  destruct (offer_answered ia ib Ha Hb spk opk ek sig Hv) as (sk & root & ckb & response & b & Hanswer & Hsik & Hvr & Hsk & Eb & Hturned & Hboot).
  set (a0 := Ratchet.init_as_initiator sk spk (x25519_public spk)) in *.
  assert (Ratchet.dhs_public b = x25519_public ek) as Hbp by by rewrite Eb.
  destruct (turned_receive b a0 ckb 0 (boot response) [] ra2 Hturned) as (a & Hrest);
    [by rewrite Hbp|done|by left|cbn; lia|].
  rewrite E3 in Hrest. destruct Hrest as (Hdec & Hread & Hsec & Hpub & Hns & Hprev & Hstored & cka & Hsend & Hroot2).
  exists (X3dh.mkPending (offered ia spk opk sig) spk opk), response, a, b, cka, ckb.
  split_and!; try done; try (by rewrite Eb); try (by apply Hoffer with (ra1 := ra1)); try (by apply Hanswer).
  - unfold X3dh.complete_handshake. rewrite Hvr. cbn [mbind result_bind X3dh.spk_secret X3dh.opk_secret].
    rewrite Hsk. cbn [X3dh.bundle bundle_spk offered]. fold a0. by rewrite Hdec.
  - apply (reading_paired b a ckb 0); [done|done|by rewrite Eb..].
  - split; [by rewrite Hsec, Hpub|by rewrite Eb| |rewrite Eb, Hpub; by intros [= ?]|by rewrite Eb|rewrite Eb; apply wf_skipped_new].
    rewrite Hpub. rewrite <- Hroot2, Eb. cbn. by rewrite dh_symmetric.
Qed.

(** *** Both sessions *)

(** The next message of a chain both sides stand at. *)
Lemma paired_next x y ck text (rng : R) :
  paired x y ck → Ratchet.n_send x < u32_max →
  ∃ m, (Ratchet.encrypt text x).1 = inr m ∧ (Ratchet.decrypt m y rng).1.1 = inr text.
Proof.
  intros Hp Hn. destruct (encrypt_sends text x ck (paired_send _ _ _ Hp) Hn) as (ct & -> & Hm). eexists. split; [done|].
  destruct (decrypt_reads (Ratchet.dhs_public x) ck (Ratchet.n_send x) 0 ∅ y 0
    (mkMessage (Ratchet.dhs_public x) (Ratchet.prev_chain_len x) (Ratchet.n_send x) ct) text rng) as (y' & -> & _);
    [by apply paired_reading|set_solver|by split_and!; [|cbn; lia|]|done|lia| |done].
  rewrite Nat.add_0_r. apply (paired_wf _ _ _ Hp).
Qed.

(** The first message of a chain the other side has not followed to yet. *)
Lemma turned_next x y ck text (rng : R) :
  turned x y ck → Ratchet.send_chain x = Some ck → Ratchet.n_send x = 0 →
  Ratchet.recv_chain y = None ∨ Ratchet.prev_chain_len x <= Ratchet.n_recv y →
  ∃ m, (Ratchet.encrypt text x).1 = inr m ∧ (Ratchet.decrypt m y rng).1.1 = inr text.
Proof.
  intros Ht Hs Hn Hold. destruct (encrypt_sends text x ck Hs) as (ct & -> & Hm); [by rewrite Hn|].
  eexists. split; [done|]. cbv zeta in Hm.
  destruct (turned_receive x y ck 0
    (mkMessage (Ratchet.dhs_public x) (Ratchet.prev_chain_len x) (Ratchet.n_send x) ct) text rng Ht) as (y' & Hrest);
    [split_and!; [done|cbn; by rewrite Hn|exact Hm]|done|done|rewrite Nat.add_0_r; apply (turned_wf _ _ _ Ht)|].
  destruct (random_array 32 rng) as [secret rng']. by destruct Hrest as [-> _].
Qed.

(** The proof is sent and read: the sides have changed places. *)
Lemma proof_agrees (a b : Ratchet.t) (cka ckb : list octet) (rb1 rb2 : R) (fresh : list octet) :
  paired b a ckb → turned a b cka → Ratchet.send_chain a = Some cka → Ratchet.n_send a = 0 →
  Ratchet.recv_chain b = None → stored b = 0%nat → (stored a <= 0)%nat →
  random_array 32 rb1 = (fresh, rb2) → x25519_public fresh ≠ Ratchet.dhs_public b →
  ∃ ack a' b' ckb',
    Ratchet.encrypt [] a = (inr ack, a') ∧ Ratchet.decrypt ack b rb1 = (inr [], b', rb2)
    ∧ paired a' b' (next_key cka) ∧ Ratchet.n_send a' = 1
    ∧ turned b' a' ckb' ∧ Ratchet.send_chain b' = Some ckb' ∧ Ratchet.n_send b' = 0
    ∧ Ratchet.prev_chain_len b' <= Ratchet.n_recv a'.
Proof.
  intros Hba Hab Hsend Hns Hrecv Hstb Hsta E Hfresh.
  destruct (encrypt_sends [] a cka Hsend) as (ct & Hack & Hm); [by rewrite Hns|]. cbv zeta in Hack, Hm.
  set (ack := mkMessage (Ratchet.dhs_public a) (Ratchet.prev_chain_len a) (Ratchet.n_send a) ct) in *.
  destruct (turned_receive a b cka 0 ack [] rb1 Hab) as (b' & Hrest);
    [split_and!; [done|cbn; by rewrite Hns|done]|done|by left|lia|].
  rewrite E in Hrest. destruct Hrest as (Hdec & Hread & Hsec & Hpub & Hnsb & Hprevb & _ & ckb' & Hsendb & Hroot).
  exists ack, (Ratchet.set_send (Some (next_key cka)) (Ratchet.n_send a + 1) a), b', ckb'.
  split_and!; try done.
  - apply (reading_paired _ b' cka 0); [exact Hread|done|done|cbn; by rewrite Hns].
  - cbn. by rewrite Hns.
  - split; [by rewrite Hsec, Hpub|apply Hab| | | |apply Hba].
    + cbn. by rewrite Hpub, <- Hroot, (turned_x _ _ _ Hab), dh_symmetric.
    + cbn. rewrite (paired_dh _ _ _ Hba), Hpub. intros [= Hn]. by apply Hfresh.
    + intros i. by apply (nothing_stored a); [apply Hba|].
  - cbn. rewrite Hprevb, (paired_n _ _ _ Hba). lia.
Qed.

(** C7. The handshake works: two sides that run it against each other (offer, answer, the answer read, the proof sent
    and read) both end up established, neither before it has the other's proof; each has pinned exactly the
    other's fingerprint; and from there whatever either side sends next, the other reads. The hypotheses are that
    the host's randomness does not repeat a ratchet key. *)
Theorem handshake_establishes (ia ib : Identity.t) (ra ra1 ra2 ra3 rb rb1 rb2 : R) (spk opk fresh_a ek fresh_b : list octet) :
  wf_identity ia → wf_identity ib →
  random_array 32 ra = (spk, ra1) → random_array 32 ra1 = (opk, ra2) → random_array 32 ra2 = (fresh_a, ra3) →
  random_array 32 rb = (ek, rb1) → random_array 32 rb1 = (fresh_b, rb2) →
  x25519_public fresh_a ≠ x25519_public spk → x25519_public fresh_b ≠ x25519_public ek →
  ∃ bundle response ack a1 a2 a3 b1 b2,
    E2eeSession.start ia E2eeSession.new ra = (inr bundle, a1, ra2)
    ∧ E2eeSession.accept ib (E2eeSession.receive_offer bundle E2eeSession.new).2 rb = (inr response, b1, rb1)
    ∧ E2eeSession.receive_accept ia response a1 ra2 = (inr (), a2, ra3)
    ∧ E2eeSession.make_ack a2 = (inr ack, a3)
    ∧ E2eeSession.receive_ack ack b1 rb1 = (inr (), b2, rb2)
    ∧ (E2eeSession.is_established a1 = false ∧ E2eeSession.is_established b1 = false)
    ∧ (E2eeSession.is_established a3 = true ∧ E2eeSession.is_established b2 = true)
    ∧ E2eeSession.peer_fingerprint a3 = Some (Identity.fingerprint ib)
    ∧ E2eeSession.peer_fingerprint b2 = Some (Identity.fingerprint ia)
    ∧ (∀ text rng, ∃ m, (E2eeSession.send text a3).1 = inr m ∧ (E2eeSession.receive m b2 rng).1.1 = inr text)
    ∧ (∀ text rng, ∃ m, (E2eeSession.send text b2).1 = inr m ∧ (E2eeSession.receive m a3 rng).1.1 = inr text).
Proof.
  intros Ha Hb E1 E2 E3 E4 E5 Hfa Hfb.
  destruct (ratchets_agree ia ib ra ra1 ra2 ra3 rb rb1 spk opk fresh_a ek Ha Hb E1 E2 E3 E4 Hfa)
    as (pending & response & a & b & cka & ckb & Hoffer & Hsika & Hanswer & Hsikb & Hcomplete & Hba & Hab & Hsend & Hns &
        _ & Hrecv & _ & Hstb & Hsta & Hbp).
  destruct (proof_agrees a b cka (next_key ckb) rb1 rb2 fresh_b Hba Hab Hsend Hns Hrecv Hstb Hsta E5) as
    (ack & a' & b' & ckb' & Hack & Hread & Hpair & Hna & Hturned & Hsendb & Hnsb & Hprev); [by rewrite Hbp|].
  set (trust i := PeerTrust.mk (Some (Identity.fingerprint i)) false).
  exists (X3dh.bundle pending), response, ack, (E2eeSession.mk (E2eeSession.Offered pending) PeerTrust.new None),
    (E2eeSession.mk (E2eeSession.Established a) (trust ib) (Some E2eeSession.Initiator)),
    (E2eeSession.mk (E2eeSession.Established a') (trust ib) (Some E2eeSession.Initiator)),
    (E2eeSession.mk (E2eeSession.AwaitingAck b) (trust ia) (Some E2eeSession.Responder)),
    (E2eeSession.mk (E2eeSession.Established b') (trust ia) (Some E2eeSession.Responder)).
  split_and!; try done.
  - unfold E2eeSession.start. by rewrite Hoffer.
  - unfold E2eeSession.accept. cbn [E2eeSession.receive_offer snd E2eeSession.state E2eeSession.set_state].
    rewrite Hanswer, Hsika. done.
  - unfold E2eeSession.receive_accept. cbn [E2eeSession.state]. rewrite Hcomplete, Hsikb. done.
  - unfold E2eeSession.make_ack, E2eeSession.send. cbn [E2eeSession.state]. by rewrite Hack.
  - unfold E2eeSession.receive_ack. cbn [E2eeSession.state]. by rewrite Hread.
  - intros text rng. destruct (paired_next a' b' (next_key cka) text rng Hpair) as (m & H1 & H2); [by rewrite Hna|].
    exists m. unfold E2eeSession.send, E2eeSession.receive. cbn [E2eeSession.state].
    destruct (Ratchet.encrypt text a'), (Ratchet.decrypt m b' rng) as [[? ?] ?]. done.
  - intros text rng. destruct (turned_next b' a' ckb' text rng Hturned) as (m & H1 & H2); [done|done|by right|].
    exists m. unfold E2eeSession.send, E2eeSession.receive. cbn [E2eeSession.state].
    destruct (Ratchet.encrypt text b'), (Ratchet.decrypt m a' rng) as [[? ?] ?]. done.
Qed.
End agreement.

(** ** The session as a state machine *)

Section machine.
Context `{Crypto, Primitives} {R : Type} `{RandomSource R} (identity : Identity.t).

(** What a host does with a session, and what it tells it of the peer. *)
Inductive session_op :=
  | Start | ReceiveOffer (bundle : PreKeyBundle) | AcceptIt | RejectIt (reason : option text) | ReceiveReject
  | ReceiveAccept (response : HandshakeResponse) | Send (plaintext : list octet) | ReceiveAck (ct : RatchetMessage)
  | Receive (ct : RatchetMessage) | CloseIt | ReceiveClose | MarkVerified | ConfirmChange (fingerprint : Fingerprint.t).

Definition session_step (st : E2eeSession.t * R) (o : session_op) : E2eeSession.t * R :=
  let '(s, rng) := st in
  match o with
  | Start => let '(_, s, rng) := E2eeSession.start identity s rng in (s, rng)
  | ReceiveOffer bundle => ((E2eeSession.receive_offer bundle s).2, rng)
  | AcceptIt => let '(_, s, rng) := E2eeSession.accept identity s rng in (s, rng)
  | RejectIt reason => ((E2eeSession.reject reason s).2, rng)
  | ReceiveReject => (E2eeSession.receive_reject s, rng)
  | ReceiveAccept response => let '(_, s, rng) := E2eeSession.receive_accept identity response s rng in (s, rng)
  | Send plaintext => ((E2eeSession.send plaintext s).2, rng)
  | ReceiveAck ct => let '(_, s, rng) := E2eeSession.receive_ack ct s rng in (s, rng)
  | Receive ct => let '(_, s, rng) := E2eeSession.receive ct s rng in (s, rng)
  | CloseIt => ((E2eeSession.close s).2, rng)
  | ReceiveClose => (E2eeSession.receive_close s, rng)
  | MarkVerified => (E2eeSession.mark_peer_verified s, rng)
  | ConfirmChange fingerprint => (E2eeSession.confirm_fingerprint_change fingerprint s, rng)
  end.
Definition session_run (st : E2eeSession.t * R) (ops : list session_op) : E2eeSession.t * R := foldl session_step st ops.

Definition confirms (o : session_op) : bool := match o with ConfirmChange _ => true | _ => false end.

(** Pinning keeps a pin, and only goes on with the pin it has. *)
Lemma pin_then_keeps {A} f role next (answer : A) s :
  let '(r, s') := E2eeSession.pin_then f role next answer s in
  (∀ g, E2eeSession.peer_fingerprint s = Some g → E2eeSession.peer_fingerprint s' = Some g)
  ∧ (E2eeSession.state s' ≠ E2eeSession.state s → E2eeSession.peer_fingerprint s' = Some f)
  ∧ (E2eeSession.state s' = E2eeSession.state s ∨ E2eeSession.state s' = next).
Proof.
  unfold E2eeSession.pin_then, PeerTrust.observe, E2eeSession.peer_fingerprint.
  destruct (PeerTrust.pinned (E2eeSession.trust s)) as [g|] eqn:E; [case_decide; subst|]; cbn.
  - split_and!; [by intros; rewrite E|by rewrite E|by right].
  - split_and!; [by intros; rewrite E|done|by left].
  - split_and!; [by intros; congruence|done|by right].
Qed.

Lemma step_keeps_pin s rng o f :
  confirms o = false → E2eeSession.peer_fingerprint s = Some f →
  E2eeSession.peer_fingerprint (session_step (s, rng) o).1 = Some f.
Proof.
  intros Hc Hf. destruct o; cbn [session_step]; try done.
  - unfold E2eeSession.start. by destruct (X3dh.create_offer identity rng) as [[?|?] ?].
  - unfold E2eeSession.accept. destruct (E2eeSession.state s) as [| |bundle| | | |]; try done.
    destruct (X3dh.accept_offer identity bundle rng) as [[?|[response ratchet]] rng']; [done|].
    pose proof (pin_then_keeps (Fingerprint.of_signing_key (bundle_sik bundle)) E2eeSession.Responder
      (E2eeSession.AwaitingAck ratchet) response s) as Hp.
    destruct (E2eeSession.pin_then _ _ _ _ _) as [r s']. by apply Hp.
  - unfold E2eeSession.receive_accept. destruct (E2eeSession.state s) as [|pending| | | | |]; try done.
    destruct (X3dh.complete_handshake identity pending response rng) as [[?|ratchet] rng']; [done|].
    pose proof (pin_then_keeps (Fingerprint.of_signing_key (response_sik response)) E2eeSession.Initiator
      (E2eeSession.Established ratchet) () s) as Hp.
    destruct (E2eeSession.pin_then _ _ _ _ _) as [r s']. by apply Hp.
  - unfold E2eeSession.send. destruct (E2eeSession.state s); try done. by destruct (Ratchet.encrypt _ _).
  - unfold E2eeSession.receive_ack. destruct (E2eeSession.state s); try done.
    by destruct (Ratchet.decrypt _ _ _) as [[[?|?] ?] ?].
  - unfold E2eeSession.receive. destruct (E2eeSession.state s); try done. by destruct (Ratchet.decrypt _ _ _) as [[? ?] ?].
Qed.

(** C25. A pinned key never moves by itself: whatever offers, answers and messages arrive and whatever the host does,
    the pinned fingerprint stays what it was first set to, as long as the host does not confirm a change. *)
Theorem pin_moves_only_when_confirmed s rng ops f :
  Forall (λ o, confirms o = false) ops → E2eeSession.peer_fingerprint s = Some f →
  E2eeSession.peer_fingerprint (session_run (s, rng) ops).1 = Some f.
Proof.
  intros Hops. revert s rng. induction Hops as [|o ops Ho _ IH]; intros s rng Hf; [done|]. cbn [session_run foldl].
  destruct (session_step (s, rng) o) as [s' rng'] eqn:E. apply (IH s' rng').
  change s' with (s', rng').1. rewrite <- E. by apply step_keeps_pin.
Qed.

Lemma complete_handshake_verified pending response rng ratchet rng' :
  X3dh.complete_handshake identity pending response rng = (inr ratchet, rng') →
  verify_signature (response_sik response) (concat [response_ik response; response_ek response]) (response_sig response) = inr ().
Proof. unfold X3dh.complete_handshake. by destruct (verify_signature _ _ _) as [?|[]]. Qed.

(** C24. A session becomes established in two ways only: we offered, and the answer we read is signed by the key whose
    fingerprint is now pinned; or we answered, and the message we read decrypts under the ratchet our answer made
    (an answer alone establishes nothing). *)
Theorem established_only_by_proof s rng o :
  let s' := (session_step (s, rng) o).1 in
  E2eeSession.is_established s = false → E2eeSession.is_established s' = true →
  (∃ pending response, o = ReceiveAccept response ∧ E2eeSession.state s = E2eeSession.Offered pending
     ∧ verify_signature (response_sik response) (concat [response_ik response; response_ek response])
         (response_sig response) = inr ()
     ∧ E2eeSession.peer_fingerprint s' = Some (Fingerprint.of_signing_key (response_sik response)))
  ∨ (∃ ratchet proof plaintext ratchet' rng', o = ReceiveAck proof ∧ E2eeSession.state s = E2eeSession.AwaitingAck ratchet
     ∧ Ratchet.decrypt proof ratchet rng = (inr plaintext, ratchet', rng')
     ∧ E2eeSession.state s' = E2eeSession.Established ratchet').
Proof.
  unfold E2eeSession.is_established. cbv zeta. intros Hno Hyes. destruct o; cbn [session_step] in *; try done;
    try (by cbn in Hyes; destruct (E2eeSession.state s)).
  - unfold E2eeSession.start in Hyes. destruct (X3dh.create_offer identity rng) as [[?|?] ?]; [|done].
    cbn in Hyes. by destruct (E2eeSession.state s).
  - unfold E2eeSession.accept in Hyes. destruct (E2eeSession.state s) as [| |bundle| | | |] eqn:Es; cbn in Hyes; rewrite ?Es in Hyes; try done.
    destruct (X3dh.accept_offer identity bundle rng) as [[?|[response ratchet]] rng']; cbn in Hyes; [by rewrite Es in Hyes|].
    pose proof (pin_then_keeps (Fingerprint.of_signing_key (bundle_sik bundle)) E2eeSession.Responder
      (E2eeSession.AwaitingAck ratchet) response s) as Hp.
    destruct (E2eeSession.pin_then _ _ _ _ _) as [r s']. destruct Hp as (_ & _ & [Hp|Hp]); cbn in Hyes; by rewrite Hp, ?Es in Hyes.
  - unfold E2eeSession.receive_accept in *. destruct (E2eeSession.state s) as [|pending| | | | |] eqn:Es; cbn in Hyes; rewrite ?Es in Hyes; try done.
    destruct (X3dh.complete_handshake identity pending response rng) as [[?|ratchet] rng'] eqn:Ec; cbn in Hyes; [by rewrite Es in Hyes|].
    left. exists pending, response. split_and!; [done|done|by eapply complete_handshake_verified|].
    pose proof (pin_then_keeps (Fingerprint.of_signing_key (response_sik response)) E2eeSession.Initiator
      (E2eeSession.Established ratchet) () s) as Hp.
    destruct (E2eeSession.pin_then _ _ _ _ _) as [r s']. destruct Hp as (_ & Hp & _). apply Hp. cbn in Hyes.
    intros Hs. by rewrite Hs, Es in Hyes.
  - unfold E2eeSession.send in Hyes. destruct (E2eeSession.state s) eqn:Es; cbn in Hyes; by rewrite ?Es in Hyes.
  - unfold E2eeSession.receive_ack in *. destruct (E2eeSession.state s) as [| | |ratchet| | |] eqn:Es; cbn in Hyes; rewrite ?Es in Hyes; try done.
    right. destruct (Ratchet.decrypt ct ratchet rng) as [[[?|p] ratchet'] rng'] eqn:Ed; [done|].
    by exists ratchet, ct, p, ratchet', rng'.
  - unfold E2eeSession.receive in Hyes. destruct (E2eeSession.state s) eqn:Es; cbn in Hyes; by rewrite ?Es in Hyes.
Qed.
End machine.

(** ** Instances *)

Definition toy_identity (agreement signing : octet) : Identity.t :=
  Identity.mk [agreement] [signing] (Identity.mkPublic [agreement] [signing]).

Lemma handshake_establishes_witness :
  ∃ a b : E2eeSession.t, E2eeSession.is_established a = true ∧ E2eeSession.is_established b = true
    ∧ E2eeSession.peer_fingerprint a = Some (@Identity.fingerprint toy_crypto (toy_identity 3 4))
    ∧ ∀ text, ∃ m, (@E2eeSession.send toy_crypto toy_primitives text b).1 = inr m
        ∧ (@E2eeSession.receive toy_crypto toy_primitives N _ m a 0%N).1.1 = inr text.
Proof.
  destruct (@handshake_establishes toy_crypto toy_laws toy_primitives _ N _ (toy_identity 1 2) (toy_identity 3 4)
    10%N 11%N 12%N 13%N 100%N 101%N 102%N (replicate 32 10%N) (replicate 32 11%N) (replicate 32 12%N) (replicate 32 100%N)
    (replicate 32 101%N)) as (bundle & response & ack & a1 & a2 & a3 & b1 & b2 & _ & _ & _ & _ & _ & _ & [Ha Hb] & Hfa & _ & _ & Hm);
    [done|done|by vm_compute..|].
  exists a3, b2. split_and!; [done..|]. intros text. apply Hm.
Defined.

Lemma pin_moves_only_when_confirmed_witness :
  let s := E2eeSession.mk E2eeSession.Idle (PeerTrust.mk (Some [1%N]) true) None in
  let ops := [ReceiveOffer (mkBundle [1] [9] [2] ([9] ++ [1; 2; 3]) [3])%N; AcceptIt; Send [1%N]; CloseIt] in
  E2eeSession.peer_fingerprint (@session_run toy_crypto toy_primitives N _ (toy_identity 1 2) (s, 0%N) ops).1 = Some [1%N].
Proof.
  cbv zeta. apply (@pin_moves_only_when_confirmed toy_crypto toy_primitives N _ (toy_identity 1 2)); [repeat constructor|done].
Defined.

(** An answer to the offer of [toy_identity 1 2]. *)
Definition toy_bundle : PreKeyBundle :=
  (mkBundle [1] [2] (replicate 32 10) ([2] ++ [1] ++ replicate 32 10 ++ replicate 32 11) (replicate 32 11))%N.
Definition toy_response : HandshakeResponse :=
  match (@X3dh.accept_offer toy_crypto toy_primitives N _ (toy_identity 3 4) toy_bundle 100%N).1 with
  | inr (response, _) => response
  | inl _ => mkResponse [] [] [] [] (mkMessage [] 0 0 [])
  end.

Lemma established_only_by_proof_witness :
  let s := E2eeSession.mk (E2eeSession.Offered (X3dh.mkPending toy_bundle (replicate 32 10%N) (replicate 32 11%N)))
             PeerTrust.new None in
  E2eeSession.peer_fingerprint
    (@session_step toy_crypto toy_primitives N _ (toy_identity 1 2) (s, 12%N) (ReceiveAccept toy_response)).1 =
    Some (@Fingerprint.of_signing_key toy_crypto (response_sik toy_response)).
Proof.
  cbv zeta.
  match goal with |- context [session_step ?i (?s, ?rng) ?o] =>
    destruct (@established_only_by_proof toy_crypto toy_primitives N _ i s rng o) as
      [(p & r & Hr & _ & _ & Hp)|(? & ? & ? & ? & ? & Hr & _)] end; [done|by vm_compute| |discriminate Hr].
  injection Hr as <-. exact Hp.
Defined.
