(* ===== verification/E2eeConversation.v ===== *)
(** * Whole conversations (theorems about src/crates/obby-client/src/e2ee.rs)

    Both ends of an encrypted conversation, with the messages between them in flight: what
    one side encrypts the other decrypts, however the two take turns, in whatever order
    messages arrive, whichever of them never do, and whatever forgeries come between. *)
From S2P Require Import Prelude Utf8 Base64 Scram E2ee E2eeRatchet E2eeHandshake.

(** ** Two sides and what is in flight *)

Section conversation.
Context {C : Crypto} {CL : CryptoLaws C} {P : Primitives} {PL : PrimitivesLaws P}.
Context {R : Type} `{RandomSource R}.

(** One end: its ratchet, its randomness, and the messages sent to it that have not arrived (yet, or ever), with what
    was encrypted in each. A message is told from the others by its header. *)
Record side := mkSide {
  ratchet : Ratchet.t; rng : R; inbox : gmap SkippedKeys.id (RatchetMessage * list octet);
}.

(** A side encrypts; or one of the messages in flight to it arrives; or something else does. *)
Inductive action := Say (plaintext : list octet) | Hear (id : SkippedKeys.id) | Overhear (m : RatchetMessage).

Definition act (a : action) (x y : side) : side * side :=
  match a with
  | Say plaintext =>
      let '(m, r) := Ratchet.encrypt plaintext (ratchet x) in
      (mkSide r (rng x) (inbox x),
       match m with inr m => mkSide (ratchet y) (rng y) (<[(dh m, n m) := (m, plaintext)]> (inbox y)) | inl _ => y end)
  | Hear id =>
      match inbox x !! id with
      | Some (m, _) =>
          let '(_, r, g) := Ratchet.decrypt m (ratchet x) (rng x) in (mkSide r g (delete id (inbox x)), y)
      | None => (x, y)
      end
  | Overhear m => let '(_, r, g) := Ratchet.decrypt m (ratchet x) (rng x) in (mkSide r g (inbox x), y)
  end.

(** The ratchet key this side would turn to next. *)
Definition next_public (x : side) : list octet := x25519_public (random_array 32 (rng x)).1.

(** What is asked of the world: a chain has fewer than 2^32 messages; no more than 1000 messages to one side are in
    flight or lost when one arrives; the key drawn when one arrives is not in use; and what else arrives is no
    forgery that verifies. *)
Definition allowed (a : action) (x y : side) : Prop :=
  match a with
  | Say _ => Ratchet.n_send (ratchet x) < u32_max
  | Hear _ =>
      Z.of_nat (size (inbox x)) <= MAX_SKIP
      ∧ next_public x ≠ Ratchet.dhs_public (ratchet x)
      ∧ map_Forall (λ id _, id.1 ≠ next_public x) (inbox y)
  | Overhear m => ∃ e, (Ratchet.decrypt m (ratchet x) (rng x)).1.1 = inl e
  end.

#[export] Instance allowed_dec a x y : Decision (allowed a x y).
Proof.
  destruct a as [p|id|m]; cbn [allowed]; [apply _..|].
  destruct (Ratchet.decrypt m (ratchet x) (rng x)).1.1 as [e|p]; [left; by exists e|right; by intros [? ?]].
Defined.

(** The two sides, the one that acts first. *)
Definition view (second : bool) (c : side * side) : side * side := if second then (c.2, c.1) else c.
Definition converse (c : side * side) (e : bool * action) : side * side :=
  let '(x, y) := view e.1 c in view e.1 (act e.2 x y).
Fixpoint all_allowed (c : side * side) (es : list (bool * action)) : Prop :=
  match es with
  | [] => True
  | e :: es => allowed e.2 (view e.1 c).1 (view e.1 c).2 ∧ all_allowed (converse c e) es
  end.

#[export] Instance all_allowed_dec es : ∀ c, Decision (all_allowed c es).
Proof. induction es as [|e es IH]; intros c; cbn [all_allowed]; apply _. Defined.

(** ** One direction *)

Implicit Types (N : gmap SkippedKeys.id (RatchetMessage * list octet)) (d ck : list octet) (i j : nat).

(** Messages of the chain of [d] from the [j]-th on. *)
Definition following d j (id : SkippedKeys.id) : Prop := id.1 = d ∧ Z.of_nat j <= id.2.
#[local] Instance following_dec d j id : Decision (following d j id).
Proof. unfold following. apply _. Defined.

(** Every message in flight is either still [coming], or its key is among the stored ones; and no other key is. *)
Record lane N (s : SkippedKeys.t) (coming : SkippedKeys.id → Prop) : Prop := {
  lane_wf : wf_skipped s;
  lane_stored id m p : N !! id = Some (m, p) → ¬ coming id →
    ∃ mk, SkippedKeys.by_id s !! id = Some mk ∧ Ratchet.decrypt_with_key mk m = inr p;
  lane_known id : is_Some (SkippedKeys.by_id s !! id) → is_Some (N !! id) ∧ ¬ coming id;
  lane_header id m p : N !! id = Some (m, p) → (dh m, n m) = id ∧ 0 <= id.2;
}.

(** From the [j]-th message on, those in flight are the ones sent: up to [limit]. *)
Record tail N d ck j (limit : Z) : Prop := {
  tail_sent i : (j <= i)%nat → is_Some (N !! (d, Z.of_nat i)) ↔ Z.of_nat i < limit;
  tail_opens i m p : (j <= i)%nat → N !! (d, Z.of_nat i) = Some (m, p) →
    Ratchet.decrypt_with_key (message_key (chain_at ck i)) m = inr p;
  tail_bound : Z.of_nat j <= limit <= u32_max;
}.

(** The receiver stands before the [j]-th message of the chain. *)
Definition receives (r : Ratchet.t) d ck j : Prop :=
  Ratchet.dhr r = Some d ∧ Ratchet.recv_chain r = Some (chain_at ck j) ∧ Ratchet.n_recv r = Z.of_nat j.

Lemma lane_weaken N s (coming coming' : SkippedKeys.id → Prop) :
  lane N s coming → (∀ id, is_Some (N !! id) → coming id ↔ coming' id) → lane N s coming'.
Proof.
  intros [Hw Hs Hk Hh] Hiff. split; [done| | |done].
  - intros id m p HN Hc. apply (Hs id m p HN). rewrite Hiff; [done|by eexists].
  - intros id [HN Hc]%Hk. split; [done|]. by rewrite <- Hiff.
Qed.

Lemma keys_within N (l : list SkippedKeys.id) : NoDup l → (∀ id, id ∈ l → is_Some (N !! id)) → (length l <= size N)%nat.
Proof.
  intros Hnd Hin. rewrite <- size_dom, <- (size_list_to_set (C := gset SkippedKeys.id) l Hnd).
  apply subseteq_size. intros id. rewrite elem_of_list_to_set, elem_of_dom. apply Hin.
Qed.

Lemma lane_stored_fits N s coming : lane N s coming → (length (SkippedKeys.order s) <= size N)%nat.
Proof.
  intros [[Hnd Hsame _] _ Hk _]. apply keys_within; [done|]. intros id Hid. by apply Hk, Hsame.
Qed.

Lemma tail_fits N d ck j limit i : tail N d ck j limit → Z.of_nat i <= limit → (i - j <= size N)%nat.
Proof.
  intros [Hs _ _] Hi.
  replace (i - j)%nat with (length ((λ k, (d, Z.of_nat k)) <$> seq j (i - j))) by (by rewrite length_fmap, length_seq).
  apply keys_within.
  - apply NoDup_fmap; [intros ?? [=]; lia|apply NoDup_seq].
  - intros id (k & -> & Hk%elem_of_seq)%list_elem_of_fmap. apply Hs; lia.
Qed.

Lemma tail_delete N d ck j limit id : tail N d ck j limit → ¬ following d j id → tail (delete id N) d ck j limit.
Proof.
  intros [Hs Ho Hb] Hid. assert (∀ i, (j <= i)%nat → delete id N !! (d, Z.of_nat i) = N !! (d, Z.of_nat i)) as Hne.
  { intros i Hi. apply lookup_delete_ne. intros ->. apply Hid. split; [done|cbn; lia]. }
  split; [| |done]; intros i *; [|intros Hi; rewrite Hne by done; by apply Ho].
  intros Hi. rewrite Hne by done. by apply Hs.
Qed.

(** A message that is not among those coming is read with its stored key. *)
Lemma hear_stored N s coming id m p :
  lane N s coming → N !! id = Some (m, p) → ¬ coming id →
  ∃ mk s', SkippedKeys.take (dh m) (n m) s = Some (mk, s')
    ∧ Ratchet.decrypt_with_key mk m = inr p ∧ lane (delete id N) s' coming.
Proof.
  intros [Hw Hs Hk Hh] HN Hc. destruct (Hs id m p HN Hc) as (mk & Hmk & Hp). destruct (Hh id m p HN) as [Hid _].
  assert (∃ s', SkippedKeys.take (dh m) (n m) s = Some (mk, s')
    ∧ SkippedKeys.by_id s' = delete id (SkippedKeys.by_id s)) as (s' & Ht & Hs').
  { unfold SkippedKeys.take. cbv zeta. rewrite Hid, Hmk. by eexists. }
  exists mk, s'. split_and!; [done|done|]. split.
  - by eapply take_wf_skipped.
  - intros id' m' p' (Hne & HN')%lookup_delete_Some Hc'. rewrite Hs', lookup_delete_ne by done. by apply (Hs id' m' p').
  - intros id'. rewrite Hs'. intros [k (Hne & Hk')%lookup_delete_Some]. rewrite lookup_delete_ne by done.
    apply Hk. by eexists.
  - intros id' m' p' (_ & HN')%lookup_delete_Some. by eapply Hh.
Qed.

Section receiving.
Context (elsewhere : SkippedKeys.id → Prop) (d ck : list octet) (Helse : ∀ id, elsewhere id → id.1 ≠ d).

Definition or_following j (id : SkippedKeys.id) : Prop := elsewhere id ∨ following d j id.

(** Passing over messages on the way to the [i]-th stores their keys. *)
Lemma pass N j limit r i :
  lane N (Ratchet.skipped r) (or_following j) → tail N d ck j limit → receives r d ck j →
  (j <= i)%nat → Z.of_nat i <= limit → Z.of_nat (size N) <= MAX_SKIP →
  ∃ r', Ratchet.skip_current_receiving_chain (Z.of_nat i) r = inr r' ∧ sending r' = sending r
    ∧ lane N (Ratchet.skipped r') (or_following i) ∧ tail N d ck i limit ∧ receives r' d ck i.
Proof.
  intros HL HT (Hd & Hc & Hn) Hji Hi Hsize. pose proof (tail_fits _ _ _ _ _ i HT Hi) as Hspan.
  pose proof (lane_stored_fits _ _ _ HL) as Hfit. destruct HL as [Hw Hs Hk Hh], HT as [Hsent Hopens Hbound].
  assert (tail N d ck i limit) as HT' by (split; [intros k Hk'; apply Hsent; lia|intros k * Hk'; apply Hopens; lia|lia]).
  unfold Ratchet.skip_current_receiving_chain. rewrite Hd, Hc, Hn. case_decide as Hle.
  { assert (i = j) as -> by lia. exists r. by split_and!. }
  cbv zeta. rewrite decide_False by (unfold MAX_SKIP in *; lia). replace (Z.to_nat _) with (i - j)%nat by lia.
  assert (∀ k, (j <= k)%nat → SkippedKeys.by_id (Ratchet.skipped r) !! (d, 0 + Z.of_nat k) = None) as Hnone.
  { intros k Hk'. apply eq_None_not_Some. intros [_ Hnot]%Hk. apply Hnot. right. split; [done|cbn; lia]. }
  destruct (skip_loop_reads d ck 0 (i - j) j (Ratchet.skipped r) Hw) as (s' & E & Hw' & _ & Hk');
    [unfold MAX_SKIP, MAX_SKIPPED_KEYS in *; lia|lia|done|].
  replace (j + (i - j))%nat with i in * by lia. rewrite !Z.add_0_l in E. rewrite E. cbn [mbind result_bind].
  eexists. split; [done|]. split_and!; [done| |done|done]. cbn [Ratchet.set_recv Ratchet.skipped].
  split; [done| | |done].
  - intros [d' n'] m p HN Hnot. rewrite Hk'. cbn [fst snd]. rewrite Z.sub_0_r. case_decide as Hin.
    + destruct Hin as [-> Hin]. eexists. split; [done|]. apply (Hopens _ _ p); [lia|]. by rewrite Z2Nat.id by lia.
    + apply (Hs _ _ p HN). intros [He|[Hd' Hn']]; apply Hnot; [by left|right]. cbn in Hd', Hn'. subst d'.
      split; [done|]. cbn. destruct (decide (Z.of_nat i <= n')); [done|]. exfalso. apply Hin. split; [done|lia].
  - intros [d' n']. rewrite Hk'. cbn [fst snd]. rewrite Z.sub_0_r. case_decide as Hin.
    + intros _. destruct Hin as [-> Hin]. split.
      * rewrite <- (Z2Nat.id n') by lia. apply Hsent; lia.
      * intros [He|[_ Hn']]; [by apply (Helse _ He)|cbn in Hn'; lia].
    + intros [HN Hnot]%Hk. split; [done|]. intros [He|[Hd' Hn']]; apply Hnot; [by left|right]. split; [done|]. cbn in *. lia.
Qed.

(** The message the receiver has come to, or one further on in the chain. *)
Lemma hear_current N j limit r i m p :
  lane N (Ratchet.skipped r) (or_following j) → tail N d ck j limit → receives r d ck j →
  (j <= i)%nat → N !! (d, Z.of_nat i) = Some (m, p) → Z.of_nat (size N) <= MAX_SKIP →
  ∃ r', Ratchet.decrypt_current m r = inr (p, r') ∧ sending r' = sending r
    ∧ lane (delete (d, Z.of_nat i) N) (Ratchet.skipped r') (or_following (S i))
    ∧ tail (delete (d, Z.of_nat i) N) d ck (S i) limit ∧ receives r' d ck (S i).
Proof.
  intros HL HT Hr Hji HN Hsize.
  assert (Z.of_nat i < limit) as Hi by (apply (tail_sent _ _ _ _ _ HT); [done|by eexists]).
  destruct (lane_header _ _ _ HL _ _ _ HN) as [[= Hmd Hmn] _].
  destruct (pass N j limit r i HL HT Hr) as (r1 & E & Hsend & HL1 & HT1 & Hd1 & Hc1 & Hn1); [done|lia|done|].
  unfold Ratchet.decrypt_current. rewrite Hmn, E. cbn [mbind result_bind]. rewrite Hc1. cbn [ok_or mbind result_bind].
  rewrite kdf_chain_eq. cbn [mbind result_bind]. rewrite Hn1. unfold checked_add_u32.
  rewrite decide_True by (pose proof (tail_bound _ _ _ _ _ HT1); lia). cbn [ok_or mbind result_bind].
  rewrite (tail_opens _ _ _ _ _ HT1 i m p) by done. cbn [mbind result_bind]. eexists. split; [done|].
  split_and!; [done| | |split_and!; [done|done|cbn; lia]].
  - cbn [Ratchet.set_recv Ratchet.skipped]. destruct HL1 as [Hw Hs Hk Hh]. split; [done| | |].
    + intros id m' p' (Hne & HN')%lookup_delete_Some Hnot. apply (Hs id m' p' HN').
      intros [He|[Hd' Hn']]; apply Hnot; [by left|right]. split; [done|]. destruct id as [d' n']. cbn in *. subst d'.
      destruct (decide (n' = Z.of_nat i)) as [->|]; [done|lia].
    + intros id Hid. destruct (Hk id Hid) as [HNs Hnot]. split.
      * rewrite lookup_delete_ne; [done|]. intros <-. apply Hnot. right. split; [done|cbn; lia].
      * intros [He|[Hd' Hn']]; apply Hnot; [by left|right]. split; [done|lia].
    + intros id m' p' (_ & HN')%lookup_delete_Some. by eapply Hh.
  - apply tail_delete; [|intros [_ Hle]; cbn in Hle; lia]. destruct HT1 as [Hsent Hopens Hbound].
    split; [intros k Hk'; apply Hsent; lia|intros k * Hk'; apply Hopens; lia|lia].
Qed.
End receiving.

(** *** Sending *)

Lemma lane_no_key N s coming d (i : Z) : lane N s coming → (∀ i : Z, 0 <= i → coming (d, i)) → SkippedKeys.by_id s !! (d, i) = None.
Proof.
  intros [_ _ Hk Hh] Hc. apply eq_None_not_Some. intros [[[m p] HN] Hnot]%Hk. apply Hnot, Hc. by apply (Hh _ _ _ HN).
Qed.

Lemma lane_insert N s coming m p :
  lane N s coming → coming (dh m, n m) → 0 <= n m → lane (<[(dh m, n m) := (m, p)]> N) s coming.
Proof.
  intros [Hw Hs Hk Hh] Hc Hn. split; [done| | |].
  - intros id m' p' [[<- _]|[_ HN]]%lookup_insert_Some Hnot; [done|by apply (Hs id m' p')].
  - intros id [HN Hnot]%Hk. split; [|done]. rewrite lookup_insert_ne; [done|]. by intros <-.
  - intros id m' p' [[<- [= <- <-]]|[_ HN]]%lookup_insert_Some; [done|by eapply Hh].
Qed.

Lemma tail_insert N d ck j limit m p :
  tail N d ck j limit → limit < u32_max → Ratchet.decrypt_with_key (message_key (chain_at ck (Z.to_nat limit))) m = inr p →
  tail (<[(d, limit) := (m, p)]> N) d ck j (limit + 1).
Proof.
  intros [Hs Ho Hb] Hl Hm. split; [| |lia].
  - intros i Hi. destruct (decide (Z.of_nat i = limit)) as [<-|Hne].
    + rewrite lookup_insert_eq. split; [lia|by eexists].
    + rewrite lookup_insert_ne by congruence. rewrite Hs by done. lia.
  - intros i m' p' Hi [[[= ->] [= <- <-]]|[_ HN]]%lookup_insert_Some; [by rewrite Nat2Z.id in Hm|by apply Ho].
Qed.

Lemma tail_insert_other N d ck j limit id mp : id.1 ≠ d → tail N d ck j limit → tail (<[id := mp]> N) d ck j limit.
Proof.
  intros Hid [Hs Ho Hb]. assert (∀ i : Z, <[id := mp]> N !! (d, i) = N !! (d, i)) as Hne.
  { intros i. apply lookup_insert_ne. by intros ->. }
  split; [| |done]; intros *; rewrite Hne; [apply Hs|apply Ho].
Qed.

(** *** Receiving *)

Lemma decrypt_stored (r : Ratchet.t) (g : R) N coming id m p :
  lane N (Ratchet.skipped r) coming → N !! id = Some (m, p) → ¬ coming id →
  ∃ s', Ratchet.decrypt m r g = (inr p, Ratchet.set_recv (Ratchet.recv_chain r) (Ratchet.n_recv r) s' r, g)
    ∧ lane (delete id N) s' coming.
Proof.
  intros HL HN Hc. destruct (hear_stored _ _ _ _ _ _ HL HN Hc) as (mk & s' & Ht & Hp & HL').
  exists s'. split; [|done]. unfold Ratchet.decrypt. by rewrite Ht, Hp.
Qed.

Lemma decrypt_coming (r t r' : Ratchet.t) (g g' : R) N coming id m p :
  lane N (Ratchet.skipped r) coming → N !! id = Some (m, p) → coming id →
  Ratchet.follow_header m r g = (inr t, g') → Ratchet.decrypt_current m t = inr (p, r') →
  Ratchet.decrypt m r g = (inr p, r', g').
Proof.
  intros HL HN Hc Hf Hd. destruct (lane_header _ _ _ HL _ _ _ HN) as [Hid _]. unfold Ratchet.decrypt, SkippedKeys.take.
  cbv zeta. rewrite Hid. destruct (SkippedKeys.by_id (Ratchet.skipped r) !! id) as [mk|] eqn:E.
  - by destruct (lane_known _ _ _ HL id) as [_ []]; [eexists|].
  - cbn [mbind option_bind]. rewrite Hf. cbn [mbind result_bind]. by rewrite Hd.
Qed.

Lemma follow_known m r (g : R) : Ratchet.dhr r = Some (dh m) → Ratchet.follow_header m r g = (inr r, g).
Proof. intros Hd. unfold Ratchet.follow_header. by rewrite Hd, decide_False by tauto. Qed.

(** ** Both directions *)

(** Where a side still reads the chain before the newest, if it has one. *)
Definition old_coming (old : option (list octet * list octet * nat)) (id : SkippedKeys.id) : Prop :=
  match old with Some (d, _, j) => following d j id | None => False end.
Definition old_chain (old : option (list octet * list octet * nat)) N (r : Ratchet.t) (limit : Z) : Prop :=
  match old with Some (d, ck, j) => receives r d ck j ∧ tail N d ck j limit | None => Ratchet.recv_chain r = None end.
Definition ahead_coming d old (id : SkippedKeys.id) : Prop := following d 0 id ∨ old_coming old id.

(** One side is always ahead: it has turned, and nothing of its newest chain [ck] has arrived. The other is still on
    the chain before, [ck0], of which the side ahead has come to the [j]-th message. *)
Record ahead (x y : side) ck old ck0 j : Prop := {
  ahead_turned : turned (ratchet x) (ratchet y) ck;
  ahead_send : Ratchet.send_chain (ratchet x) = Some (chain_at ck (Z.to_nat (Ratchet.n_send (ratchet x))));
  ahead_tail : tail (inbox y) (Ratchet.dhs_public (ratchet x)) ck 0 (Ratchet.n_send (ratchet x));
  ahead_pn (i : Z) m p : inbox y !! (Ratchet.dhs_public (ratchet x), i) = Some (m, p) → pn m = Ratchet.prev_chain_len (ratchet x);
  ahead_lane : lane (inbox y) (Ratchet.skipped (ratchet y)) (ahead_coming (Ratchet.dhs_public (ratchet x)) old);
  ahead_old : old_chain old (inbox y) (ratchet y) (Ratchet.prev_chain_len (ratchet x));
  behind_send : Ratchet.send_chain (ratchet y) = Some (chain_at ck0 (Z.to_nat (Ratchet.n_send (ratchet y))));
  behind_recv : receives (ratchet x) (Ratchet.dhs_public (ratchet y)) ck0 j;
  behind_tail : tail (inbox x) (Ratchet.dhs_public (ratchet y)) ck0 j (Ratchet.n_send (ratchet y));
  behind_lane : lane (inbox x) (Ratchet.skipped (ratchet x)) (or_following (λ _, False) (Ratchet.dhs_public (ratchet y)) j);
}.

(** Keys and peers the same, and no stored key of the new chain: still turned. *)
Lemma turned_frame (x y x' y' : Ratchet.t) ck :
  turned x y ck → Ratchet.root_key x' = Ratchet.root_key x → Ratchet.dhs_secret x' = Ratchet.dhs_secret x →
  Ratchet.dhs_public x' = Ratchet.dhs_public x → Ratchet.root_key y' = Ratchet.root_key y →
  Ratchet.dhs_secret y' = Ratchet.dhs_secret y → Ratchet.dhs_public y' = Ratchet.dhs_public y →
  Ratchet.dhr y' = Ratchet.dhr y → (∀ i : Z, SkippedKeys.by_id (Ratchet.skipped y') !! (Ratchet.dhs_public x, i) = None) →
  wf_skipped (Ratchet.skipped y') → turned x' y' ck.
Proof.
  intros [H1 H2 H3 H4 H5 H6] E1 E2 E3 E4 E5 E6 E7 Hf Hw. split; rewrite ?E1, ?E2, ?E3, ?E4, ?E5, ?E6, ?E7; done.
Qed.

Lemma ahead_new_distinct x y ck d ckd k ck0 j :
  ahead x y ck (Some (d, ckd, k)) ck0 j → Ratchet.dhs_public (ratchet x) ≠ d.
Proof. intros HA <-. destruct (ahead_old _ _ _ _ _ _ HA) as [(Hd & _) _]. by apply (turned_new _ _ _ (ahead_turned _ _ _ _ _ _ HA)). Qed.

(** The side ahead says something. *)
Lemma ahead_says x y ck old ck0 j p :
  ahead x y ck old ck0 j → Ratchet.n_send (ratchet x) < u32_max →
  let '(x', y') := act (Say p) x y in ahead x' y' ck old ck0 j.
Proof.
  intros HA Hn. destruct (encrypt_sends p _ _ (ahead_send _ _ _ _ _ _ HA) Hn) as (ct & E & Hm). cbv zeta in E, Hm.
  cbn [act]. rewrite E. set (m := mkMessage _ _ _ _) in *. pose proof HA as [HT Hs Hta Hpn HL Ho Hs0 Hr0 Ht0 HL0].
  pose proof (tail_bound _ _ _ _ _ Hta) as Hb.
  split; cbn [ratchet inbox Ratchet.set_send Ratchet.dhs_public Ratchet.send_chain Ratchet.n_send Ratchet.prev_chain_len
    Ratchet.skipped]; try done.
  - apply (turned_frame _ _ _ _ _ HT); [done..|apply HT|apply HT].
  - replace (Z.to_nat (Ratchet.n_send (ratchet x) + 1)) with (S (Z.to_nat (Ratchet.n_send (ratchet x)))) by lia. done.
  - by apply tail_insert.
  - intros i m' p' [[_ [= <- <-]]|[_ HN]]%lookup_insert_Some; [done|by apply (Hpn i m' p')].
  - apply lane_insert; [done|left; split; [done|cbn; lia]|cbn; lia].
  - destruct old as [[[d ckd] k]|]; [|done]. destruct Ho as [Hr Ho]. split; [done|]. apply tail_insert_other; [|done].
    by apply (ahead_new_distinct x y ck d ckd k ck0 j).
Qed.

(** The side behind does. *)
Lemma behind_says x y ck old ck0 j p :
  ahead x y ck old ck0 j → Ratchet.n_send (ratchet y) < u32_max →
  let '(y', x') := act (Say p) y x in ahead x' y' ck old ck0 j.
Proof.
  intros HA Hn. destruct (encrypt_sends p _ _ (behind_send _ _ _ _ _ _ HA) Hn) as (ct & E & Hm). cbv zeta in E, Hm.
  cbn [act]. rewrite E. set (m := mkMessage _ _ _ _) in *. pose proof HA as [HT Hs Hta Hpn HL Ho Hs0 Hr0 Ht0 HL0].
  pose proof (tail_bound _ _ _ _ _ Ht0) as Hb.
  split; cbn [ratchet inbox Ratchet.set_send Ratchet.dhs_public Ratchet.send_chain Ratchet.n_send Ratchet.prev_chain_len
    Ratchet.skipped]; try done.
  - apply (turned_frame _ _ _ _ _ HT); [done..|apply HT|apply HT].
  - replace (Z.to_nat (Ratchet.n_send (ratchet y) + 1)) with (S (Z.to_nat (Ratchet.n_send (ratchet y)))) by lia. done.
  - by apply tail_insert.
  - apply lane_insert; [done|right; split; [done|cbn; lia]|cbn; lia].
Qed.

(** What receiving has to keep, on either side. *)
Lemma ahead_received x x' y ck old ck0 j j' :
  ahead x y ck old ck0 j → sending (ratchet x') = sending (ratchet x) →
  receives (ratchet x') (Ratchet.dhs_public (ratchet y)) ck0 j' →
  tail (inbox x') (Ratchet.dhs_public (ratchet y)) ck0 j' (Ratchet.n_send (ratchet y)) →
  lane (inbox x') (Ratchet.skipped (ratchet x')) (or_following (λ _, False) (Ratchet.dhs_public (ratchet y)) j') →
  ahead x' y ck old ck0 j'.
Proof.
  intros [HT Hs Hta Hpn HL Ho Hs0 Hr0 Ht0 HL0] [= F1 F2 F3 F4 F5 F6] Hr Ht HL'.
  split; rewrite ?F3, ?F4, ?F5, ?F6; try done. by apply (turned_frame _ _ _ _ _ HT); try done; apply HT.
Qed.

Lemma behind_received x y y' ck old old' ck0 j id :
  ahead x y ck old ck0 j → sending (ratchet y') = sending (ratchet y) →
  Ratchet.dhr (ratchet y') = Ratchet.dhr (ratchet y) → inbox y' = delete id (inbox y) →
  ¬ following (Ratchet.dhs_public (ratchet x)) 0 id →
  lane (inbox y') (Ratchet.skipped (ratchet y')) (ahead_coming (Ratchet.dhs_public (ratchet x)) old') →
  old_chain old' (inbox y') (ratchet y') (Ratchet.prev_chain_len (ratchet x)) →
  ahead x y' ck old' ck0 j.
Proof.
  intros [HT Hs Hta Hpn HL Ho Hs0 Hr0 Ht0 HL0] [= F1 F2 F3 F4 F5 F6] Hd Hin Hid HL' Ho'.
  split; rewrite ?F3, ?F4, ?F5, ?F6; try done.
  - apply (turned_frame _ _ _ _ _ HT); try done; [|apply HL']. intros i.
    apply (lane_no_key _ _ _ _ i HL'). intros k Hk. left. by split.
  - rewrite Hin. by apply tail_delete.
  - intros i m p. rewrite Hin. intros [_ HN]%lookup_delete_Some. by apply (Hpn i m p).
Qed.

Lemma nonneg_following d j id : following d j id → ∃ i, (j <= i)%nat ∧ id = (d, Z.of_nat i).
Proof.
  destruct id as [d' n']. intros [Hd Hn]. cbn in *. subst d'. exists (Z.to_nat n'). split; [lia|]. by rewrite Z2Nat.id by lia.
Qed.

Lemma nowhere d (id : SkippedKeys.id) : False → id.1 ≠ d.
Proof. done. Qed.
Lemma new_elsewhere x y ck d ckd k ck0 j :
  ahead x y ck (Some (d, ckd, k)) ck0 j → ∀ id, following (Ratchet.dhs_public (ratchet x)) 0 id → id.1 ≠ d.
Proof. intros HA id [-> _]. by apply (ahead_new_distinct x y ck d ckd k ck0 j). Qed.

(** The side ahead hears something: it knows the chain. *)
Lemma ahead_hears x y ck old ck0 j id m p :
  ahead x y ck old ck0 j → inbox x !! id = Some (m, p) → Z.of_nat (size (inbox x)) <= MAX_SKIP →
  ∃ r' j', Ratchet.decrypt m (ratchet x) (rng x) = (inr p, r', rng x)
    ∧ ahead (mkSide r' (rng x) (delete id (inbox x))) y ck old ck0 j'.
Proof.
  intros HA HN Hsize. pose proof (behind_lane _ _ _ _ _ _ HA) as HL. pose proof (behind_tail _ _ _ _ _ _ HA) as HT.
  pose proof (behind_recv _ _ _ _ _ _ HA) as Hr.
  destruct (decide (following (Ratchet.dhs_public (ratchet y)) j id)) as [Hf|Hf].
  - destruct (nonneg_following _ _ _ Hf) as (i & Hji & ->).
    destruct (hear_current (λ _, False) _ _ (nowhere _) _ _ _ _ _ _ _ HL HT Hr Hji HN Hsize) as (r' & Hd & Hsend & HL' & HT' & Hr').
    exists r', (S i). split; [|by apply (ahead_received x _ y ck old ck0 j)].
    apply (decrypt_coming _ (ratchet x) _ _ _ _ _ _ _ _ HL HN); [by right| |done]. apply follow_known.
    destruct (lane_header _ _ _ HL _ _ _ HN) as [[= -> _] _]. apply Hr.
  - destruct (decrypt_stored (ratchet x) (rng x) _ _ _ _ _ HL HN) as (s' & Hd & HL'); [by intros [[]|?]|].
    eexists _, j. split; [exact Hd|]. apply (ahead_received x _ y ck old ck0 j); try done. by apply tail_delete.
Qed.

(** The side behind hears something of the chains it knows. *)
Lemma behind_hears_known x y ck old ck0 j id m p :
  ahead x y ck old ck0 j → inbox y !! id = Some (m, p) → Z.of_nat (size (inbox y)) <= MAX_SKIP →
  ¬ following (Ratchet.dhs_public (ratchet x)) 0 id →
  ∃ r' old', Ratchet.decrypt m (ratchet y) (rng y) = (inr p, r', rng y)
    ∧ ahead x (mkSide r' (rng y) (delete id (inbox y))) ck old' ck0 j.
Proof.
  intros HA HN Hsize Hnew. pose proof (ahead_lane _ _ _ _ _ _ HA) as HL. pose proof (ahead_old _ _ _ _ _ _ HA) as Ho.
  assert (Decision (old_coming old id)) as [Hf|Hf] by (destruct old as [[[d ckd] k]|]; cbn; apply _).
  - destruct old as [[[d ckd] k]|]; [|done]. destruct Ho as [Hr HT], (nonneg_following _ _ _ Hf) as (i & Hki & ->).
    destruct (hear_current _ _ _ (new_elsewhere _ _ _ _ _ _ _ _ HA) _ _ _ _ _ _ _ HL HT Hr Hki HN Hsize)
      as (r' & Hd & Hsend & HL' & HT' & Hr').
    exists r', (Some (d, ckd, S i)). split; [|apply (behind_received x y _ ck (Some (d, ckd, k)) _ ck0 j (d, Z.of_nat i) HA); try done].
    + apply (decrypt_coming _ (ratchet y) _ _ _ _ _ _ _ _ HL HN); [by right| |done]. apply follow_known.
      destruct (lane_header _ _ _ HL _ _ _ HN) as [[= -> _] _]. apply Hr.
    + cbn. destruct Hr as [-> _], Hr' as [-> _]. done.
  - destruct (decrypt_stored (ratchet y) (rng y) _ _ _ _ _ HL HN) as (s' & Hd & HL'); [by intros [?|?]|].
    eexists _, old. split; [exact Hd|]. apply (behind_received x y _ ck old _ ck0 j id HA); try done.
    destruct old as [[[d ckd] k]|]; [|exact Ho]. split; [apply Ho|]. apply tail_delete; [apply Ho|exact Hf].
Qed.

(** Before the new chain, what is missing of the old one is passed. *)
Lemma pass_old x y ck old ck0 j :
  ahead x y ck old ck0 j → Z.of_nat (size (inbox y)) <= MAX_SKIP →
  ∃ r, Ratchet.skip_current_receiving_chain (Ratchet.prev_chain_len (ratchet x)) (ratchet y) = inr r
    ∧ sending r = sending (ratchet y)
    ∧ lane (inbox y) (Ratchet.skipped r) (or_following (λ _, False) (Ratchet.dhs_public (ratchet x)) 0).
Proof.
  intros HA Hsize. pose proof (ahead_lane _ _ _ _ _ _ HA) as HL. pose proof (ahead_old _ _ _ _ _ _ HA) as Ho.
  destruct old as [[[d ckd] k]|].
  - destruct Ho as [Hr HT]. pose proof (tail_bound _ _ _ _ _ HT) as Hb.
    destruct (pass _ _ _ (new_elsewhere _ _ _ _ _ _ _ _ HA) _ _ _ _ (Z.to_nat (Ratchet.prev_chain_len (ratchet x))) HL HT Hr)
      as (r & E & Hsend & HL' & HT' & _); [lia..|].
    rewrite Z2Nat.id in E by lia. exists r. split_and!; [done|done|]. apply (lane_weaken _ _ _ _ HL'). intros id Hid.
    split; [|by intros [[]|?]; left]. intros [?|Hf]; [by right|]. destruct (nonneg_following _ _ _ Hf) as (i & Hi & ->).
    apply (tail_sent _ _ _ _ _ HT') in Hid; [lia|done].
  - exists (ratchet y). cbn [old_chain] in Ho. split_and!; [|done|].
    + unfold Ratchet.skip_current_receiving_chain. rewrite Ho. by destruct (Ratchet.dhr _).
    + apply (lane_weaken _ _ _ _ HL). intros id _. unfold ahead_coming, or_following. cbn. tauto.
Qed.

(** The side behind hears the first of the new chain: it turns, and is ahead from then on. *)
Lemma behind_turns x y ck old ck0 j id m p :
  ahead x y ck old ck0 j → inbox y !! id = Some (m, p) → Z.of_nat (size (inbox y)) <= MAX_SKIP →
  following (Ratchet.dhs_public (ratchet x)) 0 id →
  ∃ r' g', Ratchet.decrypt m (ratchet y) (rng y) = (inr p, r', g')
    ∧ (next_public y ≠ Ratchet.dhs_public (ratchet y) → map_Forall (λ id _, id.1 ≠ next_public y) (inbox x) →
       ∃ ck' old' j', ahead (mkSide r' g' (delete id (inbox y))) x ck' old' ck j').
Proof.
  intros HA HN Hsize Hf. pose proof HA as [HT Hs Hta Hpn HL Ho Hs0 [Hr0 Hr0'] Ht0 HL0].
  destruct (nonneg_following _ _ _ Hf) as (i & Hi & ->), (lane_header _ _ _ HL _ _ _ HN) as [[= Hmd _] _].
  destruct (pass_old x y ck old ck0 j HA Hsize) as (y0 & Hpass & Hsend0 & HLy0). rewrite <- (Hpn _ _ _ HN) in Hpass.
  pose proof (turned_follows _ _ _ _ _ (rng y) HT Hmd Hpass Hsend0) as Hfollow. unfold next_public.
  destruct (random_array 32 (rng y)) as [secret g'], Hfollow as (root & ck' & Hroot & Hfollow). cbn [fst].
  set (y1 := Ratchet.mk _ _ _ _ _ _ _ _ _ _) in Hfollow.
  destruct (hear_current (λ _, False) _ _ (nowhere _) (inbox y) 0 (Ratchet.n_send (ratchet x)) y1 i m p HLy0 Hta)
    as (r' & Hd & Hsend & HL' & HT' & Hr'); [done|done|done|done|].
  exists r', g'. split; [apply (decrypt_coming _ y1 _ _ _ _ _ _ _ _ HL HN); [by left|done|done]|].
  intros Hk Hfresh. injection Hsend as F1 F2 F3 F4 F5 F6. pose proof (tail_bound _ _ _ _ _ Ht0) as Hb.
  assert (∀ i : Z, inbox x !! (x25519_public secret, i) = None) as Hnone.
  { intros k. apply eq_None_not_Some. intros [v Hv]. by apply (Hfresh _ _ Hv). }
  exists ck', (Some (Ratchet.dhs_public (ratchet y), ck0, j)), (S i). split; cbn [ratchet inbox]; rewrite ?F3, ?F4, ?F5, ?F6; try done.
  - split; rewrite ?F1, ?F2, ?F3; [done|apply HT| | | |apply HL0].
    + rewrite <- Hroot, (turned_x _ _ _ HT). cbn. by rewrite dh_symmetric.
    + rewrite Hr0. cbn. by intros [= ?].
    + intros k. apply eq_None_not_Some. intros [Hv _]%(lane_known _ _ _ HL0). cbn in Hv. rewrite Hnone in Hv.
      by apply is_Some_None in Hv.
  - split; [|by intros k m' p' _; cbn; rewrite Hnone|cbn; unfold u32_max; lia]. intros k _. cbn. rewrite Hnone.
    split; [by intros []%is_Some_None|lia].
  - intros k m' p'. cbn. by rewrite Hnone.
  - apply (lane_weaken _ _ _ _ HL0). intros id Hid. unfold or_following, ahead_coming. cbn. split; [tauto|].
    intros [[Hd' _]|?]; [|by right]. destruct id as [d' n']. cbn in *. subst d'. rewrite Hnone in Hid. by apply is_Some_None in Hid.
Qed.

Lemma behind_hears x y ck old ck0 j id m p :
  ahead x y ck old ck0 j → inbox y !! id = Some (m, p) → Z.of_nat (size (inbox y)) <= MAX_SKIP →
  ∃ r' g', Ratchet.decrypt m (ratchet y) (rng y) = (inr p, r', g')
    ∧ (next_public y ≠ Ratchet.dhs_public (ratchet y) → map_Forall (λ id _, id.1 ≠ next_public y) (inbox x) →
       let y' := mkSide r' g' (delete id (inbox y)) in
       ∃ ck' old' ck0' j', ahead x y' ck' old' ck0' j' ∨ ahead y' x ck' old' ck0' j').
Proof.
  intros HA HN Hsize. destruct (decide (following (Ratchet.dhs_public (ratchet x)) 0 id)) as [Hf|Hf].
  - destruct (behind_turns x y ck old ck0 j id m p HA HN Hsize Hf) as (r' & g' & Hd & Hrest). exists r', g'. split; [done|].
    intros H1 H2. destruct (Hrest H1 H2) as (ck' & old' & j' & HA'). eexists _, _, _, _. by right.
  - destruct (behind_hears_known x y ck old ck0 j id m p HA HN Hsize Hf) as (r' & old' & Hd & HA').
    exists r', (rng y). split; [done|]. intros _ _. eexists _, _, _, _. by left.
Qed.

(** ** The whole conversation *)

Definition in_step (c : side * side) : Prop :=
  ∃ second ck old ck0 j, ahead (view second c).1 (view second c).2 ck old ck0 j.

Lemma in_step_act a x y : in_step (x, y) → allowed a x y → in_step (act a x y).
Proof.
  intros (second & ck & old & ck0 & j & HA) Hallowed. destruct a as [p|id|m].
  - destruct second; cbn [view fst snd] in HA.
    + pose proof (behind_says y x ck old ck0 j p HA Hallowed) as Hsay. destruct (act _ _ _) as [x' y'].
      by exists true, ck, old, ck0, j.
    + pose proof (ahead_says x y ck old ck0 j p HA Hallowed) as Hsay. destruct (act _ _ _) as [x' y'].
      by exists false, ck, old, ck0, j.
  - destruct Hallowed as (Hsize & Hk & Hfresh). cbn [act]. destruct (inbox x !! id) as [[m p]|] eqn:HN;
      [|by exists second, ck, old, ck0, j]. destruct second; cbn [view fst snd] in HA.
    + destruct (behind_hears y x ck old ck0 j id m p HA HN Hsize) as (r' & g' & -> & Hrest).
      destruct (Hrest Hk Hfresh) as (ck' & old' & ck0' & j' & [HA'|HA']); [by exists true, ck', old', ck0', j'|].
      by exists false, ck', old', ck0', j'.
    + destruct (ahead_hears x y ck old ck0 j id m p HA HN Hsize) as (r' & j' & -> & HA').
      by exists false, ck, old, ck0, j'.
  - destruct Hallowed as [e He]. cbn [act]. destruct (Ratchet.decrypt m (ratchet x) (rng x)) as [[res r] g] eqn:Hd.
    cbn in He. subst res. apply decrypt_error_same in Hd as ->. exists second, ck, old, ck0, j.
    destruct second; cbn [view fst snd] in HA |- *; destruct HA; by split.
Qed.

Lemma in_step_view b c : in_step c ↔ in_step (view b c).
Proof.
  destruct b, c as [x y]; [|done]. split; intros (second & ck & old & ck0 & j & HA);
    exists (negb second), ck, old, ck0, j; by destruct second.
Qed.

Lemma in_step_converse es c : in_step c → all_allowed c es → in_step (foldl converse c es).
Proof.
  revert c. induction es as [|[b a] es IH]; intros c Hc Hall; [done|]. destruct Hall as [Ha Hall]. cbn [foldl].
  apply IH; [|done]. unfold converse. cbn [fst snd] in *. destruct (view b c) as [x y] eqn:E.
  apply in_step_view, in_step_act; [|done]. rewrite <- E. by apply in_step_view.
Qed.

Lemma in_step_reads c b id m p :
  in_step c → let x := (view b c).1 in
  inbox x !! id = Some (m, p) → Z.of_nat (size (inbox x)) <= MAX_SKIP →
  (Ratchet.decrypt m (ratchet x) (rng x)).1.1 = inr p.
Proof.
  intros Hc%(in_step_view b). cbv zeta. destruct (view b c) as [x y]. cbn [fst].
  destruct Hc as ([|] & ck & old & ck0 & j & HA); cbn [view fst snd] in HA; intros HN Hsize.
  - by destruct (behind_hears y x ck old ck0 j id m p HA HN Hsize) as (r' & g' & -> & _).
  - by destruct (ahead_hears x y ck old ck0 j id m p HA HN Hsize) as (r' & j' & -> & _).
Qed.

(** Both sides after the handshake, the offering one ahead by the answer it has read. *)
Lemma in_step_start a b cka ckb ga gb :
  paired b a (next_key ckb) → turned a b cka → Ratchet.send_chain a = Some cka → Ratchet.n_send a = 0 →
  Ratchet.recv_chain b = None → Ratchet.n_send b = 1 → stored b = 0%nat → (stored a <= 0)%nat →
  in_step (mkSide a ga ∅, mkSide b gb ∅).
Proof.
  intros [Hs Hr Hd Hn _ Hw] HT Hsa Hna Hrb Hnb Hstb Hsta. exists false, cka, None, ckb, 1%nat. cbn [view fst snd].
  assert (∀ d i limit, Z.of_nat i = limit → limit <= u32_max → ∀ ck, tail ∅ d ck i limit) as Htail.
  { intros d i limit <- Hl ck. split; [|by intros * _; rewrite lookup_empty|lia]. intros k Hk. rewrite lookup_empty.
    split; [by intros []%is_Some_None|lia]. }
  assert (∀ r coming, wf_skipped (Ratchet.skipped r) → (stored r <= 0)%nat → lane ∅ (Ratchet.skipped r) coming) as Hlane.
  { intros r coming Hwr Hst. split; [done|by intros *; rewrite lookup_empty| |by intros *; rewrite lookup_empty].
    intros id. rewrite nothing_stored by done. by intros []%is_Some_None. }
  split; cbn [ratchet inbox]; rewrite ?Hna, ?Hnb; try done.
  - by apply Htail.
  - apply Hlane; [apply HT|lia].
  - split_and!; [done|by rewrite Hr|by rewrite Hn, Hnb].
  - by apply Htail.
  - by apply Hlane.
Qed.

(** C3. A conversation delivers: from the end of the handshake on, let the two sides encrypt and receive in any
    interleaving, messages arriving in any order and some of them never, forgeries and repetitions that do not
    verify among them. Whenever a message that was sent does arrive, however late and however often the ratchet has
    turned since, it decrypts to what was encrypted in it. What is assumed is said by [allowed]. *)
Theorem conversation_delivers (ia ib : Identity.t) (ra ra1 ra2 ra3 rb rb1 : R) (spk opk fresh ek : list octet) :
  wf_identity ia → wf_identity ib →
  random_array 32 ra = (spk, ra1) → random_array 32 ra1 = (opk, ra2) → random_array 32 ra2 = (fresh, ra3) →
  random_array 32 rb = (ek, rb1) → x25519_public fresh ≠ x25519_public spk →
  ∃ pending response a b,
    X3dh.create_offer ia ra = (inr pending, ra2)
    ∧ X3dh.accept_offer ib (X3dh.bundle pending) rb = (inr (response, b), rb1)
    ∧ X3dh.complete_handshake ia pending response ra2 = (inr a, ra3)
    ∧ ∀ events, let start := (mkSide a ra3 ∅, mkSide b rb1 ∅) in
        all_allowed start events →
        ∀ who id m plaintext, let x := (view who (foldl converse start events)).1 in
          inbox x !! id = Some (m, plaintext) → Z.of_nat (size (inbox x)) <= MAX_SKIP →
          (Ratchet.decrypt m (ratchet x) (rng x)).1.1 = inr plaintext.
Proof.
  intros Ha Hb E1 E2 E3 E4 Hfresh.
  destruct (ratchets_agree ia ib ra ra1 ra2 ra3 rb rb1 spk opk fresh ek Ha Hb E1 E2 E3 E4 Hfresh)
    as (pending & response & a & b & cka & ckb & Hoffer & _ & Hanswer & _ & Hcomplete & Hpaired & Hturned & Hsend & Hna &
        _ & Hrecv & Hnb & Hstb & Hsta & _).
  exists pending, response, a, b. split_and!; [done..|]. cbv zeta.
  intros events Hall who id m plaintext HN Hsize. apply (in_step_reads _ who id m plaintext); [|exact HN|exact Hsize].
  apply in_step_converse; [|done]. by apply (in_step_start a b cka ckb).
Qed.
End conversation.

(** ** Instances *)

Definition toy_nobody : Ratchet.t := Ratchet.init_as_initiator [] [] [].

(** Both sides after a handshake with the stand-ins. *)
Definition toy_handshake : @side N * @side N :=
  match @X3dh.create_offer toy_primitives N _ (toy_identity 1 2) 10%N with
  | (inr pending, ga) =>
      match @X3dh.accept_offer toy_crypto toy_primitives N _ (toy_identity 3 4) (X3dh.bundle pending) 100%N with
      | (inr (response, b), gb) =>
          match @X3dh.complete_handshake toy_crypto toy_primitives N _ (toy_identity 1 2) pending response ga with
          | (inr a, ga) => (mkSide a ga ∅, mkSide b gb ∅)
          | (inl _, ga) => (mkSide toy_nobody ga ∅, mkSide toy_nobody gb ∅)
          end
      | (inl _, gb) => (mkSide toy_nobody ga ∅, mkSide toy_nobody gb ∅)
      end
  | (inl _, ga) => (mkSide toy_nobody ga ∅, mkSide toy_nobody ga ∅)
  end.

(** The offering side says two things, of which the second arrives first; a forgery; the other side turns and answers,
    and is answered, and only then does the first message come. *)
Definition toy_events : list (bool * action) :=
  let key (k : N) := replicate 32 k in
  [(false, Say [1%N]); (false, Say [2%N]); (true, Hear (key 12%N, 1)); (true, Overhear (mkMessage [9%N] 0 0 [9%N]));
   (true, Say [3%N]); (false, Hear (key 101%N, 0)); (false, Say [4%N]); (true, Hear (key 13%N, 0))].

Lemma conversation_delivers_witness :
  let c := foldl (@converse toy_crypto toy_primitives N toy_random) toy_handshake toy_events in
  match inbox c.2 !! (replicate 32 12%N, 0) with
  | Some (m, _) => (@Ratchet.decrypt toy_crypto toy_primitives N _ m (ratchet c.2) (rng c.2)).1.1 = inr [1%N]
  | None => False
  end.
Proof.
  cbv zeta.
  destruct (@conversation_delivers toy_crypto toy_laws toy_primitives _ N _ (toy_identity 1 2) (toy_identity 3 4)
    10%N 11%N 12%N 13%N 100%N 101%N (replicate 32 10%N) (replicate 32 11%N) (replicate 32 12%N) (replicate 32 100%N))
    as (pending & response & a & b & E1 & E2 & E3 & Hreads); [done|done|by vm_compute..|].
  cbv zeta in Hreads. assert ((mkSide a 13%N ∅, mkSide b 101%N ∅) = toy_handshake) as Hstart.
  { unfold toy_handshake. by rewrite E1, E2, E3. }
  rewrite Hstart in Hreads. specialize (Hreads toy_events).
  specialize (Hreads ltac:(apply (bool_decide_unpack _); by vm_compute) true (replicate 32 12%N, 0)).
  set (c := foldl _ _ _) in *. cbn [view fst snd] in Hreads.
  destruct (inbox c.2 !! (replicate 32 12%N, 0)) as [[m p]|] eqn:HN.
  - assert (p = [1%N]) as -> by (apply (f_equal (fmap snd)) in HN; revert HN; vm_compute; by intros [= <-]).
    apply (Hreads m [1%N]); [done|by vm_compute].
  - apply (f_equal (fmap snd)) in HN. revert HN. by vm_compute.
Defined.
