(* ===== verification/Command.v ===== *)
(** * What a host asks for (src/crates/obby-client/src/command.rs)

    The commands, and the line each one of the plain kind becomes: [wire] and its
    helpers from client.rs. *)
From S2P Require Import Prelude Tags Message ServerTime Voice.

Module TypingState.
(* obby-client/src/command.rs 8-21 Typing *)
Inductive t := Active | Paused | Done.
(* obby-client/src/command.rs 23-30 Typing::as_str *)
Definition as_str (s : t) : text := match s with Active => "active" | Paused => "paused" | Done => "done" end.
End TypingState.

Module Command.
(* obby-client/src/command.rs 33-229 Command *)
Inductive t :=
  | Join (channel : text) (key : option text)
  | Part (channel : text) (reason : option text)
  | SendMessage (target body : text)
  | SendNotice (target body : text)
  | SendAction (target body : text)
  | SetNick (nick : text)
  | SetTopic (channel : text) (topic : option text)
  | SetAway (message : option text)
  | SetTyping (target : text) (state : TypingState.t)
  | AddReaction (target msgid emoji : text)
  | RemoveReaction (target msgid emoji : text)
  | RedactMessage (target msgid : text) (reason : option text)
  | MarkRead (target : text) (at_ms : Z)
  | FetchHistory (target : text) (before_msgid : option text) (limit : Z)
  | SetMetadata (key : text) (value : option text)
  | SubscribeMetadata (keys : list text)
  | Whois (nick : text)
  | RenameChannel (channel new_name : text) (reason : option text)
  | CreateInviteLink (channel description : option text)
  | ListInviteLinks
  | DeleteInviteLink (share_id : text)
  | RedeemInviteCode (code : text)
  | GenerateToken (service : text)
  | WatchNicks (nicks : list text)
  | UnwatchNicks (nicks : list text)
  | SendVoiceSignal (channel : text) (signal : Signal.t)
  | Quit (reason : option text)
  | SendRawLine (line : text).

Definition with_tag (tag : Tag.t) (m : Message.t) : Message.t :=
  Message.mk (Tags.set (Message.tags m) tag) (Message.source m) (Message.command m) (Message.params m).

(* obby-client/src/client.rs 865-875 Client::chathistory *)
Definition chathistory (target : text) (before_msgid : option text) (limit : Z) : Message.t :=
  let '(selector, point) :=
    match before_msgid with
    | Some msgid => (lit "BEFORE", lit "msgid=" ++ msgid)
    | None => (lit "LATEST", lit "*")
    end in
  Message.new "CHATHISTORY" [selector; target; point; show_Z limit].

(* obby-client/src/client.rs 877-890 Client::invite_link *)
Definition invite_link (channel description : option text) : Message.t :=
  Message.new "INVITELINK"
    (lit "CREATE"
     :: (match channel, description with
         | Some channel, _ => [channel]
         | None, Some _ => [lit "*"]
         | None, None => []
         end)
     ++ option_list description).

(* obby-client/src/client.rs 892-897 Client::reaction *)
Definition reaction (tag target msgid emoji : text) : Message.t :=
  with_tag (Tag.new "+draft/reply" msgid) (with_tag (Tag.new tag emoji) (Message.new "TAGMSG" [target])).

(* obby-client/src/client.rs 745-847 Client::wire *)
Definition wire (command : t) : option Message.t :=
  match command with
  | SendMessage _ _ | SendNotice _ _ | SendAction _ _ | WatchNicks _ | UnwatchNicks _ => None
  | Join _ _ | SubscribeMetadata _ => None
  | Part channel reason => Some (Message.new "PART" (channel :: option_list reason))
  | SetNick nick => Some (Message.new "NICK" [nick])
  | SetTopic channel topic => Some (Message.new "TOPIC" [channel; default [] topic])
  | SetAway message => Some (Message.new "AWAY" (option_list message))
  | SetTyping target state =>
      Some (with_tag (Tag.new "+typing" (TypingState.as_str state)) (Message.new "TAGMSG" [target]))
  | AddReaction target msgid emoji => Some (reaction "+draft/react" target msgid emoji)
  | RemoveReaction target msgid emoji => Some (reaction "+draft/unreact" target msgid emoji)
  | RedactMessage target msgid reason => Some (Message.new "REDACT" (target :: msgid :: option_list reason))
  | MarkRead target at_ms =>
      Some (Message.new "MARKREAD" [target; lit "timestamp=" ++ ServerTime.format at_ms])
  | FetchHistory target before_msgid limit => Some (chathistory target before_msgid limit)
  | Whois nick => Some (Message.new "WHOIS" [nick])
  | RenameChannel channel new_name reason =>
      Some (Message.new "RENAME" (channel :: new_name :: option_list reason))
  | CreateInviteLink channel description => Some (invite_link channel description)
  | ListInviteLinks => Some (Message.new "INVITELINK" [lit "LIST"])
  | DeleteInviteLink share_id => Some (Message.new "INVITELINK" [lit "DELETE"; share_id])
  | RedeemInviteCode code => Some (Message.new "INVITECODE" [code])
  | GenerateToken service => Some (Message.new "TOKEN" [lit "GENERATE"; service])
  | SetMetadata key value => Some (Message.new "METADATA" (lit "*" :: lit "SET" :: key :: option_list value))
  | SendVoiceSignal channel signal =>
      Some (with_tag (Tag.new "+obsidianirc/rtc" (Signal.to_json signal)) (Message.new "TAGMSG" [channel]))
  | Quit reason => Some (Message.new "QUIT" (option_list reason))
  | SendRawLine line => match Message.parse line with inr m => Some m | inl _ => None end
  end.
End Command.

(** ** What goes out is what was asked *)

(** A part of a line that breaks nothing: a word may stand anywhere, a text only at the end. *)
Definition unbroken (t : text) : Prop := chCR ∉ t ∧ chLF ∉ t.
Definition word (t : text) : Prop := wf_middle t ∧ unbroken t.
Definition may (P : text → Prop) (o : option text) : Prop := match o with Some t => P t | None => True end.

(** A command whose arguments are of the kind their place on the line needs. A raw line is the host's own business. *)
Definition clean (c : Command.t) : Prop :=
  match c with
  | Command.Part channel reason => word channel ∧ may unbroken reason
  | Command.SetNick nick | Command.Whois nick => word nick
  | Command.SetTopic channel topic => word channel ∧ may unbroken topic
  | Command.SetAway message => may unbroken message
  | Command.SetTyping target _ => word target
  | Command.AddReaction target msgid emoji | Command.RemoveReaction target msgid emoji =>
      word target ∧ msgid ≠ [] ∧ emoji ≠ []
  | Command.RedactMessage target msgid reason => word target ∧ word msgid ∧ may unbroken reason
  | Command.MarkRead target _ => word target
  | Command.FetchHistory target before_msgid limit => word target ∧ may word before_msgid ∧ 0 <= limit
  | Command.RenameChannel channel new_name reason => word channel ∧ word new_name ∧ may unbroken reason
  | Command.CreateInviteLink channel description => may word channel ∧ may unbroken description
  | Command.DeleteInviteLink share_id => unbroken share_id
  | Command.RedeemInviteCode code => unbroken code
  | Command.GenerateToken service => unbroken service
  | Command.SetMetadata key value => word key ∧ may unbroken value
  | Command.SendVoiceSignal channel _ => word channel
  | Command.Quit reason => may unbroken reason
  | Command.SendRawLine _ => False
  | _ => True
  end.

Lemma unbroken_ends t : unbroken t → ends_clean t.
Proof.
  intros [Hr Hl] c Hc%last_Some_elem_of. apply bool_decide_eq_false. intros [->|[->|Hn]%elem_of_cons]%elem_of_cons; [done..|].
  by apply not_elem_of_nil in Hn.
Qed.

(** The parameters of a line that stands for itself. *)
Fixpoint params_stand (ps : list text) : Prop :=
  match ps with [] => True | [p] => ends_clean p | p :: ps => wf_middle p ∧ params_stand ps end.

Lemma params_stand_cons q l : l ≠ [] → params_stand (q :: l) → wf_middle q ∧ params_stand l.
Proof. by destruct l. Qed.
Lemma params_stand_snoc ps p : params_stand (ps ++ [p]) → Forall wf_middle ps ∧ ends_clean p.
Proof.
  induction ps as [|q ps IH]; [by intros|]. rewrite <- app_comm_cons.
  intros [Hq [H1 H2]%IH]%params_stand_cons; [|by destruct ps]. split; [by apply Forall_cons|done].
Qed.

(** The verbs, and the tags that go with them. *)
Definition verb_stands (command : text) : bool :=
  match last command with Some c => negb (Message.is_line_end c) | None => false end
  && bool_decide (chSPACE ∉ command) && negb (starts_with_char chCOLON command) && negb (starts_with_char chAT command).

Lemma line_stands tags command ps :
  Forall (λ tag, wf_tag tag ∧ chSPACE ∉ Tag.key tag) tags → verb_stands command = true → params_stand ps →
  wf_message (Message.mk tags None command ps).
Proof.
  intros Ht Hv Hp. unfold verb_stands in Hv. apply andb_true_iff in Hv as [[[Hl Hs]%andb_true_iff Hc]%andb_true_iff Ha].
  apply bool_decide_eq_true in Hs. apply negb_true_iff in Hc, Ha.
  split; cbn [Message.tags Message.source Message.command Message.params]; [done|done| |done| |].
  - split; [|done]. by intros ->.
  - intros qs q ->. by apply params_stand_snoc in Hp as [? _].
  - destruct ps as [|p qs _] using rev_ind.
    + cbn. intros c Hc'. rewrite Hc' in Hl. by apply negb_true_iff in Hl.
    + rewrite last_snoc. by apply params_stand_snoc in Hp as [_ ?].
Qed.

Lemma format_ends before at_ms : ends_clean (before ++ ServerTime.format at_ms).
Proof.
  unfold ServerTime.format. destruct (ServerTime.civil_from_days _) as [[year month] day]. cbv zeta. intros c.
  rewrite !app_comm_cons, !app_assoc, last_snoc. by intros [= <-].
Qed.
Lemma number_ends n : 0 <= n → ends_clean (show_Z n).
Proof.
  intros Hn c Hc%last_Some_elem_of. pose proof (show_N_digits (Z.to_N n)) as Hd. rewrite <- show_Z_nonneg in Hd by done.
  rewrite Forall_forall in Hd. specialize (Hd c Hc). apply bool_decide_eq_false. intros [->|[->|Hn']%elem_of_cons]%elem_of_cons; [done..|].
  by apply not_elem_of_nil in Hn'.
Qed.

Lemma with_tag_new tag command ps : Command.with_tag tag (Message.new command ps) = Message.mk [tag] None command ps.
Proof. done. Qed.

Lemma tag_stands key value :
  value ≠ [] → bool_decide (chSEMI ∉ key ∧ chEQ ∉ key ∧ chSPACE ∉ key) = true →
  wf_tag (Tag.new key value) ∧ chSPACE ∉ Tag.key (Tag.new key value).
Proof. intros Hv (H1 & H2 & H3)%bool_decide_eq_true. split; [|done]. split_and!; [done..|by intros [=]|by right]. Qed.

Lemma word_middle t : word t → wf_middle t.
Proof. by intros [? _]. Qed.
Lemma word_ends t : word t → ends_clean t.
Proof. intros [_ ?]. by apply unbroken_ends. Qed.
Lemma prefixed_middle before t : wf_middle before → word t → wf_middle (before ++ t).
Proof.
  intros (H1 & H2 & H3) [(H4 & H5 & H6) _]. split_and!; [by destruct before|set_solver|by destruct before].
Qed.
Lemma show_Z_middle n : 0 <= n → wf_middle (show_Z n).
Proof.
  intros Hn. rewrite show_Z_nonneg by done. pose proof (show_N_digits (Z.to_N n)) as Hd. rewrite Forall_forall in Hd.
  split_and!; [apply show_N_not_nil|by intros Hs%Hd|].
  destruct (show_N (Z.to_N n)) as [|c t]; [done|]. specialize (Hd c (list_elem_of_here _ _)). cbn in *.
  apply bool_decide_eq_false. by intros ->.
Qed.
Create HintDb stands.
Lemma nil_ends : ends_clean [].
Proof. done. Qed.
#[export] Hint Resolve nil_ends unbroken_ends word_middle word_ends number_ends format_ends : stands.
#[export] Hint Extern 3 (wf_middle (_ ++ _)) => apply prefixed_middle : stands.
#[export] Hint Extern 4 (wf_middle (lit _)) =>
  solve [split_and!; [done|by apply (bool_decide_unpack _); vm_compute|done]] : stands.
#[export] Hint Extern 4 (ends_clean (lit _)) => solve [intros ?; vm_compute; by intros [= <-]] : stands.
#[export] Hint Extern 3 (wf_tag _ ∧ _) => apply tag_stands : stands.

Lemma params_stand_tagmsg target : word target → params_stand [target].
Proof. apply word_ends. Qed.

Lemma to_json_not_nil s : Signal.to_json s ≠ [].
Proof. unfold Signal.to_json, Signal.to_json_value. by destruct (Signal.wire_fields s). Qed.

(** Each line is built of a verb, tags with a value, and parameters in their place. *)
Lemma wire_stands c m : clean c → Command.wire c = Some m → wf_message m.
Proof.
  destruct c as [| | | | | | | |target state|target msgid emoji|target msgid emoji| | | | | | | | | | | | | | |channel signal| |];
    cbn [clean Command.wire]; intros Hc Hm; try done; injection Hm as <-;
    unfold Command.invite_link, Command.chathistory;
    repeat match goal with o : option _ |- _ => destruct o end; cbn [may default] in *; destruct_and?;
    try (apply (line_stands []); [constructor|reflexivity|]; unfold option_list; cbn [app option_rect params_stand id]; split_and?; eauto with stands; fail).
  - apply (line_stands [Tag.new "+typing" (TypingState.as_str state)] "TAGMSG" [target]); [|done|by apply word_ends].
    apply Forall_singleton, tag_stands; by destruct state.
  - apply (line_stands [Tag.new "+draft/react" emoji; Tag.new "+draft/reply" msgid] "TAGMSG" [target]); [|done|by apply word_ends].
    apply Forall_cons. split; [by apply tag_stands|]. by apply Forall_singleton, tag_stands.
  - apply (line_stands [Tag.new "+draft/unreact" emoji; Tag.new "+draft/reply" msgid] "TAGMSG" [target]); [|done|by apply word_ends].
    apply Forall_cons. split; [by apply tag_stands|]. by apply Forall_singleton, tag_stands.
  - apply (line_stands [] "MARKREAD" [target; lit "timestamp=" ++ ServerTime.format at_ms]); [constructor|done|].
    split; [by apply word_middle|apply format_ends].
  - apply (line_stands [Tag.new "+obsidianirc/rtc" (Signal.to_json signal)] "TAGMSG" [channel]); [|done|by apply word_ends].
    apply Forall_singleton, tag_stands; [apply to_json_not_nil|done].
Qed.

(** What goes out is what was asked: for every command, with arguments that are words where a word is wanted and
    texts without a line break where a text may stand, the line written for it is read back as exactly the message
    the command makes: no argument is taken for another, none is lost, and none becomes part of the grammar. *)
Theorem commands_read_back (c : Command.t) (m : Message.t) :
  clean c → Command.wire c = Some m → Message.parse (Message.show m) = inr m.
Proof. intros Hc Hm. apply parse_show. by apply (wire_stands c). Qed.

Lemma commands_read_back_witness :
  let m := Message.new "REDACT" [lit "#c"; lit "id;1"; lit ":sorry all"] in
  Message.show m = lit "REDACT #c id;1 ::sorry all" ∧ Message.parse (Message.show m) = inr m.
Proof.
  cbv zeta. split; [by vm_compute|].
  apply (commands_read_back (Command.RedactMessage "#c" "id;1" (Some (lit ":sorry all")))); [|reflexivity].
  cbn [clean may]. unfold word, wf_middle, unbroken.
  split_and!; try done; apply (bool_decide_unpack _); by vm_compute.
Defined.

(** Clearing a topic is what [set_topic] does without one; asking for it is not among the commands. *)
Example topic_without_text_clears channel :
  Command.wire (Command.SetTopic channel None) = Command.wire (Command.SetTopic channel (Some [])).
Proof. reflexivity. Qed.
