(* ===== verification/Client.v ===== *)
(** * The connection engine (src/crates/obby-client/src/client.rs)

    [Core] is the [Client] struct without the two fields that assemble inbound lines,
    with everything it does to a parsed line, a command or the clock; [Client] adds the
    line assembly. [outbox] is what [poll_transmit] hands out and [events] what
    [poll_event] does, oldest first. The handlers that return [true] when they consumed
    a line give [Some] here. *)
From S2P Require Import Prelude Utf8 Casemap Isupport Tags Message Timer Batch Label Caps Monitor.
From S2P Require Import Base64 Sasl Scram Json Extensions Model Session Voice Command.

Module Phase.
(* obby-client/src/client.rs 20-35 Phase *)
Inductive t := Disconnected | Negotiating | Registering | Registered.
#[global] Instance t_eq_dec : EqDecision t.
Proof. solve_decision. Defined.
End Phase.

Module Config.
(* obby-client/src/client.rs 37-69 Config *)
Record t := mk {
  nick : text; username : text; realname : text; password : option text;
  sasl : option Sasl.Credentials; retention : nat; alt_nicks : list text;
}.
(* obby-client/src/client.rs 77-91 Config::new *)
Definition new (nick : text) : t := mk nick nick nick None None DEFAULT_RETENTION [].
(** An empty username or realname is the nick. *)
(* obby-client/src/client.rs 278-286 Client::new *)
Definition filled (c : t) : t :=
  mk (nick c) (match username c with [] => nick c | u => u end) (match realname c with [] => nick c | r => r end)
     (password c) (sasl c) (retention c) (alt_nicks c).
End Config.

Module Severity.
(* obby-client/src/client.rs 1762-1774 Severity *)
Inductive t := Fail_ | Warn | Note.
(* obby-client/src/client.rs 1826-1834 severity_of *)
Definition of_verb (command : text) : option t :=
  let c := ascii_upper command in
  if decide (c = lit "FAIL") then Some Fail_
  else if decide (c = lit "WARN") then Some Warn
  else if decide (c = lit "NOTE") then Some Note
  else None.
End Severity.

Module Event.
(* obby-client/src/client.rs 93-225 Event *)
Inductive t :=
  | CapabilitiesAcknowledged (names : list text)
  | Registered (nick : text)
  | IsupportToken (token : text) (value : option text)
  | LoggedIn (account : text)
  | SaslFailed (reason : Sasl.SaslFailure)
  | NickInUse (refused trying : text)
  | ModelChanged (change : Change.t)
  | LinkDead
  | ReconnectAfter (after_ms : Z)
  | ReconnectAbandoned
  | CommandTimedOut (command : text)
  | AllowedCommandsChanged
  | BotsChanged (nick : text)
  | AuthToken (service endpoint token : text)
  | Voice (channel : text) (signal : Signal.t)
  | TypingChanged (target nick : text) (active : bool)
  | PresenceChanged (nick : text) (online : bool)
  | ServerReply (severity : Severity.t) (command code : text) (context : list text) (body : text)
  | RawLine (message : Message.t).
End Event.

(* obby-client/src/client.rs 1776-1784 constants *)
Definition MAX_INBOUND_LINE : nat := Z.to_nat (8191 + 512).
Definition CHATHISTORY_BATCH : text := "chathistory".
(* obby-client/src/client.rs 1820-1824 constants *)
Definition MULTILINE_BATCH : text := "draft/multiline".
Definition MULTILINE_CONCAT : text := "draft/multiline-concat".

(* obby-client/src/client.rs 1836-1845 sasl_failure *)
Definition sasl_failure (command : text) : option Sasl.SaslFailure :=
  if decide (command = lit "904") then Some Sasl.Rejected
  else if decide (command = lit "905") then Some Sasl.TooLong
  else if decide (command = lit "906") then Some Sasl.Aborted
  else if decide (command = lit "907") then Some Sasl.AlreadyAuthenticated
  else None.

(** [params.get_mut(1)] and appending to it. *)
Definition append_text (addition : text) (m : Message.t) : Message.t :=
  Message.mk (Message.tags m) (Message.source m) (Message.command m)
    (alter (λ t, t ++ addition) 1%nat (Message.params m)).

(** One line of the batch against those joined so far, the last of them first. *)
(* obby-client/src/client.rs 1794-1813 join_multiline *)
Definition join_line (joined : list Message.t) (message : Message.t) : list Message.t :=
  let continues := Tags.contains (Message.tags message) MULTILINE_CONCAT in
  let is_text := Message.is_command message "PRIVMSG" || Message.is_command message "NOTICE" in
  match joined with
  | [] => [message]
  | previous :: older =>
      if negb is_text || negb (Message.is_command previous (Message.command message))
         || bool_decide (Message.param previous 0 ≠ Message.param message 0)
      then message :: joined
      else append_text ((if continues then [] else [chLF]) ++ default [] (Message.param message 1)) previous :: older
  end.
(* obby-client/src/client.rs 1786-1818 join_multiline *)
Definition join_multiline (closed : Batch.Closed) : Batch.Closed :=
  Batch.mkClosed (Batch.c_kind closed) (Batch.c_params closed) (Batch.c_parent closed)
    (reverse (foldl join_line [] (Batch.c_messages closed))) (Batch.c_overflowed closed).

Module Core.
(* obby-client/src/client.rs 227-264 Client *)
Record t := mk {
  config : Config.t;
  phase : Phase.t;
  caps : Caps.t;
  nick : text;
  isupport : Isupport.t;
  model : Model.t;
  batches : Batch.t;
  monitor : Monitor.WatchList;
  channel_keys : gmap CaseFolded text;
  metadata_subscriptions : list text;
  rooms : gmap CaseFolded Room.t;
  commands : Commands.t;
  bots : Bots.t;
  timers : Timers.t;
  labels : Labels.t text;
  backoff : ReconnectBackoff.t;
  monotonic_ms : Z;
  latest_ms : Z;
  dropped_lines : Z;
  sasl : Sasl.SaslState;
  scram : option Scram.t;
  nick_attempt : nat;
  outbox : list (list octet);
  events : list Event.t;
}.
Definition set_phase (x : Phase.t) (s : t) : t :=
  mk (config s) x (caps s) (nick s) (isupport s) (model s) (batches s) (monitor s) (channel_keys s)
    (metadata_subscriptions s) (rooms s) (commands s) (bots s) (timers s) (labels s) (backoff s) (monotonic_ms
    s) (latest_ms s) (dropped_lines s) (sasl s) (scram s) (nick_attempt s) (outbox s) (events s).
Definition set_caps (x : Caps.t) (s : t) : t :=
  mk (config s) (phase s) x (nick s) (isupport s) (model s) (batches s) (monitor s) (channel_keys s)
    (metadata_subscriptions s) (rooms s) (commands s) (bots s) (timers s) (labels s) (backoff s) (monotonic_ms
    s) (latest_ms s) (dropped_lines s) (sasl s) (scram s) (nick_attempt s) (outbox s) (events s).
Definition set_nick (x : text) (s : t) : t :=
  mk (config s) (phase s) (caps s) x (isupport s) (model s) (batches s) (monitor s) (channel_keys s)
    (metadata_subscriptions s) (rooms s) (commands s) (bots s) (timers s) (labels s) (backoff s) (monotonic_ms
    s) (latest_ms s) (dropped_lines s) (sasl s) (scram s) (nick_attempt s) (outbox s) (events s).
Definition set_isupport (x : Isupport.t) (s : t) : t :=
  mk (config s) (phase s) (caps s) (nick s) x (model s) (batches s) (monitor s) (channel_keys s)
    (metadata_subscriptions s) (rooms s) (commands s) (bots s) (timers s) (labels s) (backoff s) (monotonic_ms
    s) (latest_ms s) (dropped_lines s) (sasl s) (scram s) (nick_attempt s) (outbox s) (events s).
Definition set_model (x : Model.t) (s : t) : t :=
  mk (config s) (phase s) (caps s) (nick s) (isupport s) x (batches s) (monitor s) (channel_keys s)
    (metadata_subscriptions s) (rooms s) (commands s) (bots s) (timers s) (labels s) (backoff s) (monotonic_ms
    s) (latest_ms s) (dropped_lines s) (sasl s) (scram s) (nick_attempt s) (outbox s) (events s).
Definition set_batches (x : Batch.t) (s : t) : t :=
  mk (config s) (phase s) (caps s) (nick s) (isupport s) (model s) x (monitor s) (channel_keys s)
    (metadata_subscriptions s) (rooms s) (commands s) (bots s) (timers s) (labels s) (backoff s) (monotonic_ms
    s) (latest_ms s) (dropped_lines s) (sasl s) (scram s) (nick_attempt s) (outbox s) (events s).
Definition set_monitor (x : Monitor.WatchList) (s : t) : t :=
  mk (config s) (phase s) (caps s) (nick s) (isupport s) (model s) (batches s) x (channel_keys s)
    (metadata_subscriptions s) (rooms s) (commands s) (bots s) (timers s) (labels s) (backoff s) (monotonic_ms
    s) (latest_ms s) (dropped_lines s) (sasl s) (scram s) (nick_attempt s) (outbox s) (events s).
Definition set_channel_keys (x : gmap CaseFolded text) (s : t) : t :=
  mk (config s) (phase s) (caps s) (nick s) (isupport s) (model s) (batches s) (monitor s) x
    (metadata_subscriptions s) (rooms s) (commands s) (bots s) (timers s) (labels s) (backoff s) (monotonic_ms
    s) (latest_ms s) (dropped_lines s) (sasl s) (scram s) (nick_attempt s) (outbox s) (events s).
Definition set_metadata_subscriptions (x : list text) (s : t) : t :=
  mk (config s) (phase s) (caps s) (nick s) (isupport s) (model s) (batches s) (monitor s) (channel_keys s) x
    (rooms s) (commands s) (bots s) (timers s) (labels s) (backoff s) (monotonic_ms s) (latest_ms s)
    (dropped_lines s) (sasl s) (scram s) (nick_attempt s) (outbox s) (events s).
Definition set_rooms (x : gmap CaseFolded Room.t) (s : t) : t :=
  mk (config s) (phase s) (caps s) (nick s) (isupport s) (model s) (batches s) (monitor s) (channel_keys s)
    (metadata_subscriptions s) x (commands s) (bots s) (timers s) (labels s) (backoff s) (monotonic_ms s)
    (latest_ms s) (dropped_lines s) (sasl s) (scram s) (nick_attempt s) (outbox s) (events s).
Definition set_commands (x : Commands.t) (s : t) : t :=
  mk (config s) (phase s) (caps s) (nick s) (isupport s) (model s) (batches s) (monitor s) (channel_keys s)
    (metadata_subscriptions s) (rooms s) x (bots s) (timers s) (labels s) (backoff s) (monotonic_ms s)
    (latest_ms s) (dropped_lines s) (sasl s) (scram s) (nick_attempt s) (outbox s) (events s).
Definition set_bots (x : Bots.t) (s : t) : t :=
  mk (config s) (phase s) (caps s) (nick s) (isupport s) (model s) (batches s) (monitor s) (channel_keys s)
    (metadata_subscriptions s) (rooms s) (commands s) x (timers s) (labels s) (backoff s) (monotonic_ms s)
    (latest_ms s) (dropped_lines s) (sasl s) (scram s) (nick_attempt s) (outbox s) (events s).
Definition set_timers (x : Timers.t) (s : t) : t :=
  mk (config s) (phase s) (caps s) (nick s) (isupport s) (model s) (batches s) (monitor s) (channel_keys s)
    (metadata_subscriptions s) (rooms s) (commands s) (bots s) x (labels s) (backoff s) (monotonic_ms s)
    (latest_ms s) (dropped_lines s) (sasl s) (scram s) (nick_attempt s) (outbox s) (events s).
Definition set_labels (x : Labels.t text) (s : t) : t :=
  mk (config s) (phase s) (caps s) (nick s) (isupport s) (model s) (batches s) (monitor s) (channel_keys s)
    (metadata_subscriptions s) (rooms s) (commands s) (bots s) (timers s) x (backoff s) (monotonic_ms s)
    (latest_ms s) (dropped_lines s) (sasl s) (scram s) (nick_attempt s) (outbox s) (events s).
Definition set_backoff (x : ReconnectBackoff.t) (s : t) : t :=
  mk (config s) (phase s) (caps s) (nick s) (isupport s) (model s) (batches s) (monitor s) (channel_keys s)
    (metadata_subscriptions s) (rooms s) (commands s) (bots s) (timers s) (labels s) x (monotonic_ms s)
    (latest_ms s) (dropped_lines s) (sasl s) (scram s) (nick_attempt s) (outbox s) (events s).
Definition set_monotonic_ms (x : Z) (s : t) : t :=
  mk (config s) (phase s) (caps s) (nick s) (isupport s) (model s) (batches s) (monitor s) (channel_keys s)
    (metadata_subscriptions s) (rooms s) (commands s) (bots s) (timers s) (labels s) (backoff s) x (latest_ms
    s) (dropped_lines s) (sasl s) (scram s) (nick_attempt s) (outbox s) (events s).
Definition set_latest_ms (x : Z) (s : t) : t :=
  mk (config s) (phase s) (caps s) (nick s) (isupport s) (model s) (batches s) (monitor s) (channel_keys s)
    (metadata_subscriptions s) (rooms s) (commands s) (bots s) (timers s) (labels s) (backoff s) (monotonic_ms
    s) x (dropped_lines s) (sasl s) (scram s) (nick_attempt s) (outbox s) (events s).
Definition set_dropped_lines (x : Z) (s : t) : t :=
  mk (config s) (phase s) (caps s) (nick s) (isupport s) (model s) (batches s) (monitor s) (channel_keys s)
    (metadata_subscriptions s) (rooms s) (commands s) (bots s) (timers s) (labels s) (backoff s) (monotonic_ms
    s) (latest_ms s) x (sasl s) (scram s) (nick_attempt s) (outbox s) (events s).
Definition set_sasl (x : Sasl.SaslState) (s : t) : t :=
  mk (config s) (phase s) (caps s) (nick s) (isupport s) (model s) (batches s) (monitor s) (channel_keys s)
    (metadata_subscriptions s) (rooms s) (commands s) (bots s) (timers s) (labels s) (backoff s) (monotonic_ms
    s) (latest_ms s) (dropped_lines s) x (scram s) (nick_attempt s) (outbox s) (events s).
Definition set_scram (x : option Scram.t) (s : t) : t :=
  mk (config s) (phase s) (caps s) (nick s) (isupport s) (model s) (batches s) (monitor s) (channel_keys s)
    (metadata_subscriptions s) (rooms s) (commands s) (bots s) (timers s) (labels s) (backoff s) (monotonic_ms
    s) (latest_ms s) (dropped_lines s) (sasl s) x (nick_attempt s) (outbox s) (events s).
Definition set_nick_attempt (x : nat) (s : t) : t :=
  mk (config s) (phase s) (caps s) (nick s) (isupport s) (model s) (batches s) (monitor s) (channel_keys s)
    (metadata_subscriptions s) (rooms s) (commands s) (bots s) (timers s) (labels s) (backoff s) (monotonic_ms
    s) (latest_ms s) (dropped_lines s) (sasl s) (scram s) x (outbox s) (events s).
Definition set_outbox (x : list (list octet)) (s : t) : t :=
  mk (config s) (phase s) (caps s) (nick s) (isupport s) (model s) (batches s) (monitor s) (channel_keys s)
    (metadata_subscriptions s) (rooms s) (commands s) (bots s) (timers s) (labels s) (backoff s) (monotonic_ms
    s) (latest_ms s) (dropped_lines s) (sasl s) (scram s) (nick_attempt s) x (events s).
Definition set_events (x : list Event.t) (s : t) : t :=
  mk (config s) (phase s) (caps s) (nick s) (isupport s) (model s) (batches s) (monitor s) (channel_keys s)
    (metadata_subscriptions s) (rooms s) (commands s) (bots s) (timers s) (labels s) (backoff s) (monotonic_ms
    s) (latest_ms s) (dropped_lines s) (sasl s) (scram s) (nick_attempt s) (outbox s) x.

(* obby-client/src/client.rs 277-320 Client::new *)
Definition new (config : Config.t) : t :=
  let config := Config.filled config in
  let model := Model.with_retention (Config.retention config) in
  let model := Model.set_me (LocalUser.set_nick (Config.nick config) (Model.me model)) model in
  mk config Phase.Disconnected Caps.default (Config.nick config) Isupport.default model Batch.new Monitor.new ∅ [] ∅
     Commands.new Bots.new Timers.new Labels.new ReconnectBackoff.default 0 0 0 Sasl.Idle None 0 [] [].

Definition push_event (e : Event.t) (s : t) : t := set_events (events s ++ [e]) s.
(** [dropped_lines.saturating_add(1)] *)
Definition drop_line (s : t) : t := set_dropped_lines (saturating_add_u64 (dropped_lines s) 1) s.

(* obby-client/src/client.rs 1086-1091 Client::send_line *)
Definition send_line (message : Message.t) (s : t) : t :=
  set_outbox (outbox s ++ [encode (Message.show message) ++ [chCR; chLF]]) s.
Definition send (command : text) (params : list text) (s : t) : t := send_line (Message.new command params) s.

(** The deadline this far from now. *)
Definition set_timer (d : Deadline) (after_ms : Z) (s : t) : t :=
  set_timers (Timers.set d (saturating_add_u64 (monotonic_ms s) after_ms) (timers s)) s.
Definition clear_timer (d : Deadline) (s : t) : t := set_timers (Timers.clear d (timers s)) s.

(* obby-client/src/client.rs 995-1001 Client::arm_keepalive *)
Definition arm_keepalive (s : t) : t :=
  s |> clear_timer DeadLink |> set_timer PingKeepalive PING_KEEPALIVE_MS.

(* obby-client/src/client.rs 339-360 Client::handle_connected *)
Definition handle_connected (s : t) : t :=
  let s := s |> set_phase Phase.Negotiating |> set_backoff (ReconnectBackoff.reset (backoff s)) in
  let s := s |> clear_timer Reconnect |> arm_keepalive |> send "CAP" [lit "LS"; lit "302"] in
  let s := match Config.password (config s) with Some password => s |> send "PASS" [password] | None => s end in
  s |> send "NICK" [Config.nick (config s)]
    |> send "USER" [Config.username (config s); lit "0"; lit "*"; Config.realname (config s)].

(* obby-client/src/client.rs 366-392 Client::handle_disconnected *)
Definition handle_disconnected (s : t) : t :=
  let s := s |> set_phase Phase.Disconnected |> set_batches (Batch.drop_all (batches s)) |> set_caps Caps.default
             |> set_sasl Sasl.Idle |> set_monitor (Monitor.forget_presence (monitor s)) in
  let m := Model.forget_whois (model s) in
  let m := Model.set_channels (Channel.set_members ∅ <$> Model.channels m) m in
  let s := s |> set_model m |> set_bots (Bots.forget (bots s)) |> clear_timer PingKeepalive |> clear_timer DeadLink in
  let '(delay, b) := ReconnectBackoff.next_delay_ms (backoff s) in
  let s := set_backoff b s in
  match delay with
  | Some after_ms => s |> set_timer Reconnect after_ms |> push_event (Event.ReconnectAfter after_ms)
  | None => s |> push_event Event.ReconnectAbandoned
  end.

(* obby-client/src/client.rs 1683-1696 Client::expire_typing *)
Definition expire_typing (target who : text) (s : t) : t :=
  let '(changed, m) := Model.set_typing target who false (model s) in
  let s := set_model m s in
  if changed then s |> push_event (Event.TypingChanged target who false) else s.

(* obby-client/src/client.rs 418-429 Client::tick *)
Definition fall_due (now : Now) (s : t) (deadline : Deadline) : t :=
  match deadline with
  | PingKeepalive =>
      let s := s |> send "PING" [nick s] in
      set_timers (Timers.set DeadLink (saturating_add_u64 (Timer.monotonic_ms now) DEAD_LINK_MS) (timers s)) s
  | DeadLink => s |> push_event Event.LinkDead
  | Reconnect => s |> push_event (Event.ReconnectAfter 0)
  | Typing target who => s |> expire_typing target who
  end.
(* obby-client/src/client.rs 413-435 Client::tick *)
Definition tick (now : Now) (s : t) : t :=
  let s := s |> set_monotonic_ms (Timer.monotonic_ms now) |> set_latest_ms (Z.max (latest_ms s) (unix_ms now)) in
  let '(due, rest) := Timers.expire now (timers s) in
  let s := foldl (fall_due now) (set_timers rest s) due in
  let '(late, labels_) := Labels.expire (Timer.monotonic_ms now) (labels s) in
  foldl (λ s command, s |> push_event (Event.CommandTimedOut command)) (set_labels labels_ s) late.

(* obby-client/src/client.rs 440-442 Client::poll_timeout *)
Definition poll_timeout (s : t) : option Z := Timers.next (timers s).

Section engine.
Context `{Unicode, Base64, Crypto}.

(** *** Lines into the model *)

(* obby-client/src/client.rs 1326-1342 Client::request_who *)
Definition request_who (channel : text) (s : t) : t :=
  if Isupport.has (isupport s) "WHOX"
  then s |> send "WHO" [channel; Session.WHOX_FIELDS ++ chCOMMA :: Session.WHOX_TOKEN]
  else s |> send "WHO" [channel].

(** What the engine itself does about a change, before it reports it. *)
(* obby-client/src/client.rs 1302-1320 Client::fold *)
Definition follow_change (s : t) (change : Change.t) : t :=
  match change with
  | Change.ChannelJoined channel => s |> request_who channel
  | Change.ChannelRenamed from to =>
      let from := Isupport.fold (isupport s) from in
      let to := Isupport.fold (isupport s) to in
      let s := match channel_keys s !! from with
               | Some key => set_channel_keys (<[to := key]> (delete from (channel_keys s))) s
               | None => s
               end in
      match rooms s !! from with
      | Some room => set_rooms (<[to := room]> (delete from (rooms s))) s
      | None => s
      end
  | _ => s
  end.
(* obby-client/src/client.rs 1282-1324 Client::fold *)
Definition fold (message : Message.t) (historical : bool) (s : t) : t :=
  let '(changes, ctx) := Session.apply (isupport s) historical message (Ctx.mk (model s) (latest_ms s)) in
  let s := s |> set_model (Ctx.model ctx) |> set_latest_ms (Ctx.latest_ms ctx) in
  match changes with
  | [] =>
      if Session.accumulates (ascii_upper (Message.command message)) then s
      else s |> push_event (Event.RawLine message)
  | _ => foldl (λ s change, s |> push_event (Event.ModelChanged change)) (foldl follow_change s changes) changes
  end.

(** *** Commands *)

(* obby-client/src/client.rs 914-936 Client::send_line_labeled *)
Definition send_line_labeled (message : Message.t) (s : t) : t :=
  if negb (Caps.has (caps s) "labeled-response") then s |> send_line message
  else
    let '(label, labels_) := Labels.generate (labels s) in
    let deadline := saturating_add_u64 (monotonic_ms s) DEFAULT_TIMEOUT_MS in
    s |> set_labels (Labels.register label deadline (Message.command message) labels_)
      |> send_line (Command.with_tag (Tag.new "label" label) message).

(* obby-client/src/client.rs 899-912 Client::say *)
Definition say (line : Message.t) (s : t) : t :=
  let s := s |> send_line_labeled line in
  if Caps.has (caps s) "echo-message" then s
  else
    let echo := Message.mk (Message.tags line) (Some (Source.mk (nick s) None None)) (Message.command line)
                  (Message.params line) in
    s |> fold echo false.

(** [isupport.number("MONITOR").unwrap_or(100)] *)
Definition monitor_limit (s : t) : nat := Z.to_nat (default 100 (Isupport.number (isupport s) "MONITOR")).

(* obby-client/src/client.rs 849-863 Client::set_watching *)
Definition set_watching (nicks : list text) (watching : bool) (s : t) : t :=
  let folded := Isupport.fold (isupport s) <$> nicks in
  let s := set_monitor (if watching then Monitor.watch folded (monitor s) else Monitor.unwatch folded (monitor s)) s in
  let verb := if watching then lit "+" else lit "-" in
  foldl (λ s chunk, s |> send "MONITOR" [verb; chunk]) s (Monitor.batched nicks (monitor_limit s)).

(** Keys not yet asked for are remembered, each once. *)
(* obby-client/src/client.rs 726-730 Client::command *)
Definition remember_keys (keys held : list text) : list text :=
  foldl (λ held key, if decide (key ∈ held) then held else held ++ [key]) held keys.

(* obby-client/src/client.rs 693-743 Client::command *)
Definition command (c : Command.t) (s : t) : t :=
  match c with
  | Command.SendMessage target body => s |> say (Message.new "PRIVMSG" [target; body])
  | Command.SendNotice target body => s |> say (Message.new "NOTICE" [target; body])
  | Command.SendAction target body =>
      s |> say (Message.new "PRIVMSG" [target; 1%N :: lit "ACTION " ++ body ++ [1%N]])
  | Command.Join channel key =>
      let folded := Isupport.fold (isupport s) channel in
      let s := set_channel_keys (match key with
                                 | Some key => <[folded := key]> (channel_keys s)
                                 | None => delete folded (channel_keys s)
                                 end) s in
      s |> send_line_labeled (Message.new "JOIN" (channel :: option_list key))
  | Command.SubscribeMetadata keys =>
      s |> set_metadata_subscriptions (remember_keys keys (metadata_subscriptions s))
        |> send_line_labeled (Message.new "METADATA" (lit "*" :: lit "SUB" :: keys))
  | Command.WatchNicks nicks => s |> set_watching nicks true
  | Command.UnwatchNicks nicks => s |> set_watching nicks false
  | other => match Command.wire other with Some line => s |> send_line_labeled line | None => s end
  end.

(** *** Registration *)

(** One channel of [resume]. *)
(* obby-client/src/client.rs 972-992 Client::resume *)
Definition rejoin (s : t) (entry : text * option text) : t :=
  let '(name, newest) := entry in
  let key := channel_keys s !! Isupport.fold (isupport s) name in
  let s := s |> send "JOIN" (name :: option_list key) in
  match Caps.has (caps s) "draft/chathistory", newest with
  | true, Some msgid => s |> send "CHATHISTORY" [lit "AFTER"; name; lit "msgid=" ++ msgid; lit "100"]
  | _, _ => s
  end.
(* obby-client/src/client.rs 938-993 Client::resume *)
Definition resume (s : t) : t :=
  let rejoining := (λ p, (Channel.name p.2, message ← Log.last (Channel.log p.2); Chat.msgid message))
                     <$> sorted_items (Model.channels (model s)) in
  let watched := Monitor.watched (monitor s) in
  let s := match watched with
           | [] => s
           | _ => foldl (λ s chunk, s |> send "MONITOR" [lit "+"; chunk]) s
                    (Monitor.batched watched (monitor_limit s))
           end in
  let s := match metadata_subscriptions s with
           | [] => s
           | keys => s |> send "METADATA" (lit "*" :: lit "SUB" :: keys)
           end in
  foldl rejoin s rejoining.

(* obby-client/src/client.rs 1497-1501 Client::send_sasl *)
Definition send_sasl (payload : list octet) (s : t) : t :=
  foldl (λ s line, s |> send "AUTHENTICATE" [line]) s (Sasl.encode_response payload).

(** Whether the exchange was opened, and we are now waiting on the server. *)
(* obby-client/src/client.rs 1406-1425 Client::start_sasl_if_wanted *)
Definition start_sasl_if_wanted (s : t) : bool * t :=
  if decide (sasl s ≠ Sasl.Idle) then (false, s)
  else if negb (Caps.has (caps s) "sasl") then (false, s)
  else
    match Config.sasl (config s) with
    | None => (false, s)
    | Some credentials =>
        let mechanism := Sasl.mechanism credentials in
        if negb (Sasl.offers (Caps.value (caps s) "sasl") mechanism)
        then (false, s |> set_sasl Sasl.Settled |> push_event (Event.SaslFailed Sasl.NoSharedMechanism))
        else (true, s |> set_sasl Sasl.Offered |> send "AUTHENTICATE" [mechanism])
    end.
(* obby-client/src/client.rs 1395-1404 Client::finish_negotiation_if_settled *)
Definition finish_negotiation_if_settled (s : t) : t :=
  if bool_decide (phase s ≠ Phase.Negotiating) || negb (Caps.settled (caps s)) then s
  else
    let '(started, s) := start_sasl_if_wanted s in
    if started || Sasl.in_flight (sasl s) then s
    else s |> set_phase Phase.Registering |> send "CAP" [lit "END"].

(* obby-client/src/client.rs 1381-1393 Client::request_wanted *)
Definition request_wanted (s : t) : t :=
  let wanted := Caps.to_request (caps s) in
  match wanted with
  | [] => s |> finish_negotiation_if_settled
  | _ => foldl (λ s name, s |> send "CAP" [lit "REQ"; name]) (set_caps (Caps.requested wanted (caps s)) s) wanted
  end.
(* obby-client/src/client.rs 1344-1379 Client::handle_cap *)
Definition handle_cap (message : Message.t) (s : t) : t :=
  match Message.param message 1 with
  | None => s
  | Some subcommand =>
      let list_ := default [] (Message.trailing message) in
      let more_to_come := bool_decide (Message.param message 2 = Some (lit "*")) in
      let sub := ascii_upper subcommand in
      if decide (sub = lit "LS") then
        let s := set_caps (Caps.advertise list_ (caps s)) s in
        if more_to_come then s else s |> request_wanted
      else if decide (sub = lit "NEW") then s |> set_caps (Caps.advertise list_ (caps s)) |> request_wanted
      else if decide (sub = lit "DEL") then s |> set_caps (Caps.withdraw list_ (caps s))
      else if decide (sub = lit "ACK") then
        let '(caps_, names) := Caps.acknowledge list_ (caps s) in
        let s := set_caps caps_ s in
        let s := match names with [] => s | _ => s |> push_event (Event.CapabilitiesAcknowledged names) end in
        s |> finish_negotiation_if_settled
      else if decide (sub = lit "NAK") then
        s |> set_caps (Caps.reject list_ (caps s)) |> finish_negotiation_if_settled
      else s
  end.

(* obby-client/src/client.rs 1503-1513 Client::finish_sasl *)
Definition finish_sasl (failure : option Sasl.SaslFailure) (s : t) : t :=
  if decide (sasl s = Sasl.Settled) then s
  else
    let s := s |> set_sasl Sasl.Settled in
    let s := match failure with Some reason => s |> push_event (Event.SaslFailed reason) | None => s end in
    s |> finish_negotiation_if_settled.
(* obby-client/src/client.rs 1440-1460 Client::begin_sasl_response *)
Definition begin_sasl_response (s : t) : t :=
  match Config.sasl (config s) with
  | None => s
  | Some (Sasl.Scram username password nonce) =>
      let scram := Scram.new username password nonce in
      s |> set_scram (Some scram) |> set_sasl Sasl.ScramChallenged |> send_sasl (Scram.client_first scram)
  | Some credentials => s |> set_sasl Sasl.Responded |> send_sasl (Sasl.response credentials)
  end.
(* obby-client/src/client.rs 1462-1475 Client::answer_scram_challenge *)
Definition answer_scram_challenge (challenge : list octet) (s : t) : t :=
  match scram s with
  | None => s |> finish_sasl (Some Sasl.Aborted)
  | Some scram =>
      let '(r, scram) := Scram.client_final scram challenge in
      let s := set_scram (Some scram) s in
      match r with
      | inr response => s |> set_sasl Sasl.ScramProved |> send_sasl response
      | inl _ => s |> finish_sasl (Some Sasl.Rejected)
      end
  end.
(* obby-client/src/client.rs 1477-1495 Client::verify_scram_server *)
Definition verify_scram_server (challenge : list octet) (s : t) : t :=
  match scram s with
  | None => s |> finish_sasl (Some Sasl.Aborted)
  | Some scram =>
      match Scram.verify scram challenge with
      | inl _ => s |> set_scram None |> finish_sasl (Some Sasl.ServerNotVerified)
      | inr _ => s |> set_scram None |> set_sasl Sasl.Responded |> send "AUTHENTICATE" [lit "+"]
      end
  end.
(* obby-client/src/client.rs 1427-1438 Client::handle_authenticate *)
Definition handle_authenticate (message : Message.t) (s : t) : t :=
  match Sasl.decode_challenge (default (lit "+") (Message.param message 0)) with
  | None => s |> finish_sasl (Some Sasl.Aborted)
  | Some challenge =>
      match sasl s with
      | Sasl.Offered => s |> begin_sasl_response
      | Sasl.ScramChallenged => s |> answer_scram_challenge challenge
      | Sasl.ScramProved => s |> verify_scram_server challenge
      | _ => s
      end
  end.

(* obby-client/src/client.rs 1515-1537 Client::handle_nick_refused *)
Definition handle_nick_refused (message : Message.t) (s : t) : t :=
  if decide (phase s = Phase.Registered) then s |> push_event (Event.RawLine message)
  else
    let refused := default (nick s) (Message.param message 1) in
    let trying := default (nick s ++ lit "_") (Config.alt_nicks (config s) !! nick_attempt s) in
    s |> set_nick_attempt (S (nick_attempt s)) |> set_nick trying
      |> set_model (Model.set_me (LocalUser.set_nick trying (Model.me (model s))) (model s))
      |> push_event (Event.NickInUse refused trying) |> send "NICK" [trying].

(** *** Tags that are not messages *)

(* obby-client/src/client.rs 1539-1568 Client::handle_rtc *)
Definition handle_rtc (message : Message.t) (s : t) : option t :=
  payload ← Message.tag message "+obsidianirc/rtc";
  channel ← Message.param message 0;
  Some
    match Signal.from_json payload with
    | None => s |> drop_line
    | Some signal =>
        let folded := Isupport.fold (isupport s) channel in
        let room := default (Room.new channel) (rooms s !! folded) in
        let room := Room.apply (nick s) signal (Isupport.casemapping (isupport s)) room in
        s |> set_rooms (<[folded := room]> (rooms s)) |> push_event (Event.Voice channel signal)
    end.

(* obby-client/src/client.rs 1578-1595 Client::handle_bot_tags *)
Definition announce_bot (payload : text) (s : t) : t :=
  match Bots.decode payload with
  | None => s |> drop_line
  | Some info =>
      let nick := Bots.nick (Bots.bot info) in
      let key := Isupport.fold (isupport s) nick in
      let bots_ :=
        if Bots.removed info then (Bots.remove key (bots s)).2
        else (Bots.set_commands key (Bots.info_commands info) (Bots.insert key (Bots.bot info) (bots s))).2 in
      s |> set_bots bots_ |> push_event (Event.BotsChanged nick)
  end.
(* obby-client/src/client.rs 1570-1616 Client::handle_bot_tags *)
Definition handle_bot_tags (message : Message.t) (s : t) : option t :=
  match Message.tag message Bots.BOT_INFO_TAG with
  | Some payload => Some (s |> announce_bot payload)
  | None =>
      payload ← Message.tag message Bots.BOT_COMMANDS_TAG;
      Some
        match Bots.decode_bot_commands payload, Message.source message with
        | Some cmds, Some source =>
            let '(known, bots_) := Bots.set_commands (Isupport.fold (isupport s) (Source.name source)) cmds (bots s) in
            let s := set_bots bots_ s in
            if known then s |> push_event (Event.BotsChanged (Source.name source)) else s
        | _, _ => s |> drop_line
        end
  end.

(* obby-client/src/client.rs 1618-1637 Client::handle_token *)
Definition handle_token (message : Message.t) (s : t) : option t :=
  sub ← Message.param message 0;
  if decide (sub ≠ lit "GENERATE") then None
  else
    service ← Message.param message 1; endpoint ← Message.param message 2; token ← Message.param message 3;
    Some (s |> push_event (Event.AuthToken service endpoint token)).

(* obby-client/src/client.rs 1639-1681 Client::handle_typing *)
Definition handle_typing (message : Message.t) (s : t) : option t :=
  state ← Message.tag message "+typing";
  target ← Message.param message 0;
  source ← Message.source message;
  let who := Source.name source in
  let target := if Isupport.is_channel (isupport s) target then target else who in
  let folded_target := Isupport.fold (isupport s) target in
  let folded_who := Isupport.fold (isupport s) who in
  let typing := bool_decide (state = lit "active") in
  let deadline := Typing folded_target folded_who in
  let s := if typing then s |> set_timer deadline TYPING_EXPIRY_MS else s |> clear_timer deadline in
  let '(changed, m) := Model.set_typing folded_target folded_who typing (model s) in
  let s := set_model m s in
  Some (if changed then s |> push_event (Event.TypingChanged target who typing) else s).

(* obby-client/src/client.rs 1702-1713 Client::handle_monitor *)
Definition presence (online : bool) (s : t) (target : text) : t :=
  let nick := default target (head (split_char chBANG target)) in
  let folded := Isupport.fold (isupport s) nick in
  s |> set_monitor (if online then Monitor.mark_online folded (monitor s) else Monitor.mark_offline folded (monitor s))
    |> push_event (Event.PresenceChanged nick online).
(* obby-client/src/client.rs 1698-1714 Client::handle_monitor *)
Definition handle_monitor (message : Message.t) (s : t) : t :=
  let online := Message.is_command message "730" in
  match Message.param message 1 with
  | None => s
  | Some list_ => foldl (presence online) s (Monitor.split_targets list_)
  end.

(* obby-client/src/client.rs 1716-1742 Client::handle_standard_reply *)
Definition handle_standard_reply (severity : Severity.t) (message : Message.t) (s : t) : option t :=
  let command := default (lit "*") (Message.param message 0) in
  code ← Message.param message 1;
  let body := default [] (Message.trailing message) in
  let context := take (length (Message.params message) - 3) (drop 2 (Message.params message)) in
  Some (s |> push_event (Event.ServerReply severity command code context body)).

(* obby-client/src/client.rs 1744-1759 Client::handle_isupport *)
Definition handle_isupport (message : Message.t) (s : t) : t :=
  let params := Message.params message in
  foldl (λ s token,
      let '(isupport_, applied) := Isupport.apply token (isupport s) in
      s |> set_isupport isupport_ |> push_event (Event.IsupportToken (Token.name applied) (Token.value applied)))
    s (take (length params - 2) (drop 1 params)).

(** *** Batches *)

(* obby-client/src/client.rs 1264-1280 Client::drain_batch *)
Definition drain_batch (closed : Batch.Closed) (s : t) : t :=
  let historical :=
    bool_decide (Batch.c_kind closed = CHATHISTORY_BATCH)
    || match Batch.c_parent closed with
       | Some parent => Batch.is_within (batches s) parent CHATHISTORY_BATCH
       | None => false
       end in
  let closed := if decide (Batch.c_kind closed = MULTILINE_BATCH) then join_multiline closed else closed in
  foldl (λ s message, s |> fold message historical) s (Batch.c_messages closed).
(* obby-client/src/client.rs 1252-1262 Client::handle_batch *)
Definition handle_batch (message : Message.t) (s : t) : t :=
  let reference := default [] (Message.param message 0) in
  if starts_with_char chPLUS reference then s |> set_batches (Batch.open message (batches s))
  else
    let '(closed, batches_) := Batch.close message (batches s) in
    let s := set_batches batches_ s in
    match closed with Some closed => s |> drain_batch closed | None => s end.

(** *** One line *)

(* obby-client/src/client.rs 1168-1179 Client::handle_message *)
Definition welcome (message : Message.t) (s : t) : t :=
  let s := s |> set_phase Phase.Registered in
  let s := match Message.param message 0 with Some nick => set_nick nick s | None => s end in
  s |> set_model (Model.set_me (LocalUser.set_nick (nick s) (Model.me (model s))) (model s))
    |> push_event (Event.Registered (nick s)) |> resume.

(** The last part of the dispatch, for a line nothing above has taken. *)
(* obby-client/src/client.rs 1205-1250 Client::handle_message *)
Definition handle_rest (message : Message.t) (s : t) : t :=
  let verb_is := Message.is_command message in
  let verb := Message.command message in
  if bool_decide (verb = lit "730" ∨ verb = lit "731") then s |> handle_monitor message
  else
  match severity ← Severity.of_verb verb; handle_standard_reply severity message s with
  | Some s => s
  | None =>
  if verb_is "AUTHENTICATE" then s |> handle_authenticate message
  else if verb_is "433" || verb_is "432" then s |> handle_nick_refused message
  else
  match sasl_failure verb with
  | Some reason => s |> finish_sasl (Some reason)
  | None =>
  if verb_is "900" then
    match Message.param message 2 with Some account => s |> push_event (Event.LoggedIn account) | None => s end
  else if verb_is "903" then s |> finish_sasl None
  else if verb_is "BATCH" then s |> handle_batch message
  else
    let '(routed, batches_) := Batch.route message (batches s) in
    let s := set_batches batches_ s in
    match routed with Some message => s |> fold message false | None => s end
  end
  end.

(* obby-client/src/client.rs 1152-1250 Client::handle_message *)
Definition handle_message (message : Message.t) (s : t) : t :=
  let s := s |> arm_keepalive in
  let s := s |> set_labels (Labels.resolve message (labels s)).2 in
  let verb_is := Message.is_command message in
  if verb_is "PONG" then s
  else if verb_is "PING" then s |> send "PONG" [default [] (Message.trailing message)]
  else if verb_is "CAP" then s |> handle_cap message
  else if verb_is "001" then s |> welcome message
  else if verb_is "005" then s |> handle_isupport message
  else
  match (if verb_is "TAGMSG" then handle_typing message s else None) with
  | Some s => s
  | None =>
  match (if verb_is "TAGMSG" then handle_rtc message s else None) with
  | Some s => s
  | None =>
  match (if verb_is "TAGMSG" then handle_bot_tags message s else None) with
  | Some s => s
  | None =>
  match (if verb_is "TOKEN" then handle_token message s else None) with
  | Some s => s
  | None =>
  if verb_is "CMDSLIST" then s |> set_commands (Commands.apply message (commands s)) |> push_event Event.AllowedCommandsChanged
  else s |> handle_rest message
  end end end end.
End engine.
End Core.

Module Client.
(** The whole struct: what is assembling the next line, and the rest. *)
(* obby-client/src/client.rs 227-264 Client *)
Record t := mk { core : Core.t; partial : list octet; discarding : bool }.
(* obby-client/src/client.rs 277-320 Client::new *)
Definition new (config : Config.t) : t := mk (Core.new config) [] false.
Definition map_core (f : Core.t → Core.t) (s : t) : t := mk (f (core s)) (partial s) (discarding s).

Section bytes.
Context `{Unicode, Base64, Crypto}.

(** One whole line, terminator included. *)
(* obby-client/src/client.rs 1032-1038 Client::handle_bytes *)
Definition handle_line (line : list octet) (c : Core.t) : Core.t :=
  match Message.parse (from_utf8_lossy line) with
  | inr message => Core.handle_message message c
  | inl _ => Core.drop_line c
  end.

(** Each turn takes a line off the buffer, so its length is fuel enough. *)
(* obby-client/src/client.rs 1018-1039 Client::handle_bytes *)
Fixpoint drain (fuel : nat) (s : t) : t :=
  match fuel with
  | O => s
  | S fuel =>
      match split_once chLF (partial s) with
      | None =>
          if decide (MAX_INBOUND_LINE < length (partial s))%nat
          then mk (Core.drop_line (core s)) [] true else s
      | Some (line, rest) =>
          if discarding s then drain fuel (mk (core s) rest false)
          else drain fuel (mk (handle_line (line ++ [chLF]) (core s)) rest false)
      end
  end.
(* obby-client/src/client.rs 1003-1040 Client::handle_bytes *)
Definition handle_bytes (data : list octet) (s : t) : t :=
  let s := mk (core s) (partial s ++ data) (discarding s) in
  drain (S (length (partial s))) s.

(* obby-client/src/client.rs 1063-1065 Client::poll_transmit *)
Definition poll_transmit (s : t) : option (list octet) * t :=
  match Core.outbox (core s) with
  | [] => (None, s)
  | bytes :: rest => (Some bytes, map_core (Core.set_outbox rest) s)
  end.
(* obby-client/src/client.rs 1082-1084 Client::poll_event *)
Definition poll_event (s : t) : option Event.t * t :=
  match Core.events (core s) with
  | [] => (None, s)
  | e :: rest => (Some e, map_core (Core.set_events rest) s)
  end.

(** Neither end of a connection touches the bytes of an unfinished line. *)
(* obby-client/src/client.rs 339-360 Client::handle_connected *)
Definition handle_connected (s : t) : t := map_core Core.handle_connected s.
(* obby-client/src/client.rs 366-392 Client::handle_disconnected *)
Definition handle_disconnected (s : t) : t := map_core Core.handle_disconnected s.
(* obby-client/src/client.rs 413-435 Client::tick *)
Definition tick (now : Now) (s : t) : t := map_core (Core.tick now) s.
(* obby-client/src/client.rs 693-743 Client::command *)
Definition command (c : Command.t) (s : t) : t := map_core (Core.command c) s.

(** *** One method for each command *)

(* obby-client/src/client.rs 455-460 Client::join *)
Definition join (channel : text) (key : option text) (s : t) : t := command (Command.Join channel key) s.
(* obby-client/src/client.rs 463-468 Client::part *)
Definition part (channel : text) (reason : option text) (s : t) : t := command (Command.Part channel reason) s.
(* obby-client/src/client.rs 482-487 Client::send_message *)
Definition send_message (target body : text) (s : t) : t := command (Command.SendMessage target body) s.
(* obby-client/src/client.rs 490-495 Client::send_notice *)
Definition send_notice (target body : text) (s : t) : t := command (Command.SendNotice target body) s.
(* obby-client/src/client.rs 498-503 Client::send_action *)
Definition send_action (target body : text) (s : t) : t := command (Command.SendAction target body) s.
(* obby-client/src/client.rs 506-508 Client::set_nick *)
Definition set_nick (nick : text) (s : t) : t := command (Command.SetNick nick) s.
(* obby-client/src/client.rs 511-516 Client::set_topic *)
Definition set_topic (channel : text) (topic : option text) (s : t) : t := command (Command.SetTopic channel topic) s.
(* obby-client/src/client.rs 519-521 Client::set_away *)
Definition set_away (message : option text) (s : t) : t := command (Command.SetAway message) s.
(* obby-client/src/client.rs 524-529 Client::set_typing *)
Definition set_typing (target : text) (state : TypingState.t) (s : t) : t := command (Command.SetTyping target state) s.
(* obby-client/src/client.rs 532-543 Client::add_reaction *)
Definition add_reaction (target msgid emoji : text) (s : t) : t := command (Command.AddReaction target msgid emoji) s.
(* obby-client/src/client.rs 546-557 Client::remove_reaction *)
Definition remove_reaction (target msgid emoji : text) (s : t) : t := command (Command.RemoveReaction target msgid emoji) s.
(* obby-client/src/client.rs 560-571 Client::redact_message *)
Definition redact_message (target msgid : text) (reason : option text) (s : t) : t := command (Command.RedactMessage target msgid reason) s.
(* obby-client/src/client.rs 574-579 Client::mark_read *)
Definition mark_read (target : text) (at_ms : Z) (s : t) : t := command (Command.MarkRead target at_ms) s.
(* obby-client/src/client.rs 582-593 Client::fetch_history *)
Definition fetch_history (target : text) (before_msgid : option text) (limit : Z) (s : t) : t := command (Command.FetchHistory target before_msgid limit) s.
(* obby-client/src/client.rs 596-601 Client::set_metadata *)
Definition set_metadata (key : text) (value : option text) (s : t) : t := command (Command.SetMetadata key value) s.
(* obby-client/src/client.rs 604-606 Client::subscribe_metadata *)
Definition subscribe_metadata (keys : list text) (s : t) : t := command (Command.SubscribeMetadata keys) s.
(* obby-client/src/client.rs 612-614 Client::whois *)
Definition whois (nick : text) (s : t) : t := command (Command.Whois nick) s.
(* obby-client/src/client.rs 617-628 Client::rename_channel *)
Definition rename_channel (channel new_name : text) (reason : option text) (s : t) : t := command (Command.RenameChannel channel new_name reason) s.
(* obby-client/src/client.rs 631-636 Client::create_invite_link *)
Definition create_invite_link (channel description : option text) (s : t) : t := command (Command.CreateInviteLink channel description) s.
(* obby-client/src/client.rs 639-641 Client::list_invite_links *)
Definition list_invite_links (s : t) : t := command (Command.ListInviteLinks) s.
(* obby-client/src/client.rs 644-648 Client::delete_invite_link *)
Definition delete_invite_link (share_id : text) (s : t) : t := command (Command.DeleteInviteLink share_id) s.
(* obby-client/src/client.rs 651-653 Client::redeem_invite_code *)
Definition redeem_invite_code (code : text) (s : t) : t := command (Command.RedeemInviteCode code) s.
(* obby-client/src/client.rs 658-662 Client::generate_token *)
Definition generate_token (service : text) (s : t) : t := command (Command.GenerateToken service) s.
(* obby-client/src/client.rs 665-667 Client::watch_nicks *)
Definition watch_nicks (nicks : list text) (s : t) : t := command (Command.WatchNicks nicks) s.
(* obby-client/src/client.rs 670-672 Client::unwatch_nicks *)
Definition unwatch_nicks (nicks : list text) (s : t) : t := command (Command.UnwatchNicks nicks) s.
(* obby-client/src/client.rs 676-681 Client::send_voice_signal *)
Definition send_voice_signal (channel : text) (signal : Signal.t) (s : t) : t := command (Command.SendVoiceSignal channel signal) s.
(* obby-client/src/client.rs 684-686 Client::quit *)
Definition quit (reason : option text) (s : t) : t := command (Command.Quit reason) s.
(* obby-client/src/client.rs 689-691 Client::send_raw_line *)
Definition send_raw_line (line : text) (s : t) : t := command (Command.SendRawLine line) s.
End bytes.
End Client.

(** *** Assembling lines *)
Module Assembly.
Import Client.
#[local] Open Scope nat_scope.
Section assembly.
Context `{Unicode, Base64, Crypto}.
Implicit Types (s : t) (c : Core.t) (line data : list octet).

(** A line as it is on the wire. *)
Definition terminated (line : list octet) : list octet := line ++ [chLF].

(** Nothing is left to take off the buffer, and it is not too long to keep. *)
Definition waiting s : Prop := chLF ∉ partial s ∧ length (partial s) ≤ MAX_INBOUND_LINE.

Lemma drain_waiting fuel s : length (partial s) < fuel → waiting (drain fuel s).
Proof.
  revert s; induction fuel as [|fuel IH]; intros s Hf; [lia|]. cbn [drain].
  destruct (split_once chLF (partial s)) as [[line rest]|] eqn:E.
  - apply split_once_Some in E as [E _].
    assert (length rest < fuel) by (rewrite E, length_app in Hf; cbn in Hf; lia).
    destruct (discarding s); apply IH; done.
  - apply split_once_None in E. case_decide; split; cbn; try done; try lia. set_solver.
Qed.

Lemma drain_more fuel fuel' s :
  length (partial s) < fuel → length (partial s) < fuel' → drain fuel s = drain fuel' s.
Proof.
  revert fuel' s; induction fuel as [|fuel IH]; intros [|fuel'] s Hf Hf'; try lia. cbn [drain].
  destruct (split_once chLF (partial s)) as [[line rest]|] eqn:E; [|done].
  apply split_once_Some in E as [E _].
  rewrite E, length_app in Hf, Hf'; cbn in Hf, Hf'.
  destruct (discarding s); apply IH; cbn; lia.
Qed.

(** One line more at the front of a buffer. *)
Lemma drain_line fuel c line rest d :
  chLF ∉ line → length (line ++ chLF :: rest) < fuel →
  drain fuel (mk c (line ++ chLF :: rest) d) =
    handle_bytes rest (mk (if d then c else handle_line (terminated line) c) [] false).
Proof.
  intros Hl Hf. destruct fuel as [|fuel]; [lia|]. cbn [drain partial].
  rewrite split_once_app by done. cbn [discarding core].
  rewrite length_app in Hf; cbn in Hf.
  unfold handle_bytes; cbn [core partial discarding app].
  destruct d; apply drain_more; cbn; lia.
Qed.

Lemma handle_bytes_line line rest s :
  chLF ∉ partial s → chLF ∉ line →
  handle_bytes (line ++ chLF :: rest) s =
    handle_bytes rest (mk (if discarding s then core s else handle_line (terminated (partial s ++ line)) (core s)) [] false).
Proof.
  intros Hp Hl. unfold handle_bytes at 1. cbn [partial]. rewrite (assoc_L (++)).
  apply drain_line; [set_solver|]. lia.
Qed.

Lemma handle_bytes_tail data s :
  chLF ∉ partial s → chLF ∉ data → length (partial s ++ data) ≤ MAX_INBOUND_LINE →
  handle_bytes data s = mk (core s) (partial s ++ data) (discarding s).
Proof.
  intros Hp Hd Hm. unfold handle_bytes. cbn [partial]. cbn [drain partial].
  rewrite (proj2 (split_once_None _ _)) by set_solver. rewrite decide_False by (unfold MAX_INBOUND_LINE in *; lia). done.
Qed.

(** What the wire carries for these lines, the last of them unfinished. *)
Definition stream (lines : list (list octet)) (tail : list octet) : list octet :=
  concat (terminated <$> lines) ++ tail.
(** A line the engine holds while the rest of it is on the way. *)
Definition holdable line : Prop := chLF ∉ line ∧ length line ≤ MAX_INBOUND_LINE.

Lemma stream_cons line lines tail : stream (line :: lines) tail = line ++ chLF :: stream lines tail.
Proof. unfold stream, terminated. cbn. rewrite <-!(assoc_L (++)). done. Qed.

Lemma handle_bytes_joined data s : handle_bytes data s = handle_bytes (partial s ++ data) (mk (core s) [] (discarding s)).
Proof. done. Qed.

(** Whole lines arriving at once are handled one by one. *)
Lemma handle_stream lines tail c :
  Forall holdable lines → holdable tail →
  handle_bytes (stream lines tail) (mk c [] false) =
    mk (foldl (λ c line, handle_line (terminated line) c) c lines) tail false.
Proof.
  intros Hl [Ht Htl]. revert c. induction Hl as [|line lines [Hn _] _ IH]; intros c.
  - rewrite handle_bytes_tail; [done|set_solver|done|done].
  - rewrite stream_cons, handle_bytes_line; [|set_solver|done]. cbn [discarding core partial app]. by rewrite IH.
Qed.

(** Where a read stops, it stops inside one of the lines. *)
Lemma stream_prefix a b lines tail :
  Forall holdable lines → holdable tail → a ++ b = stream lines tail →
  ∃ whole rest held, lines = whole ++ rest ∧ holdable held ∧ a = stream whole held ∧ held ++ b = stream rest tail.
Proof.
  intros Hl Ht. revert a. induction Hl as [|line lines Hline Hl IH]; intros a E.
  - exists [], [], a. split_and!; try done. unfold stream in E; cbn in E; subst.
    destruct Ht as [Hn Hlen]. rewrite length_app in Hlen. split; [set_solver|lia].
  - rewrite stream_cons in E. destruct (decide (chLF ∈ a)) as [Hin|Hout].
    + destruct (split_once chLF a) as [[first a']|] eqn:Ea; [|by apply split_once_None in Ea].
      apply split_once_Some in Ea as [-> Hf].
      assert (split_once chLF (line ++ chLF :: stream lines tail) = Some (first, a' ++ b)) as Es.
      { rewrite <-E, <-(assoc_L (++)). by apply split_once_app. }
      rewrite split_once_app in Es by apply Hline. simplify_eq.
      destruct (IH a') as (whole & rest & held & -> & Hh & -> & Hb); [done|].
      exists (first :: whole), rest, held. split_and!; try done. by rewrite stream_cons.
    + exists [], (line :: lines), a. split_and!; [done| |done|by rewrite stream_cons].
      split; [done|]. destruct Hline as [_ Hm].
      destruct (decide (length a ≤ length line)) as [Hle|Hgt]; [lia|]. exfalso. apply Hout.
      apply list_elem_of_lookup. exists (length line).
      rewrite <-(lookup_app_l a b) by lia. rewrite E, lookup_app_r by lia. by rewrite Nat.sub_diag.
Qed.

Lemma handle_chunks chunks lines tail s :
  chLF ∉ partial s → Forall holdable lines → holdable tail → discarding s = false →
  partial s ++ concat chunks = stream lines tail →
  foldl (λ s data, handle_bytes data s) s chunks =
    mk (foldl (λ c line, handle_line (terminated line) c) (core s) lines) tail false.
Proof.
  revert lines s. induction chunks as [|data chunks IH]; intros lines [c p d] Hp Hl Ht Hd E;
    cbn [concat app foldl partial core discarding] in *; subst.
  - rewrite app_nil_r in E. destruct lines as [|line lines]; cbn; [by rewrite E|].
    rewrite stream_cons in E. set_solver.
  - rewrite (assoc_L (++)) in E. apply stream_prefix in E as (whole & rest & held & -> & Hh & E & E'); [|done|done].
    apply Forall_app in Hl as [Hw Hr]. rewrite handle_bytes_joined. cbn [partial core discarding].
    rewrite E, handle_stream by done. rewrite (IH rest); [|apply Hh|done|done|done|done].
    cbn. by rewrite foldl_app.
Qed.

(** C8. However the transport splits what it reads, every line is handled exactly once, whole and in the
    order it was sent, and the line that is not finished yet is the only thing held: feeding any chunks whose
    bytes are those lines gives the state of handling the lines one after the other (no line being longer
    than the engine will hold). *)
Theorem fragments_never_matter chunks lines tail c :
  Forall holdable lines → holdable tail → concat chunks = stream lines tail →
  foldl (λ s data, handle_bytes data s) (mk c [] false) chunks =
    mk (foldl (λ c line, handle_line (terminated line) c) c lines) tail false.
Proof. intros Hl Ht E. apply (handle_chunks _ _ _ (mk c [] false)); try done. set_solver. Qed.

(** What the engine holds of a line is bounded after every read, whatever was read and whatever was held
    before: no terminator stays unhandled in it (so the loop's fuel was enough) and it is never longer than
    [MAX_INBOUND_LINE]. *)
Theorem held_line_bounded data s :
  chLF ∉ partial (handle_bytes data s) ∧ length (partial (handle_bytes data s)) ≤ MAX_INBOUND_LINE.
Proof. apply (drain_waiting _ (mk (core s) (partial s ++ data) (discarding s))). cbn. lia. Qed.

Lemma handle_bytes_overflow line c d :
  chLF ∉ line → MAX_INBOUND_LINE < length line → handle_bytes line (mk c [] d) = mk (Core.drop_line c) [] true.
Proof.
  intros Hl Hlong. unfold handle_bytes. cbn [drain partial app core discarding].
  rewrite (proj2 (split_once_None _ _)) by done. by rewrite decide_True.
Qed.

(** An over-long line costs itself and nothing else: it is counted when it outgrows the buffer, the
    rest of it is thrown away up to its terminator, and what follows is read as it would have been. *)
Theorem long_line_costs_itself line more rest c :
  chLF ∉ line → chLF ∉ more → MAX_INBOUND_LINE < length line →
  handle_bytes (more ++ chLF :: rest) (handle_bytes line (mk c [] false)) =
    handle_bytes rest (mk (Core.drop_line c) [] false).
Proof.
  intros Hl Hm Hlong. rewrite handle_bytes_overflow by done.
  rewrite handle_bytes_line; [done|set_solver|done].
Qed.

(** A dropped connection leaves the bytes of its unfinished line behind: on the next connection they are
    the beginning of the first line the new server sends. *)
Theorem reconnect_inherits_held_bytes held line c :
  chLF ∉ held → chLF ∉ line →
  handle_bytes (terminated line) (handle_connected (handle_disconnected (mk c held false))) =
    mk (handle_line (terminated (held ++ line)) (Core.handle_connected (Core.handle_disconnected c))) [] false.
Proof. intros Hh Hl. unfold terminated. rewrite handle_bytes_line; done. Qed.
End assembly.

Lemma fragments_never_matter_witness :
  let c := Core.new (Config.new "me") in
  let wire := encode (lit "PING :abc") ++ [chCR; chLF] ++ encode (lit "PIN") in
  let s := foldl (λ s data, @handle_bytes ascii_table standard toy_crypto data s) (mk c [] false) ((λ b, [b]) <$> wire) in
  Core.outbox (core s) = [encode (lit "PONG abc") ++ [chCR; chLF]] ∧ partial s = encode (lit "PIN").
Proof.
  cbv zeta. 
  rewrite (@fragments_never_matter ascii_table standard toy_crypto _ [encode (lit "PING :abc") ++ [chCR]] (encode (lit "PIN"))).
  - vm_compute. done.
  - constructor; [|done]. split; [vm_compute; set_solver|vm_compute; lia].
  - split; [vm_compute; set_solver|vm_compute; lia].
  - by vm_compute.
Defined.

Lemma long_line_costs_itself_witness :
  let c := Core.new (Config.new "me") in
  let s := @handle_bytes ascii_table standard toy_crypto (encode "tail" ++ [chLF])
             (@handle_bytes ascii_table standard toy_crypto (replicate 9000 65%N) (mk c [] false)) in
  Core.dropped_lines (core s) = 1%Z ∧ partial s = [] ∧ discarding s = false.
Proof.
  cbv zeta. rewrite (@long_line_costs_itself ascii_table standard toy_crypto (replicate 9000 65%N) (encode "tail") []).
  - by vm_compute.
  - intros Hin. apply elem_of_replicate in Hin as [Hc _]. discriminate.
  - vm_compute. set_solver.
  - rewrite length_replicate. apply Nat.ltb_lt. by vm_compute.
Defined.

Lemma reconnect_inherits_held_bytes_witness :
  let c := Core.new (Config.new "me") in
  let s := @handle_bytes ascii_table standard toy_crypto (terminated (encode ":irc 001 me :hi"))
             (handle_connected (handle_disconnected (mk c (encode "PRIVMSG #c :half") false))) in
  Core.phase (core s) = Phase.Negotiating.
Proof.
  cbv zeta. rewrite (@reconnect_inherits_held_bytes ascii_table standard toy_crypto).
  - by vm_compute.
  - vm_compute. set_solver.
  - vm_compute. set_solver.
Defined.
End Assembly.
