(* ===== verification/Negotiation.v ===== *)
(** * Registration never stalls (theorems about src/crates/obby-client/src/client.rs)

    Capability negotiation holds registration open until the server has answered every
    request and the SASL exchange is over. [Input] is everything the host can feed an open
    connection; the theorems here say that no sequence of inputs leaves the engine holding
    registration open with nothing to wait for, and that it lets go only when it may. *)
From S2P Require Import Prelude Utf8 Isupport Tags Message Timer Batch Label Caps Sasl Base64 Scram.
From S2P Require Import Monitor Extensions Model Session Voice Command Client.

(** ** Inputs *)

(** A line, the clock or a command. *)
Inductive input := Line (m : Message.t) | Tick (now : Now) | Do (c : Command.t).

Definition step `{Unicode, Base64, Crypto} (s : Core.t) (i : input) : Core.t :=
  match i with
  | Line m => Core.handle_message m s
  | Tick now => Core.tick now s
  | Do c => Core.command c s
  end.
Definition run `{Unicode, Base64, Crypto} (s : Core.t) (is_ : list input) : Core.t := foldl step s is_.

(** Registration is held open and nothing more will come to let it go. *)
Definition stalled (s : Core.t) : Prop :=
  Core.phase s = Phase.Negotiating ∧ Caps.pending (Core.caps s) = [] ∧ Sasl.in_flight (Core.sasl s) = false.

(** A capability reply that ends a list, or answers a request. *)
Definition settling (m : Message.t) : Prop :=
  ∃ sub, Message.param m 1 = Some sub ∧
    ((ascii_upper sub = lit "LS" ∧ Message.param m 2 ≠ Some (lit "*"))
     ∨ ascii_upper sub = lit "NEW" ∨ ascii_upper sub = lit "ACK" ∨ ascii_upper sub = lit "NAK").

Definition cap_end : list octet := encode (Message.show (Message.new "CAP" [lit "END"])) ++ [chCR; chLF].

(** ** What one step may do to the negotiation *)

(** The part of the state the negotiation runs on. *)
Definition frame (s : Core.t) : Phase.t * Caps.t * Sasl.SaslState * Config.t :=
  (Core.phase s, Core.caps s, Core.sasl s, Core.config s).

(** A step leaves the phase alone and does not bring the negotiation to a halt, or the
    server has welcomed us, or negotiation is over and the server has been told. *)
Definition progress (s s' : Core.t) : Prop :=
  (Core.phase s' = Core.phase s ∧ (stalled s' → stalled s))
  ∨ Core.phase s' = Phase.Registered
  ∨ (Core.phase s = Phase.Negotiating ∧ Core.phase s' = Phase.Registering
     ∧ Caps.pending (Core.caps s') = [] ∧ Sasl.in_flight (Core.sasl s') = false
     ∧ last (Core.outbox s') = Some cap_end).

Section negotiation.
Context `{Unicode, Base64, Crypto}.
Implicit Types (s : Core.t) (m : Message.t).

Lemma frame_foldl {A} (f : Core.t → A → Core.t) l s :
  (∀ s x, frame (f s x) = frame s) → frame (foldl f s l) = frame s.
Proof. intros Hf. revert s. induction l as [|x l IH]; intros s; [done|]. cbn. by rewrite IH. Qed.

Lemma frame_send_line msg s : frame (Core.send_line msg s) = frame s.
Proof. done. Qed.
Lemma frame_send c ps s : frame (Core.send c ps s) = frame s.
Proof. done. Qed.
Lemma frame_push_event e s : frame (Core.push_event e s) = frame s.
Proof. done. Qed.

Lemma frame_request_who ch s : frame (Core.request_who ch s) = frame s.
Proof. unfold Core.request_who. by destruct (Isupport.has _ _). Qed.

Lemma frame_follow_change s c : frame (Core.follow_change s c) = frame s.
Proof.
  destruct c; try done; cbn [Core.follow_change]; [apply frame_request_who|].
  cbv zeta. destruct (Core.channel_keys s !! _); cbn; by destruct (_ !! _).
Qed.

Lemma frame_fold msg h s : frame (Core.fold msg h s) = frame s.
Proof.
  unfold Core.fold. destruct (Session.apply _ _ _ _) as [changes ctx].
  destruct changes as [|c cs]; [by destruct (Session.accumulates _)|].
  rewrite frame_foldl by done. rewrite frame_foldl by apply frame_follow_change. done.
Qed.

Lemma frame_send_line_labeled msg s : frame (Core.send_line_labeled msg s) = frame s.
Proof.
  unfold Core.send_line_labeled. destruct (negb _); [done|]. by destruct (Labels.generate _).
Qed.
Lemma frame_say msg s : frame (Core.say msg s) = frame s.
Proof.
  unfold Core.say. cbv zeta. destruct (Caps.has _ _); [|rewrite frame_fold]; apply frame_send_line_labeled.
Qed.
Lemma frame_set_watching ns w s : frame (Core.set_watching ns w s) = frame s.
Proof. unfold Core.set_watching. cbv zeta. by rewrite frame_foldl. Qed.

Lemma frame_command c s : frame (Core.command c s) = frame s.
Proof.
  destruct c; cbn [Core.command]; try apply frame_say; try apply frame_set_watching; cbv zeta;
    try (destruct (Command.wire _); [|done]); rewrite ?frame_send_line_labeled; done.
Qed.

Lemma frame_expire_typing t w s : frame (Core.expire_typing t w s) = frame s.
Proof. unfold Core.expire_typing. destruct (Model.set_typing _ _ _ _) as [[] ?]; done. Qed.
Lemma frame_tick now s : frame (Core.tick now s) = frame s.
Proof.
  unfold Core.tick. cbv zeta. destruct (Timers.expire _ _) as [due rest], (Labels.expire _ _) as [late ls] eqn:E.
  rewrite frame_foldl by done.
  match goal with |- frame (Core.set_labels ls ?s') = _ => transitivity (frame s'); [done|] end.
  rewrite frame_foldl; [done|]. intros s' []; try done. apply frame_expire_typing.
Qed.

Lemma frame_resume s : frame (Core.resume s) = frame s.
Proof.
  unfold Core.resume. cbv zeta. rewrite frame_foldl.
  2: { intros s' [? ?]. unfold Core.rejoin. cbv zeta. by destruct (Caps.has _ _), o. }
  assert (∀ s, frame match Core.metadata_subscriptions s with [] => s
                     | keys => Core.send "METADATA" (lit "*" :: lit "SUB" :: keys) s end = frame s) as Hm.
  { intros s'. by destruct (Core.metadata_subscriptions s'). }
  rewrite Hm. destruct (Monitor.watched _); [done|]. by rewrite frame_foldl.
Qed.
Lemma frame_send_sasl p s : frame (Core.send_sasl p s) = frame s.
Proof. unfold Core.send_sasl. by rewrite frame_foldl. Qed.

(** *** The handlers that negotiate *)

Lemma progress_frame s s' : frame s' = frame s → progress s s'.
Proof.
  intros [= E1 E2 E3 E4]. left. split; [done|]. unfold stalled. by rewrite E1, E2, E3.
Qed.
Lemma progress_not_stalled s s' : Core.phase s' = Core.phase s → ¬ stalled s' → progress s s'.
Proof. intros E Hs. left. done. Qed.

(** Whatever the state, asking whether negotiation is over leaves it waiting or over. *)
Lemma finish_settles s0 s :
  Core.phase s = Core.phase s0 →
  ¬ stalled (Core.finish_negotiation_if_settled s) ∧ progress s0 (Core.finish_negotiation_if_settled s).
Proof.
  intros E0. set (s' := Core.finish_negotiation_if_settled s).
  assert ((¬ stalled s' ∧ Core.phase s' = Core.phase s)
    ∨ (Core.phase s = Phase.Negotiating ∧ Core.phase s' = Phase.Registering ∧ Caps.pending (Core.caps s') = []
        ∧ Sasl.in_flight (Core.sasl s') = false ∧ last (Core.outbox s') = Some cap_end)) as [[Hs Hp]|Hr].
  - subst s'. unfold Core.finish_negotiation_if_settled.
    case_bool_decide as Ep; [left; split; [intros (? & _); done|done]|]. cbn [orb].
    unfold Caps.settled. case_bool_decide as Ec; cbn [negb]; [|left; split; [intros (_ & ? & _); done|done]].
    destruct (Core.start_sasl_if_wanted s) as [started s1] eqn:E.
    assert (Core.phase s1 = Core.phase s ∧ Core.caps s1 = Core.caps s
            ∧ (started = true → Sasl.in_flight (Core.sasl s1) = true)) as (Hp1 & Hc1 & Hf1).
    { unfold Core.start_sasl_if_wanted in E. repeat (case_match; simplify_eq; try done). }
    destruct started; cbn [orb]; [left; split; [intros (_ & _ & ?); rewrite Hf1 in *; done|done]|].
    destruct (Sasl.in_flight (Core.sasl s1)) eqn:Ef; [left; split; [intros (_ & _ & ?); congruence|done]|].
    right. cbn. rewrite Hc1. split_and!; try done. by rewrite last_snoc.
  - split; [done|]. apply progress_not_stalled; [congruence|done].
  - split; [unfold stalled; intros (Hn & _); destruct Hr as (_ & Hr & _); congruence|].
    right; right. rewrite <- E0. done.
Qed.

Lemma finish_progress s0 s :
  Core.phase s = Core.phase s0 → progress s0 (Core.finish_negotiation_if_settled s).
Proof. apply finish_settles. Qed.

Lemma request_wanted_settles s0 s :
  Core.phase s = Core.phase s0 → ¬ stalled (Core.request_wanted s) ∧ progress s0 (Core.request_wanted s).
Proof.
  intros E0. unfold Core.request_wanted. destruct (Caps.to_request (Core.caps s)) as [|w ws] eqn:E; [by apply finish_settles|].
  match goal with |- context [foldl ?f ?s1 ?l] => pose proof (frame_foldl f l s1 (λ _ _, eq_refl)) as Hf end.
  revert Hf. generalize (foldl (λ s name, Core.send "CAP" [lit "REQ"; name] s)
    (Core.set_caps (Caps.requested (w :: ws) (Core.caps s)) s) (w :: ws)). intros s1 Hf. injection Hf as F1 F2 F3 F4.
  assert (¬ stalled s1) as Hs.
  { unfold stalled. rewrite F2. cbn. intros (_ & Hn & _). by apply app_eq_nil in Hn as [_ ?]. }
  split; [done|]. apply progress_not_stalled; [congruence|done].
Qed.

Lemma withdraw_pending l c : Caps.pending (Caps.withdraw l c) = Caps.pending c.
Proof.
  unfold Caps.withdraw. revert c. induction (split_whitespace l) as [|t ts IH]; intros c; [done|].
  cbn [foldl]. rewrite IH. by destruct (Caps.split_value t).
Qed.

Lemma handle_cap_progress m s : progress s (Core.handle_cap m s).
Proof.
  unfold Core.handle_cap. destruct (Message.param m 1) as [sub|]; [|by apply progress_frame]. cbv zeta.
  case_decide. { case_bool_decide; [|by apply request_wanted_settles]. left. done. }
  case_decide; [by apply request_wanted_settles|].
  case_decide. { left. split; [done|]. unfold stalled. cbn. by rewrite withdraw_pending. }
  case_decide. { destruct (Caps.acknowledge _ _) as [c names]. apply finish_progress. by destruct names. }
  case_decide; [by apply finish_progress|]. by apply progress_frame.
Qed.

Lemma handle_cap_settles m s : settling m → ¬ stalled (Core.handle_cap m s).
Proof.
  intros (sub & Hsub & Hcase). unfold Core.handle_cap. rewrite Hsub. cbv zeta.
  destruct Hcase as [[E Hm]|[E|[E|E]]]; rewrite E.
  - rewrite decide_True by done. rewrite bool_decide_eq_false_2 by done. by eapply request_wanted_settles.
  - rewrite decide_False by done. rewrite decide_True by done. by eapply request_wanted_settles.
  - do 3 rewrite decide_False by done. rewrite decide_True by done.
    destruct (Caps.acknowledge _ _) as [c names]. by eapply finish_settles.
  - do 4 rewrite decide_False by done. rewrite decide_True by done. by eapply finish_settles.
Qed.

Lemma finish_sasl_progress s0 f s :
  Core.phase s = Core.phase s0 → (stalled s → stalled s0) → progress s0 (Core.finish_sasl f s).
Proof.
  intros E Hs. unfold Core.finish_sasl. case_decide; [by left|]. cbv zeta. apply finish_progress. by destruct f.
Qed.

(** Waiting for the server's next word on SASL. *)
Lemma in_flight_progress s0 s : Core.phase s = Core.phase s0 → Sasl.in_flight (Core.sasl s) = true → progress s0 s.
Proof. intros E Hf. apply progress_not_stalled; [done|]. intros (_ & _ & ?). congruence. Qed.

Lemma send_sasl_progress s0 p s :
  Core.phase s = Core.phase s0 → Sasl.in_flight (Core.sasl s) = true → progress s0 (Core.send_sasl p s).
Proof.
  intros E Hf. pose proof (frame_send_sasl p s) as [= F1 F2 F3 F4].
  apply in_flight_progress; congruence.
Qed.

Lemma handle_authenticate_progress m s : progress s (Core.handle_authenticate m s).
Proof.
  unfold Core.handle_authenticate. destruct (Sasl.decode_challenge _) as [ch|]; [|by apply finish_sasl_progress].
  destruct (Core.sasl s); try by apply progress_frame.
  - unfold Core.begin_sasl_response. destruct (Config.sasl _) as [[]|]; try by apply send_sasl_progress.
    by apply progress_frame.
  - unfold Core.answer_scram_challenge. destruct (Core.scram s) as [sc|]; [|by apply finish_sasl_progress].
    destruct (Scram.client_final sc ch) as [[e|r] sc']; [by apply finish_sasl_progress|by apply send_sasl_progress].
  - unfold Core.verify_scram_server. destruct (Core.scram s) as [sc|]; [|by apply finish_sasl_progress].
    destruct (Scram.verify sc ch); [by apply finish_sasl_progress|by apply in_flight_progress].
Qed.

Lemma welcome_progress m s : progress s (Core.welcome m s).
Proof.
  right; left. unfold Core.welcome. cbv zeta. 
  match goal with |- Core.phase (Core.resume ?s1) = _ => pose proof (frame_resume s1) as [= F1 F2 F3 F4] end.
  rewrite F1. by destruct (Message.param m 0).
Qed.

(** *** The handlers that do not *)

(** What a handler that may decline a line leaves, framed. *)
Definition framed_option (r : option Core.t) s : Prop := from_option (λ s', frame s' = frame s) True r.

Lemma handle_typing_framed m s : framed_option (Core.handle_typing m s) s.
Proof.
  unfold Core.handle_typing. destruct (Message.tag m "+typing"); [|done]. cbn [mbind option_bind].
  destruct (Message.param m 0); [|done]. cbn [mbind option_bind]. destruct (Message.source m); [|done].
  cbn [mbind option_bind]. cbv zeta. destruct (Model.set_typing _ _ _ _) as [changed m'].
  by destruct (bool_decide (_ = lit "active")), changed.
Qed.
Lemma handle_rtc_framed m s : framed_option (Core.handle_rtc m s) s.
Proof.
  unfold Core.handle_rtc. destruct (Message.tag _ _); [|done]. cbn [mbind option_bind].
  destruct (Message.param m 0); [|done]. cbn [mbind option_bind]. by destruct (Signal.from_json _).
Qed.
Lemma announce_bot_frame p s : frame (Core.announce_bot p s) = frame s.
Proof. unfold Core.announce_bot. destruct (Bots.decode p); [|done]. cbv zeta. by destruct (Bots.removed _). Qed.
Lemma handle_bot_tags_framed m s : framed_option (Core.handle_bot_tags m s) s.
Proof.
  unfold Core.handle_bot_tags. destruct (Message.tag m Bots.BOT_INFO_TAG); [apply announce_bot_frame|].
  destruct (Message.tag m Bots.BOT_COMMANDS_TAG); [|done]. cbn [mbind option_bind].
  destruct (Bots.decode_bot_commands _), (Message.source m); try done. cbn.
  destruct (Bots.set_commands _ _ _) as [known b]. by destruct known.
Qed.
Lemma handle_token_framed m s : framed_option (Core.handle_token m s) s.
Proof.
  unfold Core.handle_token. destruct (Message.param m 0); [|done]. cbn [mbind option_bind]. case_decide; [done|].
  destruct (Message.param m 1); [|done]. cbn [mbind option_bind]. destruct (Message.param m 2); [|done].
  cbn [mbind option_bind]. by destruct (Message.param m 3).
Qed.
Lemma handle_standard_reply_framed sev m s : framed_option (Core.handle_standard_reply sev m s) s.
Proof. unfold Core.handle_standard_reply. by destruct (Message.param m 1). Qed.

Lemma handle_monitor_frame m s : frame (Core.handle_monitor m s) = frame s.
Proof.
  unfold Core.handle_monitor. destruct (Message.param m 1); [|done]. rewrite frame_foldl; [done|].
  intros s' x. unfold Core.presence. by destruct (Message.is_command m "730").
Qed.
Lemma handle_isupport_frame m s : frame (Core.handle_isupport m s) = frame s.
Proof. unfold Core.handle_isupport. rewrite frame_foldl; [done|]. intros s' x. by destruct (Isupport.apply _ _). Qed.
Lemma drain_batch_frame c s : frame (Core.drain_batch c s) = frame s.
Proof. unfold Core.drain_batch. cbv zeta. apply frame_foldl. intros s' x. apply frame_fold. Qed.
Lemma handle_batch_frame m s : frame (Core.handle_batch m s) = frame s.
Proof.
  unfold Core.handle_batch. cbv zeta. destruct (starts_with_char _ _); [done|].
  destruct (Batch.close _ _) as [[c|] b]; [|done]. by rewrite drain_batch_frame.
Qed.
Lemma handle_nick_refused_frame m s : frame (Core.handle_nick_refused m s) = frame s.
Proof. unfold Core.handle_nick_refused. by case_decide. Qed.

(** One branch of the dispatch: the goal's test, its lemma, the rest. *)
Ltac dispatch lem := match goal with |- progress _ (if ?b then _ else _) => destruct b end; [lem|].
Ltac declined lem :=
  match goal with |- progress _ match ?r with Some _ => _ | None => _ end =>
    let Hr := fresh in pose proof lem as Hr; destruct r; [by apply progress_frame|]; clear Hr end.

Lemma handle_rest_progress m s : progress s (Core.handle_rest m s).
Proof.
  unfold Core.handle_rest. cbv zeta.
  dispatch ltac:(apply progress_frame, handle_monitor_frame).
  destruct (Severity.of_verb _) as [sev|]; cbn [mbind option_bind].
  1: pose proof (handle_standard_reply_framed sev m s) as Hf; destruct (Core.handle_standard_reply sev m s);
     [by apply progress_frame|].
  all: dispatch ltac:(apply handle_authenticate_progress).
  all: dispatch ltac:(apply progress_frame, handle_nick_refused_frame).
  all: destruct (sasl_failure _); [by apply finish_sasl_progress|].
  all: dispatch ltac:(destruct (Message.param m 2); by apply progress_frame).
  all: dispatch ltac:(by apply finish_sasl_progress).
  all: dispatch ltac:(apply progress_frame, handle_batch_frame).
  all: destruct (Batch.route m _) as [[m'|] b]; apply progress_frame; [by rewrite frame_fold|done].
Qed.

Lemma progress_from s s1 s2 : frame s1 = frame s → progress s1 s2 → progress s s2.
Proof. intros [= F1 F2 F3 F4]. unfold progress, stalled. by rewrite F1, F2, F3. Qed.

Lemma handle_message_progress m s : progress s (Core.handle_message m s).
Proof.
  unfold Core.handle_message. cbv zeta. set (s1 := Core.set_labels _ _).
  apply (progress_from s s1); [done|]. clearbody s1. clear s.
  dispatch ltac:(by apply progress_frame). dispatch ltac:(by apply progress_frame).
  dispatch ltac:(apply handle_cap_progress). dispatch ltac:(apply welcome_progress).
  dispatch ltac:(apply progress_frame, handle_isupport_frame).
  destruct (Message.is_command m "TAGMSG");
    [declined (handle_typing_framed m s1); declined (handle_rtc_framed m s1); declined (handle_bot_tags_framed m s1)|].
  all: destruct (Message.is_command m "TOKEN"); [declined (handle_token_framed m s1)|].
  all: dispatch ltac:(by apply progress_frame); apply handle_rest_progress.
Qed.

Lemma step_progress i s : progress s (step s i).
Proof.
  destruct i; cbn [step]; [apply handle_message_progress|apply progress_frame, frame_tick|apply progress_frame, frame_command].
Qed.

Lemma progress_keeps s s' : progress s s' → ¬ stalled s → ¬ stalled s'.
Proof.
  intros [[_ Hs]|[Hr|(_ & Hr & _)]] Hn; [tauto|intros (? & _); congruence..].
Qed.

Lemma run_not_stalled inputs s : ¬ stalled s → ¬ stalled (run s inputs).
Proof.
  revert s. induction inputs as [|i inputs IH]; intros s Hs; [done|].
  cbn. apply IH. by eapply progress_keeps; [apply step_progress|].
Qed.

(** Lines that are not one of the numerics before it are dispatched to [handle_cap]. *)
Lemma handle_message_cap m s :
  Message.is_command m "CAP" = true → Message.is_command m "PONG" = false → Message.is_command m "PING" = false →
  ∃ s1, frame s1 = frame s ∧ Core.handle_message m s = Core.handle_cap m s1.
Proof.
  intros H1' H2' H3'. unfold Core.handle_message. cbv zeta. rewrite H1', H2', H3'.
  eexists. split; cycle 1; [reflexivity|done].
Qed.

(** ** The theorems *)

(** C2. Registration never stalls. Once the server has ended a capability list or answered a request, whatever
    else it sends and whatever the host asks or however time passes, the engine is never left holding
    registration open with no request unanswered and no SASL exchange running. It holds from any state and for
    every sequence of lines, ticks and commands: refused mechanisms, a lying SCRAM server, an unreadable
    challenge, a capability withdrawn or announced in the middle of it. *)
Theorem registration_never_stalls reply s inputs :
  Message.command reply = lit "CAP" → settling reply → ¬ stalled (run s (Line reply :: inputs)).
Proof.
  intros Hc Hs. change (run s (Line reply :: inputs)) with (run (Core.handle_message reply s) inputs).
  apply run_not_stalled.
  destruct (handle_message_cap reply s) as (s1 & _ & ->); [|..|by apply handle_cap_settles];
    unfold Message.is_command; by rewrite Hc.
Qed.

(** C23. Registration is let go only when it may be: the engine starts registering (as opposed to being welcomed)
    only from negotiating, in a step after which no request is unanswered and no SASL exchange is running, and
    the last thing that step queues is the CAP END that tells the server so. *)
Theorem cap_end_only_when_settled i s :
  let s' := step s i in
  Core.phase s ≠ Phase.Registering → Core.phase s' = Phase.Registering →
  Core.phase s = Phase.Negotiating ∧ Caps.settled (Core.caps s') = true ∧ Sasl.in_flight (Core.sasl s') = false
  ∧ last (Core.outbox s') = Some cap_end.
Proof.
  cbv zeta. intros Hn Hr. destruct (step_progress i s) as [[E _]|[E|(E1 & E2 & E3 & E4 & E5)]]; [congruence..|].
  unfold Caps.settled. by rewrite bool_decide_eq_true.
Qed.

(** Decide which verb a line with this command is. *)
Ltac decide_command Hc :=
  repeat match type of Hc with Message.command ?m = ?c =>
    match goal with |- context [Message.is_command m ?v] =>
      let b := eval vm_compute in (eq_ignore_ascii_case c v) in
      replace (Message.is_command m v) with b by (unfold Message.is_command; rewrite Hc; by vm_compute) end end.

Lemma handle_message_903 m s : Message.command m = lit "903" →
  Core.handle_message m s =
    Core.finish_sasl None (Core.set_labels (Labels.resolve m (Core.labels (Core.arm_keepalive s))).2 (Core.arm_keepalive s)).
Proof.
  intros Hc. unfold Core.handle_message. cbv zeta. decide_command Hc. cbn [orb].
  unfold Core.handle_rest. cbv zeta. decide_command Hc. rewrite Hc.
  rewrite bool_decide_eq_false_2 by (intros [?|?]; discriminate).
  change (Severity.of_verb (lit "903")) with (@None Severity.t). change (sasl_failure (lit "903")) with (@None Sasl.SaslFailure).
  done.
Qed.

(** C35. The server's proof can be skipped: in the middle of a SCRAM exchange, when our own proof is out and the server's
    has not come, the success numeric alone ends the exchange. No failure is reported, the unverified state is
    simply left behind, and registration goes on as if the server had shown that it knows the password. *)
Theorem success_numeric_skips_server_proof m s :
  Message.command m = lit "903" → Core.sasl s = Sasl.ScramChallenged ∨ Core.sasl s = Sasl.ScramProved →
  Core.phase s = Phase.Negotiating → Caps.settled (Core.caps s) = true →
  let s' := Core.handle_message m s in
  Core.sasl s' = Sasl.Settled ∧ Core.phase s' = Phase.Registering ∧ Core.events s' = Core.events s
  ∧ Core.scram s' = Core.scram s ∧ Core.outbox s' = Core.outbox s ++ [cap_end].
Proof.
  intros Hc Hs Hp Hcaps. cbv zeta. rewrite handle_message_903 by done. set (s1 := Core.set_labels _ _).
  assert (Core.sasl s1 ≠ Sasl.Settled) as Hne by (change (Core.sasl s1) with (Core.sasl s); destruct Hs as [->| ->]; done).
  unfold Core.finish_sasl. rewrite decide_False by done. cbv zeta. unfold Core.finish_negotiation_if_settled.
  change (Core.phase (Core.set_sasl Sasl.Settled s1)) with (Core.phase s).
  change (Core.caps (Core.set_sasl Sasl.Settled s1)) with (Core.caps s).
  rewrite bool_decide_eq_false_2 by tauto. rewrite Hcaps. cbn [orb negb]. done.
Qed.
End negotiation.

(** ** Instances *)

Definition negotiating_client : Core.t :=
  let config := Config.mk "me" "me" "me" None (Some (Sasl.Plain "me" "pw")) 100 [] in
  Core.handle_connected (Core.new config).

(** A server that offers SASL, accepts the request and refuses the password: registration goes on. *)
Lemma registration_never_stalls_witness :
  let s := @run ascii_table standard toy_crypto negotiating_client
    (Line (parsed "CAP * LS :sasl=PLAIN")
     :: (Line ∘ parsed <$> [lit "CAP * ACK :sasl"; lit "AUTHENTICATE +"; lit ":irc 904 me :no"])) in
  ¬ stalled s ∧ Core.phase s = Phase.Registering ∧ last (Core.outbox s) = Some cap_end.
Proof.
  cbv zeta. split; [|split; by vm_compute].
  apply (@registration_never_stalls ascii_table standard toy_crypto (parsed "CAP * LS :sasl=PLAIN")); [by vm_compute|].
  eexists. split; [by vm_compute|]. left. split; by vm_compute.
Defined.

Lemma cap_end_only_when_settled_witness :
  let i := Line (parsed "CAP * LS :nothing") in
  let s' := @step ascii_table standard toy_crypto negotiating_client i in
  Core.phase s' = Phase.Registering ∧ last (Core.outbox s') = Some cap_end.
Proof.
  cbv zeta. split; [by vm_compute|].
  apply (@cap_end_only_when_settled ascii_table standard toy_crypto (Line (parsed "CAP * LS :nothing")) negotiating_client);
    by vm_compute.
Defined.

Lemma success_numeric_skips_server_proof_witness :
  let config := Config.mk "me" "me" "me" None (Some (Sasl.Scram "me" "pw" "abc")) 100 [] in
  let s := @run ascii_table standard toy_crypto (Core.handle_connected (Core.new config))
    (Line ∘ parsed <$> [lit "CAP * LS :sasl"; lit "CAP * ACK :sasl"; lit "AUTHENTICATE +"]) in
  let s' := @Core.handle_message ascii_table standard toy_crypto (parsed ":irc 903 me :ok") s in
  Core.phase s' = Phase.Registering ∧ Core.events s' = Core.events s.
Proof.
  cbv zeta. set (s := run _ _).
  destruct (@success_numeric_skips_server_proof ascii_table standard toy_crypto (parsed ":irc 903 me :ok") s) as (_ & H2 & H3 & _);
    [by vm_compute|left; by vm_compute|by vm_compute|by vm_compute|by split].
Defined.
