(* ===== verification/Engine.v ===== *)
(** * The whole engine keeps its invariants (theorems about src/crates/obby-client/src/client.rs)

    [call] is the engine's public interface: everything a host can do to it, in any order.
    The theorem of this file composes the invariants of the components (model, batches,
    bots, line assembly) over any sequence of calls. *)
From S2P Require Import Prelude Utf8 Isupport Tags Message Timer Batch Label Caps Monitor Sasl Base64 Scram.
From S2P Require Import Extensions Model Session Voice Command Client.

(** ** What holds of the state *)

Record sound (s : Core.t) : Prop := {
  sound_model : wf_model (Core.model s);
  sound_batches : wf_batches Batch.DEFAULT_MAX_BUFFERED (Core.batches s);
  sound_bots : unprivileged (Core.bots s);
}.

Definition next_seq (s : Core.t) : Z := Model.next_seq (Core.model s).

(** A step that keeps the state sound and files at most [n] messages, as long as the
    64-bit sequence counter has room for them. *)
Definition grows (n : nat) (s s' : Core.t) : Prop :=
  sound s → next_seq s + Z.of_nat n <= u64_max →
  sound s' ∧ next_seq s <= next_seq s' <= next_seq s + Z.of_nat n.

(** The part of the state those invariants are about. *)
Definition held (s : Core.t) : Model.t * Batch.t * Bots.t := (Core.model s, Core.batches s, Core.bots s).

Lemma grows_held n s s' : held s' = held s → grows n s s'.
Proof. intros [= E1 E2 E3] [H1 H2 H3] Hn. unfold next_seq. rewrite E1. split; [by split; rewrite ?E1, ?E2, ?E3|lia]. Qed.

Lemma grows_trans n n' s1 s2 s3 : grows n s1 s2 → grows n' s2 s3 → grows (n + n') s1 s3.
Proof.
  intros H1 H2 Hs Hn. destruct H1 as [Hs2 Hn2]; [done|lia|]. destruct H2 as [Hs3 Hn3]; [done|lia|]. split; [done|lia].
Qed.

Lemma grows_le n n' s s' : grows n s s' → (n <= n')%nat → grows n' s s'.
Proof. intros Hg Hle Hs Hn. destruct Hg as [Hs' Hn']; [done|lia|]. split; [done|lia]. Qed.

(** Steps around one that grows. *)
Lemma grows_from n s s1 s2 : held s1 = held s → grows n s1 s2 → grows n s s2.
Proof. intros E Hg. change n with (0 + n)%nat. eapply grows_trans; [by apply grows_held|done]. Qed.
Lemma grows_to n s s1 s2 : grows n s s1 → held s2 = held s1 → grows n s s2.
Proof. intros Hg E. rewrite <- (Nat.add_0_r n). eapply grows_trans; [done|by apply grows_held]. Qed.

Lemma grows_foldl {A} n (f : Core.t → A → Core.t) l s :
  (∀ s x, grows n s (f s x)) → grows (n * length l) s (foldl f s l).
Proof.
  intros Hf. revert s. induction l as [|x l IH]; intros s; [by apply grows_held|].
  cbn [foldl length]. rewrite Nat.mul_succ_r, Nat.add_comm. eapply grows_trans; [apply Hf|apply IH].
Qed.

Lemma held_foldl {A} (f : Core.t → A → Core.t) l s :
  (∀ s x, held (f s x) = held s) → held (foldl f s l) = held s.
Proof. intros Hf. revert s. induction l as [|x l IH]; intros s; [done|]. cbn. by rewrite IH. Qed.

(** A new model in place of the old one, with no sequence number spent. *)
Lemma grows_set_model m s :
  steady (Core.model s) m → grows 0 s (Core.set_model m s).
Proof.
  intros (H1 & H2 & _) [Hm Hb Hu] Hn. unfold next_seq. cbn. rewrite H2.
  split; [split; [by apply H1|done..]|lia].
Qed.

(** ** Steps that touch the model *)

Lemma steady_set_typing target who typing m : steady m (Model.set_typing target who typing m).2.
Proof.
  unfold Model.set_typing. destruct (Model.channels m !! target) as [c|].
  - destruct (Model.toggle_typing _ _ _) as [changed x]. by apply steady_alter_channel.
  - destruct (Model.conversations m !! target) as [q|]; [|done].
    destruct (Model.toggle_typing _ _ _) as [changed x]. cbn [snd]. split_steady; [|done..].
    intros [Hr Hc Hq Hw Hs]. split; simpl; [done..| |done|done]. by apply map_Forall_alter'.
Qed.

Lemma steady_forget_live m : steady m (let m' := Model.forget_whois m in
  Model.set_channels (Channel.set_members ∅ <$> Model.channels m') m').
Proof.
  split_steady; [|done|by simpl; rewrite dom_fmap_L].
  intros [Hr Hc Hq Hw Hs]. split; simpl; [done| |done| |done].
  - intros k c (c0 & <- & Hc0)%lookup_fmap_Some. by apply Hc in Hc0.
  - rewrite map_size_empty. lia.
Qed.

Section engine.
Context `{Unicode, Base64, Crypto}.
Implicit Types (s : Core.t) (m : Message.t).

Lemma held_follow_change s c : held (Core.follow_change s c) = held s.
Proof.
  destruct c; try done; cbn [Core.follow_change].
  - unfold Core.request_who. by destruct (Isupport.has _ _).
  - cbv zeta. destruct (Core.channel_keys s !! _); cbn; by destruct (_ !! _).
Qed.

Lemma grows_fold m h s : grows 1 s (Core.fold m h s).
Proof.
  unfold Core.fold. destruct (Session.apply _ _ _ _) as [changes ctx] eqn:E.
  set (s1 := Core.set_latest_ms _ _). apply (grows_to 1 s s1).
  - intros [Hm Hb Hu] Hn. unfold next_seq in *.
    destruct (apply_effect (Core.isupport s) h m (Ctx.mk (Core.model s) (Core.latest_ms s)) Hm) as (H1' & H2' & _); [cbn; lia|].
    rewrite E in H1', H2'. cbn in *. split; [by split|lia].
  - destruct changes as [|c cs]; [by destruct (Session.accumulates _)|].
    rewrite held_foldl by done. apply held_foldl, held_follow_change.
Qed.

Lemma held_send_line_labeled msg s : held (Core.send_line_labeled msg s) = held s.
Proof. unfold Core.send_line_labeled. destruct (negb _); [done|]. by destruct (Labels.generate _). Qed.

Lemma grows_say msg s : grows 1 s (Core.say msg s).
Proof.
  unfold Core.say. cbv zeta. destruct (Caps.has _ _); [apply grows_held, held_send_line_labeled|].
  apply (grows_from 1 s (Core.send_line_labeled msg s)); [apply held_send_line_labeled|apply grows_fold].
Qed.

Lemma grows_command c s : grows 1 s (Core.command c s).
Proof.
  destruct c; cbn [Core.command]; try apply grows_say; cbv zeta; apply grows_held;
    try (unfold Core.set_watching; cbv zeta; by rewrite held_foldl);
    try (destruct (Command.wire _); [|done]); rewrite ?held_send_line_labeled; done.
Qed.

Lemma grows_expire_typing t w s : grows 0 s (Core.expire_typing t w s).
Proof.
  unfold Core.expire_typing. pose proof (steady_set_typing t w false (Core.model s)) as Hst.
  destruct (Model.set_typing _ _ _ _) as [changed m']. cbn in Hst.
  apply (grows_to 0 s (Core.set_model m' s)); [by apply grows_set_model|by destruct changed].
Qed.

Lemma grows_tick now s : grows 0 s (Core.tick now s).
Proof.
  unfold Core.tick. cbv zeta. destruct (Timers.expire _ _) as [due rest], (Labels.expire _ _) as [late ls].
  set (s1 := foldl (Core.fall_due now) _ _). apply (grows_to 0 s s1); [|by rewrite held_foldl].
  subst s1. eapply grows_from; [|apply (grows_foldl 0)]; [done|].
  intros s' []; try by apply grows_held. apply grows_expire_typing.
Qed.

Lemma grows_disconnected s : grows 0 s (Core.handle_disconnected s).
Proof.
  unfold Core.handle_disconnected. cbv zeta.
  match goal with |- context [Core.set_bots ?b ?x] => set (s1 := Core.set_bots b x) end.
  assert (grows 0 s s1) as Hg.
  { intros [Hm Hb Hu] Hn. destruct (steady_forget_live (Core.model s)) as (H1' & H2' & _).
    split; [|unfold next_seq; cbn; lia].
    split; [by apply H1'|by apply (step_wf _ _ DropAll)|apply map_Forall_empty]. }
  destruct (ReconnectBackoff.next_delay_ms _) as [delay b].
  eapply grows_to; [exact Hg|]. by destruct delay.
Qed.

(** ** Lines *)

Lemma length_join_multiline c : (length (Batch.c_messages (join_multiline c)) <= length (Batch.c_messages c))%nat.
Proof.
  unfold join_multiline. cbn [Batch.c_messages]. rewrite length_reverse.
  assert (∀ l joined, length (foldl join_line joined l) <= length joined + length l)%nat as Hl; [|apply (Hl _ [])].
  induction l as [|m l IH]; intros joined; [cbn; lia|]. cbn [foldl length].
  etransitivity; [apply IH|]. unfold join_line. destruct joined; [cbn; lia|]. cbv zeta. case_match; cbn; lia.
Qed.

Lemma grows_drain_batch c s : grows (length (Batch.c_messages c)) s (Core.drain_batch c s).
Proof.
  unfold Core.drain_batch. cbv zeta. eapply grows_le.
  - apply (grows_foldl 1). intros s' x. apply grows_fold.
  - rewrite Nat.mul_1_l. case_decide; [apply length_join_multiline|done].
Qed.

Lemma grows_set_batches b s :
  (wf_batches Batch.DEFAULT_MAX_BUFFERED (Core.batches s) → wf_batches Batch.DEFAULT_MAX_BUFFERED b) →
  grows 0 s (Core.set_batches b s).
Proof. intros Hb [Hm Hw Hu] Hn. split; [split; [done|by apply Hb|done]|unfold next_seq; cbn; lia]. Qed.

Lemma grows_handle_batch m s : grows Batch.DEFAULT_MAX_BUFFERED s (Core.handle_batch m s).
Proof.
  unfold Core.handle_batch. cbv zeta. destruct (starts_with_char _ _).
  { eapply grows_le; [apply grows_set_batches; apply (step_wf _ _ (Open m))|lia]. }
  intros Hs Hn. pose proof (step_wf _ _ (Close m) (sound_batches _ Hs)) as Hw. cbn [Batch.step step] in Hw.
  destruct (Batch.close m (Core.batches s)) as [closed b] eqn:E. cbn [snd] in Hw.
  assert (grows 0 s (Core.set_batches b s)) as Hb by (by apply grows_set_batches).
  destruct closed as [c|]; [|by apply (grows_le 0); [|lia|..]].
  assert (length (Batch.c_messages c) <= Batch.DEFAULT_MAX_BUFFERED)%nat as Hc.
  { unfold Batch.close in E. repeat (case_match; simplify_eq).
    destruct (batches_open _ _ (sound_batches _ Hs) _ _ H3) as [Hl _ _ _]. done. }
  eapply (grows_le (0 + length (Batch.c_messages c))); [|lia|done..].
  eapply grows_trans; [exact Hb|apply grows_drain_batch].
Qed.

(** *** Handlers that may decline a line *)

Definition grows_option n s (r : option Core.t) : Prop := from_option (grows n s) True r.

Lemma grows_handle_typing m s : grows_option 0 s (Core.handle_typing m s).
Proof.
  unfold Core.handle_typing. destruct (Message.tag m "+typing") as [state|]; [|done]. cbn [mbind option_bind].
  destruct (Message.param m 0) as [target|]; [|done]. cbn [mbind option_bind].
  destruct (Message.source m) as [src|]; [|done]. cbn [mbind option_bind]. cbv zeta.
  set (target' := if Isupport.is_channel _ _ then _ else _). set (typing := bool_decide (state = _)).
  set (s1 := if typing then Core.set_timer _ _ _ else _). assert (held s1 = held s) as E1 by (by subst s1; destruct typing).
  pose proof (steady_set_typing (Isupport.fold (Core.isupport s) target')
    (Isupport.fold (Core.isupport s) (Source.name src)) typing (Core.model s1)) as Hst.
  destruct (Model.set_typing _ _ _ _) as [changed m']. cbn [snd] in Hst. cbn [grows_option from_option].
  apply (grows_from 0 s s1 _ E1). eapply grows_to; [by apply grows_set_model|by destruct changed].
Qed.
Lemma grows_handle_rtc m s : grows_option 0 s (Core.handle_rtc m s).
Proof.
  unfold Core.handle_rtc. destruct (Message.tag _ _); [|done]. cbn [mbind option_bind].
  destruct (Message.param m 0); [|done]. cbn [mbind option_bind].
  by destruct (Signal.from_json _); apply grows_held.
Qed.

Lemma grows_set_bots b s : (unprivileged (Core.bots s) → unprivileged b) → grows 0 s (Core.set_bots b s).
Proof. intros Hb [Hm Hw Hu] Hn. split; [split; [done..|by apply Hb]|unfold next_seq; cbn; lia]. Qed.

Lemma grows_announce_bot p s : grows 0 s (Core.announce_bot p s).
Proof.
  unfold Core.announce_bot. destruct (Bots.decode p) as [info|] eqn:E; [|by apply grows_held]. cbv zeta.
  eapply grows_to; [eapply grows_set_bots|done]. intros Hu.
  destruct (Bots.removed info); [by apply map_Forall_delete|].
  apply set_commands_unprivileged, insert_unprivileged; [by eapply decode_no_commands|done].
Qed.
Lemma grows_handle_bot_tags m s : grows_option 0 s (Core.handle_bot_tags m s).
Proof.
  unfold Core.handle_bot_tags. destruct (Message.tag m Bots.BOT_INFO_TAG); [apply grows_announce_bot|].
  destruct (Message.tag m Bots.BOT_COMMANDS_TAG); [|done]. cbn [mbind option_bind grows_option from_option].
  destruct (Bots.decode_bot_commands _) as [cmds|], (Message.source m) as [src|]; try by apply grows_held.
  pose proof (set_commands_unprivileged (Isupport.fold (Core.isupport s) (Source.name src)) cmds (Core.bots s)) as Hu.
  destruct (Bots.set_commands _ _ _) as [known b]. cbn [snd] in Hu.
  eapply grows_to; [by apply grows_set_bots|by destruct known].
Qed.
Lemma grows_handle_token m s : grows_option 0 s (Core.handle_token m s).
Proof.
  unfold Core.handle_token. destruct (Message.param m 0); [|done]. cbn [mbind option_bind]. case_decide; [done|].
  destruct (Message.param m 1); [|done]. cbn [mbind option_bind]. destruct (Message.param m 2); [|done].
  cbn [mbind option_bind]. destruct (Message.param m 3); [|done]. by apply grows_held.
Qed.
Lemma grows_standard_reply sev m s : grows_option 0 s (Core.handle_standard_reply sev m s).
Proof. unfold Core.handle_standard_reply. destruct (Message.param m 1); [|done]. by apply grows_held. Qed.

(** *** The other handlers *)

Lemma grows_set_me u s : grows 0 s (Core.set_model (Model.set_me u (Core.model s)) s).
Proof. apply grows_set_model, steady_set_me. Qed.

Lemma held_finish_negotiation s : held (Core.finish_negotiation_if_settled s) = held s.
Proof.
  unfold Core.finish_negotiation_if_settled. destruct (_ || _); [done|].
  destruct (Core.start_sasl_if_wanted s) as [started s1] eqn:E.
  assert (held s1 = held s) as <-.
  { unfold Core.start_sasl_if_wanted in E. repeat (case_match; simplify_eq; try done). }
  by destruct (_ || _).
Qed.
Lemma held_request_wanted s : held (Core.request_wanted s) = held s.
Proof.
  unfold Core.request_wanted. destruct (Caps.to_request _); [apply held_finish_negotiation|]. by rewrite held_foldl.
Qed.
Lemma held_handle_cap m s : held (Core.handle_cap m s) = held s.
Proof.
  unfold Core.handle_cap. destruct (Message.param m 1); [|done]. cbv zeta.
  case_decide; [case_bool_decide; [done|by rewrite held_request_wanted]|].
  case_decide; [by rewrite held_request_wanted|]. case_decide; [done|].
  case_decide; [destruct (Caps.acknowledge _ _) as [c []]; by rewrite held_finish_negotiation|].
  case_decide; [by rewrite held_finish_negotiation|done].
Qed.
Lemma held_finish_sasl f s : held (Core.finish_sasl f s) = held s.
Proof.
  unfold Core.finish_sasl. case_decide; [done|]. cbv zeta. rewrite held_finish_negotiation. by destruct f.
Qed.
Lemma held_send_sasl p s : held (Core.send_sasl p s) = held s.
Proof. unfold Core.send_sasl. by rewrite held_foldl. Qed.
Lemma held_handle_authenticate m s : held (Core.handle_authenticate m s) = held s.
Proof.
  unfold Core.handle_authenticate. destruct (Sasl.decode_challenge _) as [ch|]; [|apply held_finish_sasl].
  destruct (Core.sasl s); try done.
  - unfold Core.begin_sasl_response. destruct (Config.sasl _) as [[]|]; [by rewrite held_send_sasl..|done].
  - unfold Core.answer_scram_challenge. destruct (Core.scram s) as [sc|]; [|apply held_finish_sasl].
    destruct (Scram.client_final sc ch) as [[e|r] sc']; [by rewrite held_finish_sasl|by rewrite held_send_sasl].
  - unfold Core.verify_scram_server. destruct (Core.scram s) as [sc|]; [|apply held_finish_sasl].
    destruct (Scram.verify sc ch); [by rewrite held_finish_sasl|done].
Qed.
Lemma grows_nick_refused m s : grows 0 s (Core.handle_nick_refused m s).
Proof.
  unfold Core.handle_nick_refused. case_decide; [by apply grows_held|]. cbv zeta.
  set (trying := default _ _). set (s1 := Core.set_nick trying (Core.set_nick_attempt (S (Core.nick_attempt s)) s)).
  apply (grows_to 0 s (Core.set_model (Model.set_me (LocalUser.set_nick trying (Model.me (Core.model s1))) (Core.model s1)) s1));
    [|done].
  apply (grows_from 0 s s1); [done|apply grows_set_me].
Qed.
Lemma held_handle_monitor m s : held (Core.handle_monitor m s) = held s.
Proof.
  unfold Core.handle_monitor. destruct (Message.param m 1); [|done]. rewrite held_foldl; [done|].
  intros s' x. unfold Core.presence. by destruct (Message.is_command m "730").
Qed.
Lemma held_handle_isupport m s : held (Core.handle_isupport m s) = held s.
Proof. unfold Core.handle_isupport. rewrite held_foldl; [done|]. intros s' x. by destruct (Isupport.apply _ _). Qed.
Lemma held_resume s : held (Core.resume s) = held s.
Proof.
  unfold Core.resume. cbv zeta. rewrite held_foldl.
  2: { intros s' [? newest]. unfold Core.rejoin. cbv zeta. by destruct (Caps.has _ _), newest. }
  assert (∀ s, held match Core.metadata_subscriptions s with [] => s
                    | keys => Core.send "METADATA" (lit "*" :: lit "SUB" :: keys) s end = held s) as Hm.
  { intros s'. by destruct (Core.metadata_subscriptions s'). }
  rewrite Hm. destruct (Monitor.watched _); [done|]. by rewrite held_foldl.
Qed.
Lemma grows_welcome m s : grows 0 s (Core.welcome m s).
Proof.
  unfold Core.welcome. cbv zeta. set (s1 := match Message.param m 0 with Some _ => _ | None => _ end).
  assert (held s1 = held s) as E1 by (by subst s1; destruct (Message.param m 0)).
  apply (grows_from 0 s s1 _ E1). eapply grows_to; [apply grows_set_me|]. by rewrite held_resume.
Qed.

(** *** The dispatch *)

(** How many messages one line can file: its own, or those of the batch it closes. *)
Definition LINE_COST : nat := Batch.DEFAULT_MAX_BUFFERED.

Lemma line_cost_pos : (1 <= LINE_COST)%nat.
Proof. apply Nat.leb_le. by vm_compute. Qed.

#[local] Opaque LINE_COST.

Lemma grows_line n s s' : grows n s s' → (n <= 1)%nat → grows LINE_COST s s'.
Proof. intros Hg Hn. eapply grows_le; [done|]. pose proof line_cost_pos. lia. Qed.

(** One branch of the dispatch: the goal's test, its lemma, the rest. *)
Ltac branch lem :=
  match goal with |- grows _ _ (if ?b then _ else _) => destruct b; [apply (grows_line 0); [lem|lia]|] end.
Ltac declined lem :=
  match goal with |- grows _ _ match ?r with Some _ => _ | None => _ end =>
    let Hr := fresh in pose proof lem as Hr; destruct r; [eapply grows_line; [exact Hr|lia]|]; clear Hr end.

Lemma grows_route m s :
  grows 1 s (let '(routed, b) := Batch.route m (Core.batches s) in
             let s := Core.set_batches b s in
             match routed with Some m => Core.fold m false s | None => s end).
Proof.
  pose proof (λ Hw, step_wf Batch.DEFAULT_MAX_BUFFERED (Core.batches s) (Route m) Hw) as Hw. cbn [Batch.step step] in Hw.
  destruct (Batch.route m (Core.batches s)) as [routed b]. cbn [snd] in Hw. cbv zeta.
  assert (grows 0 s (Core.set_batches b s)) as Hb by (by apply grows_set_batches).
  destruct routed as [m'|]; [|by eapply grows_le; [|apply Nat.le_0_l]].
  apply (grows_trans 0 1 s _ _ Hb), grows_fold.
Qed.

Lemma grows_handle_rest m s : grows LINE_COST s (Core.handle_rest m s).
Proof.
  unfold Core.handle_rest. cbv zeta.
  branch ltac:(apply grows_held, held_handle_monitor).
  destruct (Severity.of_verb _) as [sev|]; cbn [mbind option_bind].
  1: declined (grows_standard_reply sev m s).
  all: branch ltac:(apply grows_held, held_handle_authenticate).
  all: branch ltac:(apply grows_nick_refused).
  all: destruct (sasl_failure _); [apply (grows_line 0); [apply grows_held, held_finish_sasl|lia]|].
  all: branch ltac:(apply grows_held; by destruct (Message.param m 2)).
  all: branch ltac:(apply grows_held, held_finish_sasl).
  all: match goal with |- grows _ _ (if ?b then _ else _) => destruct b; [apply grows_handle_batch|] end.
  all: eapply grows_line; [apply grows_route|lia].
Qed.

Lemma grows_handle_message m s : grows LINE_COST s (Core.handle_message m s).
Proof.
  unfold Core.handle_message. cbv zeta. set (s1 := Core.set_labels _ _).
  apply (grows_from LINE_COST s s1); [done|]. clearbody s1. clear s.
  branch ltac:(by apply grows_held). branch ltac:(by apply grows_held).
  branch ltac:(apply grows_held, held_handle_cap). branch ltac:(apply grows_welcome).
  branch ltac:(apply grows_held, held_handle_isupport).
  destruct (Message.is_command m "TAGMSG");
    [declined (grows_handle_typing m s1); declined (grows_handle_rtc m s1); declined (grows_handle_bot_tags m s1)|].
  all: destruct (Message.is_command m "TOKEN"); [declined (grows_handle_token m s1)|].
  all: branch ltac:(by apply grows_held); apply grows_handle_rest.
Qed.

Lemma grows_handle_line line s : grows LINE_COST s (Client.handle_line line s).
Proof.
  unfold Client.handle_line. destruct (Message.parse _); [by apply (grows_line 0); [apply grows_held|lia]|].
  apply grows_handle_message.
Qed.

(** ** The host's calls *)

(** What a host can do: report a connection made or lost, hand over bytes it read, move
    the clock, ask for something, and take what the engine has for it. *)
Inductive call :=
  | Connected | Disconnected | Bytes (data : list octet) | Tick (now : Now) | Do (c : Command.t)
  | PollTransmit | PollEvent.

Definition host_step (s : Client.t) (c : call) : Client.t :=
  match c with
  | Connected => Client.handle_connected s
  | Disconnected => Client.handle_disconnected s
  | Bytes data => Client.handle_bytes data s
  | Tick now => Client.tick now s
  | Do c => Client.command c s
  | PollTransmit => (Client.poll_transmit s).2
  | PollEvent => (Client.poll_event s).2
  end.
Definition host_run (s : Client.t) (calls : list call) : Client.t := foldl host_step s calls.

(** How many messages a call can file at most. *)
Definition call_cost (c : call) : nat :=
  match c with Bytes data => LINE_COST * length (filter (.= chLF) data) | Do _ => 1 | _ => 0 end.

Lemma grows_drain fuel (s : Client.t) :
  grows (LINE_COST * length (filter (.= chLF) (Client.partial s))) (Client.core s) (Client.core (Client.drain fuel s)).
Proof.
  revert s. induction fuel as [|fuel IH]; intros s; [by eapply grows_le; [by apply grows_held|apply Nat.le_0_l]|].
  cbn [Client.drain]. destruct (split_once chLF (Client.partial s)) as [[line rest]|] eqn:E.
  - apply split_once_Some in E as [-> _]. rewrite filter_app, length_app. rewrite filter_cons_True by done. cbn [length].
    destruct (Client.discarding s).
    + eapply grows_le; [apply (IH (Client.mk (Client.core s) rest false))|cbn [Client.partial]; apply Nat.mul_le_mono_l; lia].
    + pose proof (IH (Client.mk (Client.handle_line (line ++ [chLF]) (Client.core s)) rest false)) as Hg.
      cbn [Client.partial Client.core] in Hg. pose proof (grows_handle_line (line ++ [chLF]) (Client.core s)) as Hl.
      eapply grows_le; [exact (grows_trans _ _ _ _ _ Hl Hg)|].
      rewrite <- (Nat.add_comm (_ * _)), <- Nat.mul_succ_r. apply Nat.mul_le_mono_l. lia.
  - case_decide; (eapply grows_le; [by apply grows_held|apply Nat.le_0_l]).
Qed.

(** The state of the engine, and of the line it is assembling. *)
Definition sound_host (s : Client.t) : Prop :=
  sound (Client.core s) ∧ chLF ∉ Client.partial s ∧ (length (Client.partial s) <= MAX_INBOUND_LINE)%nat.

Lemma grows_host_step c (s : Client.t) :
  chLF ∉ Client.partial s → grows (call_cost c) (Client.core s) (Client.core (host_step s c)).
Proof.
  intros Hp. destruct c as [| |data|now|c| |]; cbn [host_step call_cost].
  - apply grows_held. unfold Client.handle_connected, Client.map_core, Core.handle_connected. cbn.
    by destruct (Config.password _).
  - apply grows_disconnected.
  - unfold Client.handle_bytes.
    pose proof (grows_drain (S (length (Client.partial s ++ data)))
      (Client.mk (Client.core s) (Client.partial s ++ data) (Client.discarding s))) as Hg.
    cbn [Client.partial Client.core] in Hg. rewrite filter_app, length_app in Hg.
    assert (filter (.= chLF) (Client.partial s) = []) as Hnil; [|by rewrite Hnil in Hg].
    clear Hg. revert Hp. induction (Client.partial s) as [|b p IHp]; [done|]. intros [Hb Hp]%not_elem_of_cons.
    rewrite filter_cons_False by done. by apply IHp.
  - apply grows_tick.
  - apply grows_command.
  - apply grows_held. unfold Client.poll_transmit. by destruct (Core.outbox _).
  - apply grows_held. unfold Client.poll_event. by destruct (Core.events _).
Qed.

Lemma sound_new config : sound (Core.new config).
Proof. split; [apply wf_fresh|apply wf_batches_new|apply map_Forall_empty]. Qed.

Lemma host_step_held c (s : Client.t) : sound_host s → 
  chLF ∉ Client.partial (host_step s c) ∧ (length (Client.partial (host_step s c)) <= MAX_INBOUND_LINE)%nat.
Proof.
  intros (_ & Hl & Hb). destruct c; try done; cbn [host_step].
  - apply (Assembly.drain_waiting _ (Client.mk (Client.core s) (Client.partial s ++ data) (Client.discarding s))).
    cbn [Client.partial]. lia.
  - unfold Client.poll_transmit. by destruct (Core.outbox _).
  - unfold Client.poll_event. by destruct (Core.events _).
Qed.

(** From a sound engine every run of calls that files no more than the counter has left ends in one. *)
Lemma sound_run calls (s : Client.t) :
  sound_host s → next_seq (Client.core s) + Z.of_nat (sum_list_with call_cost calls) <= u64_max → sound_host (host_run s calls).
Proof.
  revert s. induction calls as [|c calls IH]; intros s Hs Hc; [done|]. cbn [sum_list_with] in Hc.
  destruct (grows_host_step c s) as [Hs' Hn']; [apply Hs|apply Hs|lia|].
  apply (IH (host_step s c)); [|lia]. split; [done|]. by apply host_step_held.
Qed.
Lemma sound_host_new config : sound_host (Client.new config).
Proof. split; [apply sound_new|]. split; [apply not_elem_of_nil|apply Nat.le_0_l]. Qed.

(** C1. Nothing a host or a server can do takes the engine out of its invariants: over every sequence of calls
    (connections made and lost at any moment, any bytes in any fragments, ticks, commands, polls), the model
    stays well formed, at most 64 batches of at most 1024 messages are open, no bot nobody configured holds a
    privileged command, and the line being assembled is bounded and holds no terminator. The hypothesis is that
    the lines sent could not exhaust the 64-bit sequence counter. *)
Theorem engine_stays_sound config calls :
  Z.of_nat (sum_list_with call_cost calls) <= u64_max → sound_host (host_run (Client.new config) calls).
Proof. intros Hn. apply sound_run; [apply sound_host_new|done]. Qed.
End engine.

(** ** Sleeping until the next deadline *)

(** A host that sleeps until [poll_timeout] misses nothing but commands that time out: a tick before that instant
    queues no line, changes no state besides the two clocks, and reports exactly the labelled commands whose deadline
    has passed by then. Those it does report, and [poll_timeout] does not look at them: whatever labels are waiting,
    it gives the same instant. *)
Theorem poll_timeout_leaves_out_labels (now : Now) (s : Core.t) :
  (∀ t, Core.poll_timeout s = Some t → Timer.monotonic_ms now < t) →
  let '(late, waiting) := Labels.expire (Timer.monotonic_ms now) (Core.labels s) in
  Core.tick now s =
    (s |> Core.set_monotonic_ms (Timer.monotonic_ms now) |> Core.set_latest_ms (Z.max (Core.latest_ms s) (unix_ms now))
       |> Core.set_labels waiting |> Core.set_events (Core.events s ++ (Event.CommandTimedOut <$> late)))
  ∧ ∀ labels, Core.poll_timeout (Core.set_labels labels s) = Core.poll_timeout s.
Proof.
  intros Hearly. destruct (Labels.expire _ _) as [late waiting] eqn:El. split; [|done].
  assert (∀ late s, foldl (λ s command, Core.push_event (Event.CommandTimedOut command) s) s late =
    Core.set_events (Core.events s ++ (Event.CommandTimedOut <$> late)) s) as Hpush.
  { clear. intros late. induction late as [|c late IH]; intros s; cbn [foldl]; [rewrite app_nil_r; by destruct s|].
    rewrite IH. unfold Core.push_event. cbn. by rewrite <- (assoc_L (++)). }
  unfold Core.tick. cbn [Core.set_monotonic_ms Core.set_latest_ms Core.timers Core.labels].
  rewrite expire_early by done. cbn [foldl].
  match goal with |- context [Labels.expire _ ?l] => change l with (Core.labels s) end. rewrite El, Hpush. by destruct s.
Qed.

(** ** An instance *)

Lemma engine_stays_sound_witness :
  let s := @host_run ascii_table standard toy_crypto (Client.new (Config.new "me"))
    [Connected; Bytes (encode ":irc 001 me :hi" ++ [chLF] ++ encode ":me JOIN #c"); Disconnected;
     Connected; Bytes [chLF]; PollEvent; Do (Command.SendMessage "#c" "hello")] in
  sound_host s ∧ (length (Core.outbox (Client.core s)) = 8)%nat.
Proof.
  cbv zeta. split; [|by vm_compute].
  apply (@engine_stays_sound ascii_table standard toy_crypto). apply Z.leb_le. by vm_compute.
Defined.

(** A WHOIS asked 20 seconds in is due at 50; with the server's PONG come at 30, [poll_timeout] says 60. *)
Definition asked : Core.t :=
  Client.core (@host_run ascii_table standard toy_crypto (Client.new (Config.new "me"))
    [Connected; Bytes (encode "CAP * LS :labeled-response" ++ [chLF] ++ encode "CAP * ACK :labeled-response" ++ [chLF]);
     Bytes (encode ":irc 001 me :hi" ++ [chLF]); Tick (mkNow 20000 0); Do (Command.Whois "bo");
     Tick (mkNow 30000 0); Bytes (encode ":irc PONG irc me" ++ [chLF])]).

Lemma poll_timeout_leaves_out_labels_witness :
  Core.poll_timeout asked = Some 60000
  ∧ Core.events (Core.tick (mkNow 50000 0) asked) = Core.events asked ++ [Event.CommandTimedOut "WHOIS"].
Proof.
  split; [by vm_compute|].
  pose proof (poll_timeout_leaves_out_labels (mkNow 50000 0) asked) as H.
  destruct (Labels.expire _ _) as [late waiting] eqn:E. destruct H as [H _].
  - intros t. vm_compute. by intros [= <-].
  - rewrite H. cbn [Core.events Core.set_events]. apply (f_equal fst) in E. vm_compute in E. by rewrite <- E.
Defined.
