(* ===== verification/Resume.v ===== *)
(** * Coming back, and speaking (theorems about src/crates/obby-client/src/client.rs)

    What a welcome puts on the wire for the channels already held, and how what we say
    ourselves is recorded when the server does not echo it; and how a multiline batch becomes
    one message. *)
From S2P Require Import Prelude Utf8 Casemap Isupport Tags Message Format Timer Batch Label Caps Monitor Sasl Base64 Scram.
From S2P Require Import Extensions Model Session Voice Command Client Engine.

(** ** The wire *)

(** What [send_line] queues for a message. *)
Definition wire (m : Message.t) : list octet := encode (Message.show m) ++ [chCR; chLF].

(** The state with these messages queued after what is queued already. *)
Definition queue (ms : list Message.t) (s : Core.t) : Core.t := Core.set_outbox (Core.outbox s ++ (wire <$> ms)) s.

Lemma queue_nil s : queue [] s = s.
Proof. unfold queue. cbn. rewrite app_nil_r. by destruct s. Qed.
Lemma queue_queue ms ms' s : queue ms' (queue ms s) = queue (ms ++ ms') s.
Proof. unfold queue. cbn. by rewrite fmap_app, (assoc_L (++)). Qed.
Lemma send_queue c ps s : Core.send c ps s = queue [Message.new c ps] s.
Proof. done. Qed.

(** Steps that only queue, each what the state asks of it; queueing changes nothing a step looks at. *)
Lemma foldl_queue {A} (f : Core.t → A → Core.t) (lines : A → list Message.t) l s :
  (∀ ms x, f (queue ms s) x = queue (ms ++ lines x) s) →
  foldl f s l = queue (l ≫= lines) s.
Proof.
  intros Hf. rewrite <- (queue_nil s) at 1. change (l ≫= lines) with ([] ++ (l ≫= lines)). generalize (@nil Message.t).
  induction l as [|x l IH]; intros ms; cbn [foldl]; [by rewrite app_nil_r|].
  rewrite Hf, IH. cbn [mbind list_bind]. by rewrite (assoc_L (++)).
Qed.

(** ** Coming back *)

(** The lines that take one channel up again. *)
Definition rejoin_lines (s : Core.t) (entry : text * option text) : list Message.t :=
  let '(name, newest) := entry in
  Message.new "JOIN" (name :: option_list (Core.channel_keys s !! Isupport.fold (Core.isupport s) name))
  :: match Caps.has (Core.caps s) "draft/chathistory", newest with
     | true, Some msgid => [Message.new "CHATHISTORY" [lit "AFTER"; name; lit "msgid=" ++ msgid; lit "100"]]
     | _, _ => []
     end.
(** A channel we hold: its name, and the id of its newest message where it has one. *)
Definition to_rejoin (s : Core.t) : list (text * option text) :=
  (λ p, (Channel.name p.2, message ← Log.last (Channel.log p.2); Chat.msgid message))
    <$> sorted_items (Model.channels (Core.model s)).
Definition watch_lines (s : Core.t) : list Message.t :=
  match Monitor.watched (Core.monitor s) with
  | [] => []
  | watched => (λ chunk, Message.new "MONITOR" [lit "+"; chunk]) <$> Monitor.batched watched (Core.monitor_limit s)
  end.
Definition subscription_lines (s : Core.t) : list Message.t :=
  match Core.metadata_subscriptions s with [] => [] | keys => [Message.new "METADATA" (lit "*" :: lit "SUB" :: keys)] end.

Lemma bind_singleton {A B} (f : A → B) (l : list A) : (l ≫= λ x, [f x]) = f <$> l.
Proof. induction l as [|x l IH]; [done|]. cbn. by rewrite IH. Qed.

Lemma resume_queue s :
  Core.resume s = queue (watch_lines s ++ subscription_lines s ++ (to_rejoin s ≫= rejoin_lines s)) s.
Proof.
  unfold Core.resume. cbv zeta. fold (to_rejoin s).
  assert (match Monitor.watched (Core.monitor s) with [] => s | _ =>
    foldl (λ s chunk, Core.send "MONITOR" [lit "+"; chunk] s) s
      (Monitor.batched (Monitor.watched (Core.monitor s)) (Core.monitor_limit s)) end = queue (watch_lines s) s) as ->.
  { unfold watch_lines. destruct (Monitor.watched _) as [|w ws]; [by rewrite queue_nil|].
    rewrite (foldl_queue _ (λ chunk, [Message.new "MONITOR" [lit "+"; chunk]])); [by rewrite bind_singleton|].
    intros ms x. by rewrite send_queue, queue_queue. }
  change (Core.metadata_subscriptions (queue _ s)) with (Core.metadata_subscriptions s).
  assert (∀ ms, match Core.metadata_subscriptions s with [] => queue ms s
    | keys => Core.send "METADATA" (lit "*" :: lit "SUB" :: keys) (queue ms s) end = queue (ms ++ subscription_lines s) s) as ->.
  { intros ms. unfold subscription_lines. destruct (Core.metadata_subscriptions s); [by rewrite app_nil_r|].
    by rewrite send_queue, queue_queue. }
  rewrite (foldl_queue _ (rejoin_lines s)).
  - by rewrite queue_queue, (assoc_L (++)).
  - intros ms [name newest]. rewrite queue_queue. unfold Core.rejoin, rejoin_lines. cbv zeta.
    change (Core.channel_keys (queue ?m s)) with (Core.channel_keys s). change (Core.isupport (queue ?m s)) with (Core.isupport s).
    rewrite send_queue, queue_queue. change (Core.caps (queue ?m s)) with (Core.caps s).
    destruct (Caps.has _ _), newest; rewrite ?send_queue, ?queue_queue, <- ?(assoc_L (++)); done.
Qed.

Lemma filter_bind {A B} (P : B → Prop) `{∀ x, Decision (P x)} (f : A → list B) (l : list A) :
  filter P (l ≫= f) = l ≫= λ x, filter P (f x).
Proof. induction l as [|x l IH]; [done|]. cbn [mbind list_bind]. rewrite filter_app. by f_equal. Qed.

Definition is_join (m : Message.t) : Prop := Message.command m = lit "JOIN".
#[local] Instance is_join_dec m : Decision (is_join m) := _.

Lemma filter_no_join (l : list Message.t) : Forall (λ m, ¬ is_join m) l → filter is_join l = [].
Proof. induction 1 as [|m l Hm _ IH]; [done|]. by rewrite filter_cons_False. Qed.

(** C15. Coming back takes up everything that was held. On a welcome the engine becomes registered under the nick the
    server names, says so in one event, and tells the model that nick; of its own state and of the model nothing else
    changes. It queues, after what was queued, exactly: the MONITOR requests for the nicks watched, the METADATA
    subscriptions, and for each channel of the model what takes it up again. So there is one JOIN for every channel
    held and no other, each with the key that let us in, and where the server keeps history a request for what came
    after the newest message of each channel, if that has an id. *)
Theorem welcome_rejoins (m : Message.t) (s : Core.t) :
  let nick := default (Core.nick s) (Message.param m 0) in
  let lines := watch_lines s ++ subscription_lines s ++ (to_rejoin s ≫= rejoin_lines s) in
  ∃ s1, Core.welcome m s = queue lines s1
    ∧ Core.phase s1 = Phase.Registered ∧ Core.nick s1 = nick
    ∧ Core.model s1 = Model.set_me (LocalUser.set_nick nick (Model.me (Core.model s))) (Core.model s)
    ∧ Core.events s1 = Core.events s ++ [Event.Registered nick]
    ∧ (s1 |> Core.set_phase (Core.phase s) |> Core.set_nick (Core.nick s) |> Core.set_model (Core.model s)
          |> Core.set_events (Core.events s)) = s
    ∧ filter is_join lines =
        (λ p, Message.new "JOIN" (Channel.name p.2
                :: option_list (Core.channel_keys s !! Isupport.fold (Core.isupport s) (Channel.name p.2))))
          <$> sorted_items (Model.channels (Core.model s))
    ∧ (∀ key c newest msgid, Caps.has (Core.caps s) "draft/chathistory" = true →
        Model.channels (Core.model s) !! key = Some c → Log.last (Channel.log c) = Some newest → Chat.msgid newest = Some msgid →
        Message.new "CHATHISTORY" [lit "AFTER"; Channel.name c; lit "msgid=" ++ msgid; lit "100"] ∈ lines).
Proof.
  cbv zeta. unfold Core.welcome. cbv zeta. set (s1 := Core.push_event _ _). rewrite resume_queue.
  set (nick := default (Core.nick s) (Message.param m 0)).
  assert (watch_lines s1 ++ subscription_lines s1 ++ (to_rejoin s1 ≫= rejoin_lines s1)
    = watch_lines s ++ subscription_lines s ++ (to_rejoin s ≫= rejoin_lines s)) as -> by (subst s1; by destruct (Message.param m 0)).
  exists s1. split; [done|]. split_and!; [by subst s1 nick; destruct (Message.param m 0)..| | | ].
  - subst s1. destruct (Message.param m 0); by destruct s.
  - rewrite !filter_app, (filter_no_join (watch_lines _)), (filter_no_join (subscription_lines _)), filter_bind.
    + cbn [app]. unfold to_rejoin.
      induction (sorted_items _) as [|[k c] l IH]; [done|]. rewrite !fmap_cons, bind_cons, IH. cbn [snd].
      unfold rejoin_lines at 1. rewrite filter_cons_True by done. cbn [app]. f_equal.
      destruct (Caps.has _ _), (Log.last (Channel.log c) ≫= λ message, Chat.msgid message); rewrite ?filter_cons_False by discriminate; done.
    + unfold subscription_lines. destruct (Core.metadata_subscriptions _); repeat constructor. discriminate.
    + unfold watch_lines. destruct (Monitor.watched _); [constructor|]. apply Forall_fmap, Forall_true. discriminate.
  - intros key c newest msgid Hcap Hkey Hlast Hmsgid. rewrite !elem_of_app. right; right. apply list_elem_of_bind.
    exists (Channel.name c, Some msgid). split.
    + unfold rejoin_lines. rewrite Hcap. right. by left.
    + unfold to_rejoin. apply list_elem_of_fmap. exists (key, c). cbn [snd]. rewrite Hlast. cbn [mbind option_bind].
      rewrite Hmsgid. split; [done|]. by apply elem_of_sorted_items.
Qed.

(** ** Speaking *)

Lemma casemap_eq_refl cm a : Casemapping.eq cm a a = true.
Proof. induction a as [|x a IH]; [done|]. cbn [Casemapping.eq]. by rewrite decide_True. Qed.

Section speaking.
Context `{Unicode, Base64, Crypto}.

Lemma send_line_labeled_frame m s :
  Core.model (Core.send_line_labeled m s) = Core.model s ∧ Core.isupport (Core.send_line_labeled m s) = Core.isupport s
  ∧ Core.nick (Core.send_line_labeled m s) = Core.nick s ∧ Core.caps (Core.send_line_labeled m s) = Core.caps s
  ∧ Core.latest_ms (Core.send_line_labeled m s) = Core.latest_ms s
  ∧ ∃ tags, Core.outbox (Core.send_line_labeled m s) =
      Core.outbox s ++ [wire (Message.mk tags (Message.source m) (Message.command m) (Message.params m))].
Proof.
  unfold Core.send_line_labeled. destruct (negb _); [|destruct (Labels.generate _) as [label ls]].
  - split_and!; try done. exists (Message.tags m). by destruct m.
  - split_and!; try done. by eexists.
Qed.

Lemma fold_model m h s : Core.model (Core.fold m h s) =
  Ctx.model (Session.apply (Core.isupport s) h m (Ctx.mk (Core.model s) (Core.latest_ms s))).2.
Proof.
  unfold Core.fold. destruct (Session.apply _ _ _ _) as [changes ctx]. cbn [snd].
  assert (∀ s, Core.model (foldl Core.follow_change s changes) = Core.model s) as Hf.
  { induction changes as [|c cs IH]; intros s'; [done|]. cbn [foldl]. rewrite IH. clear IH.
    destruct c; try done; cbn [Core.follow_change].
    - unfold Core.request_who. by destruct (Isupport.has _ _).
    - cbv zeta. destruct (Core.channel_keys s' !! _); cbn; by destruct (_ !! _). }
  assert (∀ cs s, Core.model (foldl (λ s c, Core.push_event (Event.ModelChanged c) s) s cs) = Core.model s) as Hp.
  { induction cs as [|c cs IH]; intros s'; [done|]. cbn [foldl]. by rewrite IH. }
  destruct changes; [by destruct (Session.accumulates _)|]. by rewrite Hp, Hf.
Qed.

(** What is recorded of a line we say, as the server would have echoed it. *)
Definition echo_of (s : Core.t) (line : Message.t) : Message.t :=
  Message.mk (Message.tags line) (Some (Source.mk (Core.nick s) None None)) (Message.command line) (Message.params line).

Lemma say_model line s :
  Core.model (Core.say line s) =
    if Caps.has (Core.caps s) "echo-message" then Core.model s
    else Ctx.model (Session.apply (Core.isupport s) false (echo_of s line) (Ctx.mk (Core.model s) (Core.latest_ms s))).2.
Proof.
  destruct (send_line_labeled_frame line s) as (E1 & E2 & E3 & E4 & E5 & _).
  unfold Core.say. cbv zeta. rewrite E4. destruct (Caps.has _ _); [done|]. rewrite fold_model, E1, E2, E5.
  unfold echo_of. by rewrite E3.
Qed.

Lemma foldl_message_added (changes : list Change.t) s :
  Forall (λ c, ∃ name key, c = Change.MessageAdded name key) changes → foldl Core.follow_change s changes = s.
Proof. induction 1 as [|c cs (name & key & ->) _ IH]; [done|exact IH]. Qed.

Lemma ordinary_changes isupport historical target command m ctx :
  Forall (λ c, ∃ name key, c = Change.MessageAdded name key) (Session.ordinary isupport historical target command m ctx).1.
Proof.
  unfold Session.ordinary. destruct (Session.stamp _ _), (Model.next_message_key _ _), (Session.filed_under _ _ _ _).
  unfold Session.file. repeat case_match; cbn [fst]; try constructor; try done; eauto.
Qed.

(** Recording a message reports it and queues nothing. *)
Lemma fold_plain m historical r target body changes ctx' :
  Message.command m = lit "PRIVMSG" → Message.params m = [target; body] →
  Session.apply (Core.isupport r) historical m (Ctx.mk (Core.model r) (Core.latest_ms r)) = (changes, ctx') →
  let r' := Core.fold m historical r in
  Core.outbox r' = Core.outbox r ∧ Core.model r' = Ctx.model ctx'
  ∧ (changes ≠ [] → Core.events r' = Core.events r ++ (Event.ModelChanged <$> changes)).
Proof.
  intros Hc Hp E. cbv zeta. unfold Core.fold. rewrite E.
  assert (Forall (λ c, ∃ name key, c = Change.MessageAdded name key) changes) as Hch.
  { rewrite (apply_ordinary _ _ _ _ target) in E; [|left; by rewrite Hc|unfold Message.param; by rewrite Hp].
    pose proof (ordinary_changes (Core.isupport r) historical target (ascii_upper (Message.command m)) m
      (Ctx.mk (Core.model r) (Core.latest_ms r))) as Ho. by rewrite E in Ho. }
  destruct changes as [|c cs]; [by destruct (Session.accumulates _)|]. rewrite foldl_message_added by done.
  set (r0 := Core.set_latest_ms _ _). assert (∀ l s, let s' := foldl (λ s c, Core.push_event (Event.ModelChanged c) s) s l in
    Core.outbox s' = Core.outbox s ∧ Core.model s' = Core.model s ∧ Core.events s' = Core.events s ++ (Event.ModelChanged <$> l)) as Hl.
  { induction l as [|x l IH]; intros s; cbn; [by rewrite app_nil_r|].
    destruct (IH (Core.push_event (Event.ModelChanged x) s)) as (-> & -> & ->). split_and!; [done..|].
    cbn. by rewrite <- (assoc_L (++)). }
  destruct (Hl (c :: cs) r0) as (Ho & Hm & He). split_and!; [exact Ho|exact Hm|intros _; exact He].
Qed.

(** What is said is queued whether or not it is also recorded at once, and nothing else is. *)
Lemma said_queued target body s :
  Core.outbox (Core.command (Command.SendMessage target body) s)
  = Core.outbox (Core.send_line_labeled (Message.new "PRIVMSG" [target; body]) s).
Proof.
  cbn [Core.command]. unfold Core.say. cbv zeta. destruct (Caps.has _ _); [done|].
  match goal with |- Core.outbox (Core.fold ?e false ?s0) = _ =>
    destruct (Session.apply (Core.isupport s0) false e (Ctx.mk (Core.model s0) (Core.latest_ms s0))) as [changes ctx'] eqn:E;
    destruct (fold_plain e false s0 target body changes ctx' eq_refl eq_refl E) as (-> & _) end. done.
Qed.

(** C16. What we say to a channel (a plain text, not a CTCP) is recorded once and is never news to ourselves. Where the
    server echoes, saying it leaves the model alone (the echo will bring it). Where it does not, and the model and the
    engine agree on our nick, it becomes a message at the latest instant the engine has seen, under the next sequence
    number, marked as our own, with the text said and no id. If the log already holds the same text from that nick at
    that very instant, the message is taken for that one and the channels stay as they were: of two equal texts said
    before the clock moves only the first is recorded. Otherwise the log takes the message in (only its oldest goes, if
    it was full), and the unread and mention counts stay. In either case no other channel and no conversation
    changes. (The model is well formed, as every run from a fresh engine leaves it, and its sequence counter has not
    run out.) *)
Theorem said_recorded_once (target body : text) (s : Core.t) (c : Channel.t) :
  let name := trim_start_matches (Isupport.is_statusmsg (Core.isupport s)) target in
  let key := Session.fold (Core.isupport s) name in
  let m := Core.model s in
  let m' := Core.model (Core.command (Command.SendMessage target body) s) in
  Format.parse_ctcp body = None →
  LocalUser.nick (Model.me m) = Core.nick s → Isupport.is_channel (Core.isupport s) name = true →
  wf_model m → Model.channel m key = Some c → Model.next_seq m < u64_max →
  if Caps.has (Core.caps s) "echo-message" then m' = m
  else ∃ message, Chat.key message = (Core.latest_ms s, Model.next_seq m) ∧ Chat.own message = true
    ∧ Chat.text_ message = body ∧ Chat.sender message = Core.nick s ∧ Chat.kind message = MessageKind.Privmsg
    ∧ Chat.msgid message = None
    ∧ (held_already message (Channel.log c) → Model.channels m' = Model.channels m)
    ∧ (¬ held_already message (Channel.log c) → ∃ log', takes_in message (Channel.log c) log'
         ∧ Model.channels m' = <[key := Channel.set_log log' c]> (Model.channels m))
    ∧ Model.conversations m' = Model.conversations m.
Proof.
  cbv zeta. intros Hctcp Hnick Hch Hwf Hc Hseq. cbn [Core.command]. rewrite say_model. destruct (Caps.has _ _); [done|].
  set (line := echo_of s _). set (ctx := Ctx.mk _ _).
  pose proof (channel_message_files (Core.isupport s) false line ctx target c) as Hf. cbv zeta in Hf.
  specialize (Hf (or_introl eq_refl) eq_refl Hch Hc (conj (proj1 (model_seq _ Hwf)) Hseq)).
  assert (Session.is_me (Core.isupport s) ctx (Session.sender line) = true) as Hme.
  { unfold Session.is_me. cbn [Ctx.model]. subst ctx. cbn [Ctx.model]. rewrite Hnick. apply casemap_eq_refl. }
  destruct (Session.apply _ _ line ctx) as [changes ctx'].
  set (message := message_of _ _ _ _) in *.
  assert (Chat.own message = true ∧ Chat.text_ message = body ∧ Chat.sender message = Core.nick s
      ∧ Chat.kind message = MessageKind.Privmsg ∧ Chat.msgid message = None
      ∧ Chat.key message = (Core.latest_ms s, Model.next_seq (Core.model s))) as (H1' & H2' & H3' & H4' & H5' & H6').
  { subst message. unfold message_of, Session.build. rewrite Hme.
    unfold Session.kind_and_text. change (ascii_upper (Message.command line)) with (lit "PRIVMSG").
    rewrite !decide_False by discriminate. change (default [] (Message.param line 1)) with body. rewrite Hctcp. by split_and!. }
  destruct (model_channels _ Hwf _ _ Hc) as [[Hlog _ Hkeys] _].
  assert (Log.messages (Channel.log c) !! Chat.key message = None) as Hfresh.
  { apply eq_None_not_Some. rewrite H6'. intros Hk%Hkeys. unfold seq_no in Hk. cbn in Hk. lia. }
  pose proof (insert_files message (Channel.log c) Hlog Hfresh) as Hins.
  destruct (Log.insert message (Channel.log c)) as [accepted log] eqn:El.
  destruct Hins as (_ & Hheld & _ & Htakes). rewrite Hme in Hf. destruct Hf as (_ & Hch' & Hsame & Hconv & _).
  exists message. split_and!; [done..| | |done].
  - intros Hh. by apply Hsame, Hheld.
  - intros Hn. exists log. destruct accepted; [|exfalso; by apply Hn, Hheld].
    split; [by apply Htakes|]. cbn [snd]. rewrite Hch'. rewrite andb_false_r. cbn [andb negb]. by f_equal; destruct c.
Qed.
End speaking.

(** ** Several lines said as one *)

Definition is_text (command : text) : Prop :=
  eq_ignore_ascii_case command "PRIVMSG" = true ∨ eq_ignore_ascii_case command "NOTICE" = true.
Definition body_of (m : Message.t) : text := default [] (Message.param m 1).
Definition continues (m : Message.t) : bool := Tags.contains (Message.tags m) MULTILINE_CONCAT.
(** The text of the lines: each on a line of its own, unless it continues the one before. *)
Definition joined_body (first : Message.t) (rest : list Message.t) : text :=
  foldl (λ body m, body ++ (if continues m then [] else [chLF]) ++ body_of m) (body_of first) rest.

Lemma append_text_body a m : is_Some (Message.param m 1) → body_of (append_text a m) = body_of m ++ a.
Proof. intros [b Hb]. unfold body_of, append_text, Message.param in *. cbn. by rewrite list_lookup_alter_eq, Hb. Qed.

Lemma eq_ignore_refl (t : text) : eq_ignore_ascii_case t t = true.
Proof. unfold eq_ignore_ascii_case. by apply bool_decide_eq_true. Qed.

Lemma is_command_text m : is_text (Message.command m) →
  (Message.is_command m "PRIVMSG" || Message.is_command m "NOTICE") = true.
Proof. intros Ht. by apply orb_true_iff. Qed.

Lemma join_lines_text joined rest older target :
  is_text (Message.command joined) → Message.param joined 0 = Some target → is_Some (Message.param joined 1) →
  Forall (λ m, Message.command m = Message.command joined ∧ Message.param m 0 = Some target) rest →
  ∃ m, foldl join_line (joined :: older) rest = m :: older
    ∧ Message.tags m = Message.tags joined ∧ Message.source m = Message.source joined
    ∧ Message.command m = Message.command joined ∧ Message.param m 0 = Some target
    ∧ Message.param m 1 = Some (joined_body joined rest).
Proof.
  intros Htext Htarget Hbody Hall. revert joined Htext Htarget Hbody Hall. induction rest as [|r rest IH]; intros joined Htext Htarget Hbody Hall.
  { exists joined. split_and!; try done. unfold joined_body, body_of. cbn. by destruct Hbody as [b ->]. }
  apply Forall_cons in Hall as [[Hcmd Hr] Hall]. cbn [foldl].
  set (addition := (if continues r then [] else [chLF]) ++ body_of r).
  assert (join_line (joined :: older) r = append_text addition joined :: older) as ->.
  { unfold join_line. cbv zeta. rewrite (is_command_text r) by by rewrite Hcmd.
    unfold Message.is_command at 1. rewrite Hcmd, eq_ignore_refl, Htarget, Hr. cbn [negb orb].
    by rewrite bool_decide_eq_false_2 by tauto. }
  destruct (IH (append_text addition joined)) as (m & -> & H1' & H2' & H3' & H4' & H5').
  - done.
  - unfold append_text, Message.param in *. cbn. by rewrite list_lookup_alter_ne.
  - unfold append_text, Message.param in *. cbn. rewrite list_lookup_alter_eq. destruct Hbody as [b ->]. by eexists.
  - done.
  - exists m. split_and!; try done. rewrite H5'. unfold joined_body. cbn [foldl]. by rewrite append_text_body.
Qed.

(** C34. The lines of a multiline batch become one message: from text lines to one target, the first of them carrying
    text, the batch hands on a single message with the first line's tags and sender, whose text is theirs in
    order, each starting a new line unless it is marked as continuing the last. *)
Theorem multiline_is_one_message (closed : Batch.Closed) first rest target :
  Batch.c_messages closed = first :: rest →
  is_text (Message.command first) → Message.param first 0 = Some target → is_Some (Message.param first 1) →
  Forall (λ m, Message.command m = Message.command first ∧ Message.param m 0 = Some target) rest →
  ∃ m, Batch.c_messages (join_multiline closed) = [m]
    ∧ Message.tags m = Message.tags first ∧ Message.source m = Message.source first
    ∧ Message.command m = Message.command first ∧ Message.param m 0 = Some target
    ∧ Message.param m 1 = Some (joined_body first rest).
Proof.
  intros E Ht Hp Hb Hall. destruct (join_lines_text first rest [] target Ht Hp Hb Hall) as (m & Hm & Hrest).
  exists m. split; [|done]. unfold join_multiline. cbn [Batch.c_messages]. rewrite E. cbn [foldl join_line].
  by rewrite Hm.
Qed.

(** ** Instances *)

(** The engine after these lines, from a fresh start. *)
Definition after (lines : list text) : Core.t :=
  foldl (λ s line, @Core.handle_message ascii_table standard toy_crypto (parsed line) s) (Core.new (Config.new "me")) lines.

(** An engine that has just joined a channel. *)
Definition joined_c : Core.t := after [lit ":irc 001 me :hi"; lit ":me JOIN #c"].
Lemma joined_c_wf : wf_model (Core.model joined_c).
Proof.
  unfold joined_c, after. cbn [foldl].
  destruct (@grows_handle_message ascii_table standard toy_crypto (parsed ":irc 001 me :hi") (Core.new (Config.new "me"))) as [H1 _];
    [apply sound_new|by vm_compute|].
  by destruct (@grows_handle_message ascii_table standard toy_crypto (parsed ":me JOIN #c") _ H1) as [[H2 _ _] _]; [by vm_compute|].
Qed.
Definition say_ok (s : Core.t) : Core.t := @Core.command ascii_table (Command.SendMessage "#C" "ok") s.
Definition recorded (s : Core.t) : option nat := Log.len ∘ Channel.log <$> Model.channel (Core.model s) "#c".

Lemma said_recorded_once_witness :
  ∃ message, Chat.text_ message = lit "ok" ∧ Chat.own message = true
    ∧ (c ← Model.channel (Core.model (say_ok joined_c)) "#c"; Log.messages (Channel.log c) !! Chat.key message) = Some message
    ∧ recorded (say_ok joined_c) = Some 1%nat.
Proof.
  pose proof (@said_recorded_once ascii_table "#C" "ok" joined_c (Channel.named "#c" Log.default)) as Hs. cbv zeta in Hs.
  replace (Caps.has (Core.caps joined_c) "echo-message") with false in Hs by (by vm_compute).
  destruct Hs as (message & Hk & Ho & Ht & _ & _ & _ & _ & Hnew & _);
    [by vm_compute|by vm_compute|by vm_compute|apply joined_c_wf|by vm_compute|by vm_compute|].
  destruct Hnew as (log & [_ [Hlog _]] & Hch).
  { intros (k & m & Hm & _). change ((∅ : gmap MessageKey Chat.t) !! k = Some m) in Hm. by apply lookup_empty_Some in Hm. }
  exists message. split_and!; [done..| |by vm_compute].
  unfold Model.channel, say_ok. rewrite Hch. change (Session.fold _ _) with (lit "#c").
  rewrite lookup_insert_eq. cbn [mbind option_bind Channel.log Channel.set_log]. rewrite Hlog.
  - apply lookup_insert_eq.
  - apply Nat.leb_le. rewrite map_size_insert_None by apply lookup_empty. by vm_compute.
Defined.

(** The engine's clock stands still between two things the host says without a [tick] or a dated line: the same word
    said twice goes out twice and is recorded once, the second being taken for a replay of the first. *)
Theorem said_twice_recorded_once :
  let s := say_ok joined_c in
  recorded s = Some 1%nat ∧ recorded (say_ok s) = Some 1%nat
  ∧ length (Core.outbox (say_ok s)) = S (length (Core.outbox s)) ∧ recorded (say_ok (Core.set_latest_ms 1 s)) = Some 2%nat.
Proof. cbv zeta. split_and!; by vm_compute. Qed.

(** When the server confirms our change of nick, the model learns it and the engine does not: it goes on calling
    itself by the old nick. Where nothing is echoed, what we then say to a channel is recorded as somebody else's
    and counted as unread, and what we say to a person is filed under our own old nick instead of theirs. *)
Theorem own_rename_leaves_engine_behind :
  let s := after [lit ":irc 001 me :hi"; lit ":me JOIN #c"; lit ":me NICK you"] in
  let say target := Core.model (@Core.command ascii_table (Command.SendMessage target "hi") s) in
  LocalUser.nick (Model.me (Core.model s)) = lit "you" ∧ Core.nick s = lit "me"
  ∧ (c ← Model.channel (say "#c") "#c"; m ← Log.last (Channel.log c); Some (Chat.own m, Channel.unread c)) = Some (false, 1)
  ∧ is_Some (Model.conversation (say "bob") "me") ∧ Model.conversation (say "bob") "bob" = None.
Proof.
  cbv zeta. split_and!; [by vm_compute..| |by vm_compute]. 
  destruct (Model.conversation _ _) eqn:E; [by eexists|by vm_compute in E].
Qed.

Lemma multiline_is_one_message_witness :
  let closed := Batch.mkClosed MULTILINE_BATCH [lit "#c"] None
    [parsed "@batch=1;msgid=m :bob PRIVMSG #c :one"; parsed "@batch=1 :bob PRIVMSG #c :two";
     parsed "@batch=1;draft/multiline-concat :bob PRIVMSG #c :!"] false in
  (m ← head (Batch.c_messages (join_multiline closed)); Message.param m 1) = Some (lit "one" ++ chLF :: lit "two!").
Proof.
  cbv zeta. edestruct multiline_is_one_message as (m & -> & _ & _ & _ & _ & Hm); [reflexivity|..].
  - left. by vm_compute.
  - by vm_compute.
  - by vm_compute; eexists.
  - repeat constructor; by vm_compute.
  - cbn [head mbind option_bind]. rewrite Hm. by vm_compute.
Defined.
