(* ===== verification/Wire.v ===== *)
(** * From one engine to another (theorems about src/crates/obby-client/src/client.rs)

    What [send_line] puts on the wire against what [handle_bytes] makes of it: the whole
    path of a line, from a message through its text, its bytes and however the transport
    cuts them, to the message handled at the other end. *)
From S2P Require Import Prelude Utf8 Casemap Isupport Tags Message Format Timer Batch Label Caps Monitor Sasl Base64 Scram.
From S2P Require Import Extensions Model Session Voice Command Client Resume.

(** ** Bytes *)

Lemma encode_char_lf c : c ≠ chLF → chLF ∉ encode_char c.
Proof.
  intros Hc. assert (∀ n, 10%N ≠ cont n) as Hcont by (intros n; destruct (cont_spec n) as (k & -> & _); lia).
  unfold encode_char. repeat case_match; rewrite !not_elem_of_cons; split_and!; try apply not_elem_of_nil; try done; try lia;
    match goal with |- _ ≠ (_ + ?x)%N => generalize x; intros; lia end.
Qed.
Lemma encode_lf t : chLF ∉ t → chLF ∉ encode t.
Proof.
  induction t as [|c t IH]; intros Ht; [apply not_elem_of_nil|]. apply not_elem_of_cons in Ht as [Hc Ht].
  change (encode (c :: t)) with (encode_char c ++ encode t). rewrite not_elem_of_app. split; [|by apply IH].
  apply encode_char_lf. congruence.
Qed.

(** *** Lines that travel *)

(** A message whose line stands for it, in text, without a line break in it, and no longer than a reader will hold. *)
Record travels (m : Message.t) : Prop := {
  travels_wf : wf_message m;
  travels_text : valid_text (Message.show m);
  travels_line : chLF ∉ Message.show m;
  travels_fits : (length (encode (Message.show m)) < MAX_INBOUND_LINE)%nat;
}.

(** The line without its terminator's last byte, which is how the reader cuts it off. *)
Definition line_bytes (m : Message.t) : list octet := encode (Message.show m) ++ [chCR].

Lemma wire_terminated m : wire m = Assembly.terminated (line_bytes m).
Proof. unfold wire, line_bytes, Assembly.terminated. by rewrite <- (assoc_L (++)). Qed.

Lemma stream_wire ms : Assembly.stream (line_bytes <$> ms) [] = concat (wire <$> ms).
Proof.
  unfold Assembly.stream. rewrite app_nil_r. f_equal. rewrite <- list_fmap_compose. apply list_fmap_ext. intros ? m _.
  symmetry. apply wire_terminated.
Qed.

Lemma line_bytes_holdable m : travels m → Assembly.holdable (line_bytes m).
Proof.
  intros [_ _ Hl Hf]. split.
  - unfold line_bytes. rewrite not_elem_of_app. split; [by apply encode_lf|]. by rewrite list_elem_of_singleton.
  - unfold line_bytes. rewrite length_app. cbn [length]. lia.
Qed.

Lemma parse_line_end t : Message.parse (t ++ [chCR; chLF]) = Message.parse t.
Proof. unfold Message.parse. rewrite trim_end_app; [done|]. by repeat constructor. Qed.

(** The reader gets back the message the line was written for. *)
Lemma read_back `{Unicode, Base64, Crypto} m c : travels m → Client.handle_line (wire m) c = Core.handle_message m c.
Proof.
  intros [Hw Ht _ _]. unfold Client.handle_line, wire.
  change [chCR; chLF] with (encode [chCR; chLF]). rewrite <- encode_app, from_utf8_lossy_encode.
  - by rewrite parse_line_end, parse_show.
  - apply Forall_app. split; [done|by repeat constructor].
Qed.

Lemma chunks_carry `{Unicode, Base64, Crypto} (ms : list Message.t) (chunks : list (list octet)) (c : Core.t) :
  Forall travels ms → concat chunks = concat (wire <$> ms) →
  foldl (λ s data, Client.handle_bytes data s) (Client.mk c [] false) chunks =
    Client.mk (foldl (λ c m, Core.handle_message m c) c ms) [] false.
Proof.
  intros Hms E. rewrite <- stream_wire in E.
  rewrite (Assembly.handle_chunks chunks (line_bytes <$> ms) [] (Client.mk c [] false)); [|apply not_elem_of_nil| | |done|done].
  - cbn [Client.core]. f_equal. clear E chunks. revert c. induction Hms as [|m ms Hm _ IH]; intros c; [done|].
    rewrite fmap_cons. cbn [foldl]. rewrite <- wire_terminated, read_back by done. apply IH.
  - apply Forall_fmap. eapply Forall_impl; [exact Hms|]. apply line_bytes_holdable.
  - split; [apply not_elem_of_nil|]. apply Nat.le_0_l.
Qed.

(** C9. What one engine sends, another one reads: whatever messages are written for the wire, and however the transport
    cuts the bytes up, the reader handles exactly those messages, in that order, and holds nothing back. The
    messages are those whose line stands for them ([wf_message]: no delimiter inside a part) and which have no line
    break in any part. *)
Theorem wire_carries_messages `{Unicode, Base64, Crypto} (ms : list Message.t) (chunks : list (list octet)) (c : Core.t) :
  Forall travels ms → concat chunks = concat (wire <$> ms) →
  foldl (λ s data, Client.handle_bytes data s) (Client.mk c [] false) chunks =
    Client.mk (foldl (λ c m, Core.handle_message m c) c ms) [] false.
Proof. apply chunks_carry. Qed.

(** ** A line break in what is said *)

Lemma needs_marker_space a : chSPACE ∈ a → Message.needs_marker a = true.
Proof.
  intros Ha. destruct a as [|c a]; [done|]. cbn [Message.needs_marker]. apply orb_true_iff. left.
  unfold contains_char. by apply bool_decide_eq_true.
Qed.

Lemma show_params_snoc_app ps a b :
  chSPACE ∈ a → Message.show_params (ps ++ [a ++ b]) = Message.show_params (ps ++ [a]) ++ b.
Proof.
  intros Ha. induction ps as [|p ps IH].
  - cbn [app Message.show_params]. by rewrite !needs_marker_space by set_solver.
  - rewrite <- !app_comm_cons, !show_params_cons by (intros []%app_eq_nil; done). rewrite IH. cbn [app]. by rewrite ?(assoc_L (++)).
Qed.

Lemma show_snoc_app tags source command ps a b :
  chSPACE ∈ a →
  Message.show (Message.mk tags source command (ps ++ [a ++ b])) =
    Message.show (Message.mk tags source command (ps ++ [a])) ++ b.
Proof.
  intros Ha. unfold Message.show. cbn [Message.tags Message.source Message.command Message.params].
  rewrite show_params_snoc_app by done. by rewrite !(assoc_L (++)).
Qed.

(** A body that goes on after a line break is two lines, and the second is whatever follows the break. *)
Lemma wire_line_break tags source command ps a m :
  chSPACE ∈ a →
  wire (Message.mk tags source command (ps ++ [a ++ [chCR; chLF] ++ Message.show m])) =
    wire (Message.mk tags source command (ps ++ [a])) ++ wire m.
Proof. intros Ha. unfold wire. rewrite show_snoc_app by done. rewrite !encode_app. by rewrite <- !(assoc_L (++)). Qed.

(** C36. The body of a message can carry commands of its own. Where the host passes on a text with a line break, in
    whatever state the engine is (whether the server echoes or the engine records for itself), what follows the break
    goes out as a line of its own, byte for byte as if the engine had been asked to send it, and nothing else is
    queued. A reader of what was sent, where both lines are well formed and within the length it reads, handles two
    messages: ours, cut off at the break, and any [m] the text was made of. (The text before the break has a space in
    it, as a sentence does, so that it is written behind a colon.) *)
Theorem line_break_injects_commands `{Unicode, Base64, Crypto} (target a : text) (m : Message.t) (s reader : Core.t) :
  let body := a ++ [chCR; chLF] ++ Message.show m in
  chSPACE ∈ a →
  ∃ tags, let said := Message.mk tags None (lit "PRIVMSG") [target; a] in
    Core.outbox (Core.command (Command.SendMessage target body) s) = Core.outbox s ++ [wire said ++ wire m]
    ∧ (travels said → travels m →
       Client.handle_bytes (wire said ++ wire m) (Client.mk reader [] false) =
         Client.mk (Core.handle_message m (Core.handle_message said reader)) [] false).
Proof.
  cbv zeta. intros Ha. set (line := Message.new (lit "PRIVMSG") [target; a ++ [chCR; chLF] ++ Message.show m]).
  destruct (send_line_labeled_frame line s) as (_ & _ & _ & _ & _ & tags & Hout). exists tags. split.
  - rewrite said_queued. fold line. rewrite Hout. unfold line.
    pose proof (wire_line_break tags None (lit "PRIVMSG") [target] a m Ha) as E. cbn [app] in E. by rewrite <- E.
  - intros Hsaid Hm.
    assert (wire (Message.mk tags None (lit "PRIVMSG") [target; a]) ++ wire m =
      Assembly.stream (line_bytes <$> [Message.mk tags None (lit "PRIVMSG") [target; a]; m]) []) as ->.
    { rewrite stream_wire. cbn. by rewrite app_nil_r. }
    rewrite Assembly.handle_stream.
    + rewrite fmap_cons, fmap_cons. cbn [foldl fmap list_fmap]. by rewrite <- !wire_terminated, !read_back.
    + cbn [fmap list_fmap]. apply Forall_cons. split; [by apply line_bytes_holdable|]. apply Forall_singleton. by apply line_bytes_holdable.
    + split; [apply not_elem_of_nil|apply Nat.le_0_l].
Qed.

(** ** Instances *)

Definition greeting : Message.t := Message.new "PRIVMSG" [lit "#c"; lit "good morning"].
Definition leaving : Message.t := Message.new "PART" [lit "#c"].

Lemma greeting_travels : travels greeting.
Proof.
  split.
  - split; [constructor|by intros|split; [done|]| | |].
    + apply (bool_decide_unpack _). by vm_compute.
    + by split.
    + intros ps p E. change ([lit "#c"] ++ [lit "good morning"] = ps ++ [p]) in E.
      apply app_inj_tail in E as [<- _]. apply Forall_singleton. split_and!; [done|apply (bool_decide_unpack _); by vm_compute|done].
    + intros c. vm_compute. by intros [= <-].
  - by apply (bool_decide_unpack _); vm_compute.
  - by apply (bool_decide_unpack _); vm_compute.
  - apply Nat.ltb_lt. by vm_compute.
Qed.
Lemma leaving_travels : travels leaving.
Proof.
  split.
  - split; [constructor|by intros|split; [done|]| | |].
    + apply (bool_decide_unpack _). by vm_compute.
    + by split.
    + intros ps p E. change ([] ++ [lit "#c"] = ps ++ [p]) in E. by apply app_inj_tail in E as [<- _].
    + intros c. vm_compute. by intros [= <-].
  - by apply (bool_decide_unpack _); vm_compute.
  - by apply (bool_decide_unpack _); vm_compute.
  - apply Nat.ltb_lt. by vm_compute.
Qed.

Definition reader : Core.t := Core.new (Config.mk "me" "me" "me" None None 100 []).

Lemma wire_carries_messages_witness :
  foldl (λ s data, @Client.handle_bytes ascii_table standard toy_crypto data s) (Client.mk reader [] false)
    [take 7 (wire greeting); drop 7 (wire greeting) ++ wire leaving] =
  Client.mk (foldl (λ c m, @Core.handle_message ascii_table standard toy_crypto m c) reader [greeting; leaving]) [] false.
Proof.
  apply (@wire_carries_messages ascii_table standard toy_crypto [greeting; leaving]
    [take 7 (wire greeting); drop 7 (wire greeting) ++ wire leaving] reader).
  - apply Forall_cons. split; [apply greeting_travels|]. apply Forall_singleton, leaving_travels.
  - by vm_compute.
Defined.

Lemma line_break_injects_commands_witness :
  ∃ tags, Core.outbox (@Core.command ascii_table
      (Command.SendMessage "#c" (lit "good morning" ++ [chCR; chLF] ++ Message.show leaving)) reader)
    = [wire (Message.mk tags None (lit "PRIVMSG") [lit "#c"; lit "good morning"]) ++ wire leaving].
Proof.
  destruct (@line_break_injects_commands ascii_table standard toy_crypto "#c" "good morning" leaving reader reader)
    as (tags & H & _); [apply (bool_decide_unpack _); by vm_compute|]. by exists tags.
Defined.
