(* ===== verification/Delivery.v ===== *)
(** * From one user to another (theorems about src/crates/obby-client/src)

    What is said through one engine against what another one makes of it, by way of a server. The
    server is not in the repository: [Server] is an interface, whose laws are what IRC's message-tags
    specification has a server do with a line it passes on. The path is the whole of it: the command
    of the sender's host, the line, its bytes, the relayed line cut up by the receiver's transport,
    the parser, the dispatch and the model or the room. *)
From S2P Require Import Prelude Utf8 Casemap Isupport Tags Message Format Timer Batch Label Caps Monitor Sasl Base64 Scram.
From S2P Require Import Extensions Model Session Voice Command Client Resume Wire.

(** ** The server *)

Class Server := relay : Source.t → Message.t → Message.t.
(** A line passed on: its verb and parameters as they were, its source the sender, its client-only tags (those with a
    plus) as they were; and not as part of a batch. The server's own tags are its business. *)
Class ServerLaws (S : Server) : Prop := {
  relay_command from m : Message.command (relay from m) = Message.command m;
  relay_params from m : Message.params (relay from m) = Message.params m;
  relay_source from m : Message.source (relay from m) = Some from;
  relay_client_tag from m key : starts_with_char chPLUS key = true → Message.tag (relay from m) key = Message.tag m key;
  relay_no_batch from m : Message.tag (relay from m) "batch" = None;
}.

(** ** What is queued *)

(** One line more is in the outbox, which a server reads as this message. *)
Definition spoken (s s' : Core.t) (m : Message.t) : Prop :=
  ∃ line, Core.outbox s' = Core.outbox s ++ [encode line ++ [chCR; chLF]] ∧ Message.parse line = inr m.

Lemma keys_of_set tags tag (P : Tag.t → Prop) : Forall P tags → P tag → Forall P (Tags.set tags tag).
Proof.
  intros Ht Hp. induction Ht as [|x tags Hx Ht IH]; cbn [Tags.set]; [by constructor|].
  case_decide; by constructor.
Qed.

Lemma wf_with_tag tag m : wf_tag tag ∧ chSPACE ∉ Tag.key tag → wf_message m → wf_message (Command.with_tag tag m).
Proof.
  intros Htag [H1 H2 H3 H4 H5 H6]. split; cbn [Command.with_tag Message.tags Message.source Message.command Message.params]; try done.
  - by apply keys_of_set.
  - intros Hs. destruct (H4 Hs) as [Hc _]. split; [done|]. intros E. exfalso. revert E.
    destruct (Message.tags m) as [|x l]; cbn [Tags.set]; [done|by case_decide].
Qed.

(** What the engine sends for a message: itself, or itself under the next label. *)
Definition as_sent (s : Core.t) (m : Message.t) : Message.t :=
  if negb (Caps.has (Core.caps s) "labeled-response") then m
  else Command.with_tag (Tag.new "label" (Labels.generate (Core.labels s)).1) m.

Lemma labeled_spoken m s : wf_message m → spoken s (Core.send_line_labeled m s) (as_sent s m).
Proof.
  intros Hm. exists (Message.show (as_sent s m)). unfold Core.send_line_labeled, as_sent. destruct (negb _).
  - split; [done|]. by apply parse_show.
  - destruct (Labels.generate _) as [label ls] eqn:Eg. split; [done|]. apply parse_show, wf_with_tag; [|done].
    apply tag_stands; [|by vm_compute]. unfold Labels.generate in Eg. by injection Eg as <- _.
Qed.
(** The label is all the difference. *)
Lemma as_sent_same s m : Message.command (as_sent s m) = Message.command m ∧ Message.params (as_sent s m) = Message.params m
  ∧ ∀ key, starts_with_char chPLUS key = true → Message.tag (as_sent s m) key = Message.tag m key.
Proof.
  unfold as_sent. destruct (negb _); [done|]. split_and!; [done..|]. intros key Hk. unfold Message.tag.
  cbn [Command.with_tag Message.tags]. apply get_set_ne. by intros <-.
Qed.

Section delivery.
Context `{Unicode, Base64, Crypto} (S : Server) {laws : ServerLaws S}.
Implicit Types s r : Core.t.

(** The bytes of one relayed line, however the transport cuts them, are one message to the reader. *)
Lemma relayed_handled m r chunks : travels m → concat chunks = wire m →
  foldl (λ c data, Client.handle_bytes data c) (Client.mk r [] false) chunks = Client.mk (Core.handle_message m r) [] false.
Proof.
  intros Hm Hc. rewrite (chunks_carry [m] chunks r); [done|by apply Forall_singleton|].
  rewrite Hc. symmetry. apply app_nil_r.
Qed.

(** ** A voice frame *)

Lemma handle_voice m r channel signal :
  Message.command m = lit "TAGMSG" → Message.params m = [channel] → Message.tag m "+typing" = None →
  Message.tag m "+obsidianirc/rtc" = Some (Signal.to_json signal) → wf_signal signal →
  let r' := Core.handle_message m r in
  let key := Isupport.fold (Core.isupport r) channel in
  Core.rooms r' = <[key := Room.apply (Core.nick r) signal (Isupport.casemapping (Core.isupport r))
                             (default (Room.new channel) (Core.rooms r !! key))]> (Core.rooms r)
  ∧ Core.events r' = Core.events r ++ [Event.Voice channel signal] ∧ Core.model r' = Core.model r.
Proof.
  intros Hc Hp Ht Hr Hs. cbv zeta. unfold Core.handle_message, Message.is_command. rewrite Hc.
  unfold Core.handle_typing, Core.handle_rtc. rewrite Ht, Hr. unfold Message.param. rewrite Hp.
  assert (Signal.from_json (Signal.to_json signal) = Some signal) as Hj by by apply json_signal.
  cbn [mbind option_bind lookup list_lookup]. rewrite Hj. split_and!; done.
Qed.

(** The lines the two commands make. *)
Definition voice_line (channel : text) (signal : Signal.t) : Message.t :=
  Command.with_tag (Tag.new "+obsidianirc/rtc" (Signal.to_json signal)) (Message.new "TAGMSG" [channel]).
Definition text_line (target body : text) : Message.t := Message.new "PRIVMSG" [target; body].

(** C14. A voice frame arrives. Whatever state the sender's engine is in, the command to send a frame queues one line;
    the line a server makes of it, cut up anyhow on its way, is handled by any receiver as exactly that frame, in that
    channel: the room takes the step [Room.apply] has for it (opened first if nothing was heard of it before), the host
    gets the frame as one event, and neither the model nor any other room changes. *)
Theorem voice_frame_arrives channel signal s :
  wf_signal signal → word channel →
  let m := as_sent s (voice_line channel signal) in
  spoken s (Core.command (Command.SendVoiceSignal channel signal) s) m
  ∧ ∀ from r chunks, travels (relay from m) → concat chunks = wire (relay from m) →
    ∃ r', foldl (λ c data, Client.handle_bytes data c) (Client.mk r [] false) chunks = Client.mk r' [] false
      ∧ let key := Isupport.fold (Core.isupport r) channel in
        Core.rooms r' = <[key := Room.apply (Core.nick r) signal (Isupport.casemapping (Core.isupport r))
                                   (default (Room.new channel) (Core.rooms r !! key))]> (Core.rooms r)
        ∧ Core.events r' = Core.events r ++ [Event.Voice channel signal] ∧ Core.model r' = Core.model r.
Proof.
  intros Hs Hc m. destruct (as_sent_same s (voice_line channel signal)) as (Hcmd & Hps & Htag). fold m in Hcmd, Hps, Htag.
  split; [by apply labeled_spoken, (wire_stands (Command.SendVoiceSignal channel signal))|].
  intros from r chunks Ht Hch. exists (Core.handle_message (relay from m) r). split; [by apply relayed_handled|].
  assert (∀ key, starts_with_char chPLUS key = true → Message.tag (relay from m) key = Message.tag (voice_line channel signal) key)
    as Hplus by (intros key Hk; rewrite relay_client_tag by done; by apply Htag).
  apply handle_voice; [by rewrite relay_command, Hcmd|by rewrite relay_params, Hps|by rewrite Hplus|by rewrite Hplus|done].
Qed.

(** ** A message *)

(** What handling a plain message to a channel comes to. *)
Lemma handle_plain m r target body :
  Message.command m = lit "PRIVMSG" → Message.params m = [target; body] → Message.tag m "batch" = None →
  ∃ r0, Core.handle_message m r = Core.fold m false r0 ∧ Core.model r0 = Core.model r ∧ Core.isupport r0 = Core.isupport r
    ∧ Core.latest_ms r0 = Core.latest_ms r ∧ Core.events r0 = Core.events r.
Proof.
  intros Hc Hp Hb. unfold Core.handle_message, Message.is_command. rewrite Hc.
  unfold Core.handle_rest, Batch.route, Message.is_command. rewrite Hb, Hc. eexists. split; [reflexivity|]. done.
Qed.

(** What is said goes out whether or not it is also recorded at once. *)
Lemma said_spoken target body s : word target → unbroken body →
  spoken s (Core.command (Command.SendMessage target body) s) (as_sent s (text_line target body)).
Proof.
  intros Ht Hb. destruct (labeled_spoken (text_line target body) s) as (line & Hout & Hread).
  { apply (line_stands []); [constructor|done|]. split; [by apply word_middle|by apply unbroken_ends]. }
  exists line. split; [|exact Hread]. by rewrite said_queued.
Qed.

(** C6. A message arrives. Let the target be one word (no space, no line break, no leading colon, not empty), the text
    without a line break and not a CTCP (it does not begin with the CTCP delimiter). Then, whatever state
    the sender's engine is in (registered or not, with labels or without, echoing or recording for itself), saying the
    text to that target queues one line. The line a server makes of it, where that is well formed and within the
    length a reader takes (the server's own tags count), cut up anyhow on its way, becomes one message in the log of
    any receiver for whom the target names a channel it is in, who holds no message of the server's id for it and whose sequence counter has
    not run out: from the sender the server names, with exactly the text that was said. It is reported once, and
    counted as unread, and as a mention if it names the receiver, unless it is the receiver's own. *)
Theorem message_arrives target body s :
  word target → unbroken body → Format.parse_ctcp body = None →
  let m := as_sent s (text_line target body) in
  spoken s (Core.command (Command.SendMessage target body) s) m
    ∧ ∀ from r c chunks i, travels (relay from m) → concat chunks = wire (relay from m) →
      let isupport := Core.isupport r in
      let name := trim_start_matches (Isupport.is_statusmsg isupport) target in
      let me := LocalUser.nick (Model.me (Core.model r)) in
      let own := Casemapping.eq (Isupport.casemapping isupport) me (Source.name from) in
      Isupport.is_channel isupport name = true → Model.channel (Core.model r) (Isupport.fold isupport name) = Some c →
      0 <= Model.next_seq (Core.model r) < u64_max →
      Message.tag (relay from m) "msgid" = Some i → Log.contains (Channel.log c) i = false →
      ∃ r' message, foldl (λ c data, Client.handle_bytes data c) (Client.mk r [] false) chunks = Client.mk r' [] false
        ∧ Chat.sender message = Source.name from ∧ Chat.text_ message = body ∧ Chat.kind message = MessageKind.Privmsg
        ∧ Chat.msgid message = Some i ∧ Chat.own message = own ∧ Chat.historical message = false
        ∧ Core.events r' = Core.events r ++ [Event.ModelChanged (Change.MessageAdded name (Chat.key message))]
        ∧ Model.channels (Core.model r') = <[Isupport.fold isupport name := Channel.set_counts
            (if own then Channel.unread c else saturating_add_u32 (Channel.unread c) 1)
            (if negb own && Mention.mentions (Isupport.casemapping isupport) body me
             then saturating_add_u32 (Channel.mentions c) 1 else Channel.mentions c)
            (Channel.set_log (Log.insert message (Channel.log c)).2 c)]> (Model.channels (Core.model r)).
Proof.
  intros Ht Hb Hctcp m. destruct (as_sent_same s (text_line target body)) as (Hcmd & Hps & _). fold m in Hcmd, Hps.
  split; [by apply said_spoken|]. intros from r c chunks i Htr Hch isupport name me own Hchan Hc Hseq Hid Hnew.
  set (m' := relay from m) in *.
  assert (Message.command m' = lit "PRIVMSG" ∧ Message.params m' = [target; body] ∧ Message.source m' = Some from) as (Hc' & Hp' & Hs').
  { subst m'. by rewrite relay_command, relay_params, relay_source, Hcmd, Hps. }
  destruct (handle_plain m' r target body Hc' Hp') as (r0 & Hr0 & Hmod & His & Hlat & Hev); [apply relay_no_batch|].
  set (ctx := Ctx.mk (Core.model r0) (Core.latest_ms r0)).
  pose proof (channel_message_files (Core.isupport r0) false m' ctx target c) as Hf. cbv zeta in Hf.
  rewrite Hc', His in Hf. specialize (Hf ltac:(by left)). unfold Message.param in Hf. rewrite Hp' in Hf. specialize (Hf eq_refl Hchan).
  subst ctx. cbn [Ctx.model] in Hf. rewrite Hmod in Hf. specialize (Hf Hc Hseq).
  set (ctx := Ctx.mk _ _) in Hf. set (message := message_of _ _ _ _) in Hf.
  destruct (Session.apply (Core.isupport r) false m' ctx) as [changes ctx'] eqn:Ea.
  assert (Session.sender m' = Source.name from) as Hfrom by (unfold Session.sender; by rewrite Hs').
  assert (Session.is_me (Core.isupport r) ctx (Session.sender m') = own) as Hown by (rewrite Hfrom; done).
  assert (Chat.sender message = Source.name from ∧ Chat.text_ message = body ∧ Chat.kind message = MessageKind.Privmsg
    ∧ Chat.msgid message = Some i ∧ Chat.own message = own ∧ Chat.historical message = false) as (Hby & Htx & Hk & Hi & Ho & Hh).
  { subst message. unfold message_of, Session.build. rewrite Hown, Hfrom, Hc'. unfold Session.kind_and_text, Message.param.
    rewrite Hp'. cbn [lookup list_lookup default]. rewrite !decide_False by discriminate. unfold option.default, from_option, id.
    rewrite Hctcp. by split_and!. }
  destruct (Log.insert message (Channel.log c)) as [accepted log] eqn:El.
  assert (accepted = true) as ->.
  { unfold Log.insert in El. rewrite Hi in El. unfold Log.contains in Hnew. rewrite Hnew in El. by injection El. }
  destruct Hf as (Echs & Hchs & _). rewrite Hown, Htx in Hchs.
  destruct (fold_plain m' false r0 target body changes ctx' Hc' Hp') as (_ & Hmod' & Hev').
  { rewrite His, Hmod. exact Ea. }
  rewrite Echs in Hev'.
  exists (Core.fold m' false r0), message. split_and!; try done.
  - rewrite <- Hr0. by apply relayed_handled.
  - rewrite Hev', Hev by done. done.
  - rewrite Hmod', Hchs, El. destruct own; [done|]. cbn [negb andb]. done.
Qed.
End delivery.

(** ** Instances *)

(** A server that gives every line it passes on the same id. *)
Definition plain_server : Server := λ from m,
  Message.mk (Tag.new "msgid" "m1" :: filter (λ tag, Tag.is_client_only tag = true) (Message.tags m)) (Some from)
    (Message.command m) (Message.params m).

Lemma get_client_only (tags : list Tag.t) key : starts_with_char chPLUS key = true →
  Tags.get (filter (λ tag, Tag.is_client_only tag = true) tags) key = Tags.get tags key.
Proof.
  intros Hk. induction tags as [|tag tags IH] using rev_ind; [done|].
  rewrite filter_app, filter_cons, filter_nil, get_snoc. case_decide as Hp; [by rewrite get_snoc, IH|].
  rewrite app_nil_r, IH, decide_False; [done|]. intros E. apply Hp. unfold Tag.is_client_only. by rewrite E.
Qed.

#[local] Instance plain_laws : ServerLaws plain_server.
Proof.
  split; [done..| |].
  - intros from m key Hk. unfold relay, plain_server, Message.tag. cbn [Message.tags].
    rewrite get_cons_ne; [by apply get_client_only|]. by intros <-.
  - intros from m. unfold relay, plain_server, Message.tag. cbn [Message.tags]. apply get_not_in. rewrite fmap_cons.
    apply not_elem_of_cons. split; [done|]. intros (tag & E & [Hp _]%list_elem_of_filter)%list_elem_of_fmap.
    unfold Tag.is_client_only in Hp. by rewrite <- E in Hp.
Qed.

Definition entered (nick : text) : Core.t :=
  after [lit ":irc 001 " ++ nick ++ lit " :hi"; lit ":irc 005 " ++ nick ++ lit " CHANTYPES=#^ :are supported";
         lit ":" ++ nick ++ lit " JOIN ^c"].
Definition al : Source.t := Source.mk "al" (Some (lit "u")) (Some (lit "h")).

Lemma wf_from from tags command ps :
  wf_source from → wf_message (Message.mk tags None command ps) → wf_message (Message.mk tags (Some from) command ps).
Proof. intros Hs [H1 H2 H3 H4 H5 H6]. split; try done. by intros ? [= <-]. Qed.

Lemma al_stands : wf_source al.
Proof. split_and!; apply (bool_decide_unpack _); by vm_compute. Qed.
Lemma id_stands : wf_tag (Tag.new "msgid" "m1") ∧ chSPACE ∉ lit "msgid".
Proof. by apply tag_stands. Qed.
Lemma channel_word : word "^c".
Proof. split; split_and!; try done; apply (bool_decide_unpack _); by vm_compute. Qed.

Definition hello : Message.t := plain_server al (text_line "^c" "ed: hello there").
Lemma hello_travels : travels hello.
Proof.
  split; [|by apply (bool_decide_unpack _); vm_compute..|apply Nat.ltb_lt; by vm_compute].
  apply wf_from; [apply al_stands|]. apply line_stands; [apply Forall_singleton, id_stands|done|].
  split; [apply word_middle, channel_word|]. intros c. vm_compute. by intros [= <-].
Qed.

Definition muted : Signal.t := Signal.Mic OnOff.Off.
Definition muted_line : Message.t := plain_server al (voice_line "^c" muted).
Lemma muted_travels : travels muted_line.
Proof.
  split; [|by apply (bool_decide_unpack _); vm_compute..|apply Nat.ltb_lt; by vm_compute].
  apply wf_from; [apply al_stands|]. apply line_stands; [|done|apply word_ends, channel_word].
  apply Forall_cons. split; [apply id_stands|]. apply Forall_singleton, tag_stands; [apply to_json_not_nil|done].
Qed.

(** Both ends as engines that have entered the channel: what the one says reaches the other in two pieces. *)
Definition two_pieces (bytes : list octet) : list (list octet) := [take 9 bytes; drop 9 bytes].
Definition receive (m : Message.t) : Client.t :=
  foldl (λ c data, @Client.handle_bytes ascii_table standard toy_crypto data c) (Client.mk (entered "ed") [] false) (two_pieces (wire m)).
Lemma pieces bytes : concat (two_pieces bytes) = bytes.
Proof. unfold two_pieces. cbn [concat]. by rewrite app_nil_r, take_drop. Qed.

Lemma voice_frame_arrives_witness :
  Core.events (Client.core (receive muted_line)) = Core.events (entered "ed") ++ [Event.Voice "^c" muted].
Proof.
  destruct (@voice_frame_arrives ascii_table standard toy_crypto plain_server plain_laws "^c" muted (entered "al")) as [_ Harr];
    [done|apply channel_word|].
  destruct (Harr al (entered "ed") (two_pieces (wire muted_line)) muted_travels (pieces _)) as (r' & E & _ & Hev & _).
  unfold receive. rewrite E. exact Hev.
Defined.

Lemma message_arrives_witness :
  (∃ c, Model.channel (Core.model (Client.core (receive hello))) "^c" = Some c ∧ Channel.unread c = 1 ∧ Channel.mentions c = 1)
  ∧ length (Core.events (Client.core (receive hello))) = S (length (Core.events (entered "ed"))).
Proof.
  destruct (Model.channel (Core.model (entered "ed")) "^c") as [c|] eqn:Ec; [|by vm_compute in Ec].
  destruct (@message_arrives ascii_table standard toy_crypto plain_server plain_laws "^c" "ed: hello there" (entered "al")) as [_ Harr];
    [apply channel_word|split; apply (bool_decide_unpack _); by vm_compute|by vm_compute|].
  destruct (Harr al (entered "ed") c (two_pieces (wire hello)) "m1" hello_travels (pieces _)) as (r' & msg & E & _ & _ & _ & _ & _ & _ & Hev & Hch);
    [by vm_compute|exact Ec|by vm_compute|by vm_compute| |].
  { clear - Ec. vm_compute in Ec. injection Ec as <-. by vm_compute. }
  unfold receive. rewrite E. cbn [Client.core]. split; [|rewrite Hev, length_app; cbn [length]; lia].
  eexists. split; [unfold Model.channel; rewrite Hch; apply lookup_insert_eq|].
  clear - Ec. vm_compute in Ec. injection Ec as <-. split; by vm_compute.
Defined.
