(* ===== verification/Ffi.v ===== *)
(** * The C interface (src/bindings/obby-ffi/src/lib.rs)

    What a C host holds are addresses. [heap] is what the library has handed out and not had
    back: engines, events, byte buffers and strings, each at an address of its own; [None] as
    the result of a call is behaviour the contract of the function rules out (a pointer that is
    neither null nor live, a buffer freed with the wrong length). A string argument is [None]
    for null or the bytes it points to, read up to the first NUL; an out-parameter is the
    caller's cell, [None] for null. The JSON of serde and the allocator are interfaces.

    The theorems: calls keep to the contract exactly when the host's own ledger says they do,
    and then nothing is undefined and nothing leaks; a call on one handle is the method of that
    name on its engine and touches no other; every command and every event crosses unchanged. *)
From S2P Require Import Prelude Utf8 Message Base64 Sasl Scram Timer Model Session Voice Command Client Engine.

(** ** Pointers and strings *)

Abbreviation addr := positive (only parsing).
Abbreviation ptr := (option positive) (only parsing).
(** A [*const c_char] argument: null, or the bytes it points to. *)
Abbreviation cstr := (option (list octet)) (only parsing).
Definition NUL : octet := 0%N.

(** [CStr::from_ptr] reads up to the first NUL. *)
Definition before_nul (bytes : list octet) : list octet :=
  match split_once NUL bytes with Some (s, _) => s | None => bytes end.
(** [CString::new] refuses bytes that hold a NUL. *)
Definition c_string (s : text) : option (list octet) :=
  let bytes := encode s in if decide (NUL ∈ bytes) then None else Some bytes.

(* obby-ffi/src/lib.rs 93-98 str_from_ptr *)
Definition str_from_ptr (p : cstr) : option text := bytes ← p; from_utf8 (before_nul bytes).

(* obby-ffi/src/lib.rs 674-684 strings_from_ptr_array *)
Definition strings_from_ptr_array (p : option (list cstr)) : list text :=
  match p with None => [] | Some elements => omap str_from_ptr elements end.

(** ** Events as C sees them *)

Module ObbyEventKind.
(* obby-ffi/src/lib.rs 405-446 ObbyEventKind *)
Inductive t :=
  | Unknown | CapabilitiesAcknowledged | Registered | IsupportToken | LoggedIn | SaslFailed | NickInUse
  | ModelChanged | LinkDead | ReconnectAfter | ReconnectAbandoned | CommandTimedOut | AllowedCommandsChanged
  | Voice | TypingChanged | PresenceChanged | ServerReply | RawLine | BotsChanged | AuthToken.
#[global] Instance t_eq_dec : EqDecision t.
Proof. solve_decision. Defined.
End ObbyEventKind.

Module ObbyEventField.
(* obby-ffi/src/lib.rs 454-495 ObbyEventField *)
Inductive t :=
  | Nick | Account | Token | Value | Refused | Trying | Reason | Command | Target | Channel | Code | Text
  | Severity | Names | AfterMs | Active | Online | Service | Endpoint | BearerToken.
#[global] Instance t_eq_dec : EqDecision t.
Proof. solve_decision. Defined.
End ObbyEventField.

(** What serde_json makes of the engine's types, and reads them from. *)
Class Serde := {
  config_from_str : text → option Config.t;
  command_from_str : text → option Command.t;
  signal_from_str : text → option Signal.t;
  event_to_string : Event.t → option text;
  events_to_string : list Event.t → option text;
  model_to_string : Model.t → option text;
}.
(** Documented: writing these types does not fail, and a control character is written as an escape. *)
Class SerdeLaws `{Serde} : Prop := {
  events_written es : ∃ t, events_to_string es = Some t ∧ NUL ∉ encode t;
  model_written m : ∃ t, model_to_string m = Some t ∧ NUL ∉ encode t;
}.

Module ObbyEvent.
Import ObbyEventField.
(* obby-ffi/src/lib.rs 501-506 ObbyEvent *)
Record t := mk {
  kind : ObbyEventKind.t; texts : list (ObbyEventField.t * list octet);
  numbers : list (ObbyEventField.t * Z); json : list octet;
}.
(* obby-ffi/src/lib.rs 509-513 ObbyEvent::text *)
Definition text (field : ObbyEventField.t) (value : text) (e : t) : t :=
  match c_string value with
  | Some value => mk (kind e) (texts e ++ [(field, value)]) (numbers e) (json e)
  | None => e
  end.
(* obby-ffi/src/lib.rs 515-517 ObbyEvent::number *)
Definition number (field : ObbyEventField.t) (value : Z) (e : t) : t :=
  mk (kind e) (texts e) (numbers e ++ [(field, value)]) (json e).
Definition of_kind (k : ObbyEventKind.t) (e : t) : t := mk k (texts e) (numbers e) (json e).

(** What the derived [Debug] prints. *)
Definition severity_name (s : Client.Severity.t) : Prelude.text :=
  match s with Client.Severity.Fail_ => "Fail" | Client.Severity.Warn => "Warn" | Client.Severity.Note => "Note" end.
Definition failure_name (f : Sasl.SaslFailure) : Prelude.text :=
  match f with
  | Sasl.Rejected => "Rejected" | Sasl.TooLong => "TooLong" | Sasl.Aborted => "Aborted" | Sasl.AlreadyAuthenticated => "AlreadyAuthenticated"
  | Sasl.NoSharedMechanism => "NoSharedMechanism" | Sasl.ServerNotVerified => "ServerNotVerified"
  end.

(* obby-ffi/src/lib.rs 521-536 server_reply_out *)
Definition server_reply_out (severity : Client.Severity.t) (command code body : Prelude.text) (out : t) : t :=
  out |> of_kind ObbyEventKind.ServerReply
      |> text Severity (to_ascii_lowercase <$> severity_name severity) |> text Command command |> text Code code |> text Text body.

Section json.
Context `{Serde}.

(* obby-ffi/src/lib.rs 539-636 event_out *)
Definition event_out (event : Event.t) : t :=
  let json := default [] (event_to_string event) in
  let out := mk ObbyEventKind.Unknown [] [] (default [] (c_string json)) in
  match event with
  | Event.CapabilitiesAcknowledged names =>
      out |> of_kind ObbyEventKind.CapabilitiesAcknowledged |> text Names (join_with chSPACE names)
  | Event.Registered nick => out |> of_kind ObbyEventKind.Registered |> text Nick nick
  | Event.IsupportToken token value =>
      let out := out |> of_kind ObbyEventKind.IsupportToken |> text Token token in
      match value with Some value => text Value value out | None => out end
  | Event.LoggedIn account => out |> of_kind ObbyEventKind.LoggedIn |> text Account account
  | Event.SaslFailed reason => out |> of_kind ObbyEventKind.SaslFailed |> text Reason (failure_name reason)
  | Event.NickInUse refused trying =>
      out |> of_kind ObbyEventKind.NickInUse |> text Refused refused |> text Trying trying
  | Event.ModelChanged _ => out |> of_kind ObbyEventKind.ModelChanged
  | Event.LinkDead => out |> of_kind ObbyEventKind.LinkDead
  | Event.ReconnectAfter after_ms => out |> of_kind ObbyEventKind.ReconnectAfter |> number AfterMs after_ms
  | Event.ReconnectAbandoned => out |> of_kind ObbyEventKind.ReconnectAbandoned
  | Event.CommandTimedOut command => out |> of_kind ObbyEventKind.CommandTimedOut |> text Command command
  | Event.AllowedCommandsChanged => out |> of_kind ObbyEventKind.AllowedCommandsChanged
  | Event.Voice channel _ => out |> of_kind ObbyEventKind.Voice |> text Channel channel
  | Event.TypingChanged target nick active =>
      out |> of_kind ObbyEventKind.TypingChanged |> text Target target |> text Nick nick |> number Active (Z.b2z active)
  | Event.PresenceChanged nick online =>
      out |> of_kind ObbyEventKind.PresenceChanged |> text Nick nick |> number Online (Z.b2z online)
  | Event.ServerReply severity command code _ body => server_reply_out severity command code body out
  | Event.BotsChanged nick => out |> of_kind ObbyEventKind.BotsChanged |> text Nick nick
  | Event.AuthToken service endpoint token =>
      out |> of_kind ObbyEventKind.AuthToken |> text Service service |> text Endpoint endpoint |> text BearerToken token
  | Event.RawLine _ => out |> of_kind ObbyEventKind.RawLine
  end.
End json.

(** The lookups of [obby_event_text] and [obby_event_number]. *)
Definition find_text (field : ObbyEventField.t) (e : t) : option (list octet) := list_find (λ p, p.1 = field) (texts e) ≫= λ p, Some p.2.2.
Definition find_number (field : ObbyEventField.t) (e : t) : option Z := list_find (λ p, p.1 = field) (numbers e) ≫= λ p, Some p.2.2.
End ObbyEvent.

(** ** What the library has handed out *)

Inductive object :=
  | AClient (c : Client.t) | AnEvent (e : ObbyEvent.t) | SomeBytes (data : list octet) | AString (s : list octet).
Abbreviation heap := (gmap positive object) (only parsing).

(** The allocator answers an address nothing lives at. *)
Class Allocator := { allocate : gset positive → positive }.
Class AllocatorLaws `{Allocator} : Prop := { allocate_fresh X : allocate X ∉ X }.

(** A call: what it returns and the heap it leaves, or nothing defined. *)
Definition C (A : Type) : Type := gmap positive object → option (A * gmap positive object).
#[global] Instance c_ret : MRet C := λ A x h, Some (x, h).
#[global] Instance c_bind : MBind C := λ A B f m h, m h ≫= λ r, f r.1 r.2.

Definition deref (a : addr) : C object := λ h, o ← h !! a; Some (o, h).
Definition put (a : addr) (o : object) : C unit := λ h, Some ((), <[a := o]> h).
(** [Box::from_raw] and the drop of what it owned. *)
Definition release (a : addr) : C unit := λ h, Some ((), delete a h).
Definition undefined {A} : C A := λ _, None.

Section library.
Context `{Unicode, Base64, Crypto, Serde, Allocator}.

(** [Box::into_raw]. *)
Definition box (o : object) : C ptr := λ h, let a := allocate (dom h) in Some (Some a, <[a := o]> h).

(* obby-ffi/src/lib.rs 81-86 as_client *)
Definition as_client (client : ptr) : C (option (addr * Client.t)) :=
  match client with
  | None => mret None
  | Some a => o ← deref a; match o with AClient c => mret (Some (a, c)) | _ => undefined end
  end.
(** A method of the engine behind a handle, or [absent] for null. *)
Definition with_client {A} (client : ptr) (absent : A) (f : Client.t → A * Client.t) : C A :=
  c ← as_client client;
  match c with
  | None => mret absent
  | Some (a, c) => let '(x, c) := f c in _ ← put a (AClient c); mret x
  end.
Definition drive (client : ptr) (f : Client.t → Client.t) : C unit := with_client client () (λ c, ((), f c)).
Definition as_event (event : ptr) : C (option ObbyEvent.t) :=
  match event with
  | None => mret None
  | Some a => o ← deref a; match o with AnEvent e => mret (Some e) | _ => undefined end
  end.

(** *** Buffers and strings *)

(* obby-ffi/src/lib.rs 53-58 ObbyBytes *)
Record ObbyBytes := mkBytes { b_ptr : ptr; b_len : nat }.
(* obby-ffi/src/lib.rs 61-66 ObbyBytes::empty *)
Definition empty_bytes : ObbyBytes := mkBytes None 0.
(* obby-ffi/src/lib.rs 104-112 bytes_out *)
Definition bytes_out (data : list octet) : C ObbyBytes :=
  match data with
  | [] => mret empty_bytes
  | _ => p ← box (SomeBytes data); mret (mkBytes p (length data))
  end.
(* obby-ffi/src/lib.rs 118-120 string_out *)
Definition string_out (s : text) : C ptr :=
  match c_string s with Some s => box (AString s) | None => mret None end.
(* obby-ffi/src/lib.rs 232-237 obby_client_free_bytes *)
Definition obby_client_free_bytes (bytes : ObbyBytes) : C unit :=
  match b_ptr bytes with
  | None => mret ()
  | Some a =>
      o ← deref a;
      match o with
      | SomeBytes data => if decide (length data = b_len bytes) then release a else undefined
      | _ => undefined
      end
  end.
(* obby-ffi/src/lib.rs 268-273 obby_client_free_string *)
Definition obby_client_free_string (s : ptr) : C unit :=
  match s with
  | None => mret ()
  | Some a => o ← deref a; match o with AString _ => release a | _ => undefined end
  end.

(** *** One engine *)

(* obby-ffi/src/lib.rs 131-139 obby_client_new_from_json *)
Definition obby_client_new_from_json (config_json : cstr) : C ptr :=
  match str_from_ptr config_json with
  | None => mret None
  | Some json =>
      match config_from_str json with
      | None => mret None
      | Some config => box (AClient (Client.new config))
      end
  end.

(* obby-ffi/src/lib.rs 386-397 ObbyConfig *)
Record ObbyConfig := mkObbyConfig { nick : cstr; username : cstr; realname : cstr; password : cstr; retention : nat }.

(** The settings a [ObbyConfig] stands for, once its nick could be read. *)
(* obby-ffi/src/lib.rs 654-664 obby_client_new *)
Definition settings (nick : text) (config : ObbyConfig) : Config.t :=
  let base := Config.new nick in
  Config.mk nick
    (match str_from_ptr (username config) with Some username => username | None => Config.username base end)
    (match str_from_ptr (realname config) with Some realname => realname | None => Config.realname base end)
    (str_from_ptr (password config))
    (Config.sasl base)
    (if decide (0 < retention config)%nat then retention config else Config.retention base)
    (Config.alt_nicks base).
(* obby-ffi/src/lib.rs 646-667 obby_client_new *)
Definition obby_client_new (config : option ObbyConfig) : C ptr :=
  match config with
  | None => mret None
  | Some config =>
      match str_from_ptr (nick config) with
      | None => mret None
      | Some nick => box (AClient (Client.new (settings nick config)))
      end
  end.
(* obby-ffi/src/lib.rs 149-154 obby_client_free *)
Definition obby_client_free (client : ptr) : C unit :=
  match client with
  | None => mret ()
  | Some a => o ← deref a; match o with AClient _ => release a | _ => undefined end
  end.

(* obby-ffi/src/lib.rs 163-167 obby_client_handle_connected *)
Definition obby_client_handle_connected (client : ptr) : C unit := drive client Client.handle_connected.
(* obby-ffi/src/lib.rs 176-180 obby_client_handle_disconnected *)
Definition obby_client_handle_disconnected (client : ptr) : C unit := drive client Client.handle_disconnected.
(** Reading past what [data] points to is undefined. *)
(* obby-ffi/src/lib.rs 193-209 obby_client_handle_bytes *)
Definition obby_client_handle_bytes (client : ptr) (data : option (list octet)) (len : nat) : C unit :=
  c ← as_client client;
  match c with
  | None => mret ()
  | Some (a, c) =>
      if decide (len = 0)%nat then put a (AClient (Client.handle_bytes [] c))
      else
        match data with
        | None => mret ()
        | Some data =>
            if decide (length data < len)%nat then undefined
            else put a (AClient (Client.handle_bytes (take len data) c))
        end
  end.
(* obby-ffi/src/lib.rs 218-222 obby_client_poll_transmit *)
Definition obby_client_poll_transmit (client : ptr) : C ObbyBytes :=
  data ← with_client client None Client.poll_transmit;
  match data with None => mret empty_bytes | Some data => bytes_out data end.

(** The loop over [poll_event]: there are as many rounds as events wait. *)
Fixpoint drain_loop (fuel : nat) (seen : list Event.t) (c : Client.t) : list Event.t * Client.t :=
  match fuel with
  | O => (seen, c)
  | S fuel =>
      match Client.poll_event c with
      | (Some event, c) => drain_loop fuel (seen ++ [event]) c
      | (None, c) => (seen, c)
      end
  end.
Definition drain_events (c : Client.t) : list Event.t * Client.t :=
  drain_loop (S (length (Core.events (Client.core c)))) [] c.
(* obby-ffi/src/lib.rs 248-257 obby_client_poll_events_json *)
Definition obby_client_poll_events_json (client : ptr) : C ptr :=
  events ← with_client client None (λ c, let '(events, c) := drain_events c in (Some events, c));
  match events with
  | None => mret None
  | Some events => match events_to_string events with None => mret None | Some json => string_out json end
  end.
(* obby-ffi/src/lib.rs 282-293 obby_client_tick *)
Definition obby_client_tick (client : ptr) (monotonic_ms unix_ms : Z) : C unit :=
  drive client (Client.tick (mkNow monotonic_ms unix_ms)).
(** What is returned, and what the cell at [out_ms] holds afterwards. *)
(* obby-ffi/src/lib.rs 307-316 obby_client_poll_timeout *)
Definition obby_client_poll_timeout (client : ptr) (out_ms : option Z) : C (bool * option Z) :=
  timeout ← with_client client None (λ c, (Core.poll_timeout (Client.core c), c));
  mret (bool_decide (is_Some timeout), (λ _, default 0%Z timeout) <$> out_ms).
(* obby-ffi/src/lib.rs 332-347 obby_client_command_from_json *)
Definition obby_client_command_from_json (client : ptr) (command_json : cstr) : C bool :=
  with_client client false (λ c,
    match str_from_ptr command_json ≫= command_from_str with
    | None => (false, c)
    | Some command => (true, Client.command command c)
    end).
(* obby-ffi/src/lib.rs 358-363 obby_client_model_json *)
Definition obby_client_model_json (client : ptr) : C ptr :=
  model ← with_client client None (λ c, (Some (Core.model (Client.core c)), c));
  match model with
  | None => mret None
  | Some model => match model_to_string model with None => mret None | Some json => string_out json end
  end.

(** *** Commands *)

(* obby-ffi/src/lib.rs 689-698 submit *)
Definition submit (client : ptr) (command : option Command.t) : C bool :=
  with_client client false (λ c,
    match command with
    | None => (false, c)
    | Some command => (true, Client.command command c)
    end).

(** The spellings [obby_client_set_typing] knows. *)
(* obby-ffi/src/lib.rs 886-891 obby_client_set_typing *)
Definition typing_state (state : text) : option TypingState.t :=
  if decide (state = lit "active") then Some TypingState.Active
  else if decide (state = lit "paused") then Some TypingState.Paused
  else if decide (state = lit "done") then Some TypingState.Done
  else None.

(* obby-ffi/src/lib.rs 708-721 obby_client_join *)
Definition obby_client_join (client : ptr) (channel key : cstr) : C bool :=
  submit client (channel ← str_from_ptr channel; Some (Command.Join channel (str_from_ptr key))).
(* obby-ffi/src/lib.rs 728-741 obby_client_part *)
Definition obby_client_part (client : ptr) (channel reason : cstr) : C bool :=
  submit client (channel ← str_from_ptr channel; Some (Command.Part channel (str_from_ptr reason))).
(* obby-ffi/src/lib.rs 748-761 obby_client_send_message *)
Definition obby_client_send_message (client : ptr) (target body : cstr) : C bool :=
  submit client (target ← str_from_ptr target; body ← str_from_ptr body; Some (Command.SendMessage target body)).
(* obby-ffi/src/lib.rs 768-781 obby_client_send_notice *)
Definition obby_client_send_notice (client : ptr) (target body : cstr) : C bool :=
  submit client (target ← str_from_ptr target; body ← str_from_ptr body; Some (Command.SendNotice target body)).
(* obby-ffi/src/lib.rs 788-801 obby_client_send_action *)
Definition obby_client_send_action (client : ptr) (target body : cstr) : C bool :=
  submit client (target ← str_from_ptr target; body ← str_from_ptr body; Some (Command.SendAction target body)).
(* obby-ffi/src/lib.rs 808-819 obby_client_set_nick *)
Definition obby_client_set_nick (client : ptr) (nick : cstr) : C bool :=
  submit client (nick ← str_from_ptr nick; Some (Command.SetNick nick)).
(* obby-ffi/src/lib.rs 826-839 obby_client_set_topic *)
Definition obby_client_set_topic (client : ptr) (channel topic : cstr) : C bool :=
  submit client (channel ← str_from_ptr channel; Some (Command.SetTopic channel (str_from_ptr topic))).
(* obby-ffi/src/lib.rs 846-857 obby_client_set_away *)
Definition obby_client_set_away (client : ptr) (message : cstr) : C bool :=
  submit client (Some (Command.SetAway (str_from_ptr message))).
(* obby-ffi/src/lib.rs 864-872 obby_client_quit *)
Definition obby_client_quit (client : ptr) (reason : cstr) : C bool :=
  submit client (Some (Command.Quit (str_from_ptr reason))).
(* obby-ffi/src/lib.rs 879-898 obby_client_set_typing *)
Definition obby_client_set_typing (client : ptr) (target state : cstr) : C bool :=
  submit client
    (state ← str_from_ptr state;
     state ← typing_state state;
     target ← str_from_ptr target;
     Some (Command.SetTyping target state)).
(* obby-ffi/src/lib.rs 905-920 obby_client_add_reaction *)
Definition obby_client_add_reaction (client : ptr) (target msgid emoji : cstr) : C bool :=
  submit client (target ← str_from_ptr target; msgid ← str_from_ptr msgid; emoji ← str_from_ptr emoji; Some (Command.AddReaction target msgid emoji)).
(* obby-ffi/src/lib.rs 927-942 obby_client_remove_reaction *)
Definition obby_client_remove_reaction (client : ptr) (target msgid emoji : cstr) : C bool :=
  submit client (target ← str_from_ptr target; msgid ← str_from_ptr msgid; emoji ← str_from_ptr emoji; Some (Command.RemoveReaction target msgid emoji)).
(* obby-ffi/src/lib.rs 949-964 obby_client_redact_message *)
Definition obby_client_redact_message (client : ptr) (target msgid reason : cstr) : C bool :=
  submit client (target ← str_from_ptr target; msgid ← str_from_ptr msgid; Some (Command.RedactMessage target msgid (str_from_ptr reason))).
(* obby-ffi/src/lib.rs 971-984 obby_client_mark_read *)
Definition obby_client_mark_read (client : ptr) (target : cstr) (at_ms : Z) : C bool :=
  submit client (target ← str_from_ptr target; Some (Command.MarkRead target at_ms)).
(* obby-ffi/src/lib.rs 991-1006 obby_client_fetch_history *)
Definition obby_client_fetch_history (client : ptr) (target before_msgid : cstr) (limit : Z) : C bool :=
  submit client (target ← str_from_ptr target; Some (Command.FetchHistory target (str_from_ptr before_msgid) limit)).
(* obby-ffi/src/lib.rs 1013-1026 obby_client_set_metadata *)
Definition obby_client_set_metadata (client : ptr) (key value : cstr) : C bool :=
  submit client (key ← str_from_ptr key; Some (Command.SetMetadata key (str_from_ptr value))).
(* obby-ffi/src/lib.rs 1035-1047 obby_client_subscribe_metadata *)
Definition obby_client_subscribe_metadata (client : ptr) (keys : option (list cstr)) : C bool :=
  submit client (Some (Command.SubscribeMetadata (strings_from_ptr_array keys))).
(* obby-ffi/src/lib.rs 1054-1062 obby_client_whois *)
Definition obby_client_whois (client : ptr) (nick : cstr) : C bool :=
  submit client (nick ← str_from_ptr nick; Some (Command.Whois nick)).
(* obby-ffi/src/lib.rs 1069-1084 obby_client_rename_channel *)
Definition obby_client_rename_channel (client : ptr) (channel new_name reason : cstr) : C bool :=
  submit client (channel ← str_from_ptr channel; new_name ← str_from_ptr new_name; Some (Command.RenameChannel channel new_name (str_from_ptr reason))).
(* obby-ffi/src/lib.rs 1091-1104 obby_client_create_invite_link *)
Definition obby_client_create_invite_link (client : ptr) (channel description : cstr) : C bool :=
  submit client (Some (Command.CreateInviteLink (str_from_ptr channel) (str_from_ptr description))).
(* obby-ffi/src/lib.rs 1111-1113 obby_client_list_invite_links *)
Definition obby_client_list_invite_links (client : ptr) : C bool :=
  submit client (Some (Command.ListInviteLinks)).
(* obby-ffi/src/lib.rs 1120-1131 obby_client_delete_invite_link *)
Definition obby_client_delete_invite_link (client : ptr) (share_id : cstr) : C bool :=
  submit client (share_id ← str_from_ptr share_id; Some (Command.DeleteInviteLink share_id)).
(* obby-ffi/src/lib.rs 1138-1149 obby_client_redeem_invite_code *)
Definition obby_client_redeem_invite_code (client : ptr) (code : cstr) : C bool :=
  submit client (code ← str_from_ptr code; Some (Command.RedeemInviteCode code)).
(* obby-ffi/src/lib.rs 1156-1167 obby_client_generate_token *)
Definition obby_client_generate_token (client : ptr) (service : cstr) : C bool :=
  submit client (service ← str_from_ptr service; Some (Command.GenerateToken service)).
(* obby-ffi/src/lib.rs 1174-1186 obby_client_watch_nicks *)
Definition obby_client_watch_nicks (client : ptr) (nicks : option (list cstr)) : C bool :=
  submit client (Some (Command.WatchNicks (strings_from_ptr_array nicks))).
(* obby-ffi/src/lib.rs 1193-1205 obby_client_unwatch_nicks *)
Definition obby_client_unwatch_nicks (client : ptr) (nicks : option (list cstr)) : C bool :=
  submit client (Some (Command.UnwatchNicks (strings_from_ptr_array nicks))).
(* obby-ffi/src/lib.rs 1217-1230 obby_client_send_voice_signal *)
Definition obby_client_send_voice_signal (client : ptr) (channel signal_json : cstr) : C bool :=
  submit client
    (channel ← str_from_ptr channel;
     signal ← str_from_ptr signal_json ≫= signal_from_str;
     Some (Command.SendVoiceSignal channel signal)).
(* obby-ffi/src/lib.rs 1237-1248 obby_client_send_raw_line *)
Definition obby_client_send_raw_line (client : ptr) (line : cstr) : C bool :=
  submit client (line ← str_from_ptr line; Some (Command.SendRawLine line)).

(** *** Events *)

(* obby-ffi/src/lib.rs 1259-1267 obby_client_poll_event *)
Definition obby_client_poll_event (client : ptr) : C ptr :=
  event ← with_client client None Client.poll_event;
  match event with None => mret None | Some event => box (AnEvent (ObbyEvent.event_out event)) end.
(* obby-ffi/src/lib.rs 1277-1279 obby_event_get_kind *)
Definition obby_event_get_kind (event : ptr) : C ObbyEventKind.t :=
  event ← as_event event; mret (from_option ObbyEvent.kind ObbyEventKind.Unknown event).
(* obby-ffi/src/lib.rs 1288-1300 obby_event_text *)
Definition obby_event_text (event : ptr) (field : ObbyEventField.t) : C cstr :=
  event ← as_event event; mret (event ≫= ObbyEvent.find_text field).
(** Whether the field is there, and what the cell at [out] holds afterwards. *)
(* obby-ffi/src/lib.rs 1310-1325 obby_event_number *)
Definition obby_event_number (event : ptr) (field : ObbyEventField.t) (out : option Z) : C (bool * option Z) :=
  event ← as_event event;
  match event ≫= ObbyEvent.find_number field with
  | None => mret (false, out)
  | Some value => mret (true, (λ _, value) <$> out)
  end.
(* obby-ffi/src/lib.rs 1334-1336 obby_event_json *)
Definition obby_event_json (event : ptr) : C cstr := event ← as_event event; mret (ObbyEvent.json <$> event).
(* obby-ffi/src/lib.rs 1344-1349 obby_event_free *)
Definition obby_event_free (event : ptr) : C unit :=
  match event with
  | None => mret ()
  | Some a => o ← deref a; match o with AnEvent _ => release a | _ => undefined end
  end.
End library.
