(* ===== verification/FfiHost.v ===== *)
(** * What a C host can rely on

    [call] lists the functions of [Ffi] and [exec] makes one. A host keeps its own [ledger] of
    what it was handed and gave back; [allowed] is the contract of each function over that ledger
    alone. The Rust engine is the specification: [meant] says which of its methods a call is,
    and so the engine's invariants hold behind every handle ([c_engines_stay_sound]). *)
From S2P Require Import Prelude Utf8 Message Base64 Sasl Scram Timer Model Session Voice Command Client Engine Ffi.

(** ** Calls *)

Inductive request :=
  | Join (channel key : cstr) | Part (channel reason : cstr)
  | SendMessage (target body : cstr) | SendNotice (target body : cstr) | SendAction (target body : cstr)
  | SetNick (nick : cstr) | SetTopic (channel topic : cstr) | SetAway (message : cstr) | Quit (reason : cstr)
  | SetTyping (target state : cstr)
  | AddReaction (target msgid emoji : cstr) | RemoveReaction (target msgid emoji : cstr)
  | RedactMessage (target msgid reason : cstr) | MarkRead (target : cstr) (at_ms : Z)
  | FetchHistory (target before_msgid : cstr) (limit : Z)
  | SetMetadata (key value : cstr) | SubscribeMetadata (keys : option (list cstr))
  | Whois (nick : cstr) | RenameChannel (channel new_name reason : cstr)
  | CreateInviteLink (channel description : cstr) | ListInviteLinks | DeleteInviteLink (share_id : cstr)
  | RedeemInviteCode (code : cstr) | GenerateToken (service : cstr)
  | WatchNicks (nicks : option (list cstr)) | UnwatchNicks (nicks : option (list cstr))
  | SendVoiceSignal (channel signal_json : cstr) | SendRawLine (line : cstr) | FromJson (command_json : cstr).

Inductive method :=
  | HandleConnected | HandleDisconnected | HandleBytes (data : option (list octet)) (len : nat)
  | PollTransmit | PollEventsJson | PollEvent | Tick (monotonic_ms unix_ms : Z) | PollTimeout (out_ms : option Z)
  | ModelJson | Asks (r : request).

Inductive call :=
  | New (config : option ObbyConfig) | NewFromJson (config_json : cstr)
  | On (client : ptr) (m : method)
  | FreeClient (client : ptr) | FreeBytes (bytes : ObbyBytes) | FreeString (s : ptr) | FreeEvent (event : ptr)
  | EventKind (event : ptr) | EventText (event : ptr) (field : ObbyEventField.t)
  | EventNumber (event : ptr) (field : ObbyEventField.t) (out : option Z) | EventJson (event : ptr).

Inductive result :=
  | Done | Flag (b : bool) | Pointer (p : ptr) | Bytes (b : ObbyBytes) | Out (found : bool) (cell : option Z)
  | Kind (k : ObbyEventKind.t) | Chars (s : cstr).

(** ** The host's ledger *)

Inductive kind := KClient | KEvent | KBytes (len : nat) | KString.
#[global] Instance kind_eq_dec : EqDecision kind.
Proof. solve_decision. Defined.
Abbreviation ledger := (gmap positive kind) (only parsing).

Definition kind_of (o : object) : kind :=
  match o with AClient _ => KClient | AnEvent _ => KEvent | SomeBytes data => KBytes (length data) | AString _ => KString end.

Definition live (l : ledger) (k : kind) (p : ptr) : Prop := from_option (λ a, l !! a = Some k) True p.
Definition readable (m : method) : Prop :=
  match m with HandleBytes (Some data) len => (len <= length data)%nat | _ => True end.
(** Every pointer is null or live and of its kind, a buffer comes back as it was given. *)
Definition allowed (l : ledger) (c : call) : Prop :=
  match c with
  | New _ | NewFromJson _ => True
  | On client m => live l KClient client ∧ readable m
  | FreeClient client => live l KClient client
  | FreeBytes bytes => live l (KBytes (b_len bytes)) (b_ptr bytes)
  | FreeString s => live l KString s
  | FreeEvent event | EventKind event | EventText event _ | EventNumber event _ _ | EventJson event => live l KEvent event
  end.

(** What a call hands out, and what it takes back. *)
Definition given (c : call) (r : result) : option (positive * kind) :=
  match c, r with
  | New _, Pointer p | NewFromJson _, Pointer p => a ← p; Some (a, KClient)
  | On _ PollEvent, Pointer p => a ← p; Some (a, KEvent)
  | On _ (PollEventsJson | ModelJson), Pointer p => a ← p; Some (a, KString)
  | On _ PollTransmit, Bytes b => a ← b_ptr b; Some (a, KBytes (b_len b))
  | _, _ => None
  end.
Definition taken (c : call) : ptr :=
  match c with FreeClient p | FreeString p | FreeEvent p => p | FreeBytes b => b_ptr b | _ => None end.
Definition ledger_after (l : ledger) (c : call) (r : result) : ledger :=
  let l := match taken c with Some a => delete a l | None => l end in
  match given c r with Some (a, k) => <[a := k]> l | None => l end.

Section host.
Context `{Unicode, Base64, Crypto, Serde, Allocator}.

(** ** Making a call *)

Definition exec_request (client : ptr) (r : request) : C bool :=
  match r with
  | Join channel key => obby_client_join client channel key
  | Part channel reason => obby_client_part client channel reason
  | SendMessage target body => obby_client_send_message client target body
  | SendNotice target body => obby_client_send_notice client target body
  | SendAction target body => obby_client_send_action client target body
  | SetNick nick => obby_client_set_nick client nick
  | SetTopic channel topic => obby_client_set_topic client channel topic
  | SetAway message => obby_client_set_away client message
  | Quit reason => obby_client_quit client reason
  | SetTyping target state => obby_client_set_typing client target state
  | AddReaction target msgid emoji => obby_client_add_reaction client target msgid emoji
  | RemoveReaction target msgid emoji => obby_client_remove_reaction client target msgid emoji
  | RedactMessage target msgid reason => obby_client_redact_message client target msgid reason
  | MarkRead target at_ms => obby_client_mark_read client target at_ms
  | FetchHistory target before_msgid limit => obby_client_fetch_history client target before_msgid limit
  | SetMetadata key value => obby_client_set_metadata client key value
  | SubscribeMetadata keys => obby_client_subscribe_metadata client keys
  | Whois nick => obby_client_whois client nick
  | RenameChannel channel new_name reason => obby_client_rename_channel client channel new_name reason
  | CreateInviteLink channel description => obby_client_create_invite_link client channel description
  | ListInviteLinks => obby_client_list_invite_links client
  | DeleteInviteLink share_id => obby_client_delete_invite_link client share_id
  | RedeemInviteCode code => obby_client_redeem_invite_code client code
  | GenerateToken service => obby_client_generate_token client service
  | WatchNicks nicks => obby_client_watch_nicks client nicks
  | UnwatchNicks nicks => obby_client_unwatch_nicks client nicks
  | SendVoiceSignal channel signal_json => obby_client_send_voice_signal client channel signal_json
  | SendRawLine line => obby_client_send_raw_line client line
  | FromJson command_json => obby_client_command_from_json client command_json
  end.

Definition exec_method (client : ptr) (m : method) : C result :=
  match m with
  | HandleConnected => _ ← obby_client_handle_connected client; mret Done
  | HandleDisconnected => _ ← obby_client_handle_disconnected client; mret Done
  | HandleBytes data len => _ ← obby_client_handle_bytes client data len; mret Done
  | PollTransmit => b ← obby_client_poll_transmit client; mret (Bytes b)
  | PollEventsJson => p ← obby_client_poll_events_json client; mret (Pointer p)
  | PollEvent => p ← obby_client_poll_event client; mret (Pointer p)
  | Tick monotonic_ms unix_ms => _ ← obby_client_tick client monotonic_ms unix_ms; mret Done
  | PollTimeout out_ms => r ← obby_client_poll_timeout client out_ms; mret (Out r.1 r.2)
  | ModelJson => p ← obby_client_model_json client; mret (Pointer p)
  | Asks r => b ← exec_request client r; mret (Flag b)
  end.

Definition exec (c : call) : C result :=
  match c with
  | New config => p ← obby_client_new config; mret (Pointer p)
  | NewFromJson config_json => p ← obby_client_new_from_json config_json; mret (Pointer p)
  | On client m => exec_method client m
  | FreeClient client => _ ← obby_client_free client; mret Done
  | FreeBytes bytes => _ ← obby_client_free_bytes bytes; mret Done
  | FreeString s => _ ← obby_client_free_string s; mret Done
  | FreeEvent event => _ ← obby_event_free event; mret Done
  | EventKind event => k ← obby_event_get_kind event; mret (Kind k)
  | EventText event field => s ← obby_event_text event field; mret (Chars s)
  | EventNumber event field out => r ← obby_event_number event field out; mret (Out r.1 r.2)
  | EventJson event => s ← obby_event_json event; mret (Chars s)
  end.

(** ** What a call means to the engine *)

(** The method of the engine a request is for, when every string it needs can be read. *)
Definition said (r : request) : option (Client.t → Client.t) :=
  match r with
  | Join channel key => channel ← str_from_ptr channel; Some (Client.join channel (str_from_ptr key))
  | Part channel reason => channel ← str_from_ptr channel; Some (Client.part channel (str_from_ptr reason))
  | SendMessage target body =>
      target ← str_from_ptr target; body ← str_from_ptr body; Some (Client.send_message target body)
  | SendNotice target body =>
      target ← str_from_ptr target; body ← str_from_ptr body; Some (Client.send_notice target body)
  | SendAction target body =>
      target ← str_from_ptr target; body ← str_from_ptr body; Some (Client.send_action target body)
  | SetNick nick => nick ← str_from_ptr nick; Some (Client.set_nick nick)
  | SetTopic channel topic => channel ← str_from_ptr channel; Some (Client.set_topic channel (str_from_ptr topic))
  | SetAway message => Some (Client.set_away (str_from_ptr message))
  | Quit reason => Some (Client.quit (str_from_ptr reason))
  | SetTyping target state =>
      state ← str_from_ptr state ≫= typing_state; target ← str_from_ptr target; Some (Client.set_typing target state)
  | AddReaction target msgid emoji =>
      target ← str_from_ptr target; msgid ← str_from_ptr msgid; emoji ← str_from_ptr emoji;
      Some (Client.add_reaction target msgid emoji)
  | RemoveReaction target msgid emoji =>
      target ← str_from_ptr target; msgid ← str_from_ptr msgid; emoji ← str_from_ptr emoji;
      Some (Client.remove_reaction target msgid emoji)
  | RedactMessage target msgid reason =>
      target ← str_from_ptr target; msgid ← str_from_ptr msgid; Some (Client.redact_message target msgid (str_from_ptr reason))
  | MarkRead target at_ms => target ← str_from_ptr target; Some (Client.mark_read target at_ms)
  | FetchHistory target before_msgid limit =>
      target ← str_from_ptr target; Some (Client.fetch_history target (str_from_ptr before_msgid) limit)
  | SetMetadata key value => key ← str_from_ptr key; Some (Client.set_metadata key (str_from_ptr value))
  | SubscribeMetadata keys => Some (Client.subscribe_metadata (strings_from_ptr_array keys))
  | Whois nick => nick ← str_from_ptr nick; Some (Client.whois nick)
  | RenameChannel channel new_name reason =>
      channel ← str_from_ptr channel; new_name ← str_from_ptr new_name;
      Some (Client.rename_channel channel new_name (str_from_ptr reason))
  | CreateInviteLink channel description =>
      Some (Client.create_invite_link (str_from_ptr channel) (str_from_ptr description))
  | ListInviteLinks => Some Client.list_invite_links
  | DeleteInviteLink share_id => share_id ← str_from_ptr share_id; Some (Client.delete_invite_link share_id)
  | RedeemInviteCode code => code ← str_from_ptr code; Some (Client.redeem_invite_code code)
  | GenerateToken service => service ← str_from_ptr service; Some (Client.generate_token service)
  | WatchNicks nicks => Some (Client.watch_nicks (strings_from_ptr_array nicks))
  | UnwatchNicks nicks => Some (Client.unwatch_nicks (strings_from_ptr_array nicks))
  | SendVoiceSignal channel signal_json =>
      channel ← str_from_ptr channel; signal ← str_from_ptr signal_json ≫= signal_from_str;
      Some (Client.send_voice_signal channel signal)
  | SendRawLine line => line ← str_from_ptr line; Some (Client.send_raw_line line)
  | FromJson command_json => command ← str_from_ptr command_json ≫= command_from_str; Some (Client.command command)
  end.

(** The engine after a call: a refused request leaves it as it was, draining the events leaves none. *)
Definition meant (m : method) (c : Client.t) : Client.t :=
  match m with
  | HandleConnected => Client.handle_connected c
  | HandleDisconnected => Client.handle_disconnected c
  | HandleBytes data len =>
      match data, len with
      | _, O => Client.handle_bytes [] c
      | None, _ => c
      | Some data, _ => Client.handle_bytes (take len data) c
      end
  | PollTransmit => (Client.poll_transmit c).2
  | PollEventsJson => Client.map_core (Core.set_events []) c
  | PollEvent => (Client.poll_event c).2
  | Tick monotonic_ms unix_ms => Client.tick (mkNow monotonic_ms unix_ms) c
  | PollTimeout _ | ModelJson => c
  | Asks r => match said r with Some f => f c | None => c end
  end.

(** What a call hands out, when it does. *)
Definition made (m : method) (c : Client.t) : option object :=
  match m with
  | PollTransmit => match (Client.poll_transmit c).1 with Some (b :: data) => Some (SomeBytes (b :: data)) | _ => None end
  | PollEventsJson => AString <$> (events_to_string (Core.events (Client.core c)) ≫= c_string)
  | PollEvent => (λ e, AnEvent (ObbyEvent.event_out e)) <$> (Client.poll_event c).1
  | ModelJson => AString <$> (model_to_string (Core.model (Client.core c)) ≫= c_string)
  | _ => None
  end.

Lemma exec_request_said client r :
  exec_request client r =
    with_client client false (λ c, match said r with Some f => (true, f c) | None => (false, c) end).
Proof.
  destruct r; try reflexivity;
    unfold exec_request, said, obby_client_join, obby_client_part, obby_client_send_message, obby_client_send_notice,
      obby_client_send_action, obby_client_set_nick, obby_client_set_topic, obby_client_set_typing, obby_client_add_reaction,
      obby_client_remove_reaction, obby_client_redact_message, obby_client_mark_read, obby_client_fetch_history,
      obby_client_set_metadata, obby_client_whois, obby_client_rename_channel, obby_client_delete_invite_link,
      obby_client_redeem_invite_code, obby_client_generate_token, obby_client_send_voice_signal, obby_client_send_raw_line,
      obby_client_command_from_json;
    repeat match goal with |- context [str_from_ptr ?p] => destruct (str_from_ptr p) eqn:? end; try reflexivity;
    cbn [mbind option_bind];
    repeat match goal with
    | |- context [typing_state ?p] => destruct (typing_state p) eqn:?
    | |- context [signal_from_str ?p] => destruct (signal_from_str p) eqn:?
    | |- context [command_from_str ?p] => destruct (command_from_str p) eqn:?
    end; reflexivity.
Qed.

Lemma drain_loop_all fuel seen (c : Client.t) :
  (length (Core.events (Client.core c)) < fuel)%nat →
  drain_loop fuel seen c = (seen ++ Core.events (Client.core c), Client.map_core (Core.set_events []) c).
Proof.
  revert seen c. induction fuel as [|fuel IH]; intros seen c Hf; [lia|]. cbn [drain_loop]. unfold Client.poll_event.
  destruct (Core.events (Client.core c)) as [|e rest] eqn:E.
  - rewrite app_nil_r. f_equal. destruct c as [co p d]. unfold Client.map_core. cbn in *. f_equal. destruct co; cbn in *. by subst.
  - rewrite IH.
    + cbn [Client.core Client.map_core]. by rewrite <- (assoc_L (++)).
    + cbn [Client.core Client.map_core Core.events Core.set_events]. cbn in Hf. lia.
Qed.
Lemma drain_events_all (c : Client.t) :
  drain_events c = (Core.events (Client.core c), Client.map_core (Core.set_events []) c).
Proof. apply (drain_loop_all _ []). lia. Qed.

(** ** One call *)

(** Run the monad of [C], leaving the heap alone. *)
Ltac run :=
  unfold mbind, mret, c_bind, c_ret; cbn beta; cbn [option_bind option_ret fst snd fmap option_fmap option_map].

Lemma with_client_at {A} a c (absent : A) f h :
  h !! a = Some (AClient c) → with_client (Some a) absent f h = Some ((f c).1, <[a := AClient (f c).2]> h).
Proof. intros E. unfold with_client, as_client, deref, put. run. rewrite E. run. by destruct (f c). Qed.

Lemma dom_put a (o : object) (h : heap) : is_Some (h !! a) → dom (<[a := o]> h) = dom h.
Proof. apply dom_insert_lookup_L. Qed.

Lemma put_same a (c : Client.t) (h : heap) : h !! a = Some (AClient c) → <[a := AClient c]> h = h.
Proof. apply insert_id. Qed.

(** A call on a live handle is the engine's method there, and hands out at most one new object. *)
Lemma exec_on a c m h :
  h !! a = Some (AClient c) → readable m →
  let h1 := <[a := AClient (meant m c)]> h in
  ∃ r, exec (On (Some a) m) h = Some (r, match made m c with None => h1 | Some o => <[allocate (dom h) := o]> h1 end)
     ∧ given (On (Some a) m) r = (λ o, (allocate (dom h), kind_of o)) <$> made m c.
Proof.
  intros E Hr h1. subst h1. destruct m; cbn [exec exec_method].
  - unfold obby_client_handle_connected, drive. run. rewrite (with_client_at _ _ _ _ _ E). run. by eexists.
  - unfold obby_client_handle_disconnected, drive. run. rewrite (with_client_at _ _ _ _ _ E). run. by eexists.
  - run. unfold obby_client_handle_bytes, as_client, deref. run.
    rewrite E. run. cbn [made]. destruct len as [|len].
    + eexists. split; [|done]. by destruct data.
    + rewrite decide_False by done. destruct data as [data|].
      * cbn in Hr. rewrite decide_False by lia. by eexists.
      * eexists. split; [|done]. cbn. by rewrite put_same.
  - unfold obby_client_poll_transmit. run. rewrite (with_client_at _ _ _ _ _ E).
    run. cbn [made meant]. destruct (Client.poll_transmit c).1 as [[|b data]|]; [by eexists| |by eexists].
    unfold bytes_out, box. run. rewrite dom_put by done. by eexists.
  - unfold obby_client_poll_events_json. run. rewrite (with_client_at _ _ _ _ _ E).
    run. cbn [made meant]. rewrite drain_events_all. run.
    destruct (events_to_string _) as [json|]; [|by eexists]. unfold string_out. run.
    destruct (c_string json) as [s|]; [|by eexists]. unfold box. run.
    rewrite dom_put by done. by eexists.
  - unfold obby_client_poll_event. run. rewrite (with_client_at _ _ _ _ _ E).
    run. cbn [made meant]. destruct (Client.poll_event c).1 as [e|]; [|by eexists].
    unfold box. run. rewrite dom_put by done. by eexists.
  - unfold obby_client_tick, drive. run. rewrite (with_client_at _ _ _ _ _ E). run. by eexists.
  - unfold obby_client_poll_timeout. run. rewrite (with_client_at _ _ _ _ _ E). run. by eexists.
  - unfold obby_client_model_json. run. rewrite (with_client_at _ _ _ _ _ E).
    run. cbn [made meant]. destruct (model_to_string _) as [json|]; [|by eexists].
    unfold string_out. run. destruct (c_string json) as [s|]; [|by eexists].
    unfold box. run. rewrite dom_put by done. by eexists.
  - run. rewrite exec_request_said, (with_client_at _ _ _ _ _ E). cbn [meant made].
    destruct (said r) as [f|]; by eexists.
Qed.

(** What a call on null answers. *)
Definition refusal (m : method) : result :=
  match m with
  | HandleConnected | HandleDisconnected | HandleBytes _ _ | Tick _ _ => Done
  | PollTransmit => Bytes empty_bytes
  | PollEventsJson | PollEvent | ModelJson => Pointer None
  | PollTimeout out_ms => Out false ((λ _, 0%Z) <$> out_ms)
  | Asks _ => Flag false
  end.

Lemma exec_null m h : exec (On None m) h = Some (refusal m, h).
Proof. destruct m; try done. cbn [exec exec_method]. run. by rewrite exec_request_said. Qed.

(** Nothing is defined on a handle that is not live. *)
Lemma exec_dead a m h r h' : exec (On (Some a) m) h = Some (r, h') → ∃ c, h !! a = Some (AClient c) ∧ readable m.
Proof.
  intros He.
  assert ((∃ c, h !! a = Some (AClient c)) ∨ as_client (Some a) h = None) as [[c E]|Hd].
  { unfold as_client, deref. run. destruct (h !! a) as [[]|]; eauto. }
  - exists c. split; [done|]. destruct m as [| |[data|] len| | | | | | |]; try done.
    destruct (decide (length data < len)%nat) as [Hl|]; [|cbn; lia].
    cbn [exec exec_method] in He. unfold obby_client_handle_bytes, as_client, deref in He. revert He. run. rewrite E. run.
    rewrite decide_False by lia. by rewrite decide_True.
  - assert (∀ A (absent : A) f, with_client (Some a) absent f h = None) as Hw.
    { intros A absent f. unfold with_client. unfold mbind, c_bind. by rewrite Hd. }
    revert He. destruct m; cbn [exec exec_method]; run;
      unfold obby_client_handle_connected, obby_client_handle_disconnected, obby_client_handle_bytes, obby_client_poll_transmit,
        obby_client_poll_events_json, obby_client_poll_event, obby_client_tick, obby_client_poll_timeout, obby_client_model_json, drive;
      run; rewrite ?exec_request_said, ?Hw, ?Hd; done.
Qed.

(** ** The ledger *)

Abbreviation shape h := (kind_of <$> (h : gmap positive object)).

Lemma shape_lookup a k (h : heap) : shape h !! a = Some k → ∃ o, h !! a = Some o ∧ kind_of o = k.
Proof. rewrite lookup_fmap, fmap_Some. intros (o & ? & ->). eauto. Qed.
Lemma live_client p (h : heap) : live (shape h) KClient p → p = None ∨ ∃ a c, p = Some a ∧ h !! a = Some (AClient c).
Proof. destruct p as [a|]; [|by left]. intros (o & E & Hk)%shape_lookup. right. destruct o; try done. eauto. Qed.
Lemma shape_put a c c' (h : heap) : h !! a = Some (AClient c) → shape (<[a := AClient c']> h) = shape h.
Proof. intros E. rewrite fmap_insert. apply insert_id. by rewrite lookup_fmap, E. Qed.

Lemma as_event_live p (h : heap) : live (shape h) KEvent p → ∃ e, as_event p h = Some (e, h).
Proof.
  destruct p as [a|]; [|by exists None]. intros (o & E & Hk)%shape_lookup. destruct o; try done.
  eexists. unfold as_event, deref. run. rewrite E. by run.
Qed.

(** A call that gives back what lives at [p]. *)
Ltac freed p :=
  destruct p as [?a|]; [|by exists Done; eexists];
  match goal with Ha : allowed _ _ |- _ => apply shape_lookup in Ha as (?o & ?E & ?Hk) | Ha : live _ _ _ |- _ => apply shape_lookup in Ha as (?o & ?E & ?Hk) end;
  exists Done; eexists; cbn [exec];
  unfold obby_client_free, obby_client_free_bytes, obby_client_free_string, obby_event_free, deref; cbn [b_ptr b_len]; run;
  match goal with E : _ !! _ = Some ?o |- _ => rewrite E; run; destruct o; try done end;
  try match goal with Hk : kind_of _ = KBytes _ |- _ => injection Hk as Hk; rewrite decide_True by done end;
  (split; [reflexivity|]); cbn; by rewrite fmap_delete.

Context `{!AllocatorLaws}.

Lemma allocate_shape (h : heap) : shape h !! allocate (dom h) = None.
Proof. rewrite lookup_fmap, (not_elem_of_dom_1 h _ (allocate_fresh _)). done. Qed.

Lemma exec_new c h :
  (∃ config, c = New config) ∨ (∃ json, c = NewFromJson json) →
  ∃ o, exec c h = Some (match o with None => (Pointer None, h) | Some e =>
     (Pointer (Some (allocate (dom h))), <[allocate (dom h) := AClient e]> h) end).
Proof.
  intros [[config ->]|[json ->]]; cbn [exec]; run.
  - unfold obby_client_new. destruct config as [config|]; [|by exists None]. run.
    destruct (str_from_ptr _) as [n|]; [|by exists None]. unfold box. run. by eexists (Some _).
  - unfold obby_client_new_from_json. destruct (str_from_ptr _) as [n|]; [|by exists None].
    destruct (config_from_str n); [|by exists None]. unfold box. run. by eexists (Some _).
Qed.

(** A call within the contract is defined, keeps the ledger true, and hands out nothing the host already has. *)
Lemma exec_allowed c h :
  allowed (shape h) c →
  ∃ r h', exec c h = Some (r, h') ∧ shape h' = ledger_after (shape h) c r
        ∧ from_option (λ p, shape h !! p.1 = None) True (given c r).
Proof.
  intros Ha.
  assert (∀ c', (∃ config, c' = New config) ∨ (∃ json, c' = NewFromJson json) → ∃ r h', exec c' h = Some (r, h')
    ∧ shape h' = ledger_after (shape h) c' r ∧ from_option (λ p, shape h !! p.1 = None) True (given c' r)) as Hnew.
  { intros c' Hc. destruct (exec_new c' h Hc) as [[e|] He]; rewrite He; do 2 eexists; (split; [done|]);
      destruct Hc as [[? ->]|[? ->]]; cbn; try done; (split; [by rewrite fmap_insert|apply allocate_shape]). }
  destruct c as [config|json|client m|p|b|p|p|p|p f|p f out|p]; [apply Hnew; eauto|apply Hnew; eauto|..]; clear Hnew.
  - destruct Ha as [[->|(a & c & -> & E)]%live_client Hr].
    { exists (refusal m), h. rewrite exec_null. by destruct m. }
    destruct (exec_on a c m h E Hr) as (r & He & Hg). exists r. eexists. split; [exact He|].
    unfold ledger_after. rewrite Hg. cbn [taken]. destruct (made m c) as [o|]; cbn.
    + split; [by rewrite fmap_insert, (shape_put _ _ _ _ E)|apply allocate_shape].
    + by rewrite (shape_put _ _ _ _ E).
  - freed p.
  - destruct b as [p n]. cbn [allowed b_ptr b_len] in Ha. freed p.
  - freed p.
  - freed p.
  - apply as_event_live in Ha as [e He]. exists (Kind (from_option ObbyEvent.kind ObbyEventKind.Unknown e)), h.
    cbn [exec]. unfold obby_event_get_kind. run. by rewrite He.
  - apply as_event_live in Ha as [e He]. exists (Chars (e ≫= ObbyEvent.find_text f)), h.
    cbn [exec]. unfold obby_event_text. run. by rewrite He.
  - apply as_event_live in Ha as [e He].
    exists (match e ≫= ObbyEvent.find_number f with None => Out false out | Some v => Out true ((λ _, v) <$> out) end), h.
    cbn [exec]. unfold obby_event_number. run. rewrite He. run. by destruct (option_bind _ _ _ e).
  - apply as_event_live in Ha as [e He]. exists (Chars (ObbyEvent.json <$> e)), h.
    cbn [exec]. unfold obby_event_json. run. by rewrite He.
Qed.

(** ** Any run of calls *)

(** What a host within the contract can reach, with its own books beside the library's heap. *)
Inductive reached : gmap positive kind → gmap positive object → Prop :=
  | reached_start : reached ∅ ∅
  | reached_call l h c r h' : reached l h → allowed l c → exec c h = Some (r, h') → reached (ledger_after l c r) h'.

Lemma reached_shape l h : reached l h → shape h = l.
Proof.
  induction 1 as [|l h c r h' _ IH Ha He]; [apply fmap_empty|]. subst l.
  apply exec_allowed in Ha as (r' & h'' & He' & Hs & _). rewrite He' in He. by simplify_eq.
Qed.

(** C11. The contract written above each function is enough: however a host interleaves its calls, on any number
    of handles, as long as every pointer it passes is null or one it was given, of that kind, and has not given
    back, no call is undefined; what a call hands out is nothing the host already holds (so nothing is freed
    twice or shared), the library keeps exactly what the host has not given back, and a host that has given
    everything back has leaked nothing. *)
Theorem c_contract_suffices l h c :
  reached l h → allowed l c →
  ∃ r h', exec c h = Some (r, h') ∧ shape h' = ledger_after l c r
        ∧ from_option (λ p, l !! p.1 = None) True (given c r)
        ∧ (ledger_after l c r = ∅ → h' = ∅).
Proof.
  intros Hr Ha. apply reached_shape in Hr as <-. destruct (exec_allowed c h Ha) as (r & h' & He & Hs & Hg).
  exists r, h'. split_and!; [done..|]. rewrite <- Hs. apply fmap_empty_inv.
Qed.

(** The calls one after the other. *)
Fixpoint run_calls (calls : list call) : C (list result) :=
  match calls with
  | [] => mret []
  | c :: calls => r ← exec c; rs ← run_calls calls; mret (r :: rs)
  end.
(** What is asked of one handle. *)
Definition asked_of (a : positive) (c : call) : option method :=
  match c with On (Some b) m => if decide (b = a) then Some m else None | _ => None end.

Lemma box_elsewhere a o o' h r h' :
  h !! a = Some o → box o' h = Some (r, h') → h' !! a = Some o.
Proof.
  intros E [= <- <-]. rewrite lookup_insert_ne; [done|]. intros <-.
  apply (allocate_fresh (dom h)). by apply elem_of_dom_2 in E.
Qed.

(** What reads an event leaves the heap as it is. *)
Definition reads_event (c : call) : bool :=
  match c with EventKind _ | EventText _ _ | EventNumber _ _ _ | EventJson _ => true | _ => false end.
Lemma reads_only c h r h' : exec c h = Some (r, h') → reads_event c = true → h' = h.
Proof.
  intros He Hc.
  assert (∀ p, as_event p h = None ∨ ∃ e, as_event p h = Some (e, h)) as Hp.
  { intros [a|]; [|by right; exists None]. unfold as_event, deref. run. destruct (h !! a) as [[]|]; run; eauto. }
  destruct c; try done; cbn [exec] in He;
    unfold obby_event_get_kind, obby_event_text, obby_event_number, obby_event_json in He; revert He; run;
    destruct (Hp event) as [->|[e ->]]; run; try done; try (by intros [= _ ->]); destruct (option_bind _ _ _ e); by intros [= _ ->].
Qed.

(** Where a call that gives something back is defined, [p] was null or live. *)
Ltac gives_back p E He :=
  destruct p as [b|]; [|by revert He; cbn [exec]; unfold obby_client_free_bytes; run; intros [= _ <-]];
  revert He; cbn [exec];
  unfold obby_client_free, obby_client_free_bytes, obby_client_free_string, obby_event_free, deref; cbn [b_ptr b_len]; run;
  match goal with |- context [?h !! b] => destruct (h !! b) as [[]|] eqn:? end; run; try done;
  try case_decide; try done; unfold release; run; intros [= _ <-].

Lemma exec_one a c e h r h' :
  h !! a = Some (AClient e) → c ≠ FreeClient (Some a) → exec c h = Some (r, h') →
  h' !! a = Some (AClient (match asked_of a c with Some m => meant m e | None => e end)).
Proof.
  intros E Hc He.
  assert (∀ o, exec c h = Some (match o with None => (Pointer None, h) | Some x =>
     (Pointer (Some (allocate (dom h))), <[allocate (dom h) := AClient x]> h) end) → h' !! a = Some (AClient e)) as Hnew.
  { intros o Ho. rewrite Ho in He. destruct o; simplify_eq; [|done]. by eapply box_elsewhere. }
  destruct c as [config|json|client m|p|b|p|p|p|p f|p f out|p].
  - destruct (exec_new (New config) h) as [o Ho]; eauto.
  - destruct (exec_new (NewFromJson json) h) as [o Ho]; eauto.
  - clear Hnew. destruct client as [b|]; [|by rewrite exec_null in He; simplify_eq].
    destruct (exec_dead _ _ _ _ _ He) as (c & Eb & Hm). destruct (exec_on b c m h Eb Hm) as (r' & He' & _).
    rewrite He' in He. simplify_eq. cbn [asked_of].
    assert (<[b := AClient (meant m c)]> h !! a = Some (AClient (match (if decide (b = a) then Some m else None)
      with Some m => meant m e | None => e end))) as Hh1.
    { case_decide as Hb; [subst b; rewrite lookup_insert_eq; by simplify_eq|by rewrite lookup_insert_ne]. }
    destruct (made m c) as [o|]; [|done].
    eapply box_elsewhere; [exact Hh1|]. unfold box. by rewrite dom_put by done.
  - gives_back p E He. destruct (decide (b = a)) as [->|]; [done|by rewrite lookup_delete_ne].
  - destruct b as [p n]. gives_back p E He.
    destruct (decide (b = a)) as [->|]; [by simplify_eq|by rewrite lookup_delete_ne].
  - gives_back p E He. destruct (decide (b = a)) as [->|]; [by simplify_eq|by rewrite lookup_delete_ne].
  - gives_back p E He. destruct (decide (b = a)) as [->|]; [by simplify_eq|by rewrite lookup_delete_ne].
  - by apply reads_only in He as ->.
  - by apply reads_only in He as ->.
  - by apply reads_only in He as ->.
  - by apply reads_only in He as ->.
Qed.

Lemma run_calls_handle a e calls h rs h' :
  h !! a = Some (AClient e) → FreeClient (Some a) ∉ calls → run_calls calls h = Some (rs, h') →
  h' !! a = Some (AClient (foldl (λ e m, meant m e) e (omap (asked_of a) calls))).
Proof.
  revert e h rs. induction calls as [|c calls IH]; intros e h rs E Hf Hr.
  - cbn in Hr. revert Hr. run. by intros [= _ <-].
  - apply not_elem_of_cons in Hf as [Hc Hf]. cbn [run_calls] in Hr. revert Hr. run.
    destruct (exec c h) as [[r h1]|] eqn:Ec; run; [|done].
    destruct (run_calls calls h1) as [[rs' h2]|] eqn:Er; run; [|done]. intros [= _ ->].
    assert (c ≠ FreeClient (Some a)) as Hca by congruence.
    pose proof (exec_one a c e h r h1 E Hca Ec) as E1. rewrite (IH _ _ _ E1 Hf Er).
    change (omap (asked_of a) (c :: calls)) with
      (match asked_of a c with Some m => m :: omap (asked_of a) calls | None => omap (asked_of a) calls end).
    by destruct (asked_of a c).
Qed.

(** C10. A handle is its engine and nothing else: whatever calls a host makes in between, on this handle, on
    others, on events and buffers, the engine behind the handle is the Rust engine driven by the methods asked
    of this handle alone, in their order (every one of the forty calls being the method of its name, with the
    strings C passed). *)
Theorem handle_is_its_engine a e calls h rs h' :
  h !! a = Some (AClient e) → FreeClient (Some a) ∉ calls → run_calls calls h = Some (rs, h') →
  h' !! a = Some (AClient (foldl (λ e m, meant m e) e (omap (asked_of a) calls))).
Proof. apply run_calls_handle. Qed.

(** *** The engine's invariants, from C *)

Lemma said_command r f : said r = Some f → ∃ c, f = Client.command c.
Proof.
  intros Hs. destruct r; cbn [said] in Hs;
    repeat match type of Hs with context [str_from_ptr ?p] => destruct (str_from_ptr p) eqn:? end; cbn [mbind option_bind] in Hs;
    repeat match type of Hs with
    | context [typing_state ?p] => destruct (typing_state p) eqn:?
    | context [signal_from_str ?p] => destruct (signal_from_str p) eqn:?
    | context [command_from_str ?p] => destruct (command_from_str p) eqn:?
    end; try discriminate; injection Hs as <-; by eexists.
Qed.

(** How many messages a C call can file at most. *)
Definition method_cost (m : method) : nat :=
  match m with
  | HandleBytes (Some data) len => LINE_COST * length (filter (.= chLF) (take len data))
  | Asks _ => 1
  | _ => 0
  end.

Lemma drained_run n (e : Client.t) :
  length (Core.events (Client.core e)) = n →
  host_run e (replicate n Engine.PollEvent) = Client.map_core (Core.set_events []) e.
Proof.
  revert e. induction n as [|n IH]; intros e Hn; cbn [replicate host_run foldl].
  - apply nil_length_inv in Hn. destruct e as [c p d]. unfold Client.map_core. cbn in *. f_equal. destruct c; cbn in *. by subst.
  - change (foldl host_step ?s ?l) with (host_run s l). cbn [host_step]. unfold Client.poll_event.
    destruct (Core.events (Client.core e)) as [|x rest] eqn:E; [done|]. cbn [snd]. rewrite IH; [done|].
    cbn. by injection Hn.
Qed.

(** Every C call comes to calls the engine's own theorem knows. *)
Lemma meant_run m (e : Client.t) : ∃ calls, meant m e = host_run e calls ∧ (sum_list_with call_cost calls <= method_cost m)%nat.
Proof.
  assert (∀ n, sum_list_with call_cost (replicate n Engine.PollEvent) = 0%nat) as Hz by (intros n; by induction n).
  destruct m as [| |data len| | | |mono unix| | |r]; cbn [meant method_cost].
  - by exists [Engine.Connected].
  - by exists [Engine.Disconnected].
  - destruct data as [data|], len as [|len].
    + exists [Engine.Bytes []]. split; [done|]. cbn [sum_list_with call_cost take]. by rewrite Nat.add_0_r.
    + exists [Engine.Bytes (take (S len) data)]. split; [done|]. cbn [sum_list_with call_cost]. by rewrite Nat.add_0_r.
    + exists [Engine.Bytes []]. split; [done|]. cbn [sum_list_with call_cost]. by rewrite filter_nil, Nat.mul_0_r.
    + by exists [].
  - by exists [Engine.PollTransmit].
  - exists (replicate (length (Core.events (Client.core e))) Engine.PollEvent). by rewrite drained_run, Hz.
  - by exists [Engine.PollEvent].
  - by exists [Engine.Tick (mkNow mono unix)].
  - by exists [].
  - by exists [].
  - destruct (said r) as [f|] eqn:Hs; [|by exists []; split; [|apply Nat.le_0_l]].
    apply said_command in Hs as [c ->]. by exists [Engine.Do c].
Qed.

(** The invariants of the engine hold behind every handle, whatever a C program does: none of its calls can
    take an engine out of them, nor can a server through the bytes it hands over. *)
Theorem c_engines_stay_sound a config calls h rs h' :
  h !! a = Some (AClient (Client.new config)) → FreeClient (Some a) ∉ calls →
  Z.of_nat (sum_list_with method_cost (omap (asked_of a) calls)) <= u64_max →
  run_calls calls h = Some (rs, h') → ∃ e, h' !! a = Some (AClient e) ∧ sound_host e.
Proof.
  intros E Hf Hc Hr. eexists. split; [by eapply run_calls_handle|].
  assert (∀ ms (e : Client.t), ∃ cs, foldl (λ e m, meant m e) e ms = host_run e cs
    ∧ (sum_list_with call_cost cs <= sum_list_with method_cost ms)%nat) as Hms.
  { induction ms as [|m ms IH]; intros e; [by exists []|]. cbn [foldl sum_list_with].
    destruct (meant_run m e) as (cs & -> & Hcs). destruct (IH (host_run e cs)) as (cs' & -> & Hcs').
    exists (cs ++ cs'). unfold host_run. rewrite foldl_app, sum_list_with_app. split; [done|by apply Nat.add_le_mono]. }
  destruct (Hms (omap (asked_of a) calls) (Client.new config)) as (cs & -> & Hcs).
  apply sound_run; [apply sound_host_new|]. change (next_seq (Client.core (Client.new config))) with 0. rewrite Z.add_0_l.
  etransitivity; [by apply inj_le|done].
Qed.

(** A request answers true exactly when there is an engine to ask and every string it needs is there and
    is UTF-8; answering false, it has changed nothing. *)
Theorem request_answers client r h :
  live (shape h) KClient client →
  ∃ b h', exec (On client (Asks r)) h = Some (Flag b, h')
        ∧ (b = true ↔ is_Some client ∧ is_Some (said r)) ∧ (b = false → h' = h).
Proof.
  intros [->|(a & c & -> & E)]%live_client.
  - exists false, h. rewrite exec_null. split_and!; [done| |done]. split; [done|]. by intros [[? ?] _].
  - cbn [exec exec_method]. run. rewrite exec_request_said, (with_client_at _ _ _ _ _ E).
    destruct (said r) as [f|]; run; do 2 eexists; (split; [reflexivity|]).
    + by split.
    + split; [split; [done|intros [_ [? ?]]; done]|]. intros _. by apply insert_id.
Qed.
End host.

(** ** Reading an event back *)

Lemma nul_encode_char c : NUL ∈ encode_char c → c = NUL.
Proof.
  unfold encode_char, NUL, cont. intros Hin.
  destruct (N.ltb_spec c 128); [by apply list_elem_of_singleton in Hin|].
  repeat case_match; rewrite ?elem_of_cons, elem_of_nil in Hin;
    destruct_or! Hin; try done; by apply eq_sym, N.eq_add_0 in Hin as [? _].
Qed.
Lemma nul_encode t : NUL ∈ encode t ↔ NUL ∈ t.
Proof.
  unfold encode. rewrite list_elem_of_bind. split.
  - intros (c & Hc & Hin). by rewrite <- (nul_encode_char c Hc).
  - intros Hin. exists NUL. split; [|done]. by apply list_elem_of_singleton.
Qed.

(** A text C can carry: scalar values, none of them NUL. *)
Definition carried (t : text) : Prop := valid_text t ∧ NUL ∉ t.
Lemma c_string_carried t : carried t → c_string t = Some (encode t).
Proof. intros [_ Hn]. unfold c_string. rewrite decide_False; [done|by rewrite nul_encode]. Qed.
Lemma c_string_nul t : NUL ∈ t → c_string t = None.
Proof. intros Hn. unfold c_string. rewrite decide_True; [done|by rewrite nul_encode]. Qed.

(** A host's string in front of its NUL is what the library reads. *)
Lemma str_from_ptr_carried t : carried t → str_from_ptr (Some (encode t)) = Some t.
Proof.
  intros [Hv Hn]. unfold str_from_ptr, before_nul. cbn [mbind option_bind].
  rewrite (proj2 (split_once_None NUL (encode t))) by (by rewrite nul_encode). by apply from_utf8_encode.
Qed.

Definition read_text (f : ObbyEventField.t) (e : ObbyEvent.t) : option text := ObbyEvent.find_text f e ≫= from_utf8.
Definition read_flag (f : ObbyEventField.t) (e : ObbyEvent.t) : option bool := (λ v, bool_decide (v ≠ 0%Z)) <$> ObbyEvent.find_number f e.
Definition severity_of_name (t : text) : option Severity.t :=
  if decide (t = lit "fail") then Some Severity.Fail_
  else if decide (t = lit "warn") then Some Severity.Warn
  else if decide (t = lit "note") then Some Severity.Note else None.
Definition failure_of_name (t : text) : option Sasl.SaslFailure :=
  find (λ f, bool_decide (ObbyEvent.failure_name f = t))
    [Sasl.Rejected; Sasl.TooLong; Sasl.Aborted; Sasl.AlreadyAuthenticated; Sasl.NoSharedMechanism; Sasl.ServerNotVerified].

(** What a C program makes of an event through its kind and fields; the kinds whose body is left to
    the JSON give nothing. *)
Definition event_in (e : ObbyEvent.t) : option Event.t :=
  match ObbyEvent.kind e with
  | ObbyEventKind.CapabilitiesAcknowledged =>
      names ← read_text ObbyEventField.Names e; Some (Event.CapabilitiesAcknowledged (split_whitespace names))
  | ObbyEventKind.Registered => nick ← read_text ObbyEventField.Nick e; Some (Event.Registered nick)
  | ObbyEventKind.IsupportToken =>
      token ← read_text ObbyEventField.Token e; Some (Event.IsupportToken token (read_text ObbyEventField.Value e))
  | ObbyEventKind.LoggedIn => account ← read_text ObbyEventField.Account e; Some (Event.LoggedIn account)
  | ObbyEventKind.SaslFailed => reason ← read_text ObbyEventField.Reason e ≫= failure_of_name; Some (Event.SaslFailed reason)
  | ObbyEventKind.NickInUse =>
      refused ← read_text ObbyEventField.Refused e; trying ← read_text ObbyEventField.Trying e;
      Some (Event.NickInUse refused trying)
  | ObbyEventKind.LinkDead => Some Event.LinkDead
  | ObbyEventKind.ReconnectAfter => after_ms ← ObbyEvent.find_number ObbyEventField.AfterMs e; Some (Event.ReconnectAfter after_ms)
  | ObbyEventKind.ReconnectAbandoned => Some Event.ReconnectAbandoned
  | ObbyEventKind.CommandTimedOut => command ← read_text ObbyEventField.Command e; Some (Event.CommandTimedOut command)
  | ObbyEventKind.AllowedCommandsChanged => Some Event.AllowedCommandsChanged
  | ObbyEventKind.TypingChanged =>
      target ← read_text ObbyEventField.Target e; nick ← read_text ObbyEventField.Nick e;
      active ← read_flag ObbyEventField.Active e; Some (Event.TypingChanged target nick active)
  | ObbyEventKind.PresenceChanged =>
      nick ← read_text ObbyEventField.Nick e; online ← read_flag ObbyEventField.Online e; Some (Event.PresenceChanged nick online)
  | ObbyEventKind.ServerReply =>
      severity ← read_text ObbyEventField.Severity e ≫= severity_of_name; command ← read_text ObbyEventField.Command e;
      code ← read_text ObbyEventField.Code e; body ← read_text ObbyEventField.Text e;
      Some (Event.ServerReply severity command code [] body)
  | ObbyEventKind.BotsChanged => nick ← read_text ObbyEventField.Nick e; Some (Event.BotsChanged nick)
  | ObbyEventKind.AuthToken =>
      service ← read_text ObbyEventField.Service e; endpoint ← read_text ObbyEventField.Endpoint e;
      token ← read_text ObbyEventField.BearerToken e; Some (Event.AuthToken service endpoint token)
  | ObbyEventKind.Unknown | ObbyEventKind.ModelChanged | ObbyEventKind.Voice | ObbyEventKind.RawLine => None
  end.

(** The events whose fields say everything: NUL-free text, names that are words, no further reply parameters. *)
Definition legible (e : Event.t) : Prop :=
  match e with
  | Event.CapabilitiesAcknowledged names =>
      Forall (λ n, carried n ∧ n ≠ [] ∧ Forall (λ c, is_whitespace c = false) n) names
  | Event.Registered t | Event.LoggedIn t | Event.CommandTimedOut t | Event.BotsChanged t | Event.PresenceChanged t _ => carried t
  | Event.IsupportToken t v => carried t ∧ from_option carried True v
  | Event.NickInUse t u | Event.TypingChanged t u _ => carried t ∧ carried u
  | Event.ServerReply _ t u context v => carried t ∧ carried u ∧ carried v ∧ context = []
  | Event.AuthToken t u v => carried t ∧ carried u ∧ carried v
  | Event.SaslFailed _ | Event.LinkDead | Event.ReconnectAfter _ | Event.ReconnectAbandoned | Event.AllowedCommandsChanged => True
  | Event.ModelChanged _ | Event.Voice _ _ | Event.RawLine _ => False
  end.

Lemma split_whitespace_word acc w : Forall (λ c, is_whitespace c = false) w →
  ∀ rest, split_whitespace_aux acc (w ++ rest) = split_whitespace_aux (reverse w ++ acc) rest.
Proof.
  intros Hw. revert acc. induction Hw as [|c w Hc _ IH]; intros acc rest; [done|].
  cbn [app split_whitespace_aux]. rewrite Hc, IH, reverse_cons, <- (assoc_L (++)). done.
Qed.
(** Words joined by spaces are split again. *)
Lemma split_whitespace_join ws :
  Forall (λ w, w ≠ [] ∧ Forall (λ c, is_whitespace c = false) w) ws → split_whitespace (join_with chSPACE ws) = ws.
Proof.
  unfold split_whitespace. intros Hw. induction Hw as [|w ws [Hn Hw] Hws IH]; [done|].
  assert (∃ c acc, reverse w = c :: acc) as (c & acc & Er).
  { destruct (reverse w) as [|c acc] eqn:E; eauto. apply (f_equal reverse) in E. rewrite reverse_involutive in E. done. }
  assert (reverse (reverse w ++ []) = w) as Ew by by rewrite app_nil_r, reverse_involutive.
  destruct ws as [|w' ws].
  - cbn [join_with]. rewrite <- (app_nil_r w) at 1. rewrite split_whitespace_word by done.
    cbn [split_whitespace_aux]. rewrite Ew, Er. done.
  - change (join_with chSPACE (w :: w' :: ws)) with (w ++ chSPACE :: join_with chSPACE (w' :: ws)).
    rewrite split_whitespace_word by done. cbn [split_whitespace_aux].
    change (is_whitespace chSPACE) with true. cbv iota. rewrite Ew, IH, Er. done.
Qed.

Lemma valid_join ws : Forall carried ws → carried (join_with chSPACE ws).
Proof.
  induction 1 as [|w ws Hw Hws IH]; [by split; [constructor|apply not_elem_of_nil]|].
  destruct ws as [|w' ws]; [done|].
  change (carried (w ++ chSPACE :: join_with chSPACE (w' :: ws))). destruct Hw as [Hv Hn], IH as [Hv' Hn']. split.
  - apply Forall_app_2; [done|]. by constructor.
  - rewrite elem_of_app, elem_of_cons. intros [?|[?|?]]; done.
Qed.

(** Lookups by field. *)
Section fields.
Implicit Types (f g : ObbyEventField.t) (k : ObbyEventKind.t).
Lemma text_here k f v l n j : ObbyEvent.find_text f (ObbyEvent.mk k ((f, v) :: l) n j) = Some v.
Proof. unfold ObbyEvent.find_text. cbn [ObbyEvent.texts list_find fst]. by rewrite decide_True. Qed.
Lemma text_past k f g v l n j :
  g ≠ f → ObbyEvent.find_text f (ObbyEvent.mk k ((g, v) :: l) n j) = ObbyEvent.find_text f (ObbyEvent.mk k l n j).
Proof.
  intros Hg. unfold ObbyEvent.find_text. cbn [ObbyEvent.texts list_find fst]. rewrite decide_False by done.
  by destruct (list_find _ l) as [[? ?]|].
Qed.
Lemma text_absent k f n j : ObbyEvent.find_text f (ObbyEvent.mk k [] n j) = None.
Proof. done. Qed.
Lemma number_here k f v l n j : ObbyEvent.find_number f (ObbyEvent.mk k l ((f, v) :: n) j) = Some v.
Proof. unfold ObbyEvent.find_number. cbn [ObbyEvent.numbers list_find fst]. by rewrite decide_True. Qed.
End fields.
(** Look every field of a concrete event up. *)
Ltac look :=
  unfold event_in, read_text, read_flag; cbn [ObbyEvent.kind ObbyEvent.texts ObbyEvent.numbers ObbyEvent.json app];
  repeat (rewrite text_here || rewrite text_past by done || rewrite text_absent || rewrite number_here);
  cbn [mbind option_bind fmap option_fmap option_map].

Lemma severity_carried s : carried (to_ascii_lowercase <$> ObbyEvent.severity_name s).
Proof. unfold carried. apply (bool_decide_unpack _). by destruct s; vm_compute. Qed.

Section events.
Context `{Serde}.

(** C29. A C program loses nothing of the events whose fields this interface names: from the kind, the strings
    and the numbers of what [obby_client_poll_event] hands over, each in its own field, the event itself can be
    put together again (when its text holds no NUL, and but for the extra parameters of a standard reply). *)
Theorem events_read_back e : legible e → event_in (ObbyEvent.event_out e) = Some e.
Proof.
  intros Hl.
  assert (∀ t, carried t → from_utf8 (encode t) = Some t) as Hd by (intros t [Hv _]; by apply from_utf8_encode).
  destruct e as [names|nick|token value|account|reason|refused trying|change| |ms| |command| |nick|service endpoint token
    |channel signal|target nick active|nick online|severity command code context body|message]; cbn [legible] in Hl; try done;
    unfold ObbyEvent.event_out, ObbyEvent.server_reply_out, ObbyEvent.text, ObbyEvent.of_kind, ObbyEvent.number;
    cbn [ObbyEvent.kind ObbyEvent.texts ObbyEvent.numbers ObbyEvent.json];
    match goal with |- context [default [] (c_string ?j)] => generalize (default [] (c_string j)); intros json end;
    destruct_and?;
    repeat (rewrite c_string_carried by (done || (by destruct severity) || (by destruct reason))).
  - assert (Forall carried names) as Hc by (eapply Forall_impl; [exact Hl|]; by intros n (? & _)).
    rewrite c_string_carried by by apply valid_join. look. rewrite Hd by by apply valid_join. cbn [mbind option_bind].
    rewrite split_whitespace_join; [done|]. eapply Forall_impl; [exact Hl|]; by intros n (_ & ? & ?).
  - look. by rewrite Hd.
  - destruct value as [value|]; [rewrite c_string_carried by done|]; look; by rewrite ?Hd.
  - look. by rewrite Hd.
  - by destruct reason.
  - look. by rewrite !Hd.
  - look. by rewrite Hd.
  - look. by rewrite Hd.
  - look. by rewrite !Hd.
  - look. rewrite !Hd by done. by destruct active.
  - look. rewrite !Hd by done. by destruct online.
  - rewrite (c_string_carried _ (severity_carried severity)). look.
    rewrite !Hd by (done || apply severity_carried). subst context. by destruct severity.
Qed.

(** A NUL in a text hides the field it is in: a token whose value holds one reads as a token without a value. *)
Theorem nul_value_reads_as_none token value :
  carried token → NUL ∈ value →
  event_in (ObbyEvent.event_out (Event.IsupportToken token (Some value))) = Some (Event.IsupportToken token None).
Proof.
  intros Ht Hn. unfold ObbyEvent.event_out, ObbyEvent.text, ObbyEvent.of_kind.
  cbn [ObbyEvent.kind ObbyEvent.texts ObbyEvent.numbers ObbyEvent.json].
  rewrite (c_string_nul value Hn), (c_string_carried token Ht). look.
  destruct Ht. by rewrite from_utf8_encode.
Qed.
End events.

(** Where there is an engine there is its JSON. *)
Theorem json_comes_from_live `{Unicode, Base64, Crypto, SerdeLaws, Allocator} a e h m :
  h !! a = Some (AClient e) → m = PollEventsJson ∨ m = ModelJson →
  ∃ p s h', exec (On (Some a) m) h = Some (Pointer (Some p), h') ∧ h' !! p = Some (AString s).
Proof.
  intros E Hm. assert (readable m) as Hr by by destruct Hm as [-> | ->].
  assert (∃ s, made m e = Some (AString s)) as [s Hs].
  { destruct Hm as [-> | ->]; cbn [made].
    - destruct (events_written (Core.events (Client.core e))) as (t & -> & Ht). exists (encode t). cbn [mbind option_bind].
      unfold c_string. by rewrite decide_False.
    - destruct (model_written (Core.model (Client.core e))) as (t & -> & Ht). exists (encode t). cbn [mbind option_bind].
      unfold c_string. by rewrite decide_False. }
  destruct (exec_on a e m h E Hr) as (r & He & Hg). rewrite Hs in He, Hg. rewrite He.
  destruct Hm as [-> | ->]; cbn in Hg; destruct r as [| |[p|]| | | |]; try done; cbn in Hg; simplify_eq;
    eexists _, s, _; (split; [reflexivity|]); apply lookup_insert_eq.
Qed.

(** ** Instances *)

(** An allocator, and a serde that reads nothing but plain text and writes nothing but brackets. *)
#[local] Instance some_free : Allocator := {| allocate X := fresh X |}.
#[local] Instance some_free_laws : AllocatorLaws.
Proof. constructor. intros X. apply is_fresh. Qed.
#[local] Instance plain_serde : Serde := {|
  config_from_str t := Some (Config.new t); command_from_str t := Some (Command.SendRawLine t); signal_from_str t := None;
  event_to_string _ := Some (lit "{}"); events_to_string _ := Some (lit "[]"); model_to_string _ := Some (lit "{}");
|}.
#[local] Instance plain_serde_laws : SerdeLaws.
Proof. constructor; intros; (eexists; split; [reflexivity|]); apply (bool_decide_unpack _); by vm_compute. Qed.

Abbreviation texec := (@exec ascii_table standard toy_crypto plain_serde some_free).
Abbreviation trun := (@run_calls ascii_table standard toy_crypto plain_serde some_free).
Definition c_chars (s : string) : cstr := Some (encode s ++ [NUL]).
Definition me_config : ObbyConfig := mkObbyConfig (c_chars "me") None None None 0.

Lemma c_contract_suffices_witness :
  ∃ h, @reached ascii_table standard toy_crypto plain_serde some_free {[1%positive := KClient]} h
     ∧ allowed {[1%positive := KClient]} (FreeClient (Some 1%positive))
     ∧ ∃ r h', texec (FreeClient (Some 1%positive)) h = Some (r, h') ∧ h' = ∅.
Proof.
  destruct (texec (New (Some me_config)) ∅) as [[r h]|] eqn:E; [|by vm_compute in E].
  assert (r = Pointer (Some 1%positive)) as Er by (vm_compute in E; by simplify_eq).
  assert (@reached ascii_table standard toy_crypto plain_serde some_free {[1%positive := KClient]} h) as Hr.
  { replace ({[1%positive := KClient]} : gmap positive kind) with (ledger_after ∅ (New (Some me_config)) r) by by rewrite Er.
    eapply reached_call; [apply reached_start|done|exact E]. }
  exists h. split; [done|]. split; [done|].
  destruct (@c_contract_suffices ascii_table standard toy_crypto plain_serde some_free some_free_laws _ _ (FreeClient (Some 1%positive)) Hr)
    as (r' & h' & He & _ & _ & Hl); [done|]. exists r', h'. split; [exact He|]. by apply Hl.
Defined.

Lemma handle_is_its_engine_witness :
  ∃ h' e', trun [On (Some 1) HandleConnected; New (Some me_config); On (Some 2) HandleConnected; On (Some 1) PollTransmit;
                 On (Some 2) (Asks (Join (c_chars "#c") None)); FreeClient (Some 2); On (Some 1) (Asks (Quit None))]%positive
    (<[1%positive := AClient (Client.new (Config.new "me"))]> ∅) = Some h'
  ∧ h'.2 !! 1%positive = Some (AClient e') ∧ length (Core.outbox (Client.core e')) = 3%nat.
Proof.
  destruct (trun _ _) as [[rs h']|] eqn:E; [|by vm_compute in E].
  exists (rs, h'). eexists. split; [reflexivity|]. split.
  - eapply (@handle_is_its_engine ascii_table standard toy_crypto plain_serde some_free some_free_laws
      1%positive (Client.new (Config.new "me"))); [apply lookup_insert_eq| |exact E].
    rewrite !not_elem_of_cons. split_and!; try done. apply not_elem_of_nil.
  - by vm_compute.
Defined.

Lemma c_engines_stay_sound_witness :
  ∃ h' e', trun [On (Some 1%positive) HandleConnected; On (Some 1%positive) (Asks (Join (c_chars "#c") None));
                 On (Some 1%positive) PollTransmit]
    (<[1%positive := AClient (Client.new (Config.new "me"))]> ∅) = Some h'
  ∧ h'.2 !! 1%positive = Some (AClient e') ∧ sound_host e'.
Proof.
  destruct (trun _ _) as [[rs h']|] eqn:E; [|by vm_compute in E].
  edestruct (@c_engines_stay_sound ascii_table standard toy_crypto plain_serde some_free some_free_laws
    1%positive (Config.new "me")) as (e & He & Hs); [apply lookup_insert_eq| | |exact E|by exists (rs, h'), e].
  - rewrite !not_elem_of_cons. split_and!; try done. apply not_elem_of_nil.
  - apply (bool_decide_unpack _). by vm_compute.
Defined.

Lemma request_answers_witness :
  ∃ b h', texec (On (Some 1%positive) (Asks (SetTyping (c_chars "#c") (c_chars "asleep"))))
    (<[1%positive := AClient (Client.new (Config.new "me"))]> ∅) = Some (Flag b, h') ∧ b = false.
Proof.
  destruct (@request_answers ascii_table standard toy_crypto plain_serde some_free (Some 1%positive)
    (SetTyping (c_chars "#c") (c_chars "asleep")) (<[1%positive := AClient (Client.new (Config.new "me"))]> ∅)) as (b & h' & He & Hb & _).
  - cbn. by rewrite fmap_insert, lookup_insert_eq.
  - exists b, h'. split; [exact He|]. destruct b; [|done]. destruct (proj1 Hb eq_refl) as [_ [f Hf]]. by vm_compute in Hf.
Defined.

Lemma events_read_back_witness :
  event_in (ObbyEvent.event_out (Event.CapabilitiesAcknowledged [lit "sasl"; lit "batch"])) =
    Some (Event.CapabilitiesAcknowledged [lit "sasl"; lit "batch"]).
Proof. apply events_read_back. cbn [legible]. unfold carried. apply (bool_decide_unpack _). by vm_compute. Defined.

(** The server says so itself: an ISUPPORT value may escape a NUL. *)
Lemma nul_value_reads_as_none_witness :
  event_in (ObbyEvent.event_out (Event.IsupportToken "NETWORK" (Some (lit "a" ++ [NUL])))) = Some (Event.IsupportToken "NETWORK" None)
  ∧ Core.events (Client.core (@Client.handle_bytes ascii_table standard toy_crypto
      (encode ":irc 005 me NETWORK=a\x00 :are supported" ++ [chLF]) (Client.new (Config.new "me")))) =
    [Event.IsupportToken "NETWORK" (Some (lit "a" ++ [NUL]))].
Proof.
  split; [|by vm_compute]. apply nul_value_reads_as_none; [|by vm_compute; set_solver].
  unfold carried. apply (bool_decide_unpack _). by vm_compute.
Defined.

Lemma json_comes_from_live_witness :
  ∃ p s h', texec (On (Some 1%positive) ModelJson) (<[1%positive := AClient (Client.new (Config.new "me"))]> ∅)
    = Some (Pointer (Some p), h') ∧ h' !! p = Some (AString s).
Proof. eapply (@json_comes_from_live ascii_table standard toy_crypto plain_serde _ some_free); [apply lookup_insert_eq|by right]. Defined.
