(* ===== verification/Wasm.v ===== *)
(** * The JavaScript interface (src/bindings/obby-wasm/src/lib.rs)

    [ObbyClient] wraps an engine: strings and byte slices arrive converted, values of other shapes
    are read and written by serde-wasm-bindgen, an interface here. The one conversion the file does
    itself is that of milliseconds, between the engine's [u64] and JavaScript's [f64] (a [spec_float]
    of 53 bits): a deadline the engine names comes back to it exactly. *)
From Stdlib Require Import SpecFloat.
From S2P Require Import Prelude Utf8 Message Base64 Sasl Scram Timer Model Session Voice Command Client Ffi.

(** ** Milliseconds *)

Abbreviation f64 := spec_float (only parsing).
Definition f64_prec : Z := 53.
Definition f64_emax : Z := 1024.

Definition is_finite (v : f64) : bool := match v with S754_zero _ | S754_finite _ _ _ => true | _ => false end.
(** [f64::trunc] and the saturating cast to [u64]. *)
Definition trunc_as_u64 (v : f64) : Z :=
  match v with
  | S754_finite false m e => Z.min (Z.shiftl (Zpos m) e) u64_max
  | S754_infinity false => u64_max
  | _ => 0
  end.
(* obby-wasm/src/lib.rs 62-70 as_millis *)
Definition as_millis (value : f64) : Z :=
  if is_finite value && SFleb (S754_zero false) value then trunc_as_u64 value else 0.
(** A cast to [f64] rounds to the nearest, ties to even. *)
(* obby-wasm/src/lib.rs 73-75 as_js_number *)
Definition as_js_number (value : Z) : f64 := binary_normalize f64_prec f64_emax value 0 false.

(** ** The client *)

(** JavaScript values, and what serde-wasm-bindgen reads from them and writes to them; an error is a
    value to throw. *)
Class Js := {
  JsValue : Type;
  config_from_value : JsValue → JsValue + Config.t;
  command_from_value : JsValue → JsValue + Command.t;
  typing_from_value : JsValue → JsValue + TypingState.t;
  signal_from_value : JsValue → JsValue + Signal.t;
  events_to_value : list Event.t → JsValue + JsValue;
  model_to_value : Model.t → JsValue + JsValue;
}.

Module ObbyClient.
(* obby-wasm/src/lib.rs 115-117 ObbyClient *)
Record t := mk { inner : Client.t }.

Section methods.
Context `{Unicode, Base64, Crypto, Js}.

(* obby-wasm/src/lib.rs 126-131 ObbyClient::new *)
Definition new (config : JsValue) : JsValue + t := config ← config_from_value config; inr (mk (Client.new config)).
(* obby-wasm/src/lib.rs 135-137 ObbyClient::handle_connected *)
Definition handle_connected (s : t) : t := mk (Client.handle_connected (inner s)).
(* obby-wasm/src/lib.rs 141-143 ObbyClient::handle_disconnected *)
Definition handle_disconnected (s : t) : t := mk (Client.handle_disconnected (inner s)).
(* obby-wasm/src/lib.rs 147-152 ObbyClient::tick *)
Definition tick (monotonic_ms unix_ms : f64) (s : t) : t :=
  mk (Client.tick (mkNow (as_millis monotonic_ms) (as_millis unix_ms)) (inner s)).
(* obby-wasm/src/lib.rs 158-160 ObbyClient::poll_timeout *)
Definition poll_timeout (s : t) : option f64 := as_js_number <$> Core.poll_timeout (Client.core (inner s)).
(* obby-wasm/src/lib.rs 443-445 ObbyClient::apply *)
Definition apply (command : Command.t) (s : t) : t := mk (Client.command command (inner s)).
(* obby-wasm/src/lib.rs 169-171 ObbyClient::join *)
Definition join (channel : text) (key : option text) (s : t) : t := apply (Command.Join channel key) s.
(* obby-wasm/src/lib.rs 174-176 ObbyClient::part *)
Definition part (channel : text) (reason : option text) (s : t) : t := apply (Command.Part channel reason) s.
(* obby-wasm/src/lib.rs 186-188 ObbyClient::send_message *)
Definition send_message (target body : text) (s : t) : t := apply (Command.SendMessage target body) s.
(* obby-wasm/src/lib.rs 192-194 ObbyClient::send_notice *)
Definition send_notice (target body : text) (s : t) : t := apply (Command.SendNotice target body) s.
(* obby-wasm/src/lib.rs 198-200 ObbyClient::send_action *)
Definition send_action (target body : text) (s : t) : t := apply (Command.SendAction target body) s.
(* obby-wasm/src/lib.rs 204-206 ObbyClient::set_nick *)
Definition set_nick (nick : text) (s : t) : t := apply (Command.SetNick nick) s.
(* obby-wasm/src/lib.rs 210-212 ObbyClient::set_topic *)
Definition set_topic (channel : text) (topic : option text) (s : t) : t := apply (Command.SetTopic channel topic) s.
(* obby-wasm/src/lib.rs 216-218 ObbyClient::set_away *)
Definition set_away (message : option text) (s : t) : t := apply (Command.SetAway message) s.
(* obby-wasm/src/lib.rs 222-226 ObbyClient::set_typing *)
Definition set_typing (target : text) (state : JsValue) (s : t) : JsValue + t :=
  state ← typing_from_value state; inr (apply (Command.SetTyping target state) s).
(* obby-wasm/src/lib.rs 230-236 ObbyClient::add_reaction *)
Definition add_reaction (target msgid emoji : text) (s : t) : t := apply (Command.AddReaction target msgid emoji) s.
(* obby-wasm/src/lib.rs 240-246 ObbyClient::remove_reaction *)
Definition remove_reaction (target msgid emoji : text) (s : t) : t := apply (Command.RemoveReaction target msgid emoji) s.
(* obby-wasm/src/lib.rs 250-256 ObbyClient::redact_message *)
Definition redact_message (target msgid : text) (reason : option text) (s : t) : t := apply (Command.RedactMessage target msgid reason) s.
(* obby-wasm/src/lib.rs 260-265 ObbyClient::mark_read *)
Definition mark_read (target : text) (at_ms : f64) (s : t) : t := apply (Command.MarkRead target (as_millis at_ms)) s.
(* obby-wasm/src/lib.rs 269-275 ObbyClient::fetch_history *)
Definition fetch_history (target : text) (before_msgid : option text) (limit : Z) (s : t) : t := apply (Command.FetchHistory target before_msgid limit) s.
(* obby-wasm/src/lib.rs 279-281 ObbyClient::set_metadata *)
Definition set_metadata (key : text) (value : option text) (s : t) : t := apply (Command.SetMetadata key value) s.
(* obby-wasm/src/lib.rs 285-287 ObbyClient::subscribe_metadata *)
Definition subscribe_metadata (keys : list text) (s : t) : t := apply (Command.SubscribeMetadata keys) s.
(* obby-wasm/src/lib.rs 290-292 ObbyClient::whois *)
Definition whois (nick : text) (s : t) : t := apply (Command.Whois nick) s.
(* obby-wasm/src/lib.rs 296-302 ObbyClient::rename_channel *)
Definition rename_channel (channel new_name : text) (reason : option text) (s : t) : t := apply (Command.RenameChannel channel new_name reason) s.
(* obby-wasm/src/lib.rs 306-311 ObbyClient::create_invite_link *)
Definition create_invite_link (channel description : option text) (s : t) : t := apply (Command.CreateInviteLink channel description) s.
(* obby-wasm/src/lib.rs 315-317 ObbyClient::list_invite_links *)
Definition list_invite_links (s : t) : t := apply (Command.ListInviteLinks) s.
(* obby-wasm/src/lib.rs 321-323 ObbyClient::delete_invite_link *)
Definition delete_invite_link (share_id : text) (s : t) : t := apply (Command.DeleteInviteLink share_id) s.
(* obby-wasm/src/lib.rs 327-329 ObbyClient::redeem_invite_code *)
Definition redeem_invite_code (code : text) (s : t) : t := apply (Command.RedeemInviteCode code) s.
(* obby-wasm/src/lib.rs 333-335 ObbyClient::generate_token *)
Definition generate_token (service : text) (s : t) : t := apply (Command.GenerateToken service) s.
(* obby-wasm/src/lib.rs 339-341 ObbyClient::watch_nicks *)
Definition watch_nicks (nicks : list text) (s : t) : t := apply (Command.WatchNicks nicks) s.
(* obby-wasm/src/lib.rs 345-347 ObbyClient::unwatch_nicks *)
Definition unwatch_nicks (nicks : list text) (s : t) : t := apply (Command.UnwatchNicks nicks) s.
(* obby-wasm/src/lib.rs 351-359 ObbyClient::send_voice_signal *)
Definition send_voice_signal (channel : text) (signal : JsValue) (s : t) : JsValue + t :=
  signal ← signal_from_value signal; inr (apply (Command.SendVoiceSignal channel signal) s).
(* obby-wasm/src/lib.rs 362-364 ObbyClient::quit *)
Definition quit (reason : option text) (s : t) : t := apply (Command.Quit reason) s.
(* obby-wasm/src/lib.rs 368-370 ObbyClient::send_raw_line *)
Definition send_raw_line (line : text) (s : t) : t := apply (Command.SendRawLine line) s.
(* obby-wasm/src/lib.rs 385-389 ObbyClient::command *)
Definition command (command : JsValue) (s : t) : JsValue + t := command ← command_from_value command; inr (apply command s).
(* obby-wasm/src/lib.rs 393-395 ObbyClient::handle_bytes *)
Definition handle_bytes (data : list octet) (s : t) : t := mk (Client.handle_bytes data (inner s)).
(* obby-wasm/src/lib.rs 403-405 ObbyClient::poll_transmit *)
Definition poll_transmit (s : t) : option (list octet) * t :=
  let '(data, c) := Client.poll_transmit (inner s) in (data, mk c).
(* obby-wasm/src/lib.rs 447-453 ObbyClient::drain_events *)
Definition drain_events (s : t) : list Event.t * t := let '(events, c) := Ffi.drain_events (inner s) in (events, mk c).
(** The events are taken out whether or not they can be written. *)
(* obby-wasm/src/lib.rs 431-433 ObbyClient::poll_events *)
Definition poll_events (s : t) : (JsValue + JsValue) * t := let '(events, s) := drain_events s in (events_to_value events, s).
(* obby-wasm/src/lib.rs 437-439 ObbyClient::model *)
Definition model (s : t) : JsValue + JsValue := model_to_value (Core.model (Client.core (inner s))).
End methods.
End ObbyClient.

(** ** Milliseconds cross unchanged *)

Lemma digits2_bounds p : 2 ^ (Zpos (digits2_pos p) - 1) <= Zpos p < 2 ^ Zpos (digits2_pos p).
Proof.
  induction p as [p IH|p IH|]; cbn [digits2_pos]; [| |done]; rewrite Pos2Z.inj_succ;
    replace (Z.succ (Zpos (digits2_pos p)) - 1) with (Z.succ (Zpos (digits2_pos p) - 1)) by lia;
    rewrite !Z.pow_succ_r by lia; lia.
Qed.
Lemma digits2_le p n : Zpos p < 2 ^ n → Zpos (digits2_pos p) <= n.
Proof.
  intros Hp. destruct (Z.le_gt_cases (Zpos (digits2_pos p)) n) as [|Hgt]; [done|].
  pose proof (digits2_bounds p) as [Hl _]. assert (2 ^ n <= 2 ^ (Zpos (digits2_pos p) - 1)); [|lia].
  destruct (Z.le_gt_cases 0 n); [apply Z.pow_le_mono_r; lia|]. rewrite Z.pow_neg_r by done. lia.
Qed.

Lemma iter_xO p d : Zpos (Pos.iter xO p d) = Z.shiftl (Zpos p) (Zpos d).
Proof. by apply Pos.iter_swap_gen. Qed.
Lemma digits2_iter p d : Zpos (digits2_pos (Pos.iter xO p d)) = Zpos (digits2_pos p) + Zpos d.
Proof. induction d as [|d IH] using Pos.peano_ind; [cbn; lia|]. rewrite Pos.iter_succ. cbn [digits2_pos]. lia. Qed.

(** A mantissa of exactly 53 digits is kept as it is. *)
Lemma round_exact m e :
  Zpos (digits2_pos m) = f64_prec → -1074 <= e <= 971 →
  binary_round_aux f64_prec f64_emax false (Zpos m) e loc_Exact = S754_finite false m e.
Proof.
  intros Hm He.
  assert (∀ l, shr_fexp f64_prec f64_emax (Zpos m) e l = (shr_record_of_loc (Zpos m) l, e)) as Hs.
  { intros l. unfold shr_fexp. cbn [Zdigits2]. rewrite Hm. unfold fexp, emin, f64_prec, f64_emax.
    replace (Z.max _ _ - e) with 0 by lia. done. }
  unfold binary_round_aux. rewrite Hs. cbn [shr_record_of_loc shr_m loc_of_shr_record round_nearest_even].
  rewrite Hs. cbn [shr_record_of_loc shr_m]. unfold f64_emax, f64_prec. rewrite (proj2 (Z.leb_le e _)) by lia. done.
Qed.

Lemma as_js_number_pos p :
  Zpos p < 2 ^ 53 → ∃ m d, as_js_number (Zpos p) = S754_finite false m (- d) ∧ 0 <= d ∧ Zpos m = Z.shiftl (Zpos p) d.
Proof.
  intros Hp. apply digits2_le in Hp. unfold as_js_number, binary_normalize, binary_round, shl_align.
  set (k := Zpos (digits2_pos p)) in *.
  assert (1 <= k) by (subst k; lia).
  assert (fexp f64_prec f64_emax (k + 0) - 0 = k - 53) as ->.
  { unfold fexp, emin, f64_prec, f64_emax. lia. }
  destruct (k - 53) as [|d|d] eqn:Ed; [|lia|].
  - exists p, 0. rewrite round_exact; [by rewrite Z.shiftl_0_r|unfold f64_prec; lia|lia].
  - exists (Pos.iter xO p d), (Zpos d). 
    replace (fexp f64_prec f64_emax (k + 0)) with (- Zpos d) by (unfold fexp, emin, f64_prec, f64_emax; lia).
    rewrite round_exact; [|etransitivity; [apply digits2_iter|unfold f64_prec; lia]|lia].
    split_and!; [reflexivity|done|apply iter_xO].
Qed.

Lemma as_millis_js n : 0 <= n < 2 ^ 53 → as_millis (as_js_number n) = n.
Proof.
  intros [Hn Hm]. destruct n as [|p|p]; [done| |lia].
  destruct (as_js_number_pos p Hm) as (m & d & -> & Hd & Em). unfold as_millis. cbn [is_finite andb SFleb SFcompare].
  cbn [trunc_as_u64]. rewrite Em, Z.shiftl_shiftl by lia. rewrite Z.add_opp_diag_r, Z.shiftl_0_r.
  unfold u64_max. lia.
Qed.

Lemma as_millis_u64 v : in_u64 (as_millis v).
Proof.
  unfold as_millis, in_u64, u64_max. destruct (is_finite v && _); [|lia].
  destruct v as [[]|[]| |[] m e]; cbn [trunc_as_u64]; unfold u64_max; try lia.
  split; [|lia]. apply Z.min_glb; [|lia]. by apply Z.shiftl_nonneg.
Qed.

Definition below_zero (v : f64) : bool := SFltb v (S754_zero false).

(** C30. The clock crosses into JavaScript and back. A host that sets one timer for the instant [pollTimeout]
    names and ticks with that very number ticks the engine at its deadline, not a millisecond off, for every
    deadline of the first 2^53 ms (285,000 years); and whatever number a host passes, NaN, an infinity or a
    negative one included, the engine is given a [u64], which for those three is zero. *)
Theorem js_clock_exact `{Unicode, Base64, Crypto} (v : f64) (s : ObbyClient.t) :
  in_u64 (as_millis v) ∧ (is_finite v = false ∨ below_zero v = true → as_millis v = 0)
  ∧ ∀ n, Core.poll_timeout (Client.core (ObbyClient.inner s)) = Some n → 0 <= n < 2 ^ 53 →
      ∃ w, ObbyClient.poll_timeout s = Some w
         ∧ ObbyClient.tick w v s = ObbyClient.mk (Client.tick (mkNow n (as_millis v)) (ObbyClient.inner s)).
Proof.
  split; [apply as_millis_u64|]. split.
  - unfold as_millis, below_zero. intros [->|Hv]; [done|]. by destruct v as [[]|[]| |[] m e].
  - intros n Hn Hr. unfold ObbyClient.poll_timeout. rewrite Hn. eexists. split; [reflexivity|].
    unfold ObbyClient.tick. by rewrite as_millis_js.
Qed.

(** From 2^53 on a number stands for its neighbours too. *)
Example millis_round : as_millis (as_js_number (2 ^ 53 + 1)) = 2 ^ 53.
Proof. reflexivity. Qed.

Lemma js_clock_exact_witness :
  let s := ObbyClient.handle_connected (ObbyClient.mk (Client.new (Config.new "me"))) in
  ∃ w, ObbyClient.poll_timeout s = Some w
     ∧ ObbyClient.tick w (S754_nan) s = ObbyClient.mk (Client.tick (mkNow 30000 0) (ObbyClient.inner s)).
Proof.
  cbv zeta.
  apply (proj2 (proj2 (@js_clock_exact ascii_table standard toy_crypto S754_nan
    (ObbyClient.handle_connected (ObbyClient.mk (Client.new (Config.new "me"))))))); [by vm_compute|lia].
Defined.
