(* ===== verification/Python.v ===== *)
(** * The Python interface (src/bindings/obby-python/src)

    [PyClient] is the class of lib.rs. Config, commands and voice signals arrive as a string of JSON or as
    an object that [json.dumps] turns into one; events and the model leave as JSON for [json.loads].
    An error is what is raised. The interpreter and serde_json are interfaces.

    The theorem at the end compares the three bindings. *)
From S2P Require Import Prelude Utf8 Message Base64 Sasl Scram Timer Model Session Voice Command Client Ffi FfiHost Wasm.

(** Python objects and exceptions: a [str] gives its text, [dumps] and [loads] are the [json] module's, and
    [value_error] builds a [ValueError] about something. Credentials are read by serde_json. *)
Class Python := {
  PyAny : Type; PyErr : Type;
  extract_string : PyAny → option text;
  dumps : PyAny → PyErr + text;
  loads : text → PyErr + PyAny;
  value_error : text → text → PyErr;
  credentials_from_str : text → option Sasl.Credentials;
}.

Section convert.
Context `{Serde, Python}.
(* obby-python/src/convert.rs 13-15 config_from_json *)
Definition config_from_json (json : text) : option Config.t := config_from_str json.
(* obby-python/src/convert.rs 18-20 credentials_from_json *)
Definition credentials_from_json (json : text) : option Sasl.Credentials := credentials_from_str json.
(* obby-python/src/convert.rs 23-25 command_from_json *)
Definition command_from_json (json : text) : option Command.t := command_from_str json.
(* obby-python/src/convert.rs 28-30 signal_from_json *)
Definition signal_from_json (json : text) : option Signal.t := signal_from_str json.
(* obby-python/src/convert.rs 38-44 drain_events *)
Definition drain_events (client : Client.t) : list Event.t * Client.t := Ffi.drain_events client.
(* obby-python/src/convert.rs 47-49 events_to_json *)
Definition events_to_json (events : list Event.t) : option text := events_to_string events.

(* obby-python/src/lib.rs 431-435 json_to_python *)
Definition json_to_python (json : text) : PyErr + PyAny := loads json.
(* obby-python/src/lib.rs 442-449 python_to_json *)
Definition python_to_json (value : PyAny) : PyErr + text :=
  match extract_string value with Some text => inr text | None => dumps value end.
End convert.

Module PyClient.
(* obby-python/src/lib.rs 57-59 Client *)
Record t := mk { inner : Client.t }.

Section methods.
Context `{Unicode, Base64, Crypto, Serde, Python}.

(* obby-python/src/lib.rs 76-107 Client::new *)
Definition new (nick : text) (username realname password : option text) (sasl : option PyAny) (retention : option nat)
    (alt_nicks : option (list text)) : PyErr + t :=
  let base := Config.new nick in
  sasl ← match sasl with
         | None => inr (Config.sasl base)
         | Some sasl =>
             json ← python_to_json sasl;
             credentials ← ok_or (value_error "invalid sasl" json) (credentials_from_json json);
             inr (Some credentials)
         end;
  inr (mk (Client.new (Config.mk nick (default (Config.username base) username) (default (Config.realname base) realname)
    password sasl (default (Config.retention base) retention) (default (Config.alt_nicks base) alt_nicks)))).
(* obby-python/src/lib.rs 115-122 Client::from_config *)
Definition from_config (config : PyAny) : PyErr + t :=
  json ← python_to_json config;
  config ← ok_or (value_error "invalid config" json) (config_from_json json);
  inr (mk (Client.new config)).
(* obby-python/src/lib.rs 125-128 Client::handle_connected *)
Definition handle_connected (s : t) : t := mk (Client.handle_connected (inner s)).
(* obby-python/src/lib.rs 131-134 Client::handle_disconnected *)
Definition handle_disconnected (s : t) : t := mk (Client.handle_disconnected (inner s)).
(* obby-python/src/lib.rs 139-147 Client::tick *)
Definition tick (monotonic_ms unix_ms : Z) (s : t) : t := mk (Client.tick (mkNow monotonic_ms unix_ms) (inner s)).
(* obby-python/src/lib.rs 152-154 Client::poll_timeout *)
Definition poll_timeout (s : t) : option Z := Core.poll_timeout (Client.core (inner s)).
(** [self.inner.command], the last line of each of the methods below. *)
Definition apply (command : Command.t) (s : t) : t := mk (Client.command command (inner s)).
(* obby-python/src/lib.rs 176-178 Client::join *)
Definition join (channel : text) (key : option text) (s : t) : t := apply (Command.Join channel key) s.
(* obby-python/src/lib.rs 182-184 Client::part *)
Definition part (channel : text) (reason : option text) (s : t) : t := apply (Command.Part channel reason) s.
(* obby-python/src/lib.rs 192-194 Client::send_message *)
Definition send_message (target body : text) (s : t) : t := apply (Command.SendMessage target body) s.
(* obby-python/src/lib.rs 197-199 Client::send_notice *)
Definition send_notice (target body : text) (s : t) : t := apply (Command.SendNotice target body) s.
(* obby-python/src/lib.rs 202-204 Client::send_action *)
Definition send_action (target body : text) (s : t) : t := apply (Command.SendAction target body) s.
(* obby-python/src/lib.rs 207-209 Client::set_nick *)
Definition set_nick (nick : text) (s : t) : t := apply (Command.SetNick nick) s.
(* obby-python/src/lib.rs 213-215 Client::set_topic *)
Definition set_topic (channel : text) (topic : option text) (s : t) : t := apply (Command.SetTopic channel topic) s.
(* obby-python/src/lib.rs 219-221 Client::set_away *)
Definition set_away (message : option text) (s : t) : t := apply (Command.SetAway message) s.
(* obby-python/src/lib.rs 225-238 Client::set_typing *)
Definition set_typing (target state : text) (s : t) : PyErr + t :=
  match typing_state state with
  | Some state => inr (apply (Command.SetTyping target state) s)
  | None => inl (value_error "invalid typing state" state)
  end.
(* obby-python/src/lib.rs 241-247 Client::add_reaction *)
Definition add_reaction (target msgid emoji : text) (s : t) : t := apply (Command.AddReaction target msgid emoji) s.
(* obby-python/src/lib.rs 250-256 Client::remove_reaction *)
Definition remove_reaction (target msgid emoji : text) (s : t) : t := apply (Command.RemoveReaction target msgid emoji) s.
(* obby-python/src/lib.rs 260-266 Client::redact_message *)
Definition redact_message (target msgid : text) (reason : option text) (s : t) : t := apply (Command.RedactMessage target msgid reason) s.
(* obby-python/src/lib.rs 269-271 Client::mark_read *)
Definition mark_read (target : text) (at_ms : Z) (s : t) : t := apply (Command.MarkRead target at_ms) s.
(* obby-python/src/lib.rs 276-282 Client::fetch_history *)
Definition fetch_history (target : text) (before_msgid : option text) (limit : Z) (s : t) : t := apply (Command.FetchHistory target before_msgid limit) s.
(* obby-python/src/lib.rs 286-288 Client::set_metadata *)
Definition set_metadata (key : text) (value : option text) (s : t) : t := apply (Command.SetMetadata key value) s.
(* obby-python/src/lib.rs 291-293 Client::subscribe_metadata *)
Definition subscribe_metadata (keys : list text) (s : t) : t := apply (Command.SubscribeMetadata keys) s.
(* obby-python/src/lib.rs 297-299 Client::whois *)
Definition whois (nick : text) (s : t) : t := apply (Command.Whois nick) s.
(* obby-python/src/lib.rs 303-309 Client::rename_channel *)
Definition rename_channel (channel new_name : text) (reason : option text) (s : t) : t := apply (Command.RenameChannel channel new_name reason) s.
(* obby-python/src/lib.rs 313-318 Client::create_invite_link *)
Definition create_invite_link (channel description : option text) (s : t) : t := apply (Command.CreateInviteLink channel description) s.
(* obby-python/src/lib.rs 321-323 Client::list_invite_links *)
Definition list_invite_links (s : t) : t := apply (Command.ListInviteLinks) s.
(* obby-python/src/lib.rs 326-328 Client::delete_invite_link *)
Definition delete_invite_link (share_id : text) (s : t) : t := apply (Command.DeleteInviteLink share_id) s.
(* obby-python/src/lib.rs 331-333 Client::redeem_invite_code *)
Definition redeem_invite_code (code : text) (s : t) : t := apply (Command.RedeemInviteCode code) s.
(* obby-python/src/lib.rs 336-338 Client::generate_token *)
Definition generate_token (service : text) (s : t) : t := apply (Command.GenerateToken service) s.
(* obby-python/src/lib.rs 341-343 Client::watch_nicks *)
Definition watch_nicks (nicks : list text) (s : t) : t := apply (Command.WatchNicks nicks) s.
(* obby-python/src/lib.rs 346-348 Client::unwatch_nicks *)
Definition unwatch_nicks (nicks : list text) (s : t) : t := apply (Command.UnwatchNicks nicks) s.
(* obby-python/src/lib.rs 352-358 Client::send_voice_signal *)
Definition send_voice_signal (channel : text) (signal : PyAny) (s : t) : PyErr + t :=
  json ← python_to_json signal;
  signal ← ok_or (value_error "invalid voice signal" json) (signal_from_json json);
  inr (apply (Command.SendVoiceSignal channel signal) s).
(* obby-python/src/lib.rs 362-364 Client::quit *)
Definition quit (reason : option text) (s : t) : t := apply (Command.Quit reason) s.
(* obby-python/src/lib.rs 367-369 Client::send_raw_line *)
Definition send_raw_line (line : text) (s : t) : t := apply (Command.SendRawLine line) s.
(* obby-python/src/lib.rs 159-167 Client::command *)
Definition command (command : PyAny) (s : t) : PyErr + t :=
  json ← python_to_json command;
  command ← ok_or (value_error "invalid command" json) (command_from_json json);
  inr (apply command s).
(* obby-python/src/lib.rs 373-376 Client::handle_bytes *)
Definition handle_bytes (data : list octet) (s : t) : t := mk (Client.handle_bytes data (inner s)).
(* obby-python/src/lib.rs 382-384 Client::poll_transmit *)
Definition poll_transmit (s : t) : option (list octet) * t :=
  let '(data, c) := Client.poll_transmit (inner s) in (data, mk c).
(* obby-python/src/lib.rs 404-410 Client::poll_events *)
Definition poll_events (s : t) : (PyErr + PyAny) * t :=
  let '(events, c) := drain_events (inner s) in
  (json ← ok_or (value_error "could not encode events" []) (events_to_json events); json_to_python json, mk c).
(* obby-python/src/lib.rs 417-423 Client::model *)
Definition model (s : t) : PyErr + PyAny :=
  json ← ok_or (value_error "could not encode the model" []) (model_to_string (Core.model (Client.core (inner s))));
  json_to_python json.
End methods.
End PyClient.

(** ** One command, three languages *)

(** How a host writes the two arguments that are not strings or numbers. *)
Class Hosts `{Js, Python} := {
  typing_value : TypingState.t → JsValue;
  signal_value : Signal.t → JsValue;
  signal_json : Signal.t → text;
  signal_object : Signal.t → PyAny;
}.
Section agree.
Context `{Unicode, Base64, Crypto, Serde, Hosts, Allocator}.

(** The C call for a command, with its strings encoded; the JavaScript and the Python method. *)
Definition to_c (t : text) : cstr := Some (encode t).
Definition maybe_c (t : option text) : cstr := encode <$> t.
Definition c_request (c : Command.t) : request :=
  match c with
  | Command.Join channel key => Join (to_c channel) (maybe_c key)
  | Command.Part channel reason => Part (to_c channel) (maybe_c reason)
  | Command.SendMessage target body => SendMessage (to_c target) (to_c body)
  | Command.SendNotice target body => SendNotice (to_c target) (to_c body)
  | Command.SendAction target body => SendAction (to_c target) (to_c body)
  | Command.SetNick nick => SetNick (to_c nick)
  | Command.SetTopic channel topic => SetTopic (to_c channel) (maybe_c topic)
  | Command.SetAway message => SetAway (maybe_c message)
  | Command.SetTyping target state => SetTyping (to_c target) (to_c (TypingState.as_str state))
  | Command.AddReaction target msgid emoji => AddReaction (to_c target) (to_c msgid) (to_c emoji)
  | Command.RemoveReaction target msgid emoji => RemoveReaction (to_c target) (to_c msgid) (to_c emoji)
  | Command.RedactMessage target msgid reason => RedactMessage (to_c target) (to_c msgid) (maybe_c reason)
  | Command.MarkRead target at_ms => MarkRead (to_c target) at_ms
  | Command.FetchHistory target before_msgid limit => FetchHistory (to_c target) (maybe_c before_msgid) limit
  | Command.SetMetadata key value => SetMetadata (to_c key) (maybe_c value)
  | Command.SubscribeMetadata keys => SubscribeMetadata (Some (to_c <$> keys))
  | Command.Whois nick => Whois (to_c nick)
  | Command.RenameChannel channel new_name reason => RenameChannel (to_c channel) (to_c new_name) (maybe_c reason)
  | Command.CreateInviteLink channel description => CreateInviteLink (maybe_c channel) (maybe_c description)
  | Command.ListInviteLinks => ListInviteLinks
  | Command.DeleteInviteLink share_id => DeleteInviteLink (to_c share_id)
  | Command.RedeemInviteCode code => RedeemInviteCode (to_c code)
  | Command.GenerateToken service => GenerateToken (to_c service)
  | Command.WatchNicks nicks => WatchNicks (Some (to_c <$> nicks))
  | Command.UnwatchNicks nicks => UnwatchNicks (Some (to_c <$> nicks))
  | Command.SendVoiceSignal channel signal => SendVoiceSignal (to_c channel) (to_c (signal_json signal))
  | Command.Quit reason => Quit (maybe_c reason)
  | Command.SendRawLine line => SendRawLine (to_c line)
  end.
Definition js_method (c : Command.t) (s : ObbyClient.t) : JsValue + ObbyClient.t :=
  match c with
  | Command.Join channel key => inr (ObbyClient.join channel key s)
  | Command.Part channel reason => inr (ObbyClient.part channel reason s)
  | Command.SendMessage target body => inr (ObbyClient.send_message target body s)
  | Command.SendNotice target body => inr (ObbyClient.send_notice target body s)
  | Command.SendAction target body => inr (ObbyClient.send_action target body s)
  | Command.SetNick nick => inr (ObbyClient.set_nick nick s)
  | Command.SetTopic channel topic => inr (ObbyClient.set_topic channel topic s)
  | Command.SetAway message => inr (ObbyClient.set_away message s)
  | Command.SetTyping target state => ObbyClient.set_typing target (typing_value state) s
  | Command.AddReaction target msgid emoji => inr (ObbyClient.add_reaction target msgid emoji s)
  | Command.RemoveReaction target msgid emoji => inr (ObbyClient.remove_reaction target msgid emoji s)
  | Command.RedactMessage target msgid reason => inr (ObbyClient.redact_message target msgid reason s)
  | Command.MarkRead target at_ms => inr (ObbyClient.mark_read target (as_js_number at_ms) s)
  | Command.FetchHistory target before_msgid limit => inr (ObbyClient.fetch_history target before_msgid limit s)
  | Command.SetMetadata key value => inr (ObbyClient.set_metadata key value s)
  | Command.SubscribeMetadata keys => inr (ObbyClient.subscribe_metadata keys s)
  | Command.Whois nick => inr (ObbyClient.whois nick s)
  | Command.RenameChannel channel new_name reason => inr (ObbyClient.rename_channel channel new_name reason s)
  | Command.CreateInviteLink channel description => inr (ObbyClient.create_invite_link channel description s)
  | Command.ListInviteLinks => inr (ObbyClient.list_invite_links s)
  | Command.DeleteInviteLink share_id => inr (ObbyClient.delete_invite_link share_id s)
  | Command.RedeemInviteCode code => inr (ObbyClient.redeem_invite_code code s)
  | Command.GenerateToken service => inr (ObbyClient.generate_token service s)
  | Command.WatchNicks nicks => inr (ObbyClient.watch_nicks nicks s)
  | Command.UnwatchNicks nicks => inr (ObbyClient.unwatch_nicks nicks s)
  | Command.SendVoiceSignal channel signal => ObbyClient.send_voice_signal channel (signal_value signal) s
  | Command.Quit reason => inr (ObbyClient.quit reason s)
  | Command.SendRawLine line => inr (ObbyClient.send_raw_line line s)
  end.
Definition py_method (c : Command.t) (s : PyClient.t) : PyErr + PyClient.t :=
  match c with
  | Command.Join channel key => inr (PyClient.join channel key s)
  | Command.Part channel reason => inr (PyClient.part channel reason s)
  | Command.SendMessage target body => inr (PyClient.send_message target body s)
  | Command.SendNotice target body => inr (PyClient.send_notice target body s)
  | Command.SendAction target body => inr (PyClient.send_action target body s)
  | Command.SetNick nick => inr (PyClient.set_nick nick s)
  | Command.SetTopic channel topic => inr (PyClient.set_topic channel topic s)
  | Command.SetAway message => inr (PyClient.set_away message s)
  | Command.SetTyping target state => PyClient.set_typing target (TypingState.as_str state) s
  | Command.AddReaction target msgid emoji => inr (PyClient.add_reaction target msgid emoji s)
  | Command.RemoveReaction target msgid emoji => inr (PyClient.remove_reaction target msgid emoji s)
  | Command.RedactMessage target msgid reason => inr (PyClient.redact_message target msgid reason s)
  | Command.MarkRead target at_ms => inr (PyClient.mark_read target at_ms s)
  | Command.FetchHistory target before_msgid limit => inr (PyClient.fetch_history target before_msgid limit s)
  | Command.SetMetadata key value => inr (PyClient.set_metadata key value s)
  | Command.SubscribeMetadata keys => inr (PyClient.subscribe_metadata keys s)
  | Command.Whois nick => inr (PyClient.whois nick s)
  | Command.RenameChannel channel new_name reason => inr (PyClient.rename_channel channel new_name reason s)
  | Command.CreateInviteLink channel description => inr (PyClient.create_invite_link channel description s)
  | Command.ListInviteLinks => inr (PyClient.list_invite_links s)
  | Command.DeleteInviteLink share_id => inr (PyClient.delete_invite_link share_id s)
  | Command.RedeemInviteCode code => inr (PyClient.redeem_invite_code code s)
  | Command.GenerateToken service => inr (PyClient.generate_token service s)
  | Command.WatchNicks nicks => inr (PyClient.watch_nicks nicks s)
  | Command.UnwatchNicks nicks => inr (PyClient.unwatch_nicks nicks s)
  | Command.SendVoiceSignal channel signal => PyClient.send_voice_signal channel (signal_object signal) s
  | Command.Quit reason => inr (PyClient.quit reason s)
  | Command.SendRawLine line => inr (PyClient.send_raw_line line s)
  end.

(** Documented of serde: what is written in the shape of a derived type is read back as it. *)
Definition signal_written (sg : Signal.t) : Prop :=
  signal_from_value (signal_value sg) = inr sg ∧ signal_from_str (signal_json sg) = Some sg
  ∧ carried (signal_json sg) ∧ python_to_json (signal_object sg) = inr (signal_json sg).
(** A command whose strings C can carry and whose time fits a JavaScript number. *)
Definition portable (c : Command.t) : Prop :=
  match c with
  | Command.Join t o | Command.Part t o | Command.SetTopic t o | Command.SetMetadata t o | Command.FetchHistory t o _ =>
      carried t ∧ from_option carried True o
  | Command.SendMessage t u | Command.SendNotice t u | Command.SendAction t u => carried t ∧ carried u
  | Command.SetNick t | Command.Whois t | Command.DeleteInviteLink t | Command.RedeemInviteCode t
  | Command.GenerateToken t | Command.SendRawLine t => carried t
  | Command.SetTyping t st => carried t ∧ typing_from_value (typing_value st) = inr st
  | Command.SendVoiceSignal t sg => carried t ∧ signal_written sg
  | Command.SetAway o | Command.Quit o => from_option carried True o
  | Command.AddReaction t u v | Command.RemoveReaction t u v => carried t ∧ carried u ∧ carried v
  | Command.RedactMessage t u o | Command.RenameChannel t u o => carried t ∧ carried u ∧ from_option carried True o
  | Command.MarkRead t at_ms => carried t ∧ 0 <= at_ms < 2 ^ 53
  | Command.SubscribeMetadata ts | Command.WatchNicks ts | Command.UnwatchNicks ts => Forall carried ts
  | Command.CreateInviteLink o p => from_option carried True o ∧ from_option carried True p
  | Command.ListInviteLinks => True
  end.

Lemma maybe_c_read o : from_option carried True o → str_from_ptr (maybe_c o) = o.
Proof. destruct o as [t|]; [|done]. apply str_from_ptr_carried. Qed.
Lemma array_read ts : Forall carried ts → strings_from_ptr_array (Some (to_c <$> ts)) = ts.
Proof.
  induction 1 as [|t ts Ht _ IH]; [done|]. unfold strings_from_ptr_array in *.
  change (omap str_from_ptr (to_c <$> t :: ts)) with
    (match str_from_ptr (to_c t) with Some y => y :: omap str_from_ptr (to_c <$> ts) | None => omap str_from_ptr (to_c <$> ts) end).
  unfold to_c at 1. by rewrite str_from_ptr_carried, IH.
Qed.
Lemma typing_read st : str_from_ptr (to_c (TypingState.as_str st)) = Some (TypingState.as_str st).
Proof. apply str_from_ptr_carried. unfold carried. apply (bool_decide_unpack _). by destruct st; vm_compute. Qed.
Lemma typing_state_read st : typing_state (TypingState.as_str st) = Some st.
Proof. by destruct st. Qed.

Lemma said_c_request c : portable c → said (c_request c) = Some (Client.command c).
Proof.
  intros Hp. destruct c; cbn [portable] in Hp; unfold signal_written in Hp; destruct_and?; cbn [c_request said];
    rewrite ?typing_read, ?maybe_c_read, ?array_read by done; unfold to_c;
    rewrite ?str_from_ptr_carried by done; cbn [mbind option_bind];
    rewrite ?typing_state_read; try match goal with Hs : signal_from_str _ = _ |- _ => rewrite Hs end; reflexivity.
Qed.

(** C12. The three bindings are one interface: a command asked for through the C function, the JavaScript method
    or the Python method of its name takes the engine to the same state, the one [Client::command] gives, and
    each says it was done (for strings C can carry, times that fit a JavaScript number, and voice signals
    written in the shape serde reads). *)
Theorem bindings_agree a c e h :
  portable c → h !! a = Some (AClient e) →
  (∃ h', exec (On (Some a) (Asks (c_request c))) h = Some (Flag true, h') ∧ h' !! a = Some (AClient (Client.command c e)))
  ∧ js_method c (ObbyClient.mk e) = inr (ObbyClient.mk (Client.command c e))
  ∧ py_method c (PyClient.mk e) = inr (PyClient.mk (Client.command c e)).
Proof.
  intros Hp E. split_and!.
  - eexists. cbn [exec exec_method]. split; [|apply lookup_insert_eq].
    unfold mbind, c_bind. rewrite exec_request_said, (with_client_at _ _ _ _ _ E), said_c_request by done. reflexivity.
  - destruct c; try reflexivity; cbn [js_method].
    + unfold ObbyClient.set_typing. by rewrite (proj2 Hp).
    + unfold ObbyClient.mark_read. rewrite as_millis_js; [done|apply Hp].
    + unfold ObbyClient.send_voice_signal. by rewrite (proj1 (proj2 Hp)).
  - destruct c; try reflexivity; cbn [py_method].
    + unfold PyClient.set_typing. by rewrite typing_state_read.
    + destruct Hp as (_ & _ & Hs & _ & Ho). unfold PyClient.send_voice_signal. rewrite Ho. cbn [mbind result_bind].
      unfold signal_from_json. by rewrite Hs.
Qed.
End agree.

(** ** An instance *)

(** JavaScript and Python values that are a signal or the text of one; a signal's JSON is the engine's own. *)
Inductive toy_value := VTyping (st : TypingState.t) | VSignal (sg : Signal.t) | VText (t : text).
#[local] Instance toy_js : Js := {|
  JsValue := toy_value;
  config_from_value v := match v with VText t => inr (Config.new t) | _ => inl v end;
  command_from_value v := match v with VText t => inr (Command.SendRawLine t) | _ => inl v end;
  typing_from_value v := match v with VTyping st => inr st | _ => inl v end;
  signal_from_value v := match v with VSignal sg => inr sg | _ => inl v end;
  events_to_value _ := inr (VText []); model_to_value _ := inr (VText []);
|}.
#[local] Instance toy_python : Python := {|
  PyAny := toy_value; PyErr := text;
  extract_string v := match v with VText t => Some t | _ => None end;
  dumps v := match v with VSignal sg => inr (Signal.to_json sg) | _ => inl (lit "TypeError") end;
  loads t := inr (VText t); value_error a b := a ++ b; credentials_from_str _ := None;
|}.
#[local] Instance signal_serde : Serde := {|
  config_from_str t := Some (Config.new t); command_from_str t := Some (Command.SendRawLine t); signal_from_str := Signal.from_json;
  event_to_string _ := Some (lit "{}"); events_to_string _ := Some (lit "[]"); model_to_string _ := Some (lit "{}");
|}.
#[local] Instance toy_hosts : Hosts := {|
  typing_value := VTyping; signal_value := VSignal; signal_json := Signal.to_json; signal_object := VSignal;
|}.
#[local] Instance first_free : Allocator := {| allocate X := fresh X |}.

Lemma bindings_agree_witness :
  let c := Command.SendVoiceSignal "^room" (Signal.Mic OnOff.On) in
  let e := Client.new (Config.new "me") in
  ∃ h' e', @exec ascii_table standard toy_crypto signal_serde first_free (On (Some 1%positive) (Asks (c_request c)))
      (<[1%positive := AClient e]> ∅) = Some (Flag true, h') ∧ h' !! 1%positive = Some (AClient e')
    ∧ @js_method ascii_table toy_js toy_python toy_hosts c (ObbyClient.mk e) = inr (ObbyClient.mk e')
    ∧ @py_method ascii_table signal_serde toy_js toy_python toy_hosts c (PyClient.mk e) = inr (PyClient.mk e')
    ∧ length (Core.outbox (Client.core e')) = 1%nat.
Proof.
  cbv zeta.
  destruct (@bindings_agree ascii_table standard toy_crypto signal_serde toy_js toy_python toy_hosts first_free
    1%positive (Command.SendVoiceSignal "^room" (Signal.Mic OnOff.On)) (Client.new (Config.new "me"))
    (<[1%positive := AClient (Client.new (Config.new "me"))]> ∅)) as ((h' & He & E) & Hj & Hp).
  - split; [split; apply (bool_decide_unpack _); by vm_compute|].
    split; [done|]. split; [by vm_compute|]. split; [|done]. split; apply (bool_decide_unpack _); by vm_compute.
  - apply lookup_insert_eq.
  - exists h', (@Client.command ascii_table (Command.SendVoiceSignal "^room" (Signal.Mic OnOff.On)) (Client.new (Config.new "me"))).
    split_and!; [exact He|exact E|exact Hj|exact Hp|by vm_compute].
Defined.
