(* ===== verification/Recorded.v ===== *)
(** * The repository's own vectors and recordings

    The definitions of this development run on what the repository tests itself with: the
    conformance vectors of src/crates/obby-proto/tests, and the recorded sessions of
    src/crates/obby-client/tests with the snapshots taken of them. Literals are spelled as in the
    source and read by [rust]; a transcript's lines are its file's. What these check is not the
    program but the translation: had a definition drifted from its code, the recorded answer
    would differ. *)
From S2P Require Import Prelude Utf8 Casemap Tags Message Base64 Json Extensions Model Session Voice Scram Client.

(** ** Literals *)

(** The escapes of a Rust string literal that the vectors use. *)
Fixpoint rust_escapes (t : text) : text :=
  match t with
  | 92%N :: 92%N :: t => 92%N :: rust_escapes t
  | 92%N :: 110%N :: t => chLF :: rust_escapes t
  | 92%N :: 114%N :: t => chCR :: rust_escapes t
  | 92%N :: 116%N :: t => 9%N :: rust_escapes t
  | 92%N :: 117%N :: 123%N :: d :: 125%N :: t =>
      default 0%N (Z.to_N <$> parse_unsigned_radix digit16 16 255 [d]) :: rust_escapes t
  | c :: t => c :: rust_escapes t
  | [] => []
  end.
Definition rust (s : string) : text := rust_escapes (lit s).
Definition rust_pair (p : string * string) : text * text := (rust p.1, rust p.2).

(** ** Splitting a line *)

Record SplitCase := mkSplit {
  s_input : string; s_tags : option (list (string * string)); s_source : option string;
  s_verb : string; s_params : list string;
}.

(** A tag given twice counts once, and reads as its last value. *)
Definition splits (c : SplitCase) : bool :=
  match Message.parse (rust (s_input c)) with
  | inl _ => false
  | inr msg =>
      Message.is_command msg (rust (s_verb c))
      && bool_decide (Source.show <$> Message.source msg = rust <$> s_source c)
      && bool_decide (Message.params msg = rust <$> s_params c)
      && match s_tags c with
         | None => Tags.is_empty (Message.tags msg)
         | Some expected =>
             bool_decide (length (remove_dups (Tag.key <$> Message.tags msg)) = length expected)
             && forallb (λ p, bool_decide (default [] (Message.tag msg p.1) = p.2)) (rust_pair <$> expected)
         end
  end.

(** src/crates/obby-proto/tests/msg_split.rs *)
Definition split_cases : list SplitCase := [
  mkSplit "foo bar baz asdf" None None "foo" ["bar"; "baz"; "asdf"];
  mkSplit ":coolguy foo bar baz asdf" None (Some "coolguy") "foo" ["bar"; "baz"; "asdf"];
  mkSplit "foo bar baz :asdf quux" None None "foo" ["bar"; "baz"; "asdf quux"];
  mkSplit "foo bar baz :" None None "foo" ["bar"; "baz"; ""];
  mkSplit "foo bar baz ::asdf" None None "foo" ["bar"; "baz"; ":asdf"];
  mkSplit ":coolguy foo bar baz :asdf quux" None (Some "coolguy") "foo" ["bar"; "baz"; "asdf quux"];
  mkSplit ":coolguy foo bar baz :  asdf quux " None (Some "coolguy") "foo" ["bar"; "baz"; "  asdf quux "];
  mkSplit ":coolguy PRIVMSG bar :lol :) " None (Some "coolguy") "PRIVMSG" ["bar"; "lol :) "];
  mkSplit ":coolguy foo bar baz :" None (Some "coolguy") "foo" ["bar"; "baz"; ""];
  mkSplit ":coolguy foo bar baz :  " None (Some "coolguy") "foo" ["bar"; "baz"; "  "];
  mkSplit "@a=b;c=32;k;rt=ql7 foo" (Some [("a", "b"); ("c", "32"); ("k", ""); ("rt", "ql7")]) None "foo" [];
  mkSplit "@a=b\\\\and\\nk;c=72\\s45;d=gh\\:764 foo" (Some [("a", "b\\and\nk"); ("c", "72 45");
    ("d", "gh;764")]) None "foo" [];
  mkSplit "@c;h=;a=b :quux ab cd" (Some [("a", "b"); ("c", ""); ("h", "")]) (Some "quux") "ab" ["cd"];
  mkSplit ":src JOIN #chan" None (Some "src") "JOIN" ["#chan"];
  mkSplit ":src JOIN :#chan" None (Some "src") "JOIN" ["#chan"];
  mkSplit ":src AWAY" None (Some "src") "AWAY" [];
  mkSplit ":src AWAY " None (Some "src") "AWAY" [];
  mkSplit ":cool\tguy foo bar baz" None (Some "cool\tguy") "foo" ["bar"; "baz"];
  mkSplit ":coolguy!ag@net\u{3}5w\u{3}ork.admin PRIVMSG foo :bar baz" None (Some "coolguy!ag@net\u{3}5w\u{3}ork.admin") "PRIVMSG" ["foo";
    "bar baz"];
  mkSplit ":coolguy!~ag@n\u{2}et\u{3}05w\u{f}ork.admin PRIVMSG foo :bar baz" None (Some "coolguy!~ag@n\u{2}et\u{3}05w\u{f}ork.admin") "PRIVMSG" ["foo";
    "bar baz"];
  mkSplit "@tag1=value1;tag2;vendor1/tag3=value2;vendor2/tag4= :irc.example.com COMMAND param1 param2 :param3 param3" (Some [("tag1", "value1");
    ("tag2", ""); ("vendor1/tag3", "value2"); ("vendor2/tag4", "")]) (Some "irc.example.com") "COMMAND" ["param1";
    "param2"; "param3 param3"];
  mkSplit ":irc.example.com COMMAND param1 param2 :param3 param3" None (Some "irc.example.com") "COMMAND" ["param1";
    "param2"; "param3 param3"];
  mkSplit "@tag1=value1;tag2;vendor1/tag3=value2;vendor2/tag4 COMMAND param1 param2 :param3 param3" (Some [("tag1", "value1");
    ("tag2", ""); ("vendor1/tag3", "value2"); ("vendor2/tag4", "")]) None "COMMAND" ["param1"; "param2";
    "param3 param3"];
  mkSplit "COMMAND" None None "COMMAND" [];
  mkSplit "@foo=\\\\\\\\\\:\\\\s\\s\\r\\n COMMAND" (Some [("foo", "\\\\;\\s \r\n")]) None "COMMAND" [];
  mkSplit ":gravel.mozilla.org 432  #momo :Erroneous Nickname: Illegal characters" None (Some "gravel.mozilla.org") "432" ["#momo";
    "Erroneous Nickname: Illegal characters"];
  mkSplit ":gravel.mozilla.org MODE #tckk +n " None (Some "gravel.mozilla.org") "MODE" ["#tckk"; "+n"];
  mkSplit ":services.esper.net MODE #foo-bar +o foobar  " None (Some "services.esper.net") "MODE" ["#foo-bar"; "+o";
    "foobar"];
  mkSplit "@tag1=value\\\\ntest COMMAND" (Some [("tag1", "value\\ntest")]) None "COMMAND" [];
  mkSplit "@tag1=value\\1 COMMAND" (Some [("tag1", "value1")]) None "COMMAND" [];
  mkSplit "@tag1=value1\\ COMMAND" (Some [("tag1", "value1")]) None "COMMAND" [];
  mkSplit "@tag1=1;tag2=3;tag3=4;tag1=5 COMMAND" (Some [("tag1", "5"); ("tag2", "3"); ("tag3", "4")]) None "COMMAND" [];
  mkSplit "@tag1=1;tag2=3;tag3=4;tag1=5;vendor/tag2=8 COMMAND" (Some [("tag1", "5"); ("tag2", "3"); ("tag3", "4");
    ("vendor/tag2", "8")]) None "COMMAND" [];
  mkSplit ":SomeOp MODE #channel :+i" None (Some "SomeOp") "MODE" ["#channel"; "+i"];
  mkSplit ":SomeOp MODE #channel +oo SomeUser :AnotherUser" None (Some "SomeOp") "MODE" ["#channel"; "+oo";
    "SomeUser"; "AnotherUser"]].
Example all_split : forallb splits split_cases = true.
Proof. by vm_compute. Qed.

(** ** Rendering a line *)

Record JoinCase := mkJoin {
  j_tags : list (string * string); j_source : option string; j_verb : string; j_params : list string;
  j_matches : list string;
}.

Definition joins (c : JoinCase) : bool :=
  let tags := (λ p : text * text, match p.2 with [] => Tag.flag p.1 | v => Tag.new p.1 v end) <$> (rust_pair <$> j_tags c) in
  let msg := Message.mk tags (Source.parse ∘ rust <$> j_source c) (rust (j_verb c)) (rust <$> j_params c) in
  bool_decide (Message.show msg ∈ rust <$> j_matches c).

(** src/crates/obby-proto/tests/msg_join.rs *)
Definition join_cases : list JoinCase := [
  (* Simple test with verb and params. *)
  mkJoin [] None "foo" ["bar"; "baz"; "asdf"]
    ["foo bar baz asdf"; "foo bar baz :asdf"];
  (* Simple test with source and no params. *)
  mkJoin [] (Some "src") "AWAY" []
    [":src AWAY"];
  (* Simple test with source and empty trailing param. *)
  mkJoin [] (Some "src") "AWAY" [""]
    [":src AWAY :"];
  (* Simple test with source. *)
  mkJoin [] (Some "coolguy") "foo" ["bar"; "baz"; "asdf"]
    [":coolguy foo bar baz asdf"; ":coolguy foo bar baz :asdf"];
  (* Simple test with trailing param. *)
  mkJoin [] None "foo" ["bar"; "baz"; "asdf quux"]
    ["foo bar baz :asdf quux"];
  (* Simple test with empty trailing param. *)
  mkJoin [] None "foo" ["bar"; "baz"; ""]
    ["foo bar baz :"];
  (* Simple test with trailing param containing colon. *)
  mkJoin [] None "foo" ["bar"; "baz"; ":asdf"]
    ["foo bar baz ::asdf"];
  (* Test with source and trailing param. *)
  mkJoin [] (Some "coolguy") "foo" ["bar"; "baz"; "asdf quux"]
    [":coolguy foo bar baz :asdf quux"];
  (* Test with trailing containing beginning+end whitespace. *)
  mkJoin [] (Some "coolguy") "foo" ["bar"; "baz"; "  asdf quux "]
    [":coolguy foo bar baz :  asdf quux "];
  (* Test with trailing containing what looks like another trailing param. *)
  mkJoin [] (Some "coolguy") "PRIVMSG" ["bar"; "lol :) "]
    [":coolguy PRIVMSG bar :lol :) "];
  (* Simple test with source and empty trailing. *)
  mkJoin [] (Some "coolguy") "foo" ["bar"; "baz"; ""]
    [":coolguy foo bar baz :"];
  (* Trailing contains only spaces. *)
  mkJoin [] (Some "coolguy") "foo" ["bar"; "baz"; "  "]
    [":coolguy foo bar baz :  "];
  (* Param containing tab (tab is not considered SPACE for message splitting). *)
  mkJoin [] (Some "coolguy") "foo" ["b\tar"; "baz"]
    [":coolguy foo b\tar baz"; ":coolguy foo b\tar :baz"];
  (* Tag with empty value and space-filled trailing. *)
  mkJoin [("asd", "")] (Some "coolguy") "foo" ["bar"; "baz"; "  "]
    ["@asd :coolguy foo bar baz :  "; "@asd= :coolguy foo bar baz :  "];
  (* Tag with no value and space-filled trailing. *)
  mkJoin [("asd", "")] (Some "coolguy") "foo" ["bar"; "baz"; "  "]
    ["@asd :coolguy foo bar baz :  "];
  (* Tags with escaped values. *)
  mkJoin [("a", "b\\and\nk"); ("d", "gh;764")] None "foo" []
    ["@a=b\\\\and\\nk;d=gh\\:764 foo"; "@d=gh\\:764;a=b\\\\and\\nk foo"];
  (* Tags with escaped values and params. *)
  mkJoin [("a", "b\\and\nk"); ("d", "gh;764")] None "foo" ["par1"; "par2"]
    ["@a=b\\\\and\\nk;d=gh\\:764 foo par1 par2"; "@a=b\\\\and\\nk;d=gh\\:764 foo par1 :par2";
      "@d=gh\\:764;a=b\\\\and\\nk foo par1 par2"; "@d=gh\\:764;a=b\\\\and\\nk foo par1 :par2"];
  (* Tag with long, strange values (including LF and newline). *)
  mkJoin [("foo", "\\\\;\\s \r\n")] None "COMMAND" []
    ["@foo=\\\\\\\\\\:\\\\s\\s\\r\\n COMMAND"]].
Example all_joined : forallb joins join_cases = true.
Proof. by vm_compute. Qed.

(** ** Reading a source *)

Record HostCase := mkHost { h_source : string; h_nick : string; h_user : string; h_host : string }.

Definition reads_source (c : HostCase) : bool :=
  let source := Source.parse (rust (h_source c)) in
  bool_decide (Source.name source = rust (h_nick c)
    ∧ default [] (Source.user source) = rust (h_user c) ∧ default [] (Source.host source) = rust (h_host c)).

(** src/crates/obby-proto/tests/userhost_split.rs *)
Definition host_cases : list HostCase := [
  mkHost "coolguy" "coolguy" "" "";
  mkHost "coolguy!ag@127.0.0.1" "coolguy" "ag" "127.0.0.1";
  mkHost "coolguy!~ag@localhost" "coolguy" "~ag" "localhost";
  mkHost "coolguy@127.0.0.1" "coolguy" "" "127.0.0.1";
  mkHost "coolguy!ag" "coolguy" "ag" "";
  mkHost "coolguy!ag@net\u{3}5w\u{3}ork.admin" "coolguy" "ag" "net\u{3}5w\u{3}ork.admin";
  mkHost "coolguy!~ag@n\u{2}et\u{3}05w\u{f}ork.admin" "coolguy" "~ag" "n\u{2}et\u{3}05w\u{f}ork.admin"].
Example all_hosts : forallb reads_source host_cases = true.
Proof. by vm_compute. Qed.

(** ** Replaying a session *)

Import Event.

(** What a snapshot shows of a message, a channel and the whole client. *)
Record ShownMessage := mkShownMessage {
  time : Z; kind : MessageKind.t; from : text; said : text; history : bool; gone : bool;
  preview : option text; reactions : list (text * list text);
}.
Record ShownMember := mkShownMember {
  prefixes : text; nick : text; member_key : text; account : option text; away : option text;
  metadata : list (text * text);
}.
Record ShownChannel := mkShownChannel {
  name : text; key : text; unread : Z; mentions : Z; read_to : option text; topic : option text;
  named_modes : list (text * option text); modes : list (char * option text);
  members : list ShownMember; log : list ShownMessage;
}.
Record Snapshot := mkSnapshot {
  sent : list text; phase : Phase.t; our_nick : text; casemapping : Casemapping.t; channels : list ShownChannel;
  voice_rooms : list (text * RoomKind.t * nat); whois_records : list (text * Whois.t);
  bots : list (text * Bots.Bot); allowed : list text; events : list Event.t;
}.

Section replay.
Context `{Unicode, Base64, Crypto}.

(** Every queued write, then every event, through the calls a host makes. *)
Fixpoint drain_sent (fuel : nat) (s : Client.t) : list text * Client.t :=
  match fuel with
  | O => ([], s)
  | S fuel =>
      match Client.poll_transmit s with
      | (None, s) => ([], s)
      | (Some bytes, s) =>
          let '(rest, s) := drain_sent fuel s in (trim_end_matches is_whitespace (from_utf8_lossy bytes) :: rest, s)
      end
  end.
Fixpoint drain_events (fuel : nat) (s : Client.t) : list Event.t * Client.t :=
  match fuel with
  | O => ([], s)
  | S fuel =>
      match Client.poll_event s with
      | (None, s) => ([], s)
      | (Some e, s) => let '(rest, s) := drain_events fuel s in (e :: rest, s)
      end
  end.
Definition drain (s : Client.t) : list text * list Event.t * Client.t :=
  let '(sent, s) := drain_sent (S (length (Core.outbox (Client.core s)))) s in
  let '(events, s) := drain_events (S (length (Core.events (Client.core s)))) s in (sent, events, s).

(** [line.replace(\x01, U+0001)], on the bytes. *)
Fixpoint plant_soh (t : list octet) : list octet :=
  match t with
  | 92%N :: 120%N :: 48%N :: 49%N :: t => 1%N :: plant_soh t
  | c :: t => c :: plant_soh t
  | [] => []
  end.

Definition replay_line (acc : list text * list Event.t * Client.t) (line : string) : list text * list Event.t * Client.t :=
  let '(sent, events, s) := acc in
  match strip_prefix (lit "< ") (lit line) with
  | None => acc
  | Some line =>
      let '(sent', events', s) := drain (Client.handle_bytes (plant_soh line ++ [chCR; chLF]) s) in
      (sent ++ sent', events ++ events', s)
  end.

Definition show_message (m : Chat.t) : ShownMessage :=
  mkShownMessage (time_ms (Chat.key m)) (Chat.kind m) (Chat.sender m) (Chat.text_ m) (Chat.historical m)
    (Chat.redacted m) (LinkPreview.title <$> Chat.link_preview m) (sorted_items (Chat.reactions m)).
Definition show_member (m : Model.t) (p : text * Membership.t) : ShownMember :=
  let person := Model.people m !! p.1 in
  mkShownMember p.2 (default (lit "?") (Person.nick <$> person)) p.1 (person ≫= Person.account) (person ≫= Person.away)
    (sorted_items (default ∅ (Person.metadata <$> person))).
Definition show_channel (m : Model.t) (p : text * Channel.t) : ShownChannel :=
  let '(k, c) := p in
  mkShownChannel (Channel.name c) k (Channel.unread c) (Channel.mentions c) (Channel.read_marker c) (Channel.topic c)
    (sorted_items (Channel.named_modes c)) (sorted_items (Channel.modes c))
    (show_member m <$> sorted_items (Channel.members c))
    (show_message ∘ snd <$> sorted_items (Log.messages (Channel.log c))).

Definition render (sent : list text) (events : list Event.t) (c : Core.t) : Snapshot :=
  let m := Core.model c in
  let chans := sorted_items (Model.channels m) in
  mkSnapshot sent (Core.phase c) (Core.nick c) (Isupport.Isupport.casemapping (Core.isupport c)) (show_channel m <$> chans)
    (omap (λ p : text * Channel.t, (λ r, (Room.channel r, Room.kind r, size (Room.participants r))) <$> Core.rooms c !! p.1) chans)
    (sorted_items (Model.whois m)) (sorted_items (Core.bots c)) (Commands.iter (Core.commands c)) events.

Definition replay (source : list string) : Snapshot :=
  let '(sent, events, s) := foldl replay_line (drain (Client.handle_connected (Client.new (Config.new "me")))) source in
  render sent events (Client.core s).
End replay.

(** A straight quote stands for the double quote of the file. *)
Definition quote (s : string) : string := String.string_of_list_ascii
  ((λ c, if decide (c = "'"%char) then Ascii.ascii_of_nat 34 else c) <$> list_ascii_of_string s).
Abbreviation replayed := (@replay ascii_table standard toy_crypto).
Definition said_text (s : string) : text := from_utf8_lossy (lit s).

(** *** The recordings, src/crates/obby-client/tests/transcripts and snapshots *)

Definition registration_transcript : list string := [
  "# A plain registration against a server offering a modest capability set.";
  "# Lines starting with < are sent by the server. Everything else is a comment.";
  "< :irc.example.org CAP * LS :multi-prefix server-time message-tags batch echo-message sasl=PLAIN,EXTERNAL away-notify";
  "< :irc.example.org CAP * ACK :multi-prefix";
  "< :irc.example.org CAP * ACK :server-time";
  "< :irc.example.org CAP * ACK :message-tags";
  "< :irc.example.org CAP * ACK :batch";
  "< :irc.example.org CAP * ACK :echo-message";
  "< :irc.example.org CAP * NAK :sasl";
  "< :irc.example.org CAP * ACK :away-notify";
  "< :irc.example.org 001 me :Welcome to the Example Network";
  "< :irc.example.org 005 me CASEMAPPING=rfc1459 CHANTYPES=#^$ PREFIX=(qaohv)~&@%+ CHANMODES=beI,k,l,imnpst :are supported by this server";
  "< PING :abc123"].
Example registration_recording : replayed registration_transcript = mkSnapshot
  (lit <$> ["CAP LS 302"; "NICK me"; "USER me 0 * me"; "CAP REQ message-tags"; "CAP REQ server-time"; "CAP REQ batch";
    "CAP REQ echo-message"; "CAP REQ multi-prefix"; "CAP REQ away-notify"; "CAP REQ sasl"; "CAP END"; "PONG abc123"])
  Phase.Registered "me" Casemapping.Rfc1459 []
  [] [] [] []
  [CapabilitiesAcknowledged [lit "multi-prefix"];
   CapabilitiesAcknowledged [lit "server-time"];
   CapabilitiesAcknowledged [lit "message-tags"];
   CapabilitiesAcknowledged [lit "batch"];
   CapabilitiesAcknowledged [lit "echo-message"];
   CapabilitiesAcknowledged [lit "away-notify"];
   Event.Registered "me";
   IsupportToken "CASEMAPPING" (Some (lit "rfc1459"));
   IsupportToken "CHANTYPES" (Some (lit "#^$"));
   IsupportToken "PREFIX" (Some (lit "(qaohv)~&@%+"));
   IsupportToken "CHANMODES" (Some (lit "beI,k,l,imnpst"))].
Proof. by vm_compute. Qed.

Definition channel_transcript : list string := [
  "# Joining a channel, the member list, a mode change, and a message.";
  "< :irc.example.org 001 me :Welcome";
  "< :irc.example.org 005 me CASEMAPPING=rfc1459 CHANTYPES=# PREFIX=(qaohv)~&@%+ CHANMODES=beI,k,l,imnpst :are supported";
  "< :me!u@host JOIN #obby";
  "< :irc.example.org 353 me = #obby :@alice +bob carol!u@host [dave]";
  "< :irc.example.org 366 me #obby :End of /NAMES list.";
  "< :irc.example.org 332 me #obby :a channel about obby";
  "< :alice!u@host MODE #obby +o-v bob bob";
  "< @msgid=m1;time=2026-09-06T10:00:00.000Z :alice!u@host PRIVMSG #obby :morning";
  "< @msgid=m2;time=2026-09-06T10:00:01.000Z :bob!u@host PRIVMSG #obby :\x01ACTION waves\x01";
  "< :[dave]!u@host NICK {DAVE}";
  "< :bob!u@host QUIT :bye"].
Example channel_recording : replayed channel_transcript = mkSnapshot
  (lit <$> ["CAP LS 302"; "NICK me"; "USER me 0 * me"; "WHO #obby"])
  Phase.Registered "me" Casemapping.Rfc1459 [
    mkShownChannel "#obby" "#obby" 2 0 None (Some (lit "a channel about obby"))
      [] []
      [mkShownMember "@" "alice" "alice" None None [];
       mkShownMember "" "carol" "carol" None None [];
       mkShownMember "" "{DAVE}" "{dave}" None None []]
      [mkShownMessage 1788688800000 MessageKind.Privmsg "alice" "morning" false false None [];
       mkShownMessage 1788688801000 (MessageKind.Ctcp "ACTION") "bob" "waves" false false None []]]
  [] [] [] []
  [Event.Registered "me";
   IsupportToken "CASEMAPPING" (Some (lit "rfc1459"));
   IsupportToken "CHANTYPES" (Some (lit "#"));
   IsupportToken "PREFIX" (Some (lit "(qaohv)~&@%+"));
   IsupportToken "CHANMODES" (Some (lit "beI,k,l,imnpst"));
   ModelChanged (Change.ChannelJoined "#obby");
   ModelChanged (Change.ChannelMembersChanged "#obby");
   RawLine (Message.mk [] (Some (Source.mk "irc.example.org" None None)) "366" [lit "me"; lit "#obby";
     lit "End of /NAMES list."]);
   ModelChanged (Change.ChannelTopicChanged "#obby");
   ModelChanged (Change.ChannelModesChanged "#obby");
   ModelChanged (Change.ChannelMembersChanged "#obby");
   ModelChanged (Change.MessageAdded "#obby" (1788688800000, 0));
   ModelChanged (Change.MessageAdded "#obby" (1788688801000, 1));
   ModelChanged (Change.NickChanged "[dave]" "{DAVE}");
   ModelChanged (Change.ChannelMembersChanged "#obby")].
Proof. by vm_compute. Qed.

Definition conversation_transcript : list string := [
  "# A full conversation: mentions, unread, a reaction, a redaction, away, and a read marker.";
  "< :irc.example.org CAP * LS :message-tags server-time batch echo-message draft/read-marker";
  "< :irc.example.org CAP * ACK :message-tags";
  "< :irc.example.org CAP * ACK :server-time";
  "< :irc.example.org CAP * ACK :batch";
  "< :irc.example.org CAP * ACK :echo-message";
  "< :irc.example.org CAP * ACK :draft/read-marker";
  "< :irc.example.org 001 me :Welcome";
  "< :irc.example.org 005 me CASEMAPPING=rfc1459 CHANTYPES=# STATUSMSG=@+ PREFIX=(ov)@+ :are supported";
  "< :me!u@host JOIN #obby";
  "< :alice!u@host JOIN #obby alice_acct :Alice";
  "< @msgid=a1;time=2026-09-06T10:00:00.000Z :alice!u@host PRIVMSG #obby :morning everyone";
  "< @msgid=a2;time=2026-09-06T10:00:05.000Z :alice!u@host PRIVMSG #obby :me: can you look at this?";
  "< @+draft/react=👍;+draft/reply=a2 :bob!u@host TAGMSG #obby";
  "< @msgid=a3;time=2026-09-06T10:00:10.000Z :alice!u@host PRIVMSG @#obby :ops only note";
  "< @msgid=a4;time=2026-09-06T10:00:20.000Z :alice!u@host PRIVMSG #obby :oops wrong channel";
  "< :alice!u@host REDACT #obby a4 :mistake";
  "< :alice!u@host AWAY :lunch";
  "< :irc.example.org MARKREAD #obby timestamp=2026-09-06T10:00:05.000Z"].
Example conversation_recording : replayed conversation_transcript = mkSnapshot
  (lit <$> ["CAP LS 302"; "NICK me"; "USER me 0 * me"; "CAP REQ message-tags"; "CAP REQ server-time"; "CAP REQ batch";
    "CAP REQ echo-message"; "CAP REQ draft/read-marker"; "CAP END"; "WHO #obby"])
  Phase.Registered "me" Casemapping.Rfc1459 [
    mkShownChannel "#obby" "#obby" 0 0 (Some (lit "2026-09-06T10:00:05.000Z")) None
      [] []
      [mkShownMember "" "alice" "alice" (Some (lit "alice_acct")) (Some (lit "lunch")) []]
      [mkShownMessage 1788688800000 MessageKind.Privmsg "alice" "morning everyone" false false None [];
       mkShownMessage 1788688805000 MessageKind.Privmsg "alice" "me: can you look at this?" false false None [(said_text "👍", [lit "bob"])];
       mkShownMessage 1788688810000 MessageKind.Privmsg "alice" "ops only note" false false None [];
       mkShownMessage 1788688820000 MessageKind.Privmsg "alice" "oops wrong channel" false true None []]]
  [] [] [] []
  [CapabilitiesAcknowledged [lit "message-tags"];
   CapabilitiesAcknowledged [lit "server-time"];
   CapabilitiesAcknowledged [lit "batch"];
   CapabilitiesAcknowledged [lit "echo-message"];
   CapabilitiesAcknowledged [lit "draft/read-marker"];
   Event.Registered "me";
   IsupportToken "CASEMAPPING" (Some (lit "rfc1459"));
   IsupportToken "CHANTYPES" (Some (lit "#"));
   IsupportToken "STATUSMSG" (Some (lit "@+"));
   IsupportToken "PREFIX" (Some (lit "(ov)@+"));
   ModelChanged (Change.ChannelJoined "#obby");
   ModelChanged (Change.ChannelMembersChanged "#obby");
   ModelChanged (Change.MessageAdded "#obby" (1788688800000, 0));
   ModelChanged (Change.MessageAdded "#obby" (1788688805000, 1));
   ModelChanged (Change.MessageReacted "#obby" "a2");
   ModelChanged (Change.MessageAdded "#obby" (1788688810000, 2));
   ModelChanged (Change.MessageAdded "#obby" (1788688820000, 3));
   ModelChanged (Change.MessageRedacted "#obby" "a4");
   ModelChanged (Change.ChannelMembersChanged "#obby");
   ModelChanged (Change.ReadMarkerMoved "#obby")].
Proof. by vm_compute. Qed.

Definition history_transcript : list string := [
  "# A chathistory batch replayed after a live message, with a nested netsplit batch inside it.";
  "< :irc.example.org 001 me :Welcome";
  "< :irc.example.org 005 me CASEMAPPING=rfc1459 CHANTYPES=# :are supported";
  "< :me!u@host JOIN #obby";
  "< @msgid=live;time=2026-09-06T12:00:00.000Z :alice!u@host PRIVMSG #obby :live one";
  "< :irc.example.org BATCH +h chathistory #obby";
  "< @batch=h;msgid=old1;time=2026-09-06T09:00:00.000Z :alice!u@host PRIVMSG #obby :earlier";
  "< @batch=h :irc.example.org BATCH +n netsplit a.example.org b.example.org";
  "< @batch=n;msgid=old2;time=2026-09-06T09:30:00.000Z :bob!u@host PRIVMSG #obby :during the split";
  "< :irc.example.org BATCH -n";
  "< @batch=h;msgid=old1;time=2026-09-06T09:00:00.000Z :alice!u@host PRIVMSG #obby :earlier";
  "< :irc.example.org BATCH -h"].
Example history_recording : replayed history_transcript = mkSnapshot
  (lit <$> ["CAP LS 302"; "NICK me"; "USER me 0 * me"; "WHO #obby"])
  Phase.Registered "me" Casemapping.Rfc1459 [
    mkShownChannel "#obby" "#obby" 1 0 None None
      [] []
      []
      [mkShownMessage 1788685200000 MessageKind.Privmsg "alice" "earlier" true false None [];
       mkShownMessage 1788687000000 MessageKind.Privmsg "bob" "during the split" true false None [];
       mkShownMessage 1788696000000 MessageKind.Privmsg "alice" "live one" false false None []]]
  [] [] [] []
  [Event.Registered "me";
   IsupportToken "CASEMAPPING" (Some (lit "rfc1459"));
   IsupportToken "CHANTYPES" (Some (lit "#"));
   ModelChanged (Change.ChannelJoined "#obby");
   ModelChanged (Change.MessageAdded "#obby" (1788696000000, 0));
   ModelChanged (Change.MessageAdded "#obby" (1788687000000, 1));
   ModelChanged (Change.MessageAdded "#obby" (1788685200000, 2))].
Proof. by vm_compute. Qed.

Definition obby_transcript : list string := [
  "# The Obby extensions: named modes, the command list, a link preview, channel-bots, the WHOIS";
  "# batch and voice signalling.";
  "< :irc.example.org CAP * LS :message-tags server-time batch draft/named-modes obsidianirc/cmdslist obby.world/whois obby.world/channel-bots draft/bot-cmds obsidianirc/voice";
  "< :irc.example.org CAP * ACK :message-tags";
  "< :irc.example.org CAP * ACK :server-time";
  "< :irc.example.org CAP * ACK :batch";
  "< :irc.example.org CAP * ACK :draft/named-modes";
  "< :irc.example.org CAP * ACK :obsidianirc/cmdslist";
  "< :irc.example.org CAP * ACK :obby.world/whois";
  "< :irc.example.org CAP * ACK :obby.world/channel-bots";
  "< :irc.example.org CAP * ACK :draft/bot-cmds";
  "< :irc.example.org CAP * ACK :obsidianirc/voice";
  "< :irc.example.org 001 me :Welcome";
  "< :irc.example.org 005 me CASEMAPPING=ascii CHANTYPES=#^$ PREFIX=(qaohv)~&@%+ CHANMODES=beI,k,l,imnpst WHOX :are supported";
  "< :irc.example.org BATCH +c obsidianirc/cmdslist";
  "< @batch=c :irc.example.org CMDSLIST +JOIN +PART +TOPIC +OPER";
  "< :irc.example.org BATCH -c";
  "< :irc.example.org CMDSLIST -OPER";
  "< :me!u@host JOIN #obby";
  "< :irc.example.org 354 me 332 #obby ident host.example alice H@ alice_acct :Alice Smith";
  "< :irc.example.org PROP #obby +obsidianirc/censor +obsidianirc/history=30d";
  "< @msgid=p1;time=2026-09-06T10:00:00.000Z :alice!u@host PRIVMSG #obby :look at https://example.org";
  "< @+reply=p1;obsidianirc/link-preview-title=Example\sDomain;obsidianirc/link-preview-snippet=A\sdomain\sfor\sexamples :irc.example.org TAGMSG #obby";
  "# The server-scope bots arrive as one batch on connect; a self-registered bot loses `oper`.";
  "< :irc.example.org BATCH +b obby.world/channel-bots";
  "< @batch=b;obby.world/bot-info=eyJldmVudCI6ImFkZCIsImJvdF9pZCI6ImIxIiwibmljayI6IndlYXRoZXJib3QiLCJmcm9tX2NvbmZpZyI6ZmFsc2UsImNoYW5uZWxzIjpbIiNvYmJ5Il0sImNvbW1hbmRzIjpbeyJuYW1lIjoiZm9yZWNhc3QiLCJkZXNjcmlwdGlvbiI6InRoZSB3ZWF0aGVyIn0seyJuYW1lIjoib3BlciJ9XX0= :irc.example.org TAGMSG me";
  "< :irc.example.org BATCH -b";
  "< @+draft/bot-cmds=eyJwcmVmaXgiOiIvIiwiY29tbWFuZHMiOlt7Im5hbWUiOiJmb3JlY2FzdCIsImRlc2NyaXB0aW9uIjoidGhlIHdlYXRoZXIifSx7Im5hbWUiOiJyYWRhciJ9XX0= :weatherbot!u@bot.obby.world TAGMSG me";
  "# One WHOIS, wrapped in the vendor batch, with the per-session numerics in a batch of their own.";
  "< :irc.example.org BATCH +w obby.world/whois alice";
  "< @batch=w :irc.example.org BATCH +s obby.world/whois-session";
  "< @batch=s :irc.example.org 671 me alice :is using a Secure Connection";
  "< @batch=s :irc.example.org 317 me alice 42 1787477054 :seconds idle, signon time";
  "< @batch=w :irc.example.org BATCH -s";
  "< @batch=w :irc.example.org 311 me alice ident host.example * :Alice Smith";
  "< @batch=w :irc.example.org 312 me alice irc.example.org :ObbyIRCd";
  "< @batch=w :irc.example.org 319 me alice :~@#obby";
  "< @batch=w :irc.example.org 330 me alice alice_acct :is logged in as";
  "< @batch=w :irc.example.org 318 me alice :End of /WHOIS list.";
  "< :irc.example.org BATCH -w";
  "# The channel keeps everyone and everything it holds across a rename.";
  "< :irc.example.org RENAME #obby #obby-world :tidying up";
  "< :me!u@host JOIN ^general";
  (quote "< @+obsidianirc/rtc={'type':'join','channel':'^general'} :alice!u@host TAGMSG ^general")].
Example obby_recording : replayed obby_transcript = mkSnapshot
  (lit <$> ["CAP LS 302"; "NICK me"; "USER me 0 * me"; "CAP REQ message-tags"; "CAP REQ server-time"; "CAP REQ batch";
    "CAP REQ draft/named-modes"; "CAP REQ obsidianirc/cmdslist"; "CAP REQ obby.world/channel-bots";
    "CAP REQ draft/bot-cmds"; "CAP REQ obby.world/whois"; "CAP REQ obsidianirc/voice"; "CAP END";
    "WHO #obby %tcuhnfar,332"; "WHO ^general %tcuhnfar,332"])
  Phase.Registered "me" Casemapping.Ascii [
    mkShownChannel "#obby-world" "#obby-world" 1 0 None None
      [(lit "obsidianirc/censor", None); (lit "obsidianirc/history", (Some (lit "30d")))] []
      [mkShownMember "@" "alice" "alice" (Some (lit "alice_acct")) None []]
      [mkShownMessage 1788688800000 MessageKind.Privmsg "alice" "look at https://example.org" false false (Some (lit "Example Domain")) []];
    mkShownChannel "^general" "^general" 0 0 None None
      [] []
      []
      []]
  [(lit "^general", RoomKind.Publish, 0%nat)] [(lit "alice", Whois.mk "alice" (Some (lit "ident")) (Some (lit "host.example")) (Some (lit "Alice Smith"))
      (Some (lit "irc.example.org")) (Some (lit "ObbyIRCd")) None (Some 42) (Some 1787477054000) [lit "~@#obby"]
      (Some (lit "alice_acct")) None true true)] [(lit "weatherbot", Bots.mkBot "weatherbot" (Some (lit "b1")) false
      [Bots.mkCommand "forecast" (Some (lit "the weather")); Bots.mkCommand "radar" None])] (lit <$> ["JOIN"; "PART";
        "TOPIC"])
  [CapabilitiesAcknowledged [lit "message-tags"];
   CapabilitiesAcknowledged [lit "server-time"];
   CapabilitiesAcknowledged [lit "batch"];
   CapabilitiesAcknowledged [lit "draft/named-modes"];
   CapabilitiesAcknowledged [lit "obsidianirc/cmdslist"];
   CapabilitiesAcknowledged [lit "obby.world/whois"];
   CapabilitiesAcknowledged [lit "obby.world/channel-bots"];
   CapabilitiesAcknowledged [lit "draft/bot-cmds"];
   CapabilitiesAcknowledged [lit "obsidianirc/voice"];
   Event.Registered "me";
   IsupportToken "CASEMAPPING" (Some (lit "ascii"));
   IsupportToken "CHANTYPES" (Some (lit "#^$"));
   IsupportToken "PREFIX" (Some (lit "(qaohv)~&@%+"));
   IsupportToken "CHANMODES" (Some (lit "beI,k,l,imnpst"));
   IsupportToken "WHOX" None;
   AllowedCommandsChanged;
   AllowedCommandsChanged;
   ModelChanged (Change.ChannelJoined "#obby");
   ModelChanged (Change.ChannelMembersChanged "#obby");
   ModelChanged (Change.ChannelModesChanged "#obby");
   ModelChanged (Change.MessageAdded "#obby" (1788688800000, 0));
   ModelChanged (Change.MessageAdded "#obby" (1788688800000, 0));
   BotsChanged "weatherbot";
   BotsChanged "weatherbot";
   ModelChanged (Change.WhoisReceived "alice");
   ModelChanged (Change.ChannelRenamed "#obby" "#obby-world");
   ModelChanged (Change.ChannelJoined "^general");
   Voice "^general" (Signal.Join "^general")].
Proof. by vm_compute. Qed.
