(* ===== verification/ClientTests.v ===== *)
(** * The engine's own unit tests (the tests of src/crates/obby-client/src/client.rs)

    A test of the source is here a list of [step]s under the test's name: what the host does and what
    it then asserts of the lines sent, of the events and of the state. [passes] runs one on the model.
    Left out are the test that compares SCRAM's messages with the published ones, for which a concrete
    hash would be needed (the others run with the stand-in of [Scram]), and that of what serde derives. *)
From S2P Require Import Prelude Utf8 Casemap Isupport Tags Message Timer Batch Label Caps Monitor Sasl Base64 Scram.
From S2P Require Import Json Extensions Model Session Voice Command Client Recorded.

(** ** Tests *)

Inductive step :=
  | Feed (bytes : list octet) | Connected | Disconnected | Do (c : Command.t) | Line (m : Message.t) | At (ms : Z)
  | Sent (P : text → bool)          (* drains the lines queued, as one text *)
  | Saw (P : list Event.t → bool)   (* drains the events *)
  | See (P : Core.t → bool).

Section run.
Context `{Unicode, Base64, Crypto}.
Fixpoint passes_from (steps : list step) (s : Client.t) : bool :=
  match steps with
  | [] => true
  | Feed bytes :: steps => passes_from steps (Client.handle_bytes bytes s)
  | Connected :: steps => passes_from steps (Client.handle_connected s)
  | Disconnected :: steps => passes_from steps (Client.handle_disconnected s)
  | Do c :: steps => passes_from steps (Client.command c s)
  | Line m :: steps => passes_from steps (Client.map_core (Core.send_line_labeled m) s)
  | At ms :: steps => passes_from steps (Client.tick (mkNow ms (1700000000000 + ms)) s)
  | Sent P :: steps =>
      P (from_utf8_lossy (concat (Core.outbox (Client.core s)))) && passes_from steps (Client.map_core (Core.set_outbox []) s)
  | Saw P :: steps => P (Core.events (Client.core s)) && passes_from steps (Client.map_core (Core.set_events []) s)
  | See P :: steps => P (Client.core s) && passes_from steps s
  end.
End run.
Definition passes (config : Config.t) (steps : list step) : bool :=
  @passes_from ascii_table standard toy_crypto steps (Client.new config).

(** ** Steps and assertions *)

Definition crlf : text := [chCR; chLF].
(** A line fed with its terminator; [''] stands for a double quote. *)
Definition feed (s : string) : step := Feed (lit (quote s) ++ crlf).
Definition exactly (s : string) : step := Sent (λ t, bool_decide (t = lit s)).
(** One line and nothing else. *)
Definition says (s : string) : step := Sent (λ t, bool_decide (t = lit s ++ crlf)).
Definition holds (t : text) (needle : string) : bool := bool_decide (is_Some (find_str (lit (quote needle)) t)).
Definition has (needles hasnt : list string) : step :=
  Sent (λ t, forallb (holds t) needles && forallb (λ n, negb (holds t n)) hasnt).
Definition quiet : step := exactly "".
Definition drain : step := Sent (λ _, true).
Definition drop_events : step := Saw (λ _, true).
Definition phase_is (p : Phase.t) : step := See (λ c, bool_decide (Core.phase c = p)).
Definition channel (name : string) (c : Core.t) : option Channel.t := Model.channel (Core.model c) (Isupport.fold (Core.isupport c) (lit name)).
Definition talk (nick : string) (c : Core.t) : option Conversation.t := Model.conversation (Core.model c) (Isupport.fold (Core.isupport c) (lit nick)).
Definition in_channel (name : string) (P : Channel.t → bool) : step := See (λ c, match channel name c with Some ch => P ch | None => false end).
Definition log_len (n : nat) (ch : Channel.t) : bool := bool_decide (Log.len (Channel.log ch) = n).
Definition texts_are (ts : list text) : step :=
  in_channel "#obby" (λ ch, bool_decide (Chat.text_ <$> Log.iter (Channel.log ch) = ts)).
Definition message_is (id : string) (P : Chat.t → bool) : step :=
  in_channel "#obby" (λ ch, match Log.get (Channel.log ch) (lit id) with Some m => P m | None => false end).
Definition typing_is (n : nat) : step := in_channel "#obby" (λ ch, bool_decide (size (Channel.typing ch) = n)).
Definition saw_any (P : Event.t → bool) : step := Saw (existsb P).
Definition saw_none (P : Event.t → bool) : step := Saw (λ es, negb (existsb P es)).
Definition first_is (P : Event.t → bool) : step := Saw (λ es, match es with e :: _ => P e | [] => false end).
Definition is_raw (e : Event.t) : bool := match e with Event.RawLine _ => true | _ => false end.
Definition is_reply (sev : Severity.t) (command code : string) (context : list text) (body : string) (e : Event.t) : bool :=
  match e with
  | Event.ServerReply sev' command' code' context' body' =>
      match sev, sev' with Severity.Fail_, Severity.Fail_ | Severity.Warn, Severity.Warn | Severity.Note, Severity.Note => true | _, _ => false end
      && bool_decide (command' = lit command ∧ code' = lit code ∧ context' = context ∧ body' = lit body)
  | _ => false
  end.
#[local] Instance failure_eq_dec : EqDecision Sasl.SaslFailure.
Proof. solve_decision. Defined.

Definition sasl_failed (r : Sasl.SaslFailure) (e : Event.t) : bool :=
  match e with Event.SaslFailed r' => bool_decide (r = r') | _ => false end.
Definition me : Config.t := Config.new "me".

(** ** mod tests *)
Module tests.
Definition with_sasl : Config.t :=
  Config.mk "me" [] [] None (Some (Sasl.Plain "alice" "hunter2")) (Config.retention me) [].
Definition negotiated : list step := [Connected; drain; feed ":s CAP * LS :sasl=PLAIN,EXTERNAL"; feed ":s CAP * ACK :sasl"].

Definition all : list (string * Config.t * list step) := [
  ("registration_starts_with_cap_ls_then_nick_and_user", me,
    [Connected; Sent (λ t, bool_decide (t = lit "CAP LS 302" ++ crlf ++ lit "NICK me" ++ crlf ++ lit "USER me 0 * me" ++ crlf))]);
  ("a_password_precedes_nick", Config.mk "me" [] [] (Some (lit "hunter2")) None 100 [],
    [Connected; Sent (λ t, match find_str (lit "PASS") t, find_str (lit "NICK") t with
                           | Some (a, _), Some (b, _) => bool_decide (length a < length b)%nat | _, _ => false end)]);
  ("answers_ping_with_the_same_token", me, [feed "PING :abc123"; says "PONG abc123"]);
  ("holds_a_partial_line_until_the_rest_arrives", me, [Feed (lit "PING :ab"); quiet; feed "c"; says "PONG abc"]);
  ("survives_a_line_that_is_not_utf8", me, [Feed (lit "PING :" ++ [255; 254]%N ++ crlf); Sent (starts_with (lit "PONG"))]);
  ("does_not_end_negotiation_until_every_request_is_answered", me,
    [Connected; drain; feed ":s CAP * LS :multi-prefix away-notify"; has ["CAP REQ multi-prefix"; "CAP REQ away-notify"] [];
     phase_is Phase.Negotiating; feed ":s CAP * ACK :multi-prefix"; phase_is Phase.Negotiating; feed ":s CAP * NAK :away-notify";
     phase_is Phase.Registering; says "CAP END"]);
  ("waits_for_the_last_line_of_a_multiline_cap_ls", me,
    [Connected; drain; feed ":s CAP * LS * :multi-prefix"; quiet; feed ":s CAP * LS :away-notify"; has ["multi-prefix"; "away-notify"] []]);
  ("ends_negotiation_when_the_server_offers_nothing_we_want", me,
    [Connected; drain; feed ":s CAP * LS :some-cap-we-do-not-know"; says "CAP END"]);
  ("cap_new_requests_a_late_capability", me,
    [Connected; drain; feed ":s CAP * LS :"; drain; feed ":s CAP * NEW :away-notify"; has ["CAP REQ away-notify"] []]);
  ("takes_the_nick_the_server_gives_us", me,
    [feed ":s 001 me_ :Welcome"; See (λ c, bool_decide (Core.nick c = lit "me_")); phase_is Phase.Registered;
     Saw (λ es, match es with [Event.Registered n] => bool_decide (n = lit "me_") | _ => false end)]);
  ("reads_the_casemapping_from_isupport", me,
    [See (λ c, bool_decide (Isupport.casemapping (Core.isupport c) = Casemapping.Rfc1459));
     feed ":s 005 me CASEMAPPING=ascii CHANTYPES=#^$ PREFIX=(qaohv)~&@%+ :are supported";
     See (λ c, bool_decide (Isupport.casemapping (Core.isupport c) = Casemapping.Ascii));
     See (λ c, Isupport.is_channel (Core.isupport c) (lit "^voice"));
     See (λ c, bool_decide (Prefix.mode_for_char (Isupport.prefix (Core.isupport c)) 37%N = Some 104%N));
     Saw (λ es, bool_decide ((λ e, match e with Event.IsupportToken t v => (t, v) | _ => ([], None) end) <$> es
       = [(lit "CASEMAPPING", Some (lit "ascii")); (lit "CHANTYPES", Some (lit "#^$")); (lit "PREFIX", Some (lit "(qaohv)~&@%+"))]))]);
  ("a_negated_isupport_token_restores_the_default", me,
    [feed ":s 005 me CASEMAPPING=ascii :are supported"; See (λ c, bool_decide (Isupport.casemapping (Core.isupport c) = Casemapping.Ascii));
     feed ":s 005 me -CASEMAPPING :are supported"; See (λ c, bool_decide (Isupport.casemapping (Core.isupport c) = Casemapping.Rfc1459))]);
  ("authenticates_before_ending_negotiation", with_sasl, negotiated ++
    [has ["AUTHENTICATE PLAIN"] ["CAP END"]; phase_is Phase.Negotiating; feed ":s AUTHENTICATE +";
     says "AUTHENTICATE AGFsaWNlAGh1bnRlcjI="; phase_is Phase.Negotiating;
     feed ":s 900 me me!u@h alice :You are now logged in"; feed ":s 903 me :SASL authentication successful";
     says "CAP END"; phase_is Phase.Registering]);
  ("reports_the_account_it_logged_in_as", with_sasl, negotiated ++
    [feed ":s AUTHENTICATE +"; feed ":s 900 me me!u@h alice :You are now logged in"; feed ":s 903 me :ok";
     Saw (λ es, match es with [Event.CapabilitiesAcknowledged ns; Event.LoggedIn a] => bool_decide (ns = [lit "sasl"] ∧ a = lit "alice") | _ => false end)]);
  ("a_rejected_login_still_releases_registration", with_sasl, negotiated ++
    [feed ":s AUTHENTICATE +"; drain; feed ":s 904 me :SASL authentication failed"; says "CAP END"; phase_is Phase.Registering;
     saw_any (sasl_failed Sasl.Rejected)]);
  ("skips_authentication_when_no_mechanism_is_shared", with_sasl,
    [Connected; drain; feed ":s CAP * LS :sasl=SCRAM-SHA-256"; feed ":s CAP * ACK :sasl"; has ["CAP END"] ["AUTHENTICATE"];
     saw_any (sasl_failed Sasl.NoSharedMechanism)]);
  ("does_not_authenticate_without_credentials", me, negotiated ++
    [Sent (λ t, negb (holds t "AUTHENTICATE") && bool_decide (drop (length t - 9) t = lit "CAP END" ++ crlf))]);
  ("walks_the_fallback_nicks_then_appends_underscores", Config.mk "me" [] [] None None 100 [lit "me2"; lit "me3"],
    [Connected; drain; feed ":s 433 * me :Nickname is already in use"; says "NICK me2"; feed ":s 433 * me2 :Nickname is already in use";
     says "NICK me3"; feed ":s 433 * me3 :Nickname is already in use"; says "NICK me3_"; See (λ c, bool_decide (Core.nick c = lit "me3_"))]);
  ("a_rename_refused_after_registration_is_the_hosts_problem", me,
    [feed ":s 001 me :Welcome"; drop_events; feed ":s 433 me taken :Nickname is already in use"; quiet; first_is is_raw]);
  ("surfaces_a_line_it_does_not_model", me,
    [feed ":s 375 me :- message of the day -"; first_is (λ e, match e with Event.RawLine m => Message.is_command m "375" | _ => false end)]);
  ("a_message_reaches_the_model_through_the_whole_path", me,
    [feed ":s 001 me :Welcome"; feed ":s 005 me CHANTYPES=# :are supported"; feed ":me!u@h JOIN #obby";
     feed "@msgid=x1 :bob!u@h PRIVMSG #obby :hello"; in_channel "#obby" (log_len 1);
     message_is "x1" (λ m, bool_decide (Chat.text_ m = lit "hello"));
     saw_any (λ e, match e with Event.ModelChanged (Change.MessageAdded _ _) => true | _ => false end)]);
  ("registering_tells_the_model_who_we_are", me,
    [feed ":s 001 me_ :Welcome"; See (λ c, bool_decide (LocalUser.nick (Model.me (Core.model c)) = lit "me_"))])].
End tests.

(** ** Steps several of the modules start with *)

Definition registered : list step := [feed ":s 001 me :Welcome"; feed ":s 005 me CHANTYPES=# :are supported"].
Definition joined : list step := registered ++ [feed ":me!u@h JOIN #obby"; drop_events].
Definition obby_is (ts : list string) : step := texts_are (lit <$> ts).
Definition is_event (b : Event.t → bool) : step := Saw (λ es, match es with [e] => b e | _ => false end).
Definition after (ms : Z) (e : Event.t) : bool := match e with Event.ReconnectAfter ms' => bool_decide (ms = ms') | _ => false end.
Definition dead (e : Event.t) : bool := match e with Event.LinkDead => true | _ => false end.
Definition timed_out (command : string) (e : Event.t) : bool :=
  match e with Event.CommandTimedOut c => bool_decide (c = lit command) | _ => false end.
Definition timeout_is (o : option Z) : step := See (λ c, bool_decide (Core.poll_timeout c = o)).
Definition no_channel (name : string) : step := See (λ c, match channel name c with None => true | Some _ => false end).
Definition no_talk (nick : string) : step := See (λ c, match talk nick c with None => true | Some _ => false end).
Definition in_talk (nick : string) (P : Conversation.t → bool) : step := See (λ c, match talk nick c with Some q => P q | None => false end).
Definition lost_lines : step := See (λ c, bool_decide (0 < Core.dropped_lines c)).
Definition historical_is (id : string) (b : bool) : step := message_is id (λ m, Bool.eqb (Chat.historical m) b).
(** [last()] of a log, the newest message. *)
Definition newest_is (P : Chat.t → bool) : step :=
  in_channel "#obby" (λ ch, match last (Log.iter (Channel.log ch)) with Some m => P m | None => false end).

(** ** mod batch_tests *)
Module batch_tests.
Definition history (line : string) : list step := [feed ":s BATCH +h chathistory #obby"; feed line; feed ":s BATCH -h"].
Definition multiline (l1 l2 : string) : list step := [feed ":s BATCH +m draft/multiline #obby"; feed l1; feed l2; feed ":s BATCH -m"].

Definition all : list (string * Config.t * list step) := (λ '(name, steps), (name, me, joined ++ steps)) <$> [
  ("a_multiline_message_arrives_as_one_message",
    multiline "@batch=m :bob!u@h PRIVMSG #obby :first line" "@batch=m :bob!u@h PRIVMSG #obby :second line" ++
    [texts_are [lit "first line" ++ [chLF] ++ lit "second line"]]);
  ("a_concat_tagged_line_continues_the_one_before_it",
    multiline "@batch=m :bob!u@h PRIVMSG #obby :one long " "@batch=m;draft/multiline-concat :bob!u@h PRIVMSG #obby :sentence" ++
    [obby_is ["one long sentence"]]);
  ("a_line_of_another_kind_inside_a_multiline_batch_stays_its_own_message",
    multiline "@batch=m :bob!u@h PRIVMSG #obby :spoken" "@batch=m :bob!u@h NOTICE #obby :noticed" ++ [obby_is ["spoken"; "noticed"]]);
  ("a_batched_line_is_held_until_the_batch_closes",
    [feed ":s BATCH +h chathistory #obby"; feed "@batch=h;msgid=1 :bob!u@h PRIVMSG #obby :held"; obby_is [];
     feed ":s BATCH -h"; obby_is ["held"]]);
  ("history_is_marked_as_replayed_and_live_traffic_is_not",
    feed "@msgid=live :bob!u@h PRIVMSG #obby :now" :: history "@batch=h;msgid=old :bob!u@h PRIVMSG #obby :before" ++
    [historical_is "live" false; historical_is "old" true]);
  ("a_batch_nested_inside_history_is_still_history",
    [feed ":s BATCH +outer chathistory #obby"; feed "@batch=outer :s BATCH +inner netsplit a.net b.net";
     feed "@batch=inner;msgid=n1 :bob!u@h PRIVMSG #obby :inside"; feed ":s BATCH -inner"; feed ":s BATCH -outer";
     historical_is "n1" true]);
  ("a_line_tagged_for_an_unknown_batch_is_still_delivered",
    [feed "@batch=never-opened;msgid=x :bob!u@h PRIVMSG #obby :orphan"; obby_is ["orphan"]]);
  ("history_replayed_twice_is_stored_once",
    history "@batch=h;msgid=dup :bob!u@h PRIVMSG #obby :again" ++ history "@batch=h;msgid=dup :bob!u@h PRIVMSG #obby :again" ++
    [obby_is ["again"]])].
End batch_tests.

(** ** mod time_tests *)
Module time_tests.
Definition first_delay : Z := ReconnectBackoff.base_ms ReconnectBackoff.default.
Definition WHO : step := Line (Message.new "WHO" [lit "#obby"]).
Definition labels : list step := [feed ":s CAP * LS :labeled-response"; feed ":s CAP * ACK :labeled-response"].
Definition down (ms : Z) : list step := [Disconnected; is_event (after ms)].

Definition all : list (string * Config.t * list step) := (λ '(name, steps), (name, me, steps)) <$> [
  ("a_quiet_link_gets_a_keepalive_ping", [Connected; drain; At (PING_KEEPALIVE_MS - 1); quiet; At PING_KEEPALIVE_MS; says "PING me"]);
  ("a_ping_with_no_answer_declares_the_link_dead",
    [Connected; At PING_KEEPALIVE_MS; drop_events; At (PING_KEEPALIVE_MS + DEAD_LINK_MS - 1); Saw (λ es, bool_decide (length es = 0%nat));
     At (PING_KEEPALIVE_MS + DEAD_LINK_MS); is_event dead]);
  ("any_traffic_at_all_proves_the_link_is_alive",
    [Connected; At PING_KEEPALIVE_MS; drain; feed ":s PONG me :me"; At (PING_KEEPALIVE_MS + DEAD_LINK_MS); saw_none dead]);
  ("the_next_deadline_is_reported_so_a_host_can_sleep_exactly", [timeout_is None; Connected; timeout_is (Some PING_KEEPALIVE_MS)]);
  ("a_dropped_link_keeps_the_model_and_backs_off",
    registered ++ [feed ":me!u@h JOIN #obby"; feed "@msgid=x :bob!u@h PRIVMSG #obby :hello"; drop_events; Disconnected;
     in_channel "#obby" (λ _, true); is_event (λ e, match e with Event.ReconnectAfter _ => true | _ => false end); Connected] ++
    down first_delay);
  ("backing_off_doubles_while_the_link_stays_down",
    concat (down <$> [first_delay; 2 * first_delay; 4 * first_delay]));
  ("a_command_is_labelled_only_when_the_server_can_correlate_it",
    [WHO; says "WHO #obby"; Connected; drain] ++ labels ++ [drain; WHO; says "@label=l1 WHO #obby"]);
  ("a_labelled_command_that_is_never_answered_times_out",
    [Connected] ++ labels ++ [WHO; drop_events; At DEFAULT_TIMEOUT_MS; is_event (timed_out "WHO")]);
  ("an_answered_command_does_not_time_out",
    [Connected] ++ labels ++ [drain; WHO; says "@label=l1 WHO #obby"; feed "@label=l1 :s 315 me #obby :End"; drop_events;
     At DEFAULT_TIMEOUT_MS; saw_none (timed_out "WHO")])].
End time_tests.

(** ** mod hostile_input_tests *)
Module hostile_input_tests.
Definition registered : list step :=
  [feed ":s 001 me :Welcome"; feed ":s 005 me CHANTYPES=# STATUSMSG=@+ PREFIX=(ov)@+ :are supported"; drop_events].

Definition all : list (string * Config.t * list step) := [
  ("a_stream_with_no_newline_does_not_grow_without_bound", me,
    repeat (Feed (repeat 65%N (Z.to_nat 8192))) 32 ++
    [lost_lines; Feed (crlf ++ lit ":s 001 me :Welcome" ++ crlf); phase_is Phase.Registered]);
  ("an_absurd_server_time_does_not_take_the_process_down", me, registered ++
    [feed "@time=99999999999999999-01-01T00:00:00.000Z :bob!u@h PRIVMSG me :hi";
     in_talk "bob" (λ q, bool_decide (Log.len (Conversation.log q) = 1%nat))]);
  ("a_channel_we_never_joined_is_never_invented", me, registered ++
    [feed ":bob!u@h JOIN #ghost"; feed ":bob!u@h TOPIC #ghost :not ours"; feed ":s 353 me = #ghost :@bob";
     feed ":s 332 me #ghost :still not ours"; feed ":bob!u@h MODE #ghost +m";
     See (λ c, bool_decide (Model.channels (Core.model c) = ∅))]);
  ("a_status_message_still_belongs_to_its_channel", me, registered ++
    [feed ":me!u@h JOIN #obby"; feed "@msgid=s1 :bob!u@h PRIVMSG @#obby :ops only"; in_channel "#obby" (log_len 1); no_talk "bob"])].
End hostile_input_tests.

(** ** mod command_tests *)
Module command_tests.
Definition ready (caps : string) : list step :=
  [Connected; feed ":s CAP * LS :echo-message labeled-response"; feed caps; feed ":s 001 me :Welcome";
   feed ":s 005 me CHANTYPES=# :are supported"; feed ":me!u@h JOIN #obby"; drop_events; drain].
Definition thumbs_up : text := [128077%N].

Definition all : list (string * Config.t * list step) :=
  ((λ '(name, steps), (name, me, ready ":s CAP * NAK :echo-message" ++ steps)) <$> [
  ("without_echo_message_we_record_our_own_message_ourselves",
    [Do (Command.SendMessage "#obby" "hello"); has ["PRIVMSG #obby hello"] []; in_channel "#obby" (log_len 1); newest_is Chat.own]);
  ("an_action_is_wrapped_as_ctcp_and_read_back_as_one",
    [Do (Command.SendAction "#obby" "waves"); Sent (λ t, bool_decide (is_Some (find_str ([1%N] ++ lit "ACTION waves" ++ [1%N]) t)));
     newest_is (λ m, bool_decide (Chat.kind m = MessageKind.Ctcp "ACTION" ∧ Chat.text_ m = "waves"))]);
  ("joining_and_parting_go_out_as_written",
    [Do (Command.Join "#secret" (Some (lit "hunter2"))); Do (Command.Part "#obby" (Some (lit "see you")));
     has ["JOIN #secret hunter2"; "PART #obby :see you"] []]);
  ("clearing_a_topic_is_distinguishable_from_asking_for_one", [Do (Command.SetTopic "#obby" None); has ["TOPIC #obby :"] []]);
  ("a_reaction_names_the_message_it_reacts_to",
    [Do (Command.AddReaction "#obby" "m1" thumbs_up);
     Sent (λ t, bool_decide (is_Some (find_str (lit "+draft/react=" ++ thumbs_up) t)) && holds t "+draft/reply=m1" && holds t "TAGMSG #obby")]);
  ("typing_says_how_far_along_we_are", [Do (Command.SetTyping "#obby" TypingState.Active); has ["+typing=active"] []]);
  ("a_read_marker_travels_as_a_server_time",
    [Do (Command.MarkRead "#obby" 1788688800123); has ["MARKREAD #obby timestamp=2026-09-06T10:00:00.123Z"] []]);
  ("asking_for_history_pages_backwards_from_a_message",
    [Do (Command.FetchHistory "#obby" None 50); has ["CHATHISTORY LATEST #obby * 50"] [];
     Do (Command.FetchHistory "#obby" (Some (lit "m1")) 50); has ["CHATHISTORY BEFORE #obby msgid=m1 50"] []]);
  ("an_invitation_to_the_network_still_carries_its_description",
    [Do (Command.CreateInviteLink None (Some (lit "for the team"))); has ["INVITELINK CREATE * :for the team"] [];
     Do (Command.CreateInviteLink None None); Sent (λ t, bool_decide (is_Some (find_str (lit "INVITELINK CREATE" ++ crlf) t)));
     Do (Command.CreateInviteLink (Some (lit "#obby")) None); has ["INVITELINK CREATE #obby"] []]);
  ("the_rest_of_the_invitation_commands_travel_whole",
    [Do Command.ListInviteLinks; Do (Command.DeleteInviteLink "abc123"); Do (Command.RedeemInviteCode "abc123"); Do (Command.Whois "bob");
     Do (Command.RenameChannel "#obby" "#obby-world" (Some (lit "tidying up")));
     has ["INVITELINK LIST"; "INVITELINK DELETE abc123"; "INVITECODE abc123"; "WHOIS bob"; "RENAME #obby #obby-world :tidying up"] []]);
  ("a_minted_token_reaches_the_host",
    [Do (Command.GenerateToken "FILEHOST"); has ["TOKEN GENERATE FILEHOST"] []; feed ":s TOKEN GENERATE filehost https://irc.example.org tok3n";
     saw_any (λ e, match e with
                   | Event.AuthToken service endpoint token =>
                       bool_decide (service = lit "filehost" ∧ endpoint = lit "https://irc.example.org" ∧ token = lit "tok3n")
                   | _ => false end)]);
  ("a_token_line_we_cannot_read_still_reaches_the_host_raw", [feed ":s TOKEN REVOKED filehost"; saw_any is_raw]);
  ("a_raw_line_that_will_not_parse_is_not_sent", [Do (Command.SendRawLine []); quiet])])
  ++ [("with_echo_message_we_wait_for_the_server_rather_than_double_up", me, ready ":s CAP * ACK :echo-message" ++
    [Do (Command.SendMessage "#obby" "hello"); in_channel "#obby" (log_len 0); feed "@msgid=e1 :me!u@h PRIVMSG #obby :hello";
     in_channel "#obby" (log_len 1)])].
End command_tests.

(** ** mod resume_tests *)
Module resume_tests.
Definition caps : list step := [feed ":s CAP * LS :draft/chathistory"; feed ":s CAP * ACK :draft/chathistory"].
Definition established : list step := Connected :: caps ++ registered ++
  [feed ":me!u@h JOIN #obby"; feed ":me!u@h JOIN #other"; feed ":bob!u@h JOIN #obby";
   feed "@msgid=last :bob!u@h PRIVMSG #obby :before the drop"; drop_events; drain].
Definition capable (b : bool) : step := See (λ c, Bool.eqb (Caps.has (Core.caps c) "draft/chathistory") b).
Definition members_are (n : nat) : step := in_channel "#obby" (λ ch, bool_decide (size (Channel.members ch) = n)).

Definition all : list (string * Config.t * list step) := (λ '(name, steps), (name, me, steps)) <$> [
  ("a_reconnect_rejoins_every_channel_and_asks_only_for_what_it_missed", established ++ [Disconnected; Connected; drain] ++ caps ++
    [feed ":s 001 me :Welcome back"; has ["JOIN #obby"; "JOIN #other"; "CHATHISTORY AFTER #obby msgid=last 100"] ["CHATHISTORY AFTER #other"]]);
  ("the_scrollback_survives_but_the_member_list_does_not", established ++
    [members_are 1; Disconnected; in_channel "#obby" (log_len 1); members_are 0]);
  ("a_first_connection_replays_nothing", [Connected; drain; feed ":s 001 me :Welcome"; quiet]);
  ("capabilities_are_renegotiated_rather_than_assumed_to_survive", established ++ [capable true; Disconnected; capable false])].
End resume_tests.

(** ** mod standard_reply_tests *)
Module standard_reply_tests.
Definition all : list (string * Config.t * list step) := (λ '(name, line, P), (name, me, [feed line; first_is P])) <$> [
  ("a_failure_carries_its_code_and_description", ":s FAIL JOIN CHANNEL_FULL #obby :Channel is full",
    is_reply Severity.Fail_ "JOIN" "CHANNEL_FULL" [lit "#obby"] "Channel is full");
  ("a_reply_with_no_context_still_parses", ":s WARN * ACCOUNT_REQUIRED :MessageLog in for more",
    is_reply Severity.Warn "*" "ACCOUNT_REQUIRED" [] "MessageLog in for more");
  ("a_note_is_reported_without_being_treated_as_an_error", ":s NOTE * HELLO :Welcome", is_reply Severity.Note "*" "HELLO" [] "Welcome");
  ("a_reply_missing_its_code_is_dropped_rather_than_half_reported", ":s FAIL", is_raw)].
End standard_reply_tests.

(** ** mod typing_tests *)
Module typing_tests.
Definition active : step := feed "@+typing=active :bob!u@h TAGMSG #obby".

Definition all : list (string * Config.t * list step) := (λ '(name, steps), (name, me, joined ++ steps)) <$> [
  ("a_typing_indicator_is_not_a_message", [active; in_channel "#obby" (log_len 0); typing_is 1]);
  ("typing_stops_when_they_say_so", [active; feed "@+typing=done :bob!u@h TAGMSG #obby"; typing_is 0]);
  ("typing_goes_stale_on_its_own",
    [active; drop_events; At (TYPING_EXPIRY_MS - 1); typing_is 1; At TYPING_EXPIRY_MS; typing_is 0;
     first_is (λ e, match e with Event.TypingChanged _ _ active => negb active | _ => false end)]);
  ("a_repeated_indicator_does_not_report_twice", [active; drop_events; active; Saw (λ es, bool_decide (length es = 0%nat))]);
  ("typing_at_us_belongs_to_the_conversation_with_the_sender",
    [feed ":bob!u@h PRIVMSG me :hi"; feed "@+typing=active :bob!u@h TAGMSG me";
     in_talk "bob" (λ q, bool_decide (size (Conversation.typing q) = 1%nat))])].
End typing_tests.

(** ** mod bot_tests *)
Module bot_tests.
Definition joined : list step := [feed ":s 001 me :Welcome"; feed ":s 005 me CHANTYPES=# CASEMAPPING=ascii :are supported";
  feed ":me!u@h JOIN #obby"; drop_events].
(** A TAGMSG with JSON in a tag, spelled in base64. *)
Definition tagged (extra tag json from : string) : step :=
  Feed (lit "@" ++ lit extra ++ lit tag ++ lit "=" ++ Standard64.encode (lit (quote json)) ++ lit " :" ++ lit from ++ lit " TAGMSG me" ++ crlf).
Definition no_bots : step := See (λ c, bool_decide (Core.bots c = ∅)).
Definition bot_is (P : Bots.Bot → bool) : step := See (λ c, match Core.bots c !! lit "weatherbot" with Some b => P b | None => false end).

Definition all : list (string * Config.t * list step) := (λ '(name, steps), (name, me, joined ++ steps)) <$> [
  ("a_discovery_batch_fills_the_registry_without_filling_the_conversation",
    [feed ":s BATCH +b obby.world/channel-bots";
     tagged "batch=b;" "obby.world/bot-info" "{'event':'add','bot_id':'b1','nick':'WeatherBot','from_config':false,'commands':[{'name':'forecast'},{'name':'identify'}]}" "s";
     feed ":s BATCH -b";
     bot_is (λ b, bool_decide (Bots.nick b = lit "WeatherBot" ∧ Bots.id b = Some (lit "b1") ∧ Bots.name <$> Bots.commands b = [lit "forecast"]));
     no_talk "s"]);
  ("a_withdrawal_forgets_the_bot",
    [tagged "" "obby.world/bot-info" "{'event':'add','nick':'weatherbot'}" "s";
     tagged "" "obby.world/bot-info" "{'event':'remove','nick':'weatherbot'}" "s"; no_bots]);
  ("a_command_list_from_a_nick_we_were_never_told_about_is_refused",
    [tagged "" "+draft/bot-cmds" "{'commands':[{'name':'forecast'}]}" "stranger!u@h"; no_bots]);
  ("a_command_list_from_an_announced_bot_is_kept",
    [tagged "" "obby.world/bot-info" "{'event':'add','nick':'weatherbot','from_config':true}" "s";
     tagged "" "+draft/bot-cmds" "{'prefix':'/','commands':[{'name':'identify'}]}" "WeatherBot!u@bot.obby.world";
     bot_is (λ b, bool_decide (length (Bots.commands b) = 1%nat))]);
  ("an_announcement_we_cannot_read_is_counted_rather_than_shown",
    [feed "@obby.world/bot-info=not-base64-$$$ :s TAGMSG me"; no_bots; lost_lines])].
End bot_tests.

(** ** mod voice_tests *)
Module voice_tests.
Definition joined : list step := [feed ":s 001 me :Welcome"; feed ":s 005 me CHANTYPES=#^$ :are supported";
  feed ":me!u@h JOIN ^general"; drop_events].

Definition all : list (string * Config.t * list step) := (λ '(name, steps), (name, me, joined ++ steps)) <$> [
  ("signalling_is_never_a_message_in_the_channel",
    [Feed (lit (quote "@+obsidianirc/rtc={'type':'join','channel':'^general'} :alice!u@h TAGMSG ^general")); Feed crlf;
     in_channel "^general" (log_len 0); first_is (λ e, match e with Event.Voice _ _ => true | _ => false end)]);
  ("a_frame_we_cannot_read_is_counted_rather_than_shown",
    [feed "@+obsidianirc/rtc=not-json :alice!u@h TAGMSG ^general"; in_channel "^general" (log_len 0); lost_lines]);
  ("an_outbound_frame_rides_the_rtc_tag",
    [drain; Do (Command.SendVoiceSignal "^general" (Signal.Join "^general"));
     has ["+obsidianirc/rtc={'type':'join','channel':'^general'}"; "TAGMSG ^general"] []])].
End voice_tests.

(** ** mod scram_tests and mod config_tests *)
Module scram_tests.
Definition with_credentials (c : Sasl.Credentials) : Config.t := Config.mk "me" [] [] None (Some c) 100 [].
Definition scram : Config.t := with_credentials (Sasl.Scram "user" "pencil" "rOprNGfwEbeRWgbNEkqO").
Definition negotiated (mechanisms : string) : list step :=
  [Connected; feed (":s CAP * LS :sasl=" ++ mechanisms)%string; feed ":s CAP * ACK :sasl"].
Definition challenge (t : text) : step := Feed (lit ":s AUTHENTICATE " ++ Standard64.encode t ++ crlf).
Definition SERVER_FIRST : text :=
  "r=rOprNGfwEbeRWgbNEkqO%hvYDpWUa2RaTCAfuxFIlj)hNlF$k0,s=W22ZaJ0SNY7soEsUEjb6gQ==,i=4096".

Definition all : list (string * Config.t * list step) := [
  ("a_server_that_cannot_prove_it_knows_the_password_is_refused", scram, negotiated "SCRAM-SHA-256,PLAIN" ++
    [feed ":s AUTHENTICATE +"; challenge SERVER_FIRST; drain; drop_events;
     challenge "v=AAAAAAAAAAAAAAAAAAAAAAAAAAAAAAAAAAAAAAAAAAA="; saw_any (sasl_failed Sasl.ServerNotVerified);
     phase_is Phase.Registering]);
  ("a_malformed_challenge_ends_the_exchange_rather_than_hanging_it", scram, negotiated "SCRAM-SHA-256,PLAIN" ++
    [has ["AUTHENTICATE SCRAM-SHA-256"] []; feed ":s AUTHENTICATE +";
     Sent (λ t, bool_decide (t = lit "AUTHENTICATE " ++ Standard64.encode (lit "n,,n=user,r=rOprNGfwEbeRWgbNEkqO") ++ crlf));
     challenge "nonsense"; says "CAP END"; phase_is Phase.Registering]);
  ("plain_is_skipped_when_the_server_will_not_take_it", with_credentials (Sasl.Plain "user" "pencil"),
    negotiated "SCRAM-SHA-256" ++ [has ["CAP END"] ["AUTHENTICATE"]]);
  ("a_blank_username_is_filled_in_from_the_nick", Config.mk "me" [] [] None None 100 [], [Connected; has ["USER me 0 * me"] []])].
End scram_tests.

(** ** mod live_view_tests *)
Module live_view_tests.
Definition whois_of (nick : string) (b : bool) : step :=
  See (λ c, Bool.eqb (bool_decide (is_Some (Model.whois (Core.model c) !! Isupport.fold (Core.isupport c) (lit nick)))) b).

Definition all : list (string * Config.t * list step) := (λ '(name, steps), (name, me, feed ":s 001 me :Welcome" :: steps)) <$> [
  ("a_renamed_channel_keeps_the_key_a_reconnect_needs",
    [Do (Command.Join "#obby" (Some (lit "hunter2"))); feed ":me!u@h JOIN #obby"; drain; feed ":s RENAME #obby #obby-world :spring clean";
     Disconnected; Connected; feed ":s 001 me :Welcome"; has ["JOIN #obby-world hunter2"] []]);
  ("a_dead_link_forgets_what_only_held_while_connected",
    [feed ":s 311 me alice ident host.example * :Alice"; feed ":s 318 me alice :End of /WHOIS"; whois_of "alice" true;
     Disconnected; whois_of "alice" false]);
  ("a_server_naming_endless_nicks_cannot_grow_the_model_without_bound",
    ((λ i, Feed (lit ":s 311 me nick" ++ show_Z (Z.of_nat i) ++ lit " ident host * :Someone" ++ crlf)) <$> seq 0 100) ++
    [See (λ c, bool_decide (size (Model.whois (Core.model c)) <= 64)%nat)])].
End live_view_tests.

Definition all_pass (tests : list (string * Config.t * list step)) : list string :=
  omap (λ '(name, config, steps), if passes config steps then None else Some name) tests.

Example tests_pass :
  all_pass (tests.all ++ batch_tests.all ++ time_tests.all ++ hostile_input_tests.all
    ++ command_tests.all ++ resume_tests.all ++ standard_reply_tests.all ++ typing_tests.all
    ++ bot_tests.all ++ voice_tests.all ++ scram_tests.all ++ live_view_tests.all) = [].
Proof. by vm_compute. Qed.
