(* ===== verification/SessionTests.v ===== *)
(** * The session's own unit tests (the tests of src/crates/obby-client/src/session.rs)

    As in [ClientTests]: each test of the source under its name, as the lines fed and what is then asserted
    of the changes they report and of the model. An assertion about a channel, a person or a record is also
    that there is one, as the source's harness expects. *)
From S2P Require Import Prelude Utf8 Casemap Isupport Message Extensions Model Session Recorded.

#[local] Instance preview_eq_dec : EqDecision LinkPreview.t.
Proof. solve_decision. Defined.
#[local] Instance change_eq_dec : EqDecision Change.t.
Proof. solve_decision. Defined.

(** ** The harness *)

Inductive step :=
  | Old                                        (* what follows is replayed history *)
  | Fed (line : text) (P : list Change.t → bool)
  | See (P : Model.t → bool).

Definition isupport : Isupport.t :=
  foldl (λ s token, (Isupport.apply (lit token) s).1) Isupport.default ["CHANTYPES=#^$"; "PREFIX=(qaohv)~&@%+"; "CHANMODES=beI,k,l,imnpst"]%string.
Definition fold (name : string) : CaseFolded := Isupport.fold isupport (lit name).
Definition start : Ctx.t := Ctx.mk (Model.set_me (LocalUser.set_nick "me" LocalUser.default) Model.default) 1000.

Fixpoint passes_from (steps : list step) (historical : bool) (ctx : Ctx.t) : bool :=
  match steps with
  | [] => true
  | Old :: steps => passes_from steps true ctx
  | Fed raw P :: steps =>
      match Message.parse raw with
      | inl _ => false
      | inr line => let '(changes, ctx) := @Session.apply ascii_table isupport historical line ctx in
                    P changes && passes_from steps historical ctx
      end
  | See P :: steps => P (Ctx.model ctx) && passes_from steps historical ctx
  end.
Definition passes (steps : list step) : bool := passes_from steps false start.

Definition feed (s : string) : step := Fed (said_text s) (λ _, true).
Definition gives (s : string) (expected : list Change.t) : step := Fed (said_text s) (λ cs, bool_decide (cs = expected)).
Definition nothing (s : string) : step := gives s [].
Definition joined (channel : string) : step := feed (":me!u@h JOIN " ++ channel).
Definition found {A} (o : option A) (P : A → bool) : bool := match o with Some x => P x | None => false end.
Definition channel (name : string) (P : Channel.t → bool) : step := See (λ m, found (Model.channel m (fold name)) P).
Definition no_channel (name : string) : step := See (λ m, bool_decide (Model.channel m (fold name) = None)).
Definition no_channels : step := See (λ m, bool_decide (Model.channels m = ∅)).
Definition person (nick : string) (P : Person.t → bool) : step := See (λ m, found (Model.person m (fold nick)) P).
Definition no_person (nick : string) : step := See (λ m, bool_decide (Model.person m (fold nick) = None)).
Definition talk (nick : string) (P : Conversation.t → bool) : step := See (λ m, found (Model.conversation m (fold nick)) P).
Definition no_talk (nick : string) : step := See (λ m, bool_decide (Model.conversation m (fold nick) = None)).
Definition whois (nick : string) (P : Whois.t → bool) : step := See (λ m, found (Model.whois m !! fold nick) P).
Definition self (P : LocalUser.t → bool) : step := See (λ m, P (Model.me m)).
Definition is_text (o : option text) (s : string) : bool := bool_decide (o = Some (lit s)).
Definition none {A} (o : option A) : bool := match o with None => true | Some _ => false end.
Definition log_len (n : nat) : step := channel "#obby" (λ c, bool_decide (Log.len (Channel.log c) = n)).
Definition newest (P : Chat.t → bool) : step := channel "#obby" (λ c, found (last (Log.iter (Channel.log c))) P).
Definition message (id : string) (P : Chat.t → bool) : step := channel "#obby" (λ c, found (Log.get (Channel.log c) (lit id)) P).
Definition members_are (name : string) (n : nat) : step := channel name (λ c, bool_decide (size (Channel.members c) = n)).
Definition member (name nick : string) : step := channel name (λ c, bool_decide (is_Some (Channel.members c !! fold nick))).
Definition prefixes (nick : string) (s : string) : step := channel "#obby" (λ c, is_text (Channel.members c !! fold nick) s).
Definition counts (unread mentions : Z) : step :=
  channel "#obby" (λ c, bool_decide (Channel.unread c = unread ∧ Channel.mentions c = mentions)).
Definition metadata (nick key value : string) : step := person nick (λ p, is_text (Person.metadata p !! lit key) value).
Definition no_metadata (nick key : string) : step := person nick (λ p, none (Person.metadata p !! lit key)).
Definition named_mode (key : string) (value : option (option text)) : step :=
  channel "#obby" (λ c, bool_decide (Channel.named_modes c !! lit key = value)).

(** ** Records, renames, messages, membership *)

Definition whois_lines : list string := [
  ":s 311 me bob ident host.example * :Bob Smith"; ":s 312 me bob irc.example.org :ObbyIRCd"; ":s 313 me bob :is an IRC Operator";
  ":s 378 me bob :is connecting from *@h4ks.local 172.18.0.1"; ":s 671 me bob :is using a Secure Connection";
  ":s 319 me bob :~@#obby +#other"; ":s 330 me bob bob_acct :is logged in as"; ":s 317 me bob 42 1787477054 :seconds idle, signon time"].

Definition people_tests : list (string * list step) := [
  ("a_whois_reply_is_reported_once_it_is_whole", (nothing <$> whois_lines) ++
    [gives ":s 318 me bob :End of /WHOIS list." [Change.WhoisReceived "bob"];
     whois "BOB" (λ w, is_text (Whois.username w) "ident" && is_text (Whois.host w) "host.example" && is_text (Whois.realname w) "Bob Smith"
       && is_text (Whois.server w) "irc.example.org" && is_text (Whois.server_info w) "ObbyIRCd"
       && is_text (Whois.operator w) "is an IRC Operator" && is_text (Whois.account w) "bob_acct"
       && bool_decide (Whois.channels w = [lit "~@#obby"; lit "+#other"] ∧ Whois.idle_secs w = Some 42
                       ∧ Whois.signon_ms w = Some 1787477054000)
       && Whois.secure w && Whois.complete w)]);
  ("a_second_whois_replaces_the_first_rather_than_merging_into_it",
    [feed ":s 313 me bob :is an IRC Operator"; feed ":s 671 me bob :is using a Secure Connection"; feed ":s 318 me bob :End of /WHOIS list.";
     feed ":s 311 me bob ident host.example * :Bob Smith"; feed ":s 318 me bob :End of /WHOIS list.";
     whois "bob" (λ w, none (Whois.operator w) && negb (Whois.secure w))]);
  ("the_end_of_a_whois_for_a_nick_with_no_record_reports_nothing", [nothing ":s 318 me nobody :End of /WHOIS list."]);
  ("a_338_names_the_host_in_its_own_parameter",
    [feed ":s 338 me bob real.host.example :actually using host"; whois "bob" (λ w, is_text (Whois.actual_host w) "real.host.example")]);
  ("going_away_shows_on_every_member_list_they_are_in",
    [joined "#a"; joined "#b"; feed ":bob!u@h JOIN #a"; feed ":bob!u@h JOIN #b"; feed ":bob!u@h AWAY :back later"; member "#a" "bob";
     member "#b" "bob"; person "bob" (λ p, is_text (Person.away p) "back later"); feed ":bob!u@h AWAY"; person "bob" (λ p, none (Person.away p))]);
  ("logging_into_an_account_updates_everywhere_they_are",
    [joined "#obby"; feed ":bob!u@h JOIN #obby"; feed ":bob!u@h ACCOUNT alice"; person "bob" (λ p, is_text (Person.account p) "alice");
     feed ":bob!u@h ACCOUNT *"; person "bob" (λ p, none (Person.account p))]);
  ("our_own_away_and_account_land_on_us",
    [feed ":me!u@h AWAY :lunch"; self (λ u, is_text (LocalUser.away u) "lunch"); feed ":me!u@h ACCOUNT myaccount";
     self (λ u, is_text (LocalUser.account u) "myaccount")]);
  ("metadata_about_a_person_is_held_once_for_them",
    [joined "#a"; joined "#b"; feed ":bob!u@h JOIN #a"; feed ":bob!u@h JOIN #b";
     gives ":s METADATA bob display-name * :Bobby Tables" [Change.MetadataChanged "bob" "display-name"];
     metadata "bob" "display-name" "Bobby Tables"]);
  ("a_key_with_no_value_clears_it",
    [feed ":s METADATA bob avatar * :https://example.org/a.png"; metadata "bob" "avatar" "https://example.org/a.png";
     feed ":s METADATA bob avatar *"; no_metadata "bob" "avatar"]);
  ("the_not_set_reply_clears_a_key_too",
    [feed ":s 761 me bob color * :#ff0000"; metadata "bob" "color" "#ff0000"; feed ":s 766 me bob color :no matching key";
     no_metadata "bob" "color"]);
  ("a_numeric_reply_reads_past_our_own_nick", [feed ":s 761 me bob display-name * :Bobby"; metadata "bob" "display-name" "Bobby"]);
  ("channel_metadata_lands_on_the_channel_not_on_a_person",
    [joined "#obby"; feed ":s METADATA #obby avatar * :https://example.org/c.png";
     channel "#obby" (λ c, is_text (Channel.metadata c !! lit "avatar") "https://example.org/c.png"); no_person "#obby"]);
  ("a_star_target_means_us",
    [feed ":s METADATA * display-name * :LocalUser Myself"; self (λ u, is_text (LocalUser.metadata u !! lit "display-name") "LocalUser Myself")]);
  ("a_who_reply_fills_in_who_someone_actually_is",
    [joined "#obby"; feed ":s 352 me #obby ident host.example irc.example bob H@ :0 Bob Smith";
     person "bob" (λ p, is_text (Person.username p) "ident" && is_text (Person.host p) "host.example"
                        && is_text (Person.realname p) "Bob Smith" && none (Person.away p)); prefixes "bob" "@"]);
  ("a_plain_who_never_signs_anybody_out",
    [joined "#obby"; feed ":bob!u@h JOIN #obby alice_acct :Bob"; person "bob" (λ p, is_text (Person.account p) "alice_acct");
     feed ":s 352 me #obby ident host.example irc.example bob H :0 Bob"; person "bob" (λ p, is_text (Person.account p) "alice_acct")]);
  ("a_whox_reply_carries_the_account",
    [joined "#obby"; feed ":s 354 me 332 #obby ident host.example bob H+ alice_acct :Bob Smith";
     person "bob" (λ p, is_text (Person.account p) "alice_acct" && is_text (Person.realname p) "Bob Smith"); prefixes "bob" "+"]);
  ("a_whox_reply_can_sign_somebody_out",
    [joined "#obby"; feed ":s 354 me 332 #obby ident host bob H acct :Bob"; person "bob" (λ p, negb (none (Person.account p)));
     feed ":s 354 me 332 #obby ident host bob H 0 :Bob"; person "bob" (λ p, none (Person.account p))]);
  ("a_whox_reply_to_somebody_elses_request_is_ignored",
    [joined "#obby"; feed ":s 354 me 999 #obby ident host bob H acct :Bob"; no_person "bob"]);
  ("who_reports_away_and_operator_and_bot_flags",
    [joined "#obby"; feed ":s 352 me #obby ident host irc bob G*B@ :0 Bob";
     person "bob" (λ p, negb (none (Person.away p)) && Person.operator p && Person.bot p)]);
  ("coming_back_from_away_clears_it_but_going_away_keeps_a_known_reason",
    [joined "#obby"; feed ":bob!u@h AWAY :at lunch"; feed ":s 352 me #obby ident host irc bob G :0 Bob";
     person "bob" (λ p, is_text (Person.away p) "at lunch"); feed ":s 352 me #obby ident host irc bob H :0 Bob";
     person "bob" (λ p, none (Person.away p))])].

Definition channel_tests : list (string * list step) := [
  ("a_rename_moves_the_channel_and_keeps_what_is_in_it",
    [joined "#obby"; feed ":bob!u@h JOIN #obby"; feed ":bob!u@h PRIVMSG #obby :hello";
     Fed (lit ":s RENAME #obby #obby-world :tidying up") (λ cs, bool_decide (head cs = Some (Change.ChannelRenamed "#obby" "#obby-world")));
     no_channel "#obby"; member "#obby-world" "bob";
     channel "#obby-world" (λ c, bool_decide (Channel.name c = lit "#obby-world")
       && found (last (Log.iter (Channel.log c))) (λ m, bool_decide (Chat.text_ m = lit "hello")))]);
  ("a_rename_of_a_channel_we_are_not_in_changes_nothing", [nothing ":s RENAME #theirs #theirs-too"; no_channels]);
  ("a_message_to_a_channel_we_never_joined_invents_nothing", [nothing ":bob!u@h PRIVMSG #ghost :hello"; no_channels]);
  ("joining_creates_the_channel_and_others_joining_add_members",
    [gives ":me!u@h JOIN #obby" [Change.ChannelJoined "#obby"]; feed ":bob!u@h JOIN #obby"; members_are "#obby" 1;
     person "bob" (λ p, bool_decide (Person.nick p = lit "bob"))]);
  ("extended_join_carries_the_account_without_a_who",
    [joined "#obby"; feed ":bob!u@h JOIN #obby alice :Bob"; person "bob" (λ p, is_text (Person.account p) "alice")]);
  ("an_unauthenticated_join_records_no_account",
    [joined "#obby"; feed ":bob!u@h JOIN #obby * :Bob"; person "bob" (λ p, none (Person.account p))]);
  ("leaving_forgets_the_channel_but_someone_else_leaving_does_not",
    [joined "#obby"; feed ":bob!u@h JOIN #obby"; feed ":bob!u@h PART #obby :bye"; members_are "#obby" 0; feed ":me!u@h PART #obby :bye";
     no_channel "#obby"]);
  ("being_kicked_forgets_the_channel",
    [joined "#obby"; feed ":bob!u@h JOIN #obby"; feed ":op!u@h KICK #obby bob :rude"; members_are "#obby" 0;
     feed ":op!u@h KICK #obby me :rude"; no_channel "#obby"]);
  ("a_quit_reports_every_channel_they_were_in",
    [joined "#a"; joined "#b"; feed ":bob!u@h JOIN #a"; feed ":bob!u@h JOIN #b";
     Fed (lit ":bob!u@h QUIT :gone") (λ cs, bool_decide (length cs = 2%nat)); members_are "#a" 0; members_are "#b" 0]);
  ("a_rename_follows_the_servers_casemapping",
    [joined "#obby"; feed ":[bob]!u@h JOIN #obby"; feed ":[bob]!u@h NICK {BOB}"; members_are "#obby" 1; member "#obby" "{bob}";
     person "{bob}" (λ p, bool_decide (Person.nick p = lit "{BOB}"))]);
  ("names_splits_prefixes_and_hostmasks",
    [joined "#obby"; feed ":s 353 me = #obby :~&@alice +bob carol!u@host"; members_are "#obby" 3; prefixes "alice" "~&@"; prefixes "bob" "+";
     member "#obby" "carol"]);
  ("a_membership_mode_moves_a_prefix_and_a_channel_mode_does_not",
    [joined "#obby"; feed ":bob!u@h JOIN #obby"; feed ":op!u@h MODE #obby +o bob"; prefixes "bob" "@";
     feed ":op!u@h MODE #obby +b nuisance!*@*"; prefixes "bob" "@"; channel "#obby" (λ c, negb (none (Channel.modes c !! 98%N)));
     feed ":op!u@h MODE #obby -o bob"; prefixes "bob" ""]);
  ("our_own_user_modes_accumulate",
    [feed ":s MODE me +iw"; self (λ u, bool_decide (LocalUser.modes u = lit "iw")); feed ":s MODE me -i";
     self (λ u, bool_decide (LocalUser.modes u = lit "w"))]);
  ("the_topic_arrives_from_a_command_or_a_numeric",
    [joined "#obby"; feed ":s 332 me #obby :from the numeric"; channel "#obby" (λ c, is_text (Channel.topic c) "from the numeric");
     feed ":bob!u@h TOPIC #obby :from the command";
     channel "#obby" (λ c, is_text (Channel.topic c) "from the command" && is_text (Channel.topic_by c) "bob")]);
  ("clearing_the_topic_leaves_none_rather_than_an_empty_string",
    [joined "#obby"; feed ":bob!u@h TOPIC #obby :something"; feed ":bob!u@h TOPIC #obby :"; channel "#obby" (λ c, none (Channel.topic c))]);
  ("a_named_mode_is_recorded_by_its_name_not_its_letter",
    [joined "#obby"; gives ":s PROP #obby +obsidianirc/censor +obsidianirc/history=30d" [Change.ChannelModesChanged "#obby"];
     named_mode "obsidianirc/censor" (Some None); named_mode "obsidianirc/history" (Some (Some (lit "30d")))]);
  ("removing_a_named_mode_ignores_the_parameter_it_carries",
    [joined "#obby"; feed ":s PROP #obby +obsidianirc/history=30d"; feed ":s PROP #obby -obsidianirc/history=30d";
     named_mode "obsidianirc/history" None]);
  ("a_prop_listing_reports_state_rather_than_a_change",
    [joined "#obby"; feed ":s 961 me #obby obsidianirc/censor obsidianirc/history=7d";
     channel "#obby" (λ c, bool_decide (size (Channel.named_modes c) = 2%nat)); named_mode "obsidianirc/history" (Some (Some (lit "7d")))]);
  ("a_prop_for_a_channel_we_never_joined_invents_nothing", [nothing ":s PROP #ghost +obsidianirc/censor"; no_channels]);
  ("the_same_change_arriving_as_mode_and_as_prop_is_harmless",
    [joined "#obby"; feed ":op!u@h MODE #obby +t"; feed ":s PROP #obby +topiclock"; channel "#obby" (λ c, negb (none (Channel.modes c !! 116%N)));
     named_mode "topiclock" (Some None)])].

Definition message_tests : list (string * list step) := [
  ("a_channel_message_lands_in_that_channel",
    [joined "#obby"; Fed (lit ":bob!u@h PRIVMSG #obby :hello") (λ cs, match cs with Change.MessageAdded t _ :: _ => bool_decide (t = lit "#obby") | _ => false end);
     newest (λ m, bool_decide (Chat.text_ m = lit "hello" ∧ Chat.sender m = lit "bob") && negb (Chat.own m))]);
  ("a_private_message_is_filed_under_the_sender_not_under_us",
    [feed ":bob!u@h PRIVMSG me :psst"; talk "bob" (λ q, bool_decide (Log.len (Conversation.log q) = 1%nat)); no_talk "me"]);
  ("our_own_private_message_is_filed_under_who_we_sent_it_to",
    [feed ":me!u@h PRIVMSG bob :hi there";
     talk "bob" (λ q, found (last (Log.iter (Conversation.log q))) (λ m, Chat.own m && bool_decide (Chat.text_ m = lit "hi there")))]);
  ("server_time_decides_when_a_message_happened",
    [joined "#obby"; feed "@time=2026-09-06T10:00:00.000Z :bob!u@h PRIVMSG #obby :stamped";
     newest (λ m, bool_decide (time_ms (Chat.key m) = 1788688800000))]);
  ("an_unstamped_line_reuses_the_latest_instant_seen",
    [joined "#obby"; feed "@time=2026-09-06T10:00:00.000Z :bob!u@h PRIVMSG #obby :stamped"; feed ":bob!u@h PRIVMSG #obby :unstamped";
     channel "#obby" (λ c, bool_decide ((λ m, time_ms (Chat.key m)) <$> Log.iter (Channel.log c) = [1788688800000; 1788688800000]))]);
  ("a_ctcp_keeps_its_command_and_loses_its_wrapper",
    [joined "#obby"; Fed (lit ":bob!u@h PRIVMSG #obby :" ++ [1%N] ++ lit "ACTION waves" ++ [1%N]) (λ _, true);
     newest (λ m, bool_decide (Chat.kind m = MessageKind.Ctcp "ACTION" ∧ Chat.text_ m = lit "waves"))]);
  ("both_spellings_of_the_reply_tag_are_accepted",
    [joined "#obby"; feed "@+reply=abc :bob!u@h PRIVMSG #obby :one"; feed "@+draft/reply=def :bob!u@h PRIVMSG #obby :two";
     channel "#obby" (λ c, bool_decide (Chat.reply_to <$> Log.iter (Channel.log c) = [Some (lit "abc"); Some (lit "def")]))]);
  ("a_repeated_msgid_is_only_stored_once",
    [joined "#obby"; feed "@msgid=x1 :bob!u@h PRIVMSG #obby :hello"; feed "@msgid=x1 :bob!u@h PRIVMSG #obby :hello"; log_len 1]);
  ("a_channel_message_counts_as_unread_and_a_mention_only_when_it_names_us",
    [joined "#obby"; feed ":bob!u@h PRIVMSG #obby :morning all"; counts 1 0; feed ":bob!u@h PRIVMSG #obby :me: got a second?"; counts 2 1]);
  ("our_own_words_and_replayed_history_are_never_unread",
    [joined "#obby"; feed ":me!u@h PRIVMSG #obby :me talking about me"; counts 0 0; Old; feed ":bob!u@h PRIVMSG #obby :me, an old message";
     counts 0 0]);
  ("every_private_message_is_addressed_to_us_by_existing",
    [feed ":bob!u@h PRIVMSG me :no nick needed"; talk "bob" (λ q, bool_decide (Conversation.unread q = 1))]);
  ("the_server_confirming_a_read_marker_clears_what_it_covers",
    [joined "#obby"; feed ":bob!u@h PRIVMSG #obby :me: hello"; counts 1 1;
     gives ":s MARKREAD #obby timestamp=2026-09-06T10:00:00.000Z" [Change.ReadMarkerMoved "#obby"]; counts 0 0;
     channel "#obby" (λ c, is_text (Channel.read_marker c) "2026-09-06T10:00:00.000Z")]);
  ("a_reaction_attaches_to_the_message_rather_than_becoming_one",
    [joined "#obby"; feed "@msgid=m1 :bob!u@h PRIVMSG #obby :something";
     gives "@+draft/react=👍;+draft/reply=m1 :carol!u@h TAGMSG #obby" [Change.MessageReacted "#obby" "m1"]; log_len 1;
     message "m1" (λ m, bool_decide (Chat.reactions m !! said_text "👍" = Some [lit "carol"]))]);
  ("reacting_twice_counts_once_and_taking_it_back_removes_it",
    [joined "#obby"; feed "@msgid=m1 :bob!u@h PRIVMSG #obby :something"; feed "@+draft/react=👍;+reply=m1 :carol!u@h TAGMSG #obby";
     feed "@+draft/react=👍;+reply=m1 :carol!u@h TAGMSG #obby";
     message "m1" (λ m, bool_decide (length <$> Chat.reactions m !! said_text "👍" = Some 1%nat));
     feed "@+draft/unreact=👍;+reply=m1 :carol!u@h TAGMSG #obby"; message "m1" (λ m, bool_decide (Chat.reactions m = ∅))]);
  ("a_redaction_marks_the_message_and_keeps_what_it_said",
    [joined "#obby"; feed "@msgid=m1 :bob!u@h PRIVMSG #obby :regrettable";
     gives ":op!u@h REDACT #obby m1 :spam" [Change.MessageRedacted "#obby" "m1"];
     message "m1" (λ m, Chat.redacted m && bool_decide (Chat.text_ m = lit "regrettable"))]);
  ("a_tagmsg_carrying_nothing_we_model_is_still_a_message",
    [joined "#obby"; feed "@+example.org/thing=1 :bob!u@h TAGMSG #obby"; log_len 1]);
  ("a_link_preview_attaches_to_its_message_instead_of_becoming_one",
    [joined "#obby"; feed "@msgid=m1 :bob!u@h PRIVMSG #obby :look at https://example.org";
     feed "@+reply=m1;obsidianirc/link-preview-title=Example;obsidianirc/link-preview-snippet=A\spage :s TAGMSG #obby"; log_len 1;
     message "m1" (λ m, found (Chat.link_preview m) (λ p, bool_decide (LinkPreview.title p = lit "Example") && is_text (LinkPreview.snippet p) "A page"))]);
  ("a_preview_for_a_message_we_never_saw_is_dropped",
    [joined "#obby"; feed "@+reply=gone;obsidianirc/link-preview-title=Example :s TAGMSG #obby"; log_len 0]);
  ("a_notice_is_not_an_ordinary_message",
    [joined "#obby"; feed ":bob!u@h NOTICE #obby :careful"; newest (λ m, bool_decide (Chat.kind m = MessageKind.Notice))])].

(** The two tests of [mentions] alone. *)
Definition mention_tests : list (Casemapping.t * string * string * bool) := [
  (Casemapping.Rfc1459, "hey me, look", "me", true); (Casemapping.Rfc1459, "me: look", "me", true); (Casemapping.Rfc1459, "me", "me", true);
  (Casemapping.Rfc1459, "spameda", "me", false); (Casemapping.Rfc1459, "me-too", "me", false); (Casemapping.Rfc1459, "", "me", false);
  (Casemapping.Rfc1459, "anything", "", false); (Casemapping.Rfc1459, "hey {NICK} there", "[nick]", true);
  (Casemapping.Ascii, "hey {NICK} there", "[nick]", false); (Casemapping.Ascii, "hey NICK there", "nick", true)].

Definition all_pass (tests : list (string * list step)) : list string :=
  omap (λ '(name, steps), if passes steps then None else Some name) tests.

Example session_tests_pass : all_pass (people_tests ++ channel_tests ++ message_tests) = [].
Proof. by vm_compute. Qed.
Example mention_tests_pass :
  forallb (λ '(casemap, body, nick, expected), Bool.eqb (@Mention.mentions ascii_table casemap (lit body) (lit nick)) expected) mention_tests = true.
Proof. by vm_compute. Qed.
