(* ===== verification/UnitTests.v ===== *)
(** * The unit tests of the smaller components

    As in [ClientTests]: the assertions of the tests in src/crates/obby-proto/src (servertime.rs, isupport.rs,
    mode.rs, format.rs) and in src/crates/obby-client/src (model.rs, voice.rs), under the names of the tests. What the
    types make impossible (a chunk that is not text) and what serde derives is left out. *)
From S2P Require Import Prelude Utf8 Casemap Message ServerTime Isupport Mode Format Json Model Voice Recorded.

Definition same {A} `{EqDecision A} (a b : A) : bool := bool_decide (a = b).
Infix "=?=" := same (at level 70).
(** The tests that do not hold. *)
Definition failures (tests : list (string * bool)) : list string := omap (λ p, if (p : string * bool).2 then None else Some p.1) tests.
Definition u (s : string) : text := said_text s.

(** ** servertime.rs *)

Definition parsed (s : string) : option Z := ServerTime.parse (lit s).
Definition servertime_tests : list (string * bool) := [
  ("reads_the_epoch", parsed "1970-01-01T00:00:00.000Z" =?= Some 0);
  ("reads_a_known_instant", parsed "2026-09-06T10:00:00.000Z" =?= Some 1788688800000);
  ("keeps_the_milliseconds", parsed "2026-09-06T10:00:00.123Z" =?= Some 1788688800123);
  ("scales_a_fraction_that_is_not_three_digits",
    (parsed "2026-09-06T10:00:00.5Z" =?= Some 1788688800500) && (parsed "2026-09-06T10:00:00.05Z" =?= Some 1788688800050)
    && (parsed "2026-09-06T10:00:00.123456Z" =?= Some 1788688800123));
  ("a_missing_fraction_is_allowed", parsed "2026-09-06T10:00:00Z" =?= parsed "2026-09-06T10:00:00.000Z");
  ("handles_a_leap_day",
    (mar ← parsed "2024-03-01T00:00:00.000Z"; feb ← parsed "2024-02-29T00:00:00.000Z"; Some (mar - feb)) =?= Some 86400000);
  ("days_advance_by_exactly_one_day",
    (a ← parsed "2026-09-06T00:00:00.000Z"; b ← parsed "2026-09-07T00:00:00.000Z"; Some (b - a)) =?= Some 86400000);
  ("handles_the_four_hundred_year_rule",
    (ServerTime.days_from_civil 1900 3 1 - ServerTime.days_from_civil 1900 2 28 =?= 1)
    && (ServerTime.days_from_civil 2000 3 1 - ServerTime.days_from_civil 2000 2 28 =?= 2));
  ("refuses_a_year_the_calendar_arithmetic_cannot_hold",
    forallb (λ s, parsed s =?= None)
      ["99999999999999999-01-01T00:00:00.000Z"; "-4713-01-01T00:00:00.000Z"; "10000-01-01T00:00:00.000Z"]%string);
  ("refuses_an_instant_before_the_epoch", parsed "1969-12-31T23:59:59.000Z" =?= None);
  ("accepts_a_leap_second", bool_decide (is_Some (parsed "2016-12-31T23:59:60.000Z")));
  ("writes_the_epoch", ServerTime.format 0 =?= lit "1970-01-01T00:00:00.000Z");
  ("writes_a_known_instant", ServerTime.format 1788688800123 =?= lit "2026-09-06T10:00:00.123Z");
  ("pads_every_field", ServerTime.format 1041816065007 =?= lit "2003-01-06T01:21:05.007Z");
  ("writes_a_leap_day", ServerTime.format 1709164800000 =?= lit "2024-02-29T00:00:00.000Z");
  ("round_trips_through_parse",
    forallb (λ ms, ServerTime.parse (ServerTime.format ms) =?= Some ms)
      [0; 1; 999; 86399999; 86400000; 951782400000; 1788688800123; 253402300799999]);
  ("refuses_anything_malformed", forallb (λ s, parsed s =?= None) [""; "2026-09-06"; "2026-09-06T10:00:00.000";
    "2026-09-06T10:00:00.000+01:00"; "2026-13-06T10:00:00.000Z"; "2026-09-06T24:00:00.000Z"; "2026-09-06T10:00.000Z"]%string)].
Example servertime_tests_pass : failures servertime_tests = [].
Proof. by vm_compute. Qed.

(** ** isupport.rs *)

#[local] Instance token_eq_dec : EqDecision Token.t.
Proof. solve_decision. Defined.
Definition applied (tokens : list string) : Isupport.t := foldl (λ s token, (Isupport.apply (lit token) s).1) Isupport.default tokens.
Definition prefix : Prefix.t := default Prefix.default (Prefix.parse "(qaohv)~&@%+").
Definition splits (entry prefixes nick : string) : bool := Prefix.split prefix (lit entry) =?= (lit prefixes, lit nick).
Definition reports (tokens : list string) (token name : string) (value : option text) (removed : bool) : bool :=
  (Isupport.apply (lit token) (applied tokens)).2 =?= Token.mk (lit name) value removed.
Definition isupport_tests : list (string * bool) := [
  ("parses_prefix_into_ranked_pairs",
    (Prefix.char_for_mode prefix 111%N =?= Some 64%N) && (Prefix.mode_for_char prefix 37%N =?= Some 104%N)
    && (Prefix.rank prefix 126%N =?= Some 0%nat) && (Prefix.rank prefix 64%N =?= Some 2%nat) && (Prefix.rank prefix 38%N =?= Some 1%nat)
    && Prefix.is_membership_mode prefix 118%N && negb (Prefix.is_membership_mode prefix 98%N));
  ("rejects_a_prefix_whose_halves_do_not_match",
    forallb (λ s, match Prefix.parse (lit s) with None => true | Some _ => false end) ["(ov)@"; "ov)@+"; "()"]%string);
  ("a_malformed_prefix_keeps_the_previous_value",
    Prefix.mode_for_char (Isupport.prefix (applied ["PREFIX=(qaohv)~&@%+"; "PREFIX=nonsense"]%string)) 126%N =?= Some 113%N);
  ("splits_every_prefix_off_a_names_entry", splits "@+nick" "@+" "nick" && splits "nick" "" "nick" && splits "~&@%+nick" "~&@%+" "nick");
  ("parses_chanmodes_into_four_classes",
    let m := ChanModes.parse "beI,k,l,imnpstn" in
    (ChanModes.list_ m =?= lit "beI") && (ChanModes.always_arg m =?= lit "k") && (ChanModes.arg_on_set m =?= lit "l")
    && (ChanModes.flag m =?= lit "imnpstn"));
  ("a_short_chanmodes_leaves_later_classes_empty",
    let m := ChanModes.parse "b,k" in (ChanModes.arg_on_set m =?= []) && (ChanModes.flag m =?= []));
  ("chantypes_defaults_when_the_server_is_silent",
    Isupport.is_channel Isupport.default "#chan" && Isupport.is_channel Isupport.default "&chan"
    && negb (Isupport.is_channel Isupport.default "^voice"));
  ("chantypes_covers_the_obby_voice_and_stream_prefixes",
    let i := applied ["CHANTYPES=#^$"]%string in
    Isupport.is_channel i "^general" && Isupport.is_channel i "$radio" && negb (Isupport.is_channel i "&chan")
    && negb (Isupport.is_channel i "nick"));
  ("a_negated_token_restores_the_default",
    let i := applied ["CASEMAPPING=ascii"; "-CASEMAPPING"]%string in
    (Isupport.casemapping (applied ["CASEMAPPING=ascii"]%string) =?= Casemapping.Ascii)
    && (Isupport.casemapping i =?= Casemapping.Rfc1459) && negb (Isupport.has i "CASEMAPPING"));
  ("reads_a_numeric_token",
    let i := applied ["LINELEN=1024"; "MONITOR=100"; "NETWORK=obby"]%string in
    (Isupport.number i "LINELEN" =?= Some 1024) && (Isupport.number i "NETWORK" =?= None) && (Isupport.number i "MISSING" =?= None));
  ("reads_a_per_command_target_limit",
    let i := applied ["TARGMAX=PRIVMSG:4,WHOIS:1,JOIN:"]%string in
    (Isupport.targmax i "PRIVMSG" =?= Some 4) && (Isupport.targmax i "privmsg" =?= Some 4) && (Isupport.targmax i "JOIN" =?= None)
    && (Isupport.targmax i "KICK" =?= None));
  ("unescapes_a_hex_escape_in_a_value",
    (unescape "a\x20b" =?= lit "a b") && (unescape "a\x3Db" =?= lit "a=b") && (unescape "plain" =?= lit "plain"));
  ("leaves_a_broken_escape_as_written", (unescape "a\xZZb" =?= lit "a\xZZb") && (unescape "a\x2" =?= lit "a\x2"));
  ("appends_a_value_split_across_lines",
    let i := applied ["CHANTYPES=#"; "CHANTYPES+=^$"]%string in
    (Isupport.get i "CHANTYPES" =?= Some (Some (lit "#^$"))) && Isupport.is_channel i "^voice" && Isupport.is_channel i "#chan");
  ("appends_onto_nothing_when_the_token_was_absent", Isupport.get (applied ["ELIST+=CTU"]%string) "ELIST" =?= Some (Some (lit "CTU")));
  ("an_append_unescapes_each_fragment_before_joining",
    Isupport.get (applied ["NETWORK=obby"; "NETWORK+=\x20net"]%string) "NETWORK" =?= Some (Some (lit "obby net")));
  ("reports_the_name_without_its_grammar_markers",
    reports [] "CHANTYPES=#" "CHANTYPES" (Some (lit "#")) false
    && reports ["CHANTYPES=#"]%string "CHANTYPES+=^" "CHANTYPES" (Some (lit "#^")) false
    && reports ["CHANTYPES=#"; "CHANTYPES+=^"]%string "-CHANTYPES" "CHANTYPES" None true && reports [] "SAFELIST" "SAFELIST" None false)].
Example isupport_tests_pass : failures isupport_tests = [].
Proof. by vm_compute. Qed.

(** ** mode.rs *)

(** What a change takes, in the order of the spec. *)
Definition args (items : list string) : list (option text) :=
  Mode.arg <$> Mode.parse_channel_modes (applied ["PREFIX=(qaohv)~&@%+"; "CHANMODES=beI,k,l,imnpst"]%string) (lit <$> items).
Definition some (s : string) : option text := Some (lit s).
Definition change (items : list string) (i : nat) : option (bool * char * bool) :=
  (λ c, (Mode.set c, Mode.mode c, Mode.membership c)) <$>
    Mode.parse_channel_modes (applied ["PREFIX=(qaohv)~&@%+"; "CHANMODES=beI,k,l,imnpst"]%string) (lit <$> items) !! i.
Definition mode_tests : list (string * bool) := [
  ("a_flag_takes_no_argument", (args ["+m"] =?= [None]) && (change ["+m"] 0 =?= Some (true, 109%N, false)));
  ("a_list_mode_takes_an_argument_both_ways",
    (args ["+b-b"; "a!*@*"; "b!*@*"] =?= [some "a!*@*"; some "b!*@*"]) && (change ["+b-b"; "a!*@*"; "b!*@*"] 1 =?= Some (false, 98%N, false)));
  ("a_limit_takes_an_argument_only_when_set", (args ["+l"; "50"] =?= [some "50"]) && (args ["-l"] =?= [None]));
  ("a_key_takes_an_argument_both_ways", (args ["+k"; "secret"] =?= [some "secret"]) && (args ["-k"; "secret"] =?= [some "secret"]));
  ("membership_modes_are_flagged_and_take_a_nick",
    (args ["+ov-v"; "alice"; "bob"; "carol"] =?= [some "alice"; some "bob"; some "carol"])
    && (change ["+ov-v"; "alice"; "bob"; "carol"] 0 =?= Some (true, 111%N, true))
    && (change ["+ov-v"; "alice"; "bob"; "carol"] 2 =?= Some (false, 118%N, true)));
  ("mixes_arities_in_one_line_without_shifting_arguments",
    args ["+ontl-k"; "alice"; "42"; "oldkey"] =?= [some "alice"; None; None; some "42"; some "oldkey"]);
  ("an_unknown_mode_consumes_nothing", args ["+Zo"; "alice"] =?= [None; some "alice"]);
  ("a_missing_argument_leaves_the_mode_without_one", args ["+ov"; "alice"] =?= [some "alice"; None]);
  ("arity_follows_the_advertised_classes_not_a_hardcoded_table",
    (Mode.arg <$> Mode.parse_channel_modes (applied ["CHANMODES=b,n,l,impst"]) (lit <$> ["+n"; "value"])) =?= [some "value"]);
  ("an_empty_change_yields_nothing", (args [] =?= []) && (args ["+"] =?= []));
  ("user_modes_never_take_arguments",
    ((λ c, (Mode.set c, Mode.mode c, Mode.arg c)) <$> Mode.parse_user_modes "+iw-o")
    =?= [(true, 105%N, None); (true, 119%N, None); (false, 111%N, None)])]%string.
Example mode_tests_pass : failures mode_tests = [].
Proof. by vm_compute. Qed.

(** ** format.rs

    A control character is spelled by a letter between bars: [|b] for bold, and so on. *)

Fixpoint controls (s : text) : text :=
  match s with
  | 124%N :: c :: s =>
      (if decide (c = 98%N) then Format.BOLD else if decide (c = 105%N) then Format.ITALIC
       else if decide (c = 117%N) then Format.UNDERLINE else if decide (c = 115%N) then Format.STRIKETHROUGH
       else if decide (c = 109%N) then Format.MONOSPACE else if decide (c = 114%N) then Format.REVERSE
       else if decide (c = 99%N) then Format.COLOUR else if decide (c = 104%N) then Format.HEX_COLOUR
       else if decide (c = 120%N) then Format.CTCP_DELIM else Format.RESET) :: controls s
  | c :: s => c :: controls s
  | [] => []
  end.
(** The spans of a body: text, emphasis bits (bold 1, italic 2, underline 4, strikethrough 8, monospace 16, reverse
    32), foreground, background. *)
Definition spans (s : string) : list (text * Z * option Format.Colour * option Format.Colour) :=
  (λ sp, (Format.text_ sp, Format.emphasis (Format.style sp), Format.foreground (Format.style sp), Format.background (Format.style sp)))
    <$> Format.parse_spans (controls (lit s)).
Definition sp (s : string) (emphasis : Z) (fg bg : option Format.Colour) : text * Z * option Format.Colour * option Format.Colour :=
  (lit s, emphasis, fg, bg).
Definition n (i : Z) : option Format.Colour := Some (Format.Numbered i).
Definition ctcp (s : string) : option (text * text) := (λ c, (Format.command c, Format.params c)) <$> Format.parse_ctcp (controls (lit s)).
Definition stripped (s : string) : text := Format.strip_formatting (controls (lit s)).
Definition format_tests : list (string * bool) := [
  ("plain_text_passes_through_untouched", (spans "hello world" =?= [sp "hello world" 0 None None]) && (stripped "hello world" =?= lit "hello world"));
  ("bold_wraps_the_text_between_toggles", spans "a|bb|bc" =?= [sp "a" 0 None None; sp "b" 1 None None; sp "c" 0 None None]);
  ("italic_underline_strikethrough_monospace_and_reverse_each_toggle_their_own_flag",
    spans "|ii|uu|ss|mm|rr" =?= [sp "i" 2 None None; sp "u" 6 None None; sp "s" 14 None None; sp "m" 30 None None; sp "r" 62 None None]);
  ("reverse_is_kept_not_dropped", spans "|rflipped" =?= [sp "flipped" 32 None None]);
  ("a_colour_code_with_one_digit_sets_only_the_foreground", spans "|c4red" =?= [sp "red" 0 (n 4) None]);
  ("a_colour_code_with_a_background_sets_both", spans "|c4,8text" =?= [sp "text" 0 (n 4) (n 8)]);
  ("a_colour_code_stops_at_two_digits", spans "|c123abc" =?= [sp "3abc" 0 (n 12) None]);
  ("a_comma_not_followed_by_a_digit_is_left_as_text", spans "|c4,hi" =?= [sp ",hi" 0 (n 4) None]);
  ("a_bare_colour_code_resets_colour", spans "|c4,8a|cb" =?= [sp "a" 0 (n 4) (n 8); sp "b" 0 None None]);
  ("hex_colour_reads_six_digits_per_half", spans "|hFF00AAtext" =?= [sp "text" 0 (Some (Format.Hex 255 0 170)) None]);
  ("hex_colour_with_a_background",
    spans "|hFF00AA,00FF00text" =?= [sp "text" 0 (Some (Format.Hex 255 0 170)) (Some (Format.Hex 0 255 0))]);
  ("a_short_hex_run_is_not_a_colour", spans "|hFF0text" =?= [sp "FF0text" 0 None None]);
  ("reset_clears_every_flag_and_both_colours", spans "|b|c4,8bold-red|oplain" =?= [sp "bold-red" 1 (n 4) (n 8); sp "plain" 0 None None]);
  ("styles_nest_and_unwind_independently",
    spans "|bbold|ibold-italic|bitalic-only" =?= [sp "bold" 1 None None; sp "bold-italic" 3 None None; sp "italic-only" 2 None None]);
  ("an_unterminated_colour_code_does_not_panic_or_lose_text",
    (stripped "text|c" =?= lit "text") && (stripped "text|c5" =?= lit "text") && (spans "text|c5" =?= [sp "text" 0 None None]));
  ("a_ctcp_action_keeps_its_formatting_parseable",
    (ctcp "|xACTION waves |bhi|b|x" =?= Some (lit "ACTION", controls "waves |bhi|b"))
    && (spans "waves |bhi|b" =?= [sp "waves " 0 None None; sp "hi" 1 None None]));
  ("a_ctcp_body_without_a_closing_delimiter_still_parses", ctcp "|xVERSION" =?= Some (lit "VERSION", []));
  ("a_non_ctcp_body_is_not_recognised", (ctcp "hello" =?= None) && (ctcp "" =?= None))].
Example format_tests_pass : failures format_tests = [].
Proof. by vm_compute. Qed.

(** ** model.rs *)

Definition message (seq time : Z) (sender body : string) (msgid : option text) : Chat.t :=
  let m := Chat.new (time, seq) (lit sender) MessageKind.Privmsg in
  Chat.mk (Chat.key m) msgid (Chat.sender m) (Chat.kind m) (lit body) (Chat.account m) (Chat.historical m) (Chat.own m) (Chat.reply_to m)
    (Chat.reactions m) (Chat.link_preview m) (Chat.redacted m).
(** A log after these messages, and what each insertion answered. *)
Definition filled (log : Log.t) (ms : list Chat.t) : list bool * Log.t :=
  foldl (λ '(bs, log) m, let '(b, log) := Log.insert m log in (bs ++ [b], log)) ([], log) ms.
Definition answers (log : Log.t) (ms : list Chat.t) : list bool := (filled log ms).1.
Definition log_of (log : Log.t) (ms : list Chat.t) : Log.t := (filled log ms).2.
Definition texts (log : Log.t) (ms : list Chat.t) : list text := Chat.text_ <$> Log.iter (log_of log ms).
Definition run_of (n : nat) : list Chat.t := (λ i, message (Z.of_nat i) (100 + Z.of_nat i) "a" "x" None) <$> seq 0 n.
Definition id (s : string) : option text := Some (lit s).
Definition map (s : string) : CaseFolded := Casemapping.fold Casemapping.Rfc1459 (lit s).
Definition with_member (name nick : string) (m : Model.t) : Model.t :=
  Model.alter_channel (map name) (λ c, Channel.set_members (<[map nick := []]> (Channel.members c)) c)
    (Model.channel_or_insert (map name) (lit name) m).
Definition log_tests : list (string * bool) := [
  ("orders_by_timestamp_not_by_arrival",
    let ms := [message 0 200 "a" "second" None; message 1 100 "a" "first" None] in
    (answers Log.default ms =?= [true; true]) && (texts Log.default ms =?= [lit "first"; lit "second"]));
  ("breaks_a_timestamp_tie_by_arrival",
    texts Log.default [message 0 100 "a" "one" None; message 1 100 "a" "two" None; message 2 100 "a" "three" None]
    =?= [lit "one"; lit "two"; lit "three"]);
  ("refuses_a_message_it_already_has_by_id",
    let ms := [message 0 100 "a" "hi" (id "x1"); message 1 100 "a" "hi" (id "x1")] in
    (answers Log.default ms =?= [true; false]) && (Log.len (log_of Log.default ms) =?= 1%nat));
  ("refuses_an_identical_message_with_no_id",
    let ms := [message 0 100 "a" "hi" None; message 1 100 "a" "hi" None] in
    (answers Log.default ms =?= [true; false]) && (Log.len (log_of Log.default ms) =?= 1%nat));
  ("keeps_the_same_text_at_a_different_instant",
    answers Log.default [message 0 100 "a" "hi" None; message 1 101 "a" "hi" None] =?= [true; true]);
  ("keeps_the_same_text_from_a_different_sender",
    answers Log.default [message 0 100 "a" "hi" None; message 1 100 "b" "hi" None] =?= [true; true]);
  ("trims_the_oldest_once_it_is_full",
    let log := log_of (Log.with_retention 3) (run_of 5) in
    (Log.len log =?= 3%nat) && ((λ m, time_ms (Chat.key m)) <$> Log.first log =?= Some 102)
    && ((λ m, time_ms (Chat.key m)) <$> Log.last log =?= Some 104));
  ("trimming_forgets_the_id_index_too",
    let log := log_of (Log.with_retention 2) [message 0 100 "a" "x" (id "old"); message 1 101 "a" "x" (id "mid"); message 2 102 "a" "x" (id "new")] in
    negb (Log.contains log "old") && Log.contains log "new" && match Log.get log "old" with None => true | Some _ => false end);
  ("the_cap_applies_to_backfill_the_same_way",
    texts (Log.with_retention 2) [message 0 300 "a" "live" None; message 1 100 "a" "old" None; message 2 200 "a" "older" None]
    =?= [lit "older"; lit "live"]);
  ("finds_a_message_again_to_react_to_it",
    let log := Log.alter "x1" (Chat.set_reactions {[u "👍" := [lit "b"]]}) (log_of Log.default [message 0 100 "a" "hi" (id "x1")]) in
    (λ m, size (Chat.reactions m)) <$> Log.get log "x1" =?= Some 1%nat);
  ("ranks_prefixes_in_the_servers_order_not_the_order_granted",
    let m := Membership.grant 64%N prefix (Membership.grant 126%N prefix (Membership.grant 43%N prefix [])) in
    (m =?= lit "~@+") && (Membership.top_prefix m =?= Some 126%N) && (Membership.top_prefix (Membership.revoke 126%N m) =?= Some 64%N));
  ("granting_the_same_prefix_twice_changes_nothing",
    Membership.grant 64%N Prefix.default (Membership.grant 64%N Prefix.default []) =?= lit "@");
  ("a_rename_moves_the_member_rather_than_leaving_a_twin",
    let m := Model.rename Casemapping.Rfc1459 "[nick]" "{NICK}2"
               (Model.person_or_insert (map "[nick]") "[nick]" (with_member "#obby" "[nick]" Model.default)) in
    match Model.channel m (map "#obby") with
    | Some c => (size (Channel.members c) =?= 1%nat) && bool_decide (is_Some (Channel.members c !! map "{nick}2"))
    | None => false
    end && (Person.nick <$> Model.person m (map "{nick}2") =?= Some (lit "{NICK}2")));
  ("a_rename_of_ourselves_updates_who_we_are",
    LocalUser.nick (Model.me (Model.rename Casemapping.Rfc1459 "ME" "you" (Model.set_me (LocalUser.set_nick "me" LocalUser.default) Model.default)))
    =?= lit "you");
  ("retention_reaches_every_target_it_creates",
    let m := Model.conversation_or_insert (map "bob") "bob" (Model.channel_or_insert (map "#a") "#a" (Model.with_retention 2)) in
    ((λ c, Log.len (log_of (Channel.log c) (run_of 4))) <$> Model.channel m (map "#a") =?= Some 2%nat)
    && ((λ q, Log.len (log_of (Conversation.log q) (run_of 4))) <$> Model.conversation m (map "bob") =?= Some 2%nat));
  ("a_default_model_keeps_more_than_one_message",
    (λ c, Log.len (log_of (Channel.log c) (run_of 10))) <$> Model.channel (Model.channel_or_insert (map "#a") "#a" Model.default) (map "#a")
    =?= Some 10%nat);
  ("sequence_numbers_never_repeat",
    let '(first, m) := Model.next_message_key 100 Model.default in
    bool_decide (time_ms first = time_ms (Model.next_message_key 100 m).1 ∧ seq_no first < seq_no (Model.next_message_key 100 m).1))].
Example log_tests_pass : failures log_tests = [].
Proof. by vm_compute. Qed.

(** ** voice.rs *)

#[local] Instance turn_eq_dec : EqDecision Turn.t.
Proof. solve_decision. Defined.
#[local] Instance hint_eq_dec : EqDecision TrackHint.t.
Proof. solve_decision. Defined.
#[local] Instance chunk_eq_dec : EqDecision ChunkMeta.t.
Proof. solve_decision. Defined.
#[local] Instance signal_eq_dec : EqDecision Signal.t.
Proof. solve_decision. Defined.
Definition returns (s : Signal.t) : bool := Signal.from_json (Signal.to_json s) =?= Some s.
(** Spelled like this, with double quotes for single ones, and read back. *)
Definition spelled (s : Signal.t) (json : string) : bool := (Signal.to_json s =?= u (quote json)) && returns s.
Definition contains (s : Signal.t) (needles : list string) : bool :=
  forallb (λ n, bool_decide (is_Some (find_str (lit (quote n)) (Signal.to_json s)))) needles.
Definition rtl (ss : list string) : list text := lit <$> ss.
Definition joined_with (members : list string) (mode : option RoomKind.t) (role : option Role.t) (streamers : option (list text)) : Signal.t :=
  Signal.Joined (rtl members) mode role streamers None None.
Definition room (channel : string) (signals : list Signal.t) (participants : list string) : Room.t :=
  foldl (λ r s, Room.apply "me" s Casemapping.Rfc1459 r)
    (Room.set_participants (list_to_map ((λ n, (map n, Participant.new (lit n))) <$> participants)) (Room.new (lit channel))) signals.
Definition who (r : Room.t) (nick : string) (P : Participant.t → bool) : bool :=
  match Room.participants r !! map nick with Some p => P p | None => false end.
Definition presence (member : string) (state : PresenceState.t) (kind : option ToggleKind.t) : Signal.t :=
  Signal.Presence (lit member) state kind None.
Definition reassemble (l : list Sdp.Chunk) (r : Sdp.t) : list (option text) * Sdp.t :=
  foldl (λ '(outs, r) c, let '(out, r) := Sdp.push (Sdp.chunk c) (Sdp.sdp c) r in (outs ++ [out], r)) ([], r) l.
Definition pieces (sdp id : string) (budget : nat) : list Sdp.Chunk := default [] (Sdp.split_sdp (u sdp) (lit id) budget).
Definition part (id : string) (seq total : Z) : Sdp.Chunk := Sdp.mkChunk (ChunkMeta.mk (lit id) seq total) "part".
Definition candidate : text := "candidate:1 1 UDP 1 1.2.3.4 5 typ host".
Definition full : Signal.t :=
  Signal.Joined (rtl ["alice"; "bob"]) (Some RoomKind.Stream) (Some Role.Publisher) (Some (rtl ["alice"]))
    (Some (Turn.mk (rtl ["turn:relay.obby.chat:3478"]) "user1" "pass1")) (Some [TrackHint.mk "0" "alice"]).
Definition signal_tests : list (string * bool) := [
  ("join_and_leave_round_trip_with_only_a_channel",
    spelled (Signal.Join "#general") "{'type':'join','channel':'#general'}" && spelled (Signal.Leave "^voice") "{'type':'leave','channel':'^voice'}");
  ("joined_round_trips_with_every_optional_field_present",
    returns full && starts_with (u (quote "{'type':'joined','members':['alice','bob']")) (Signal.to_json full)
    && contains full ["'mode':'stream'"; "'role':'streamer'"; "'streamers':['alice']"; "'tracks':[{'mid':'0','member':'alice'}]";
         "'turn':{'urls':['turn:relay.obby.chat:3478'],'username':'user1','password':'pass1'}"]);
  ("joined_round_trips_with_every_optional_field_absent",
    spelled (joined_with ["alice"] None None None) "{'type':'joined','members':['alice']}");
  ("offer_and_answer_round_trip_unchunked",
    let offer := Signal.Offer (rust "v=0\r\no=- 0 0 IN IP4 0.0.0.0\r\n") None None in
    returns offer && negb (contains offer ["'id'"]) && returns (Signal.Answer (rust "v=0\r\n") None));
  ("offer_and_answer_round_trip_with_chunk_metadata",
    spelled (Signal.Offer "partial-sdp" None (Some (ChunkMeta.mk "abc123" 1 3)))
      "{'type':'offer','sdp':'partial-sdp','id':'abc123','seq':1,'total':3}");
  ("ice_round_trips_with_and_without_mid",
    returns (Signal.Ice candidate (Some (lit "0")) (Some 0))
    && spelled (Signal.Ice candidate None None) "{'type':'ice','cand':'candidate:1 1 UDP 1 1.2.3.4 5 typ host'}");
  ("presence_round_trips_all_three_shapes",
    spelled (Signal.Presence "bob" PresenceState.Joined None (Some Role.Viewer)) "{'type':'presence','member':'bob','state':'joined','role':'viewer'}"
    && spelled (presence "bob" PresenceState.On (Some ToggleKind.Mic)) "{'type':'presence','member':'bob','state':'on','kind':'mic'}"
    && spelled (presence "bob" PresenceState.DeafOn None) "{'type':'presence','member':'bob','state':'deaf-on'}");
  ("the_six_toggle_intents_round_trip",
    forallb returns [Signal.Mic OnOff.On; Signal.Video OnOff.Off; Signal.Screen OnOff.On; Signal.Hand OnOff.On; Signal.Speaking; Signal.Silent]);
  ("deaf_is_a_real_outbound_frame_not_only_a_local_flag", spelled (Signal.Deaf OnOff.On) "{'type':'deaf','state':'on'}");
  ("react_round_trips_outbound_and_inbound_shapes",
    spelled (Signal.React None (u "👍")) "{'type':'react','emoji':'👍'}"
    && spelled (Signal.React (Some (lit "carol")) (u "👍")) "{'type':'react','member':'carol','emoji':'👍'}");
  ("promote_demote_and_role_round_trip",
    returns (Signal.Promote "bob") && returns (Signal.Demote "bob")
    && spelled (Signal.SetRole "bob" Role.Publisher) "{'type':'role','member':'bob','role':'streamer'}");
  ("error_round_trips_with_and_without_a_reason",
    spelled (Signal.Error (Some (lit "room is full"))) "{'type':'error','error':'room is full'}" && spelled (Signal.Error None) "{'type':'error'}");
  ("unknown_frame_types_decode_to_none", Signal.from_json (u (quote "{'type':'nonsense'}")) =?= None);
  ("malformed_json_decodes_to_none",
    forallb (λ s, Signal.from_json (u (quote s)) =?= None) ["not json"; "{'type':'join'"; "{'channel':'#general'}"])]%string.
Example signal_tests_pass : failures signal_tests = [].
Proof. by vm_compute. Qed.

Definition room_tests : list (string * bool) := [
  ("an_sdp_within_budget_is_not_split", match Sdp.split_sdp "short sdp" "id1" Sdp.DEFAULT_CHUNK_BUDGET with None => true | Some _ => false end);
  ("an_oversized_sdp_is_split_into_numbered_chunks_sharing_one_id",
    let cs := pieces "abcdefghij" "call-1" 3 in
    (Sdp.chunk <$> cs =?= (λ i, ChunkMeta.mk "call-1" i 4) <$> [0; 1; 2; 3]) && (concat (Sdp.sdp <$> cs) =?= lit "abcdefghij"));
  ("a_multibyte_character_is_never_split_across_a_chunk_boundary", concat (Sdp.sdp <$> pieces "a👍b" "id" 2) =?= u "a👍b");
  ("chunks_reassemble_regardless_of_arrival_order",
    let '(outs, r) := reassemble (reverse (pieces "xxxxxxxxxxxxxxxxxxxx" "call-1" 6)) Sdp.new in
    (mjoin (list.last outs) =?= Some (lit "xxxxxxxxxxxxxxxxxxxx")) && (Sdp.pending_len r =?= 0%nat));
  ("a_reassembly_missing_a_chunk_never_completes",
    let '(outs, r) := reassemble (removelast (pieces "yyyyyyyyyyyyyyyyyyyy" "call-2" 6)) Sdp.new in
    forallb (λ o, o =?= None) outs && (Sdp.pending_len r =?= 1%nat));
  ("reassembly_rejects_a_total_over_the_configured_bound",
    let '(outs, r) := reassemble [part "huge" 0 5] (Sdp.with_bounds 4 16) in (outs =?= [None]) && (Sdp.pending_len r =?= 0%nat));
  ("reassembly_bounds_the_number_of_concurrent_ids",
    let '(outs, r) := reassemble [part "a" 0 2; part "b" 0 2] (Sdp.with_bounds 64 2) in
    let '(outs', r') := reassemble [part "c" 0 2] r in
    ((outs ++ outs')%list =?= [None; None; None]) && (Sdp.pending_len r =?= 2%nat) && (Sdp.pending_len r' =?= 2%nat));
  ("dropping_all_forgets_every_partial_reassembly", Sdp.pending_len (Sdp.drop_all (reassemble [part "call" 0 2] Sdp.new).2) =?= 0%nat);
  ("every_member_publishes_in_a_publish_room",
    let r := room "^voice" [joined_with ["me"; "bob"] None None None] [] in
    forallb (λ nick, who r nick (λ p, bool_decide (Participant.role p = Role.Publisher))) ["me"; "bob"]);
  ("only_the_streamers_publish_in_a_stream_room",
    let r := room "$live" [joined_with ["alice"; "me"] (Some RoomKind.Stream) (Some Role.Viewer) (Some (rtl ["alice"]))] [] in
    bool_decide (Room.kind (Room.new "$live") = RoomKind.Stream)
    && who r "alice" (λ p, bool_decide (Participant.role p = Role.Publisher)) && who r "me" (λ p, bool_decide (Participant.role p = Role.Viewer)));
  ("a_promote_broadcast_updates_the_targets_role",
    who (room "$live" [Signal.SetRole "bob" Role.Publisher] []) "bob" (λ p, bool_decide (Participant.role p = Role.Publisher)));
  ("presence_toggles_update_the_matching_participant_flag",
    who (room "^voice" [presence "bob" PresenceState.On (Some ToggleKind.Video)] ["bob"]) "bob"
      (λ p, bool_decide (Participant.video p = OnOff.On ∧ Participant.mic p = OnOff.Off)));
  ("one_participant_under_two_spellings_is_one_person",
    let r := room "^voice" [presence "Bob[dev]" PresenceState.Joined None; presence "bob{dev}" PresenceState.On (Some ToggleKind.Mic)] [] in
    (size (Room.participants r) =?= 1%nat)
    && who r "bob{dev}" (λ p, bool_decide (Participant.nick p = lit "Bob[dev]" ∧ Participant.mic p = OnOff.On)));
  ("presence_joined_and_left_add_and_remove_participants",
    who (room "^voice" [presence "bob" PresenceState.Joined None] []) "bob" (λ _, true)
    && negb (who (room "^voice" [presence "bob" PresenceState.Joined None; presence "bob" PresenceState.Left None] []) "bob" (λ _, true)));
  ("deafen_broadcasts_to_the_room_instead_of_staying_local",
    who (room "^voice" [presence "bob" PresenceState.DeafOn None] ["bob"]) "bob" (λ p, bool_decide (Participant.deaf p = OnOff.On)))]%string.
Example room_tests_pass : failures room_tests = [].
Proof. by vm_compute. Qed.
